(* ===== verification/_CoqProject ===== *)
-Q . S2P
Prelude.v
NrfQueue.v
NrfBoard.v
NrfSpiSlave.v
NrfMain.v
NrfFlash.v
GapSpi.v
NrfDriver.v
NrfProbe.v
BcpLink.v
CapeSpec.v
Cape.v
CapeOverlap.v
CapeBoot.v
CLib.v
GetAdv.v
RawRecv.v
TunnelRoutes.v
TunnelServer.v
TunnelClient.v
TunnelLink.v
TunnelBreaks.v
TunnelRecovery.v
Eeprom.v
