(* ===== verification/Prelude.v ===== *)
(** * GAP: the software of the gateway cape

    GAP is a cape for the BeagleBone with BLE and 802.15.4 radios.  This
    development models its software and proves what makes it correct, and it
    states the cases in which the code does not do what it means to.

    ** The program

    - The firmware of the nRF51822 BLE co-processor, [src/software/nrf51822/].
      [main.c] scans for advertisements and, once told to, puts each one into
      the queue of [interrupt_event_queue.c]; [bcp_spi_slave.c] turns the oldest
      entry into a frame in the SPI buffer and raises the interrupt line.
    - The Linux side of that link, [src/software/driver/].  [nrf51822.c] fetches
      a frame when the line rises, hands it to [read], and sends the commands of
      [ioctl]; its SPI messages go through [gapspi.c], which selects one of
      several radios on a shared chip select.
    - The IPv6 tunnel, [src/gateway/tunnel/].  [tunnel-client.c] runs on the
      gateway and shuttles packets between a TUN device and a TCP connection;
      [tunnel-server.c] accepts the connections and routes between them and its
      own TUN device.
    - [src/software/utility/eepromflasher.c], which makes the image that
      identifies the cape.
    - Two programs that show the frames of an 802.15.4 radio, [src/linux/], and
      one that shows the advertisements the driver delivers,
      [src/software/driver/nrf51822/tests/get_adv.c].

    ** The files

    - [Prelude]: integers at their width, bounds-checked memory, the monad [M]
      for effectful code with its rules, general tactics and list lemmas.
    - [NrfQueue] (Module [Queue]): [interrupt_event_queue.c].  The ring calls
      back into the SPI layer through the class [QueueClient], whose laws
      [QueueClientLaws] are all the queue's theorems need.
    - [NrfBoard] (Module [Board]): the firmware's globals as the record [fw],
      its calls to the SDK, [led.c], pins and the handlers of fatal errors.
    - [NrfSpiSlave] (Module [SpiSlave]): [bcp_spi_slave.c]; it is the instance of
      [QueueClient] the firmware uses.
    - [NrfMain] (Module [Main]): [main.c].  [main_init] and [handle] are [main]
      up to its loop and one round of it; [bcp] is the abstract co-processor.
    - [NrfFlash] (Module [Flash]): [pstorage_platform.h].
    - [GapSpi] (Module [GapSpi]): [gapspi.c], and the queue of the SPI core, which
      several drivers submit to.
    - [NrfDriver] (Module [Driver]): [nrf51822.c] for one radio, each operation
      as a function, and the relation [step] in which the operations of several
      threads interleave; [undefined_step] are the steps that leave an array.
    - [NrfProbe] (Module [Probe]): the loading and unloading of that driver.
    - [BcpLink] (Module [BcpLink]): a firmware and a driver connected by a
      transfer of 40 bytes and the interrupt line.
    - [CapeSpec] (Module [CapeSpec]): what the cape promises: a channel per radio,
      with the frames that wait, a mailbox and the state of its transaction.
    - [Cape] (Module [Cape]): any number of firmwares and drivers on one bus, the
      messages that wait for it, the select pins that decide which radio a
      transfer reaches, and the open files; [nrf51822_open] and [fops].
    - [CapeOverlap] (Module [CapeOverlap]): events in a co-processor during a
      transfer, which is one step in [Cape].
    - [CapeBoot] (Module [CapeBoot]): from the device tree to the start of [Cape].
    - [CLib]: strings and [printf] conversions that several programs use.
    - [GetAdv] (Module [GetAdv]): [get_adv.c], and how it runs on the cape.
    - [RawRecv] (Module [RawRecv], with [Eth] and [Wpan]): [recvRawEth.c] and
      [recv_raw_802154.c].
    - [TunnelRoutes] (Module [Routes]): the table of [tunnel-server.c], its
      searches, and [parse_prefixes].
    - [TunnelServer] (Module [Server]): the rest of [tunnel-server.c].
    - [TunnelClient] (Module [Client]): [tunnel-client.c].
    - [TunnelLink] (Module [TunnelLink]): any number of clients and the server,
      connected by streams of bytes.
    - [TunnelBreaks] (Module [TunnelBreaks]): the same with connections that break;
      a client has a list of sessions, one for each of its connections.
    - [TunnelRecovery] (Module [TunnelRecovery]): what is lost when they break, and
      how server and client get a new connection.
    - [Eeprom] (Module [Eeprom]): [eepromflasher.c].

    ** How the code is modelled

    A C function becomes a Rocq function of the same name.  Memory is a list of
    bytes; an access outside its block, and everything else the C standard
    leaves undefined, is [Undef].  Integers are reduced modulo the width of the
    variable that receives them.  Globals are a record that the monad threads.
    [Halt] is the end of the program: a reset of the board, [exit], or a signal.

    Code outside the repository (Nordic's SDK, the Linux kernel, the C library)
    is never defined.  A call to it is recorded in a trace, newest first, and its
    answer is a parameter that may depend on the whole trace ([Sdk], [Kernel],
    [Linux], [Os], [Libc]).  Effects on the outside, such as the level of a pin,
    what was written to a descriptor or which resources are held, are functions
    of the trace.  What the outside does to the program, such as an interrupt,
    a received packet or a readable descriptor, is an argument: an event, or a
    step of a relation.

    ** The theorems

    - Cape: as long as the SPI core accepts every message, the whole of firmwares,
      drivers, bus module and files refines the
      abstract channels, whatever the interleaving ([cape_refines_spec]), and so
      does one that has been loaded from a device tree with usable entries
      ([loaded_cape_refines_spec]), unless an interrupt comes before its radio is
      set up ([early_interrupt_shares_buffers]); what happens during a transfer is
      as good as before or after it ([transfer_overlaps]), except for the
      first advertisement during a transfer for which none waited
      ([advertisement_lost_in_transfer]); no
      interrupt is lost ([no_interrupt_lost]); whatever waits can be delivered
      ([cape_delivers]) and arrives in order at the files of its own radio
      ([cape_in_order]); the test program shows it ([test_program_shows_frames]).
    - Link: one rising edge of the interrupt line makes the driver fetch all
      waiting frames in order; the user gets those it reads before the next
      transfer ([interrupt_delivers_all]); the cases in
      which a frame is cut, repeated or lost ([advertisement_through_spi],
      [command_redelivers_last_frame], [lost_first_byte],
      [sniffing_cannot_be_stopped]).
    - Firmware: from power-up and through any valid events it refines the
      abstract co-processor and never leaves its arrays
      ([firmware_refines_bcp]); advertisements reach the host in order, each cut
      to the length of its transfer ([advertisements_in_order]); the ring, the
      frame buffer and the handler of transfers refine a bounded FIFO
      ([event_queue_refines_fifo]); the exact behaviour of the queue's and the SPI
      slave's operations, with the event sizes at which the frame buffer
      overflows; the parser of advertisements terminates, and finds the first
      field of a type in well-formed data; the pages of the persistent storage
      ([flash_layout]).
    - Driver: under any interleaving one transaction at a time
      ([one_transaction_at_a_time]), buffers that keep their sizes and hold bytes,
      and one access that can leave them, for a length byte of 128 or more
      ([buffers_hold_bytes]), and the operations are runs of that relation
      ([operations_are_runs]); the exact behaviour of the callbacks,
      of [read], [poll], [ioctl], loading and unloading, with the race and the
      refused message that lose data ([read_race_loses_frame],
      [refused_message_wedges]); every message a driver submits reaches the
      controller with its own radio selected ([messages_reach_their_device]).
    - Tunnel: the server stays in bounds, writes packets only to the TUN device
      or open connections, and keeps its table in step with the connections
      ([server_safe]), if the lines of the assignments file are ones its parser can
      read ([assignments_fit]); where a packet goes ([tun_packet_routed],
      [reply_reaches_client], [prefix_tests]); which assignments a file makes
      ([parse_prefixes_spec]); the client loses and reorders nothing between its
      two ends and survives reconnects ([client_shuttles]), if its descriptors are
      below 255, since it passes [select] their number in a byte; its address and
      its bounds.
    - Tunnel from end to end: in both directions nothing is lost or reordered,
      through partial writes and reads in pieces ([tunnel_streams]); everything on
      its way can be received ([tunnel_drains]); a client's first packet and its
      reply make the round trip ([round_trip]); and packets that are sent in a
      row are joined ([packets_merge]), which only reads of just the right sizes
      avoid ([packets_intact]).  When connections break, every session keeps the
      beginning of its streams and a live one all of them, and a client stops
      only when a [send] raises SIGPIPE ([broken_streams]);
      from every such state there is a way to a new connection
      ([tunnel_recovers]), but until the server has read the end of the old one
      replies can go there, and kill the server ([dead_connection_shadows]).
    - Raw receivers: the calls that open the socket and their errors
      ([raw_setup_spec]); every frame is shown and can be read back
      ([frames_are_shown]).
    - EEPROM: the bytes of the image for every serial number
      ([eeprom_file_spec]).

    ** Bounds and fuel

    A loop whose measure is not structural takes fuel.  [adv_report_parse] gives
    its loop one unit per byte and one more, which is enough for every input
    ([adv_report_parse_terminates]).  [scan_line] and [parse_lines] get the length
    of what they read, of which every round consumes one character at least.
    [transfer_one_message] uses fuel for the depth of the calls between transfer
    functions: a module that was probed once needs two.  [connect_tcp] and
    [reconnect] retry for ever, so their fuel is a variable: [client_shuttles]
    and the theorems on broken connections assume that in every outage the server
    can be reached after at most [n] pauses, and hold for any fuel above [n].
    The endless loops of the programs run over a finite list of events of any
    length.  A number is printed with at most 8 hexadecimal or 20
    decimal digits, enough for 32 and 64 bits.

    ** What is not modelled

    The delays of the hardware and the timing of the SPI bus; the memory model
    below the level of whole operations and locked sections; diagnostic printing;
    the code that is commented out.  The handlers of the firmware do not interrupt
    each other: nothing in the code protects the queue and the buffer, and it sets
    no priorities, so it relies on the SDK to run the handlers of the radio and of
    the SPI slave at the same one.  [debug.h] defines printing macros, and
    [device_manager_cnfg.h] and [boards.h] configure SDK code.  The registration
    macros of the modules are left out.  Addresses printed by [print_in6addr]
    change no state.  In [Cape] an operation of the
    driver is one step; the interleaving of its parts is the subject of
    [NrfDriver], and what falls into a transfer that of [CapeOverlap], where every
    byte is read from the buffer when it is sent.  In [TunnelLink] connections do
    not break, in [TunnelBreaks] they do.  The server is not started again when it
    has ended.  The Python receiver is not modelled. *)
From stdpp Require Export prelude list strings gmap.
From Stdlib Require Export ZArith Lia.

Declare Scope gap_scope.
Delimit Scope gap_scope with gap.
#[global] Open Scope Z_scope.
#[global] Set Default Goal Selector "!".

Create HintDb gap discriminated.

(** Arithmetic with [/] and [mod] by constants. *)
Ltac zmod := Z.to_euclidean_division_equations; lia.

(** ** Machine integers

    C integers are [Z]; a conversion to an unsigned type of [w] bits is the
    reduction modulo [2^w] that the C standard prescribes. *)

Definition u8 (x : Z) : Z := x mod 256.
Definition u16 (x : Z) : Z := x mod 65536.
Definition u32 (x : Z) : Z := x mod 4294967296.

(** [byte x]: [x] is a value of C's [uint8_t]. *)
Definition byte (x : Z) : Prop := 0 <= x < 256.

#[export] Instance byte_dec (x : Z) : Decision (byte x).
Proof. unfold byte. apply _. Defined.

Lemma u8_byte x : byte (u8 x).
Proof. unfold byte, u8. zmod. Qed.

Lemma u8_small x : byte x -> u8 x = x.
Proof. unfold byte, u8. intros. by apply Z.mod_small. Qed.

Lemma u16_small x : 0 <= x < 65536 -> u16 x = x.
Proof. apply Z.mod_small. Qed.

Lemma u32_small x : 0 <= x < 4294967296 -> u32 x = x.
Proof. apply Z.mod_small. Qed.

#[export] Hint Resolve u8_byte : gap.

(** ** Memory blocks

    An array of bytes is a list; an access outside it is [None], the model of
    C's undefined behaviour. *)

Definition store_at {A} (buf : list A) (i : nat) (v : A) : option (list A) :=
  if decide (i < length buf)%nat then Some (<[i := v]> buf) else None.

(** [memcpy_at dst off src n] is [memcpy(dst + off, src, n)]. *)
Definition memcpy_at {A} (dst : list A) (off : nat) (src : list A) (n : nat) :
    option (list A) :=
  if decide (off + n <= length dst /\ n <= length src)%nat
  then Some (take off dst ++ take n src ++ drop (off + n) dst)
  else None.

Section memory.
Context {A : Type}.
Implicit Types dst src buf pre post : list A.

Lemma store_at_Some buf i v buf' :
  store_at buf i v = Some buf' -> (i < length buf)%nat /\ buf' = <[i := v]> buf.
Proof. unfold store_at. destruct (decide _); naive_solver. Qed.

Lemma store_at_ok buf i v :
  (i < length buf)%nat -> store_at buf i v = Some (<[i := v]> buf).
Proof. unfold store_at. by case_decide. Qed.

Lemma store_middle pre x post i v :
  i = length pre -> store_at (pre ++ x :: post) i v = Some (pre ++ v :: post).
Proof.
  intros ->. rewrite store_at_ok by (rewrite length_app; simpl; lia). f_equal.
  rewrite insert_app_r_alt by lia. by rewrite Nat.sub_diag.
Qed.

Lemma memcpy_at_ok dst off src n :
  (off + n <= length dst)%nat -> (n <= length src)%nat ->
  memcpy_at dst off src n = Some (take off dst ++ take n src ++ drop (off + n) dst).
Proof. intros. unfold memcpy_at. rewrite decide_True; auto. Qed.

Lemma memcpy_at_None dst off src n :
  memcpy_at dst off src n = None <->
  (length dst < off + n \/ length src < n)%nat.
Proof. unfold memcpy_at. destruct (decide _); split; (done || lia). Qed.

Lemma memcpy_at_Some dst off src n dst' :
  memcpy_at dst off src n = Some dst' ->
  (off + n <= length dst)%nat /\ (n <= length src)%nat /\
  dst' = take off dst ++ take n src ++ drop (off + n) dst.
Proof. unfold memcpy_at. destruct (decide _); naive_solver. Qed.

Lemma memcpy_at_length dst off src n dst' :
  memcpy_at dst off src n = Some dst' -> length dst' = length dst.
Proof.
  intros (?&?&->)%memcpy_at_Some.
  rewrite !length_app, !length_take, length_drop. lia.
Qed.

(** What a successful copy leaves in the destination. *)
Lemma memcpy_at_lookup dst off src n dst' i :
  memcpy_at dst off src n = Some dst' ->
  dst' !! i = (if decide (off <= i < off + n)%nat then src !! (i - off)%nat
               else dst !! i).
Proof.
  intros (?&?&->)%memcpy_at_Some. case_decide.
  - rewrite lookup_app_r by (rewrite length_take; lia).
    rewrite lookup_app_l by (rewrite !length_take; lia).
    rewrite length_take, lookup_take_lt by lia. f_equal. lia.
  - destruct (decide (i < off)%nat).
    + rewrite lookup_app_l by (rewrite length_take; lia).
      by rewrite lookup_take_lt by lia.
    + rewrite lookup_app_r by (rewrite length_take; lia).
      rewrite lookup_app_r by (rewrite !length_take; lia).
      rewrite !length_take, lookup_drop. f_equal. lia.
Qed.

Lemma memcpy_at_take dst src n dst' :
  memcpy_at dst 0 src n = Some dst' -> take n dst' = take n src.
Proof.
  intros (?&?&->)%memcpy_at_Some. simpl.
  rewrite take_app_le by (rewrite length_take; lia).
  rewrite take_take. f_equal; lia.
Qed.
End memory.

(** ** Effects

    A C function over a state [W] either returns ([Done]), stops the program
    ([Halt]: a reset of the microcontroller or [exit]) or has undefined
    behaviour ([Undef]). *)

Inductive outcome (W A : Type) : Type :=
| Done (a : A) (w : W)
| Halt (w : W)
| Undef.
Arguments Done {W A} a w.
Arguments Halt {W A} w.
Arguments Undef {W A}.

Definition M (W A : Type) : Type := W -> outcome W A.

#[export] Instance M_ret W : MRet (M W) := fun A a w => Done a w.
#[export] Instance M_bind W : MBind (M W) := fun A B f m w =>
  match m w with
  | Done a w' => f a w'
  | Halt w' => Halt w'
  | Undef => Undef
  end.

Definition gets {W A} (f : W -> A) : M W A := fun w => Done (f w) w.
Definition modify {W} (f : W -> W) : M W () := fun w => Done () (f w).
Definition halt {W A} : M W A := fun w => Halt w.

(** An access that is out of range is undefined behaviour. *)
Definition lift {W A} (o : option A) : M W A := fun w =>
  match o with Some a => Done a w | None => Undef end.

(** ** Reasoning about effects

    [wp m w Q H]: started in [w], [m] has no undefined behaviour, returns in a
    state that satisfies [Q], or halts in one that satisfies [H]. *)

Definition wp {W A} (m : M W A) (w : W) (Q : A -> W -> Prop) (H : W -> Prop) : Prop :=
  match m w with
  | Done a w' => Q a w'
  | Halt w' => H w'
  | Undef => False
  end.

Section effects.
Context {W : Type}.

Lemma bind_Done {A B} (m : M W A) (f : A -> M W B) w a w' :
  m w = Done a w' -> (m ≫= f) w = f a w'.
Proof. intros E. cbv [mbind M_bind]. by rewrite E. Qed.

Lemma bind_Done_inv {A B} (m : M W A) (f : A -> M W B) w b w'' :
  (m ≫= f) w = Done b w'' -> exists a w', m w = Done a w' /\ f a w' = Done b w''.
Proof. cbv [mbind M_bind]. destruct (m w) eqn:E; naive_solver. Qed.

Lemma wp_ret {A} (a : A) w (Q : A -> W -> Prop) H : Q a w -> wp (mret a) w Q H.
Proof. done. Qed.

Lemma wp_bind {A B} (m : M W A) (f : A -> M W B) w Q H :
  wp m w (fun a w' => wp (f a) w' Q H) H -> wp (m ≫= f) w Q H.
Proof. cbv [wp mbind M_bind]. by destruct (m w). Qed.

Lemma wp_mono {A} (m : M W A) w (Q Q' : A -> W -> Prop) (H H' : W -> Prop) :
  wp m w Q H -> (forall a w', Q a w' -> Q' a w') -> (forall w', H w' -> H' w') ->
  wp m w Q' H'.
Proof. unfold wp. destruct (m w); naive_solver. Qed.

Lemma wp_gets {A} (f : W -> A) w (Q : A -> W -> Prop) H : Q (f w) w -> wp (gets f) w Q H.
Proof. done. Qed.

Lemma wp_modify (f : W -> W) w (Q : () -> W -> Prop) H : Q () (f w) -> wp (modify f) w Q H.
Proof. done. Qed.

Lemma wp_lift {A} (o : option A) w (Q : A -> W -> Prop) H :
  (exists a, o = Some a /\ Q a w) -> wp (lift o) w Q H.
Proof. by intros (a & -> & ?). Qed.

Lemma wp_Done {A} (m : M W A) w Q H a w' : wp m w Q H -> m w = Done a w' -> Q a w'.
Proof. unfold wp. intros Hwp E. by rewrite E in Hwp. Qed.

(** A program that is seen to return does so as specified. *)
Lemma wp_run {A} (m : M W A) w Q H :
  wp m w Q H -> (if m w is Done _ _ then true else false) = true ->
  exists a w', m w = Done a w' /\ Q a w'.
Proof. unfold wp. destruct (m w); naive_solver. Qed.

(** The same for a program that is seen to stop. *)
Lemma wp_stop {A} (m : M W A) w Q H :
  wp m w Q H -> (if m w is Halt _ then true else false) = true -> exists w', m w = Halt w' /\ H w'.
Proof. unfold wp. destruct (m w); naive_solver. Qed.

Lemma wp_and {A} (m : M W A) w (Q Q' : A -> W -> Prop) (H H' : W -> Prop) :
  wp m w Q H -> wp m w Q' H' -> wp m w (fun a w' => Q a w' /\ Q' a w') (fun w' => H w' /\ H' w').
Proof. unfold wp. destruct (m w); naive_solver. Qed.

Lemma wp_not_Undef {A} (m : M W A) w Q H : wp m w Q H -> m w <> Undef.
Proof. unfold wp. by destruct (m w). Qed.
End effects.

(** Evaluate the head of a straight-line program. *)
Ltac wp_step :=
  first [ apply wp_bind | apply wp_gets | apply wp_modify | apply wp_ret ].
Ltac wp_steps := repeat (wp_step; cbn).

(** Unfold the effects of a program whose values are known. *)
Ltac run_effects := cbv [mbind M_bind lift modify gets halt mret M_ret].

(** Discharge a decidable closed proposition by evaluating its decision. *)
Ltac vm_decide :=
  lazymatch goal with
  | |- ?P => refine (bool_decide_unpack P _); vm_compute; exact I
  end.

(** ** Sequences of steps *)

(** A property kept by every step is kept by every sequence of steps. *)
Lemma rtc_invariant {A} (R : relation A) (P : A -> Prop) :
  (forall x y, P x -> R x y -> P y) -> forall x y, rtc R x y -> P x -> P y.
Proof. intros Hstep x y Hxy. induction Hxy; eauto. Qed.

(** ** Lists *)

Lemma lookup_app_plus {A} (l1 l2 : list A) i : (l1 ++ l2) !! (length l1 + i)%nat = l2 !! i.
Proof. rewrite lookup_app_r by lia. f_equal. lia. Qed.

Lemma tail_fixed {A} (l : list A) : tail l = l -> l = [].
Proof.
  destruct l as [|a l]; [done|]. intros E%(f_equal length). simpl in E. lia.
Qed.

Lemma Forall_lookup_byte (l : list Z) i x : Forall byte l -> l !! i = Some x -> byte x.
Proof. intros Hl Hx. by eapply Forall_lookup_1 in Hl. Qed.
