(* ===== verification/NrfQueue.v ===== *)
(** * The interrupt event queue of the BLE co-processor

    Models [src/software/nrf51822/interrupt_event_queue.c] and [.h]: the static
    ring of four items in which the radio side leaves advertisements for the
    SPI side.  [interrupt_event_queue_add] calls back into the SPI layer, which
    calls [interrupt_event_queue_get]; the callback is the interface
    [QueueClient], which [NrfSpiSlave] implements. *)
From S2P Require Import Prelude.

Module Queue.

(** ** Data *)

(** The error codes of [nrf_error.h] the program uses by name. *)
Inductive nrf_code :=
| NRF_SUCCESS
| NRF_ERROR_NO_MEM
| NRF_ERROR_NOT_FOUND
| nrf_error_other (c : Z).

#[export] Instance nrf_code_eq_dec : EqDecision nrf_code.
Proof. solve_decision. Defined.

Definition INTERRUPT_EVENT_QUEUE_LEN : Z := 4.

(** [interrupt_event_queue_item_t] *)
Record item := Item {
  buffer : list Z;
  len : Z;
  interrupt_event : Z;
}.

(** The file's globals [queue], [queue_head], [queue_tail], [items_in_queue]. *)
Record state := State {
  queue : list item;
  queue_head : Z;
  queue_tail : Z;
  items_in_queue : Z;
}.

#[export] Instance item_inhabited : Inhabited item := populate (Item [] 0 0).

(** Their values when the program starts (zeroed statics). *)
Definition initial : state :=
  State (replicate 4 (Item (replicate 64 0) 0 0)) 0 0 0.

(** ** Operations *)

(** [interrupt_event_queue_get(&interrupt_event, data)], where [data] points
    [off] bytes into the array [dst].  The result holds the returned length,
    the value left in [*interrupt_event], the array and the queue. *)
Definition interrupt_event_queue_get (q : state) (event : Z) (dst : list Z) (off : nat) :
    option (Z * Z * list Z * state) :=
  if items_in_queue q =? 0 then Some (0, event, dst, q) else
  entry ← queue q !! Z.to_nat (queue_tail q);
  dst' ← memcpy_at dst off (buffer entry) (Z.to_nat (Z.min (len entry) 64));
  Some (len entry, interrupt_event entry, dst',
        State (queue q) (queue_head q)
              (u8 ((queue_tail q + 1) mod INTERRUPT_EVENT_QUEUE_LEN))
              (u8 (items_in_queue q - 1))).

(** What the queue needs of the program around it: where its globals are, and
    the SPI layer's [spi_slave_notify]. *)
Class QueueClient (W : Type) := {
  get_queue : W -> state;
  set_queue : state -> W -> W;
  notify : M W ();
}.

(** [interrupt_event_queue_add(interrupt_event, len, data)] *)
Definition interrupt_event_queue_add `{QueueClient W} (event length : Z) (data : list Z) :
    M W nrf_code :=
  q ← gets get_queue;
  if items_in_queue q =? INTERRUPT_EVENT_QUEUE_LEN then mret NRF_ERROR_NO_MEM else
  queue_entry ← lift (queue q !! Z.to_nat (queue_head q));
  buf ← lift (memcpy_at (buffer queue_entry) 0 data (Z.to_nat (Z.min length 64)));
  modify (set_queue
    (State (<[Z.to_nat (queue_head q) := Item buf length event]> (queue q))
           (u8 ((queue_head q + 1) mod INTERRUPT_EVENT_QUEUE_LEN))
           (queue_tail q)
           (u8 (items_in_queue q + 1))));;
  notify;;
  mret NRF_SUCCESS.

(** ** Specification: a bounded first-in first-out queue *)

(** What a reader can see of an item: its event, its length and the bytes
    that were kept. *)
Definition event_view : Type := Z * Z * list Z.

Definition view (it : item) : event_view :=
  (interrupt_event it, len it, take (Z.to_nat (Z.min (len it) 64)) (buffer it)).

Definition slot (q : state) (k : nat) : nat :=
  Z.to_nat ((queue_tail q + Z.of_nat k) mod 4).

(** The items from the oldest to the newest. *)
Definition contents (q : state) : list event_view :=
  (fun k => view (queue q !!! slot q k)) <$> seq 0 (Z.to_nat (items_in_queue q)).

Definition new_view (event length : Z) (data : list Z) : event_view :=
  (event, length, take (Z.to_nat (Z.min length 64)) data).

(** ** The representation invariant *)

Definition wf_item (it : item) : Prop :=
  length (buffer it) = 64%nat /\ byte (len it).

Record wf (q : state) : Prop := Wf {
  wf_queue : length (queue q) = 4%nat;
  wf_items : Forall wf_item (queue q);
  wf_tail : 0 <= queue_tail q < 4;
  wf_count : 0 <= items_in_queue q <= 4;
  wf_head : queue_head q = (queue_tail q + items_in_queue q) mod 4;
}.

Lemma initial_wf : wf initial.
Proof. split; try done. apply Forall_replicate. done. Qed.

(** The promise of the SPI layer: called on a well-formed queue it takes at
    most the oldest item. *)
Class QueueClientLaws (W : Type) `{QueueClient W} := {
  get_set_queue q (w : W) : get_queue (set_queue q w) = q;
  notify_takes w w' : wf (get_queue w) -> notify w = Done () w' ->
    wf (get_queue w') /\
    (get_queue w' = get_queue w \/
     exists e, contents (get_queue w) = e :: contents (get_queue w'));
}.

(** ** Lemmas *)

Section lemmas.
Implicit Types q : state.

Lemma slot_lt q k : (slot q k < 4)%nat.
Proof. unfold slot. zmod. Qed.

Lemma contents_length q : wf q -> length (contents q) = Z.to_nat (items_in_queue q).
Proof. intros. unfold contents. by rewrite length_fmap, length_seq. Qed.

Lemma contents_nil q : wf q -> contents q = [] <-> items_in_queue q = 0.
Proof.
  intros Hq. rewrite <-length_zero_iff_nil, contents_length by done.
  destruct Hq. lia.
Qed.

Lemma lookup_slot q k : wf q -> exists it, queue q !! slot q k = Some it /\ wf_item it.
Proof.
  intros [Hlen Hit _ _ _]. pose proof (slot_lt q k) as Hk. rewrite <-Hlen in Hk.
  apply lookup_lt_is_Some_2 in Hk as [it Hitk].
  exists it. split; [done|]. by eapply Forall_lookup_1 in Hit.
Qed.

Lemma tail_slot q : wf q -> slot q 0 = Z.to_nat (queue_tail q).
Proof. intros []. unfold slot. f_equal. zmod. Qed.

(** Taking the oldest item. *)
Definition pop q : state :=
  State (queue q) (queue_head q) (u8 ((queue_tail q + 1) mod 4)) (u8 (items_in_queue q - 1)).

Lemma pop_wf q : wf q -> items_in_queue q <> 0 -> wf (pop q).
Proof.
  intros [Hl Hi Ht Hc Hh] Hne. unfold pop, u8. split; simpl; try done; [zmod..|].
  rewrite Hh. zmod.
Qed.

Lemma pop_contents q e l : wf q -> contents q = e :: l -> contents (pop q) = l.
Proof.
  intros [Hl Hi Ht Hc Hh] E. unfold contents in E.
  destruct (Z.to_nat (items_in_queue q)) as [|n] eqn:En; [done|].
  cbn [seq fmap list_fmap] in E. injection E as _ <-.
  unfold contents. rewrite <-seq_shift. setoid_rewrite <-list_fmap_compose.
  replace (Z.to_nat (items_in_queue (pop q))) with n by (simpl; unfold u8; zmod).
  apply list_fmap_ext. intros i k _. simpl. do 2 f_equal.
  unfold slot. simpl. unfold u8. f_equal. zmod.
Qed.

(** Writing a new item into the free slot at the head. *)
Definition push q it : state :=
  State (<[Z.to_nat (queue_head q) := it]> (queue q)) (u8 ((queue_head q + 1) mod 4))
        (queue_tail q) (u8 (items_in_queue q + 1)).

Lemma push_wf q it :
  wf q -> items_in_queue q <> 4 -> wf_item it -> wf (push q it).
Proof.
  intros [Hl Hi Ht Hc Hh] Hne Hit. unfold push, u8. split; simpl; try done; [..|zmod|zmod].
  - by rewrite length_insert.
  - by apply Forall_insert.
Qed.

Lemma push_contents q it :
  wf q -> items_in_queue q <> 4 -> contents (push q it) = contents q ++ [view it].
Proof.
  intros [Hl Hi Ht Hc Hh] Hne. unfold contents.
  replace (Z.to_nat (items_in_queue (push q it)))
    with (S (Z.to_nat (items_in_queue q))) by (simpl; unfold u8; zmod).
  rewrite seq_S, fmap_app. simpl. f_equal.
  - apply list_fmap_ext. intros i k Hk%lookup_seq. f_equal.
    unfold slot; simpl. rewrite list_lookup_total_insert_ne; [done|]. rewrite Hh. zmod.
  - do 2 f_equal. unfold slot; simpl. rewrite Z2Nat.id by lia. rewrite <-Hh.
    apply list_lookup_total_insert_eq. rewrite Hl, Hh. zmod.
Qed.

(** [interrupt_event_queue_get] on a non-empty queue. *)
Lemma get_nonempty q event dst off e n bytes l :
  wf q -> contents q = (e, n, bytes) :: l ->
  interrupt_event_queue_get q event dst off =
    (dst' ← memcpy_at dst off bytes (Z.to_nat (Z.min n 64)); Some (n, e, dst', pop q)) /\
  byte n /\ length bytes = Z.to_nat (Z.min n 64).
Proof.
  intros Hq E. destruct (decide (items_in_queue q = 0)) as [H0|H0].
  { apply contents_nil in H0; [|done]. by rewrite H0 in E. }
  destruct (lookup_slot q 0 Hq) as (it & Hit & Hlen & Hbyte).
  assert (view it = (e, n, bytes)) as Hv.
  { unfold contents in E. destruct Hq. destruct (Z.to_nat (items_in_queue q)) eqn:En; [lia|].
    cbn [seq fmap list_fmap] in E. rewrite (list_lookup_total_correct _ _ _ Hit) in E.
    by injection E as <- <- <- _. }
  unfold view in Hv. injection Hv as <- <- <-. unfold byte in Hbyte.
  split_and!; [|done|rewrite length_take; lia].
  unfold interrupt_event_queue_get. rewrite (proj2 (Z.eqb_neq _ _) H0).
  rewrite <-(tail_slot q Hq), Hit. simpl.
  set (n := Z.to_nat (Z.min (len it) 64)).
  assert (memcpy_at dst off (take n (buffer it)) n = memcpy_at dst off (buffer it) n) as ->.
  { unfold memcpy_at. rewrite length_take, take_take, Nat.min_id.
    repeat case_decide; first [done | lia]. }
  done.
Qed.

Lemma get_empty q event dst off :
  items_in_queue q = 0 ->
  interrupt_event_queue_get q event dst off = Some (0, event, dst, q).
Proof. intros E. unfold interrupt_event_queue_get. by rewrite E. Qed.
End lemmas.

(** ** Theorems *)

(** [interrupt_event_queue_get], on every branch. *)
Lemma queue_get_ok q event dst off :
  wf q ->
  match contents q with
  | [] => interrupt_event_queue_get q event dst off = Some (0, event, dst, q)
  | (e, n, bytes) :: rest =>
      length bytes = Z.to_nat (Z.min n 64) /\
      match interrupt_event_queue_get q event dst off with
      | None => (length dst < off + length bytes)%nat
      | Some (n', e', dst', q') =>
          n' = n /\ e' = e /\
          dst' = take off dst ++ bytes ++ drop (off + length bytes) dst /\
          (off + length bytes <= length dst)%nat /\
          wf q' /\ contents q' = rest
      end
  end.
Proof.
  intros Hq. destruct (contents q) as [|[[e n] bytes] rest] eqn:E.
  { by apply get_empty, contents_nil. }
  destruct (get_nonempty q event dst off e n bytes rest Hq E) as (-> & Hn & Hlen).
  split; [done|]. rewrite <-Hlen.
  destruct (memcpy_at dst off bytes (length bytes)) as [dst'|] eqn:Hcpy; simpl.
  - apply memcpy_at_Some in Hcpy as (? & _ & ->). rewrite firstn_all. split_and!; try done.
    + apply pop_wf; [done|]. intros H0%contents_nil; [|done]. by rewrite H0 in E.
    + by eapply pop_contents.
  - apply memcpy_at_None in Hcpy. lia.
Qed.

(** [interrupt_event_queue_get] on every branch.  An empty queue returns 0
    and writes nothing.  Otherwise the oldest item is returned: its length, its
    event, and its first [min(len, 64)] bytes copied to [data]; the rest of the
    queue keeps its order and its invariant.  The access is out of bounds
    exactly when [data] has less room than the bytes to copy. *)
Theorem interrupt_event_queue_get_spec q event dst off :
  wf q ->
  match contents q with
  | [] => interrupt_event_queue_get q event dst off = Some (0, event, dst, q)
  | (e, n, bytes) :: rest =>
      length bytes = Z.to_nat (Z.min n 64) /\
      match interrupt_event_queue_get q event dst off with
      | None => (length dst < off + length bytes)%nat
      | Some (n', e', dst', q') =>
          n' = n /\ e' = e /\
          dst' = take off dst ++ bytes ++ drop (off + length bytes) dst /\
          (off + length bytes <= length dst)%nat /\
          wf q' /\ contents q' = rest
      end
  end.
Proof. exact (queue_get_ok _ _ _ _). Qed.

Section client.
Context {W : Type} `{QueueClient W}.
Implicit Types w : W.

Lemma add_full w event n data :
  items_in_queue (get_queue w) = 4 ->
  interrupt_event_queue_add event n data w = Done NRF_ERROR_NO_MEM w.
Proof.
  intros E. unfold interrupt_event_queue_add.
  rewrite (bind_Done _ _ _ (get_queue w) w) by done. by rewrite E.
Qed.

(** With room the call writes the item at the head, then notifies. *)
Lemma add_room w event n data :
  wf (get_queue w) -> items_in_queue (get_queue w) <> 4 -> byte n ->
  (Z.to_nat (Z.min n 64) <= length data)%nat ->
  exists it, wf_item it /\ view it = new_view event n data /\
    interrupt_event_queue_add event n data w =
      (notify;; mret NRF_SUCCESS) (set_queue (push (get_queue w) it) w).
Proof.
  intros Hq Hroom Hn Hdata. set (q := get_queue w) in *. unfold byte in Hn.
  assert (Hhead : (Z.to_nat (queue_head q) < length (queue q))%nat).
  { destruct Hq as [-> _ _ _ ->]. zmod. }
  apply lookup_lt_is_Some_2 in Hhead as [entry Hentry].
  assert (Hent : wf_item entry).
  { destruct Hq as [_ Hi _ _ _]. by eapply Forall_lookup_1 in Hentry. }
  destruct Hent as [Hbuf _].
  destruct (memcpy_at (buffer entry) 0 data (Z.to_nat (Z.min n 64))) as [buf|] eqn:Hcpy.
  2:{ apply memcpy_at_None in Hcpy. lia. }
  exists (Item buf n event). split_and!.
  - split; simpl; [|done]. by rewrite (memcpy_at_length _ _ _ _ _ Hcpy).
  - unfold view, new_view. simpl. by rewrite (memcpy_at_take _ _ _ _ Hcpy).
  - unfold interrupt_event_queue_add. rewrite (bind_Done _ _ _ q w) by done.
    rewrite (proj2 (Z.eqb_neq _ INTERRUPT_EVENT_QUEUE_LEN) Hroom).
    rewrite (bind_Done _ _ _ entry w) by by rewrite Hentry.
    by rewrite (bind_Done _ _ _ buf w) by by rewrite Hcpy.
Qed.

Context `{!QueueClientLaws W}.

(** [interrupt_event_queue_add], for any SPI layer that keeps its promise.
    A full queue refuses with [NRF_ERROR_NO_MEM] and changes nothing; otherwise
    the call succeeds, the new item joins at the end with its first
    [min(len, 64)] bytes, and at most the oldest item has left. *)
Theorem interrupt_event_queue_add_spec w event n data :
  wf (get_queue w) -> byte n -> (Z.to_nat (Z.min n 64) <= length data)%nat ->
  if decide (items_in_queue (get_queue w) = 4)
  then interrupt_event_queue_add event n data w = Done NRF_ERROR_NO_MEM w
  else forall code w',
    interrupt_event_queue_add event n data w = Done code w' ->
    code = NRF_SUCCESS /\ wf (get_queue w') /\
    let all := contents (get_queue w) ++ [new_view event n data] in
    contents (get_queue w') = all \/ contents (get_queue w') = tail all.
Proof.
  intros Hq Hn Hdata. case_decide as Hfull; [by apply add_full|]. intros code w'.
  destruct (add_room w event n data) as (it & Hit & <- & ->); try done.
  intros ([] & w1 & Hnotify & Hret)%bind_Done_inv. injection Hret as <- <-.
  pose proof (push_wf _ it Hq Hfull Hit). rewrite <-push_contents by done.
  apply notify_takes in Hnotify as (Hwf & Hcases); rewrite get_set_queue in *; [|done].
  split_and!; [done..|]. destruct Hcases as [->|(e & ->)]; auto.
Qed.
End client.

(** ** Witnesses *)

Definition one_item : state :=
  State (<[3%nat := Item (7 :: 8 :: replicate 62 0) 2 1]> (queue initial)) 0 3 1.

Lemma one_item_wf : wf one_item.
Proof.
  split; simpl; try (done || lia). repeat constructor; unfold byte; simpl; lia.
Qed.

Lemma interrupt_event_queue_get_spec_witness :
  exists q', interrupt_event_queue_get one_item 0 [0; 0; 0; 0] 2 =
    Some (2, 1, [0; 0; 7; 8], q') /\ contents q' = [].
Proof.
  destruct (interrupt_event_queue_get_spec one_item 0 [0; 0; 0; 0] 2 one_item_wf)
    as (_ & _ & _ & _ & _ & _ & Hrest).
  eexists. split; [reflexivity|exact Hrest].
Defined.

End Queue.
