(* ===== verification/NrfBoard.v ===== *)
(** * The firmware's state and its board

    The globals of [src/software/nrf51822/] as one record, the calls the
    firmware makes into Nordic's SDK as a trace, and the small board functions:
    [led.c], the pin numbers of [gap.h], and from [main.c] the error handler
    and the functions that drive the interrupt line to the host.

    The SDK itself is not part of the repository.  Every call is recorded in
    [sdk_log], newest first; what the SDK answers is a parameter ([Sdk]).  The
    level of an output pin is read off the trace. *)
From S2P Require Import Prelude NrfQueue.
Import Queue.

Module Board.

(** ** Constants of [gap.h] and [main.c] *)

Definition LED_0 : Z := 13.
Definition LED_GOT_ADV_PACKET : Z := LED_0.
Definition INTERRUPT_PIN : Z := 7.
Definition ADV_PIN : Z := 4.
Definition SPIS_MISO_PIN : Z := 9.
Definition SPIS_CSN_PIN : Z := 11.
Definition SPIS_MOSI_PIN : Z := 8.
Definition SPIS_SCK_PIN : Z := 10.

(** ** Calls into the SDK *)

Inductive spi_mode := SPI_MODE_0.
Inductive spi_bit_order := SPIM_MSB_FIRST.

(** [spi_slave_config_t] *)
Record spi_slave_config := SpiSlaveConfig {
  pin_miso : Z; pin_mosi : Z; pin_sck : Z; pin_csn : Z;
  mode : spi_mode; bit_order : spi_bit_order;
  def_tx_character : Z; orc_tx_character : Z;
}.

(** [ble_gap_scan_params_t]; a null [p_whitelist] is [None]. *)
Record scan_params := ScanParams {
  active : Z; selective : Z; interval : Z; window : Z;
  p_whitelist : option Z; timeout : Z;
}.

(** The fields of [dm_application_param_t] the program fills in. *)
Inductive io_caps := BLE_GAP_IO_CAPS_NONE.
Inductive dm_service_type := DM_PROTOCOL_CNTXT_GATT_CLI_ID.
Record dm_param := DmParam {
  service_type : dm_service_type;
  sec_bond : Z; sec_mitm : Z; sec_io_caps : io_caps; sec_oob : Z;
  sec_min_key_size : Z; sec_max_key_size : Z;
  sec_kdist_periph_enc : Z; sec_kdist_periph_id : Z;
}.

Inductive sys_evt :=
| NRF_EVT_FLASH_OPERATION_SUCCESS
| NRF_EVT_FLASH_OPERATION_ERROR
| sys_evt_other (n : Z).

Inductive sdk_call :=
| nrf_gpio_cfg_output (pin : Z)
| nrf_gpio_pin_set (pin : Z)
| nrf_gpio_pin_clear (pin : Z)
| nrf_gpio_pin_toggle (pin : Z)
| spi_slave_evt_handler_register
| spi_slave_init (config : spi_slave_config)
| spi_slave_buffers_set (tx_len rx_len : Z)  (** on [spi_tx_buf], [spi_rx_buf] *)
| SOFTDEVICE_HANDLER_INIT
| softdevice_ble_evt_handler_set
| softdevice_sys_evt_handler_set
| pstorage_init
| pstorage_sys_event_handler (evt : sys_evt)
| pstorage_access_status_get
| dm_init (clear_persistent_data : bool)
| dm_register (param : dm_param)
| ble_db_discovery_init
| sd_ble_gap_scan_start (params : scan_params)
| sd_app_evt_wait
| NVIC_SystemReset.

(** What the SDK answers, as a function of the calls made so far. *)
Class Sdk := {
  sdk_ret : list sdk_call -> sdk_call -> nrf_code;
  (** the count [pstorage_access_status_get] stores *)
  pstorage_count : list sdk_call -> Z;
  (** whether the macro [APP_ERROR_CHECK] calls the error handler *)
  app_error_check_fires : nrf_code -> bool;
  app_error_check_spec c : app_error_check_fires c = true <-> c <> NRF_SUCCESS;
}.

(** ** The firmware's globals *)

Record fw := Fw {
  (** [interrupt_event_queue.c] *)
  event_queue : Queue.state;
  (** [bcp_spi_slave.c] *)
  spi_tx_buf : list Z;
  spi_rx_buf : list Z;
  buffer_full : bool;
  (** [main.c] *)
  bcp_irq_advertisements : bool;
  m_memory_access_in_progress : bool;
  m_scan_param : scan_params;
  (** the calls made, newest first *)
  sdk_log : list sdk_call;
}.

Definition SPI_BUF_LEN : Z := 64.

(** The values of the globals when the program starts. *)
Definition boot : fw :=
  Fw Queue.initial (replicate 64 0) (replicate 64 0) false
     false false (ScanParams 0 0 0 0 None 0) [].

Definition set_event_queue (q : Queue.state) (w : fw) : fw :=
  Fw q (spi_tx_buf w) (spi_rx_buf w) (buffer_full w)
     (bcp_irq_advertisements w) (m_memory_access_in_progress w) (m_scan_param w) (sdk_log w).
Definition set_spi_tx_buf (b : list Z) (w : fw) : fw :=
  Fw (event_queue w) b (spi_rx_buf w) (buffer_full w)
     (bcp_irq_advertisements w) (m_memory_access_in_progress w) (m_scan_param w) (sdk_log w).
Definition set_spi_rx_buf (b : list Z) (w : fw) : fw :=
  Fw (event_queue w) (spi_tx_buf w) b (buffer_full w)
     (bcp_irq_advertisements w) (m_memory_access_in_progress w) (m_scan_param w) (sdk_log w).
Definition set_buffer_full (b : bool) (w : fw) : fw :=
  Fw (event_queue w) (spi_tx_buf w) (spi_rx_buf w) b
     (bcp_irq_advertisements w) (m_memory_access_in_progress w) (m_scan_param w) (sdk_log w).
Definition set_bcp_irq_advertisements (b : bool) (w : fw) : fw :=
  Fw (event_queue w) (spi_tx_buf w) (spi_rx_buf w) (buffer_full w)
     b (m_memory_access_in_progress w) (m_scan_param w) (sdk_log w).
Definition set_m_memory_access_in_progress (b : bool) (w : fw) : fw :=
  Fw (event_queue w) (spi_tx_buf w) (spi_rx_buf w) (buffer_full w)
     (bcp_irq_advertisements w) b (m_scan_param w) (sdk_log w).
Definition set_m_scan_param (p : scan_params) (w : fw) : fw :=
  Fw (event_queue w) (spi_tx_buf w) (spi_rx_buf w) (buffer_full w)
     (bcp_irq_advertisements w) (m_memory_access_in_progress w) p (sdk_log w).
Definition add_call (c : sdk_call) (w : fw) : fw :=
  Fw (event_queue w) (spi_tx_buf w) (spi_rx_buf w) (buffer_full w)
     (bcp_irq_advertisements w) (m_memory_access_in_progress w) (m_scan_param w)
     (c :: sdk_log w).

Section board.
Context `{Sdk}.

(** A call that returns an error code, and one that returns nothing. *)
Definition call (c : sdk_call) : M fw nrf_code :=
  fun w => Done (sdk_ret (sdk_log w) c) (add_call c w).
Definition call_void (c : sdk_call) : M fw () := modify (add_call c).

(** ** [led.c]: the LEDs are active low *)

Definition led_init (pin_number : Z) : M fw () :=
  call_void (nrf_gpio_cfg_output pin_number);;
  call_void (nrf_gpio_pin_set pin_number).
Definition led_on (pin_number : Z) : M fw () := call_void (nrf_gpio_pin_clear pin_number).
Definition led_off (pin_number : Z) : M fw () := call_void (nrf_gpio_pin_set pin_number).
Definition led_toggle (pin_number : Z) : M fw () := call_void (nrf_gpio_pin_toggle pin_number).

(** ** From [main.c] *)

(** The error handler resets the microcontroller. *)
Definition app_error_handler (error_code : nrf_code) : M fw () :=
  call_void NVIC_SystemReset;; halt.

Definition assert_nrf_callback : M fw () := app_error_handler (nrf_error_other 0xDEADBEEF).

Definition APP_ERROR_CHECK (err_code : nrf_code) : M fw () :=
  if app_error_check_fires err_code then app_error_handler err_code else mret ().

Definition bcp_sniff_advertisements : M fw () :=
  led_on LED_0;;
  modify (set_bcp_irq_advertisements true).

Definition bcp_interrupt_host : M fw () := call_void (nrf_gpio_pin_set INTERRUPT_PIN).
Definition bcp_interupt_host_clear : M fw () := call_void (nrf_gpio_pin_clear INTERRUPT_PIN).
End board.

(** ** Reading the trace *)

(** The level a pin is driven to: the last set or clear, flipped by the toggles
    since; [None] before the first. *)
Fixpoint pin_level (pin : Z) (log : list sdk_call) : option bool :=
  match log with
  | [] => None
  | nrf_gpio_pin_set p :: log => if p =? pin then Some true else pin_level pin log
  | nrf_gpio_pin_clear p :: log => if p =? pin then Some false else pin_level pin log
  | nrf_gpio_pin_toggle p :: log =>
      if p =? pin then negb <$> pin_level pin log else pin_level pin log
  | _ :: log => pin_level pin log
  end.

(** The firmware was reset because a call had failed. *)
Definition reset_by_failure `{Sdk} (w : fw) : Prop :=
  exists between c log, sdk_log w = NVIC_SystemReset :: between ++ c :: log /\
    sdk_ret log c <> NRF_SUCCESS.

Section lemmas.
Context `{Sdk}.

Lemma wp_call c w (Q : nrf_code -> fw -> Prop) R :
  Q (sdk_ret (sdk_log w) c) (add_call c w) -> wp (call c) w Q R.
Proof. done. Qed.

Lemma wp_call_void c w (Q : () -> fw -> Prop) R :
  Q () (add_call c w) -> wp (call_void c) w Q R.
Proof. done. Qed.

(** The check of a code passes on success and otherwise resets. *)
Lemma wp_APP_ERROR_CHECK e w (Q : () -> fw -> Prop) (R : fw -> Prop) :
  (e = NRF_SUCCESS -> Q () w) ->
  (e <> NRF_SUCCESS -> R (add_call NVIC_SystemReset w)) ->
  wp (APP_ERROR_CHECK e) w Q R.
Proof.
  intros Hok Hfail. unfold APP_ERROR_CHECK.
  pose proof (app_error_check_spec e) as Hspec.
  destruct (app_error_check_fires e).
  - by apply Hfail, Hspec.
  - apply Hok. destruct (decide (e = NRF_SUCCESS)) as [|Hne]; [done|].
    by apply Hspec in Hne.
Qed.

(** The check of the code of a call made earlier in the trace. *)
Lemma wp_checked between c log w (Q : () -> fw -> Prop) :
  sdk_log w = between ++ c :: log ->
  (sdk_ret log c = NRF_SUCCESS -> Q () w) ->
  wp (APP_ERROR_CHECK (sdk_ret log c)) w Q reset_by_failure.
Proof.
  intros Hlog Hok. apply wp_APP_ERROR_CHECK; [done|]. intros Hne.
  exists between, c, log. split; [|done]. simpl. by rewrite Hlog.
Qed.

(** A call whose code is checked at once. *)
Lemma wp_call_check {A} c (k : M fw A) w Q :
  (sdk_ret (sdk_log w) c = NRF_SUCCESS -> wp k (add_call c w) Q reset_by_failure) ->
  wp (err_code ← call c; APP_ERROR_CHECK err_code;; k) w Q reset_by_failure.
Proof.
  intros Hk. apply wp_bind, wp_call, wp_bind.
  by eapply (wp_checked []); [reflexivity|].
Qed.

Lemma wp_call_check_last c w (Q : () -> fw -> Prop) :
  (sdk_ret (sdk_log w) c = NRF_SUCCESS -> Q tt (add_call c w)) ->
  wp (err_code ← call c; APP_ERROR_CHECK err_code) w Q reset_by_failure.
Proof. intros HQ. apply wp_bind, wp_call. by eapply (wp_checked []); [reflexivity|]. Qed.
End lemmas.

(** An SDK in which every call succeeds and no flash access is pending. *)
Definition quiet_sdk : Sdk.
Proof.
  refine {| sdk_ret _ _ := NRF_SUCCESS; pstorage_count _ := 0;
            app_error_check_fires c := bool_decide (c <> NRF_SUCCESS) |}.
  intros c. apply bool_decide_eq_true.
Defined.

End Board.
