(* ===== verification/NrfSpiSlave.v ===== *)
(** * The SPI slave of the BLE co-processor

    Models [src/software/nrf51822/bcp_spi_slave.c]: the frame buffer the host
    reads, how it is filled from the event queue when an event arrives
    ([spi_slave_notify]) or a transfer ends ([spi_slave_event_handle]), and the
    initialisation.  It implements the queue's interface [QueueClient]. *)
From S2P Require Import Prelude NrfQueue NrfBoard.
Import Queue Board.

Module SpiSlave.

(** ** Operations *)

(** Commands and responses of [bcp.h]. *)
Definition BCP_CMD_READ_IRQ : Z := 1.
Definition BCP_CMD_SNIFF_ADVERTISEMENTS : Z := 2.
Definition BCP_RSP_ADVERTISEMENT : Z := 1.

(** The events of Nordic's SPI slave driver. *)
Inductive spi_slave_evt_type := SPI_SLAVE_XFER_DONE | spi_slave_evt_other (n : Z).

Section operations.
Context `{Sdk}.

(** [data_len = interrupt_event_queue_get(&response_type, spi_tx_buf+2)]; the
    result is [data_len] (a [uint8_t]) and [response_type], which the callers
    use only when [data_len] is positive. *)
Definition get_into_tx_buf : M fw (Z * Z) :=
  q ← gets event_queue;
  tx ← gets spi_tx_buf;
  '(n, response_type, tx', q') ← lift (interrupt_event_queue_get q 0 tx 2);
  modify (set_event_queue q');;
  modify (set_spi_tx_buf tx');;
  mret (u8 n, response_type).

(** [spi_tx_buf[i] = x] *)
Definition store_tx (i : nat) (x : Z) : M fw () :=
  tx ← gets spi_tx_buf;
  tx' ← lift (store_at tx i x);
  modify (set_spi_tx_buf tx').

(** [spi_slave_notify()] *)
Definition spi_slave_notify : M fw () :=
  full ← gets buffer_full;
  if (full : bool) then mret () else
  '(data_len, response_type) ← get_into_tx_buf;
  if 0 <? data_len then
    modify (set_buffer_full true);;
    let len := u8 (data_len + 1) in
    store_tx 0 len;;
    store_tx 1 response_type;;
    err_code ← call (spi_slave_buffers_set SPI_BUF_LEN SPI_BUF_LEN);
    APP_ERROR_CHECK err_code;;
    bcp_interrupt_host
  else mret ().

(** The block of [spi_slave_event_handle] that repopulates the buffer. *)
Definition refill : M fw () :=
  '(data_len, response_type) ← get_into_tx_buf;
  if 0 <? data_len then
    let len := u8 (data_len + 1) in
    store_tx 0 len;;
    store_tx 1 response_type;;
    err_code ← call (spi_slave_buffers_set SPI_BUF_LEN SPI_BUF_LEN);
    call_void (nrf_gpio_pin_toggle 3);;
    APP_ERROR_CHECK err_code;;
    bcp_interrupt_host;;
    modify (set_buffer_full true)
  else
    (* the code is stored but not checked *)
    err_code ← call (spi_slave_buffers_set SPI_BUF_LEN SPI_BUF_LEN);
    modify (set_buffer_full false);;
    bcp_interupt_host_clear.

(** [spi_slave_event_handle(event)] *)
Definition spi_slave_event_handle (evt_type : spi_slave_evt_type) : M fw () :=
  match evt_type with
  | SPI_SLAVE_XFER_DONE =>
      rx ← gets spi_rx_buf;
      command ← lift (rx !! 0%nat);
      (if command =? BCP_CMD_READ_IRQ then led_on LED_0
       else if command =? BCP_CMD_SNIFF_ADVERTISEMENTS then bcp_sniff_advertisements
       else mret ());;
      refill
  | spi_slave_evt_other _ => mret ()
  end.

(** [spi_slave_example_init()] *)
Definition spi_slave_example_init : M fw nrf_code :=
  err_code ← call spi_slave_evt_handler_register;
  APP_ERROR_CHECK err_code;;
  err_code ← call (spi_slave_init
    {| pin_miso := SPIS_MISO_PIN; pin_mosi := SPIS_MOSI_PIN;
       pin_sck := SPIS_SCK_PIN; pin_csn := SPIS_CSN_PIN;
       mode := SPI_MODE_0; bit_order := SPIM_MSB_FIRST;
       def_tx_character := 0x00; orc_tx_character := 0x55 |});
  APP_ERROR_CHECK err_code;;
  err_code ← call (spi_slave_buffers_set SPI_BUF_LEN SPI_BUF_LEN);
  APP_ERROR_CHECK err_code;;
  mret NRF_SUCCESS.

#[export] Instance firmware_client : QueueClient fw := {|
  get_queue := event_queue;
  set_queue := set_event_queue;
  notify := spi_slave_notify;
|}.
End operations.

(** ** What the host can read *)

(** The frame of an event: the length of the rest, the response type, the data. *)
Definition frame (v : event_view) : list Z :=
  let '(e, n, bytes) := v in (n + 1) :: e :: bytes.

(** The event framed in a transmit buffer. *)
Definition decode (tx : list Z) : event_view :=
  (tx !!! 1%nat, tx !!! 0%nat - 1, take (Z.to_nat (tx !!! 0%nat - 1)) (drop 2 tx)).

(** The events the host has still to read, the next one first. *)
Definition pending (w : fw) : list event_view :=
  (if buffer_full w then [decode (spi_tx_buf w)] else []) ++ contents (event_queue w).

(** An event that fits behind the two header bytes of the 64-byte buffer. *)
Definition fits (v : event_view) : Prop := 1 <= v.1.2 <= 62.

(** The buffers keep their sizes and every queued event fits. *)
Record wf_fw (w : fw) : Prop := WfFw {
  wf_event_queue : Queue.wf (event_queue w);
  wf_tx : length (spi_tx_buf w) = 64%nat;
  wf_rx : length (spi_rx_buf w) = 64%nat;
  wf_fits : Forall fits (contents (event_queue w));
}.

(** Nothing waits in the queue while the frame buffer is free. *)
Definition loaded (w : fw) : Prop := buffer_full w = false -> contents (event_queue w) = [].

(** The parts of the state that the SPI layer never touches. *)
Definition same_app (w w' : fw) : Prop :=
  spi_rx_buf w' = spi_rx_buf w /\
  m_memory_access_in_progress w' = m_memory_access_in_progress w /\
  m_scan_param w' = m_scan_param w.

Section lemmas.
Context `{Sdk}.
Implicit Types w : fw.

Definition splice (tx bytes : list Z) : list Z :=
  take 2 tx ++ bytes ++ drop (2 + length bytes) tx.

Definition framed (tx : list Z) (v : event_view) : list Z :=
  let '(e, n, bytes) := v in <[1%nat := e]> (<[0%nat := n + 1]> (splice tx bytes)).

Lemma splice_length tx bytes :
  (2 + length bytes <= length tx)%nat -> length (splice tx bytes) = length tx.
Proof. intros. unfold splice. rewrite !length_app, length_take, length_drop. lia. Qed.

Lemma framed_eq tx e n bytes :
  (2 + length bytes <= length tx)%nat ->
  framed tx (e, n, bytes) = frame (e, n, bytes) ++ drop (2 + length bytes) tx.
Proof. destruct tx as [|? [|? tx]]; simpl; intros; try lia. done. Qed.

Lemma decode_framed tx e n bytes :
  (2 + length bytes <= length tx)%nat -> 0 <= n -> length bytes = Z.to_nat n ->
  decode (framed tx (e, n, bytes)) = (e, n, bytes).
Proof.
  intros Hlen Hn Hb. rewrite framed_eq by done. unfold decode, frame.
  cbn [app lookup_total list_lookup_total skipn].
  replace (n + 1 - 1) with n by lia. by rewrite <-Hb, drop_0, take_app_length.
Qed.

Lemma get_into_tx_buf_empty w :
  Queue.wf (event_queue w) -> contents (event_queue w) = [] ->
  get_into_tx_buf w = Done (0, 0) w.
Proof.
  intros Hq E%contents_nil; [|done]. unfold get_into_tx_buf. run_effects.
  rewrite get_empty by done. by destruct w.
Qed.

(** Taking the oldest event: it is defined exactly when the event leaves room
    for the two header bytes. *)
Lemma get_into_tx_buf_event w e n bytes rest :
  Queue.wf (event_queue w) -> length (spi_tx_buf w) = 64%nat ->
  contents (event_queue w) = (e, n, bytes) :: rest ->
  byte n /\ length bytes = Z.to_nat (Z.min n 64) /\
  if decide (n <= 62)
  then exists q', Queue.wf q' /\ contents q' = rest /\
    get_into_tx_buf w =
      Done (n, e) (set_spi_tx_buf (splice (spi_tx_buf w) bytes) (set_event_queue q' w))
  else get_into_tx_buf w = Undef.
Proof.
  intros Hq Htx E.
  destruct (get_nonempty (event_queue w) 0 (spi_tx_buf w) 2 _ _ _ _ Hq E)
    as (Heq & Hn & Hb).
  pose proof (queue_get_ok (event_queue w) 0 (spi_tx_buf w) 2 Hq) as Hget.
  rewrite E in Hget. destruct Hget as [_ Hget].
  split_and!; [done..|]. unfold get_into_tx_buf. run_effects. unfold byte in Hn.
  destruct (interrupt_event_queue_get _ _ _ _) as [[[[n' e'] tx'] q']|].
  - destruct Hget as (-> & -> & -> & Hroom & Hwf & Hrest).
    rewrite decide_True by lia. exists q'. split_and!; [done..|].
    by rewrite u8_small by (unfold byte; lia).
  - by rewrite decide_False by lia.
Qed.

Lemma wp_store_tx i x w (Q : () -> fw -> Prop) R :
  (i < length (spi_tx_buf w))%nat ->
  Q tt (set_spi_tx_buf (<[i := x]> (spi_tx_buf w)) w) -> wp (store_tx i x) w Q R.
Proof. intros. unfold wp, store_tx. run_effects. by rewrite store_at_ok. Qed.

(** Writing the header behind which [get_into_tx_buf] left the data. *)
Lemma wp_store_header {A} (k : M fw A) tx e n bytes w Q R :
  length tx = 64%nat -> 1 <= n <= 62 -> length bytes = Z.to_nat n ->
  spi_tx_buf w = splice tx bytes ->
  wp k (set_spi_tx_buf (framed tx (e, n, bytes)) w) Q R ->
  wp (store_tx 0 (u8 (n + 1));; store_tx 1 e;; k) w Q R.
Proof.
  intros Htx Hn Hb Hw Hk. rewrite u8_small by (unfold byte; lia).
  assert (length (spi_tx_buf w) = 64%nat) as Hlen.
  { rewrite Hw, splice_length; lia. }
  apply wp_bind, wp_store_tx; [lia|]. apply wp_bind, wp_store_tx.
  { simpl. rewrite length_insert. lia. }
  simpl. by rewrite Hw.
Qed.

(** [spi_slave_notify] with a free buffer and an event waiting. *)
Lemma notify_load w e n bytes rest :
  Queue.wf (event_queue w) -> length (spi_tx_buf w) = 64%nat ->
  buffer_full w = false -> contents (event_queue w) = (e, n, bytes) :: rest ->
  1 <= n <= 62 ->
  wp spi_slave_notify w (fun _ w' => exists q', Queue.wf q' /\ contents q' = rest /\
      w' = add_call (nrf_gpio_pin_set INTERRUPT_PIN)
             (add_call (spi_slave_buffers_set SPI_BUF_LEN SPI_BUF_LEN)
               (set_spi_tx_buf (framed (spi_tx_buf w) (e, n, bytes))
                 (set_buffer_full true (set_event_queue q' w)))))
    reset_by_failure.
Proof.
  intros Hq Htx Hfull E Hn.
  destruct (get_into_tx_buf_event w e n bytes rest Hq Htx E) as (_ & Hb & Hget).
  rewrite decide_True in Hget by lia. destruct Hget as (q' & Hq' & Hrest & Hget).
  unfold spi_slave_notify. apply wp_bind, wp_gets. rewrite Hfull.
  apply wp_bind. unfold wp at 1. rewrite Hget. cbv beta iota.
  rewrite (proj2 (Z.ltb_lt 0 n)) by lia. apply wp_bind, wp_modify. cbv zeta.
  apply (wp_store_header _ (spi_tx_buf w) e n bytes); [done|lia|lia|done|].
  apply wp_bind, wp_call, wp_bind.
  eapply (wp_checked []); [reflexivity|intros _].
  apply wp_call_void. by exists q'.
Qed.

Lemma notify_full w : buffer_full w = true -> spi_slave_notify w = Done tt w.
Proof. intros E. unfold spi_slave_notify. run_effects. by rewrite E. Qed.

Lemma notify_empty w :
  Queue.wf (event_queue w) -> buffer_full w = false -> contents (event_queue w) = [] ->
  spi_slave_notify w = Done tt w.
Proof.
  intros Hq Hfull E. unfold spi_slave_notify.
  rewrite (bind_Done _ _ _ (buffer_full w) w) by done. rewrite Hfull.
  by rewrite (bind_Done _ _ _ _ _ (get_into_tx_buf_empty w Hq E)).
Qed.

Lemma framed_length tx e n bytes :
  length tx = 64%nat -> 1 <= n <= 62 -> length bytes = Z.to_nat n ->
  length (framed tx (e, n, bytes)) = 64%nat.
Proof. intros. unfold framed. rewrite !length_insert, splice_length; lia. Qed.

(** The data of a queued event has the event's length. *)
Lemma contents_data w e n bytes rest :
  wf_fw w -> contents (event_queue w) = (e, n, bytes) :: rest ->
  1 <= n <= 62 /\ length bytes = Z.to_nat n /\ Forall fits rest.
Proof.
  intros [Hq Htx _ Hfits] E. rewrite E in Hfits.
  apply Forall_cons_1 in Hfits as [Hn Hrest]. unfold fits in Hn. simpl in Hn.
  destruct (get_into_tx_buf_event w e n bytes rest Hq Htx E) as (_ & Hb & _).
  split_and!; [lia..|done].
Qed.
End lemmas.

(** ** Theorems *)

Section theorems.
Context `{Sdk}.
Implicit Types w : fw.

(** The interrupt line shows whether a frame is waiting for the host. *)
Definition line_ok w : Prop := pin_level INTERRUPT_PIN (sdk_log w) = Some (buffer_full w).

(** [spi_slave_notify], on every branch. *)
Lemma notify_ok w :
  wf_fw w ->
  wp spi_slave_notify w (fun _ w' =>
      wf_fw w' /\ same_app w w' /\
      bcp_irq_advertisements w' = bcp_irq_advertisements w /\
      pending w' = pending w /\
      buffer_full w' = bool_decide (pending w <> []) /\
      contents (event_queue w') =
        (if buffer_full w then contents (event_queue w) else tail (contents (event_queue w))) /\
      (line_ok w -> line_ok w'))
    reset_by_failure.
Proof.
  intros Hw. unfold pending. destruct (buffer_full w) eqn:Hfull; simpl.
  { unfold wp. rewrite (notify_full w Hfull). rewrite Hfull. unfold same_app. done. }
  destruct (contents (event_queue w)) as [|[[e n] bytes] rest] eqn:E; simpl.
  { unfold wp. rewrite (notify_empty w (wf_event_queue w Hw) Hfull E).
    rewrite Hfull, E. unfold same_app. done. }
  destruct (contents_data w e n bytes rest Hw E) as (Hn & Hb & Hrest).
  destruct Hw as [Hq Htx Hrx Hfits].
  eapply wp_mono; [by eapply notify_load| |done].
  intros _ w' (q' & Hq' & Hc & ->). cbn -[decode framed].
  rewrite decode_framed, Hc by lia. split_and!; try done.
  split; cbn -[framed]; [done|by rewrite framed_length|done|by rewrite Hc].
Qed.

(** [spi_slave_notify] moves the oldest event of the queue into a free frame
    buffer, hands it to the SPI driver and raises the interrupt line; with a
    full buffer or an empty queue it does nothing.  No event is lost or
    reordered, and the only other outcome is a reset after a failed call. *)
Theorem spi_slave_notify_spec w :
  wf_fw w ->
  wp spi_slave_notify w (fun _ w' =>
      wf_fw w' /\ same_app w w' /\
      bcp_irq_advertisements w' = bcp_irq_advertisements w /\
      pending w' = pending w /\
      buffer_full w' = bool_decide (pending w <> []) /\
      contents (event_queue w') =
        (if buffer_full w then contents (event_queue w) else tail (contents (event_queue w))) /\
      (line_ok w -> line_ok w'))
    reset_by_failure.
Proof. exact (notify_ok w). Qed.

(** C38: the copy into the frame buffer is in bounds exactly for events of at
    most 62 bytes: with a free buffer and a longer event at the head of the
    queue, [interrupt_event_queue_get] writes past the 64 bytes of
    [spi_tx_buf]; in every other case [spi_slave_notify] is defined. *)
Theorem spi_slave_notify_overflow w :
  Queue.wf (event_queue w) -> length (spi_tx_buf w) = 64%nat ->
  spi_slave_notify w = Undef <->
  buffer_full w = false /\ exists v rest, contents (event_queue w) = v :: rest /\ 62 < v.1.2.
Proof.
  intros Hq Htx. destruct (buffer_full w) eqn:Hfull.
  { rewrite (notify_full w Hfull). split; [done|by intros []]. }
  destruct (contents (event_queue w)) as [|[[e n] bytes] rest] eqn:E.
  { rewrite (notify_empty w Hq Hfull E). split; [done|by intros (_&?&?&?&_)]. }
  destruct (get_into_tx_buf_event w e n bytes rest Hq Htx E) as (Hn & _ & Hget).
  unfold byte in Hn. split.
  - intros Hundef. split; [done|]. exists (e, n, bytes), rest. split; [done|]. simpl.
    destruct (decide (n <= 62)) as [Hle|]; [|lia]. exfalso.
    destruct (decide (n = 0)) as [->|Hne].
    + destruct Hget as (q' & _ & _ & Hget). unfold spi_slave_notify in Hundef.
      rewrite (bind_Done _ _ _ (buffer_full w) w) in Hundef by done. rewrite Hfull in Hundef.
      by rewrite (bind_Done _ _ _ _ _ Hget) in Hundef.
    + by apply (wp_not_Undef _ _ _ _
        (notify_load w e n bytes rest Hq Htx Hfull E ltac:(lia))) in Hundef.
  - intros (_ & v & rest' & [= <- <-] & Hlong). simpl in Hlong.
    rewrite decide_False in Hget by lia. unfold spi_slave_notify.
    rewrite (bind_Done _ _ _ (buffer_full w) w) by done. rewrite Hfull.
    cbv [mbind M_bind]. by rewrite Hget.
Qed.

(** The switch on the command byte touches neither the queue nor the buffers. *)
Lemma wp_command_dispatch command w (Q : () -> fw -> Prop) R :
  (forall w1, event_queue w1 = event_queue w -> spi_tx_buf w1 = spi_tx_buf w ->
     same_app w w1 -> bcp_irq_advertisements w1 =
       (bcp_irq_advertisements w || (command =? BCP_CMD_SNIFF_ADVERTISEMENTS)) ->
     Q () w1) ->
  wp (if command =? BCP_CMD_READ_IRQ then led_on LED_0
      else if command =? BCP_CMD_SNIFF_ADVERTISEMENTS then bcp_sniff_advertisements
      else mret ()) w Q R.
Proof.
  intros HQ. unfold BCP_CMD_READ_IRQ, BCP_CMD_SNIFF_ADVERTISEMENTS in *.
  destruct (Z.eqb_spec command 1) as [->|Hne]; [|destruct (Z.eqb_spec command 2)].
  - apply HQ; try done. simpl. by rewrite orb_false_r.
  - apply HQ; try done. simpl. by rewrite orb_true_r.
  - apply HQ; try done. by rewrite orb_false_r.
Qed.

(** The refill block, with an empty queue and with an event. *)

Lemma refill_empty w :
  Queue.wf (event_queue w) -> contents (event_queue w) = [] ->
  refill w = Done tt
    (add_call (nrf_gpio_pin_clear INTERRUPT_PIN) (set_buffer_full false
      (add_call (spi_slave_buffers_set SPI_BUF_LEN SPI_BUF_LEN) w))).
Proof.
  intros Hq E. unfold refill.
  by rewrite (bind_Done _ _ _ _ _ (get_into_tx_buf_empty w Hq E)).
Qed.

Lemma wp_refill_event w e n bytes rest :
  Queue.wf (event_queue w) -> length (spi_tx_buf w) = 64%nat ->
  contents (event_queue w) = (e, n, bytes) :: rest -> 1 <= n <= 62 ->
  wp refill w (fun _ w' => exists q', Queue.wf q' /\ contents q' = rest /\
      w' = set_buffer_full true (add_call (nrf_gpio_pin_set INTERRUPT_PIN)
             (add_call (nrf_gpio_pin_toggle 3)
               (add_call (spi_slave_buffers_set SPI_BUF_LEN SPI_BUF_LEN)
                 (set_spi_tx_buf (framed (spi_tx_buf w) (e, n, bytes))
                   (set_event_queue q' w))))))
    reset_by_failure.
Proof.
  intros Hq Htx E Hn.
  destruct (get_into_tx_buf_event w e n bytes rest Hq Htx E) as (_ & Hb & Hget).
  rewrite decide_True in Hget by lia. destruct Hget as (q' & Hq' & Hc & Hget).
  unfold refill. apply wp_bind. unfold wp at 1. rewrite Hget. cbv beta iota.
  rewrite (proj2 (Z.ltb_lt 0 n)) by lia. cbv zeta.
  apply (wp_store_header _ (spi_tx_buf w) e n bytes); [done|lia|lia|done|].
  apply wp_bind, wp_call, wp_bind, wp_call_void, wp_bind.
  eapply (wp_checked [nrf_gpio_pin_toggle 3]); [reflexivity|intros _].
  apply wp_bind, wp_call_void, wp_modify. by exists q'.
Qed.

(** The handler of a completed transfer. *)
Lemma event_handle_ok w command :
  wf_fw w -> spi_rx_buf w !! 0%nat = Some command ->
  wp (spi_slave_event_handle SPI_SLAVE_XFER_DONE) w (fun _ w' =>
      wf_fw w' /\ same_app w w' /\
      bcp_irq_advertisements w' =
        (bcp_irq_advertisements w || (command =? BCP_CMD_SNIFF_ADVERTISEMENTS)) /\
      pending w' = contents (event_queue w) /\
      contents (event_queue w') = tail (contents (event_queue w)) /\
      line_ok w')
    reset_by_failure.
Proof.
  intros Hw Hcmd. unfold spi_slave_event_handle.
  apply wp_bind, wp_gets, wp_bind, wp_lift. exists command. split; [done|].
  apply wp_bind, wp_command_dispatch. intros w1 Heq Htxeq Hsame Hflag.
  assert (wf_fw w1) as Hw1.
  { destruct Hw, Hsame as (? & _). split; congruence. }
  destruct Hsame as (Hrx1 & Hmem1 & Hscan1). rewrite <-Heq.
  destruct (contents (event_queue w1)) as [|[[e n] bytes] rest] eqn:E.
  - unfold wp. rewrite refill_empty by (done || apply Hw1).
    unfold pending, same_app, line_ok. simpl. rewrite E. split_and!; try done.
    destruct Hw1. by split.
  - destruct (contents_data w1 e n bytes rest Hw1 E) as (Hn & Hb & Hrest).
    destruct Hw1 as [Hq Htx Hrx Hfits].
    eapply wp_mono; [by eapply wp_refill_event| |done].
    intros _ w' (q' & Hq' & Hc & ->).
    unfold pending, same_app, line_ok. cbn -[decode framed].
    rewrite decode_framed, Hc by lia. split_and!; try done.
    split; cbn -[framed]; [done|by rewrite framed_length|done|by rewrite Hc].
Qed.

(** C21: the handler of a completed transfer obeys the command byte (1 only
    acknowledges, 2 turns the forwarding of advertisements on, others are
    ignored), drops the frame the host has just read, and loads the next event
    if there is one; the interrupt line ends up showing whether there was. *)
Theorem spi_slave_event_handle_spec w command :
  wf_fw w -> spi_rx_buf w !! 0%nat = Some command ->
  wp (spi_slave_event_handle SPI_SLAVE_XFER_DONE) w (fun _ w' =>
      wf_fw w' /\ same_app w w' /\
      bcp_irq_advertisements w' =
        (bcp_irq_advertisements w || (command =? BCP_CMD_SNIFF_ADVERTISEMENTS)) /\
      pending w' = contents (event_queue w) /\
      contents (event_queue w') = tail (contents (event_queue w)) /\
      line_ok w')
    reset_by_failure.
Proof. exact (event_handle_ok w command). Qed.

(** The handler with an empty queue: the line drops, the buffer stays. *)
Lemma event_handle_empty w command :
  wf_fw w -> spi_rx_buf w !! 0%nat = Some command -> contents (event_queue w) = [] ->
  wp (spi_slave_event_handle SPI_SLAVE_XFER_DONE) w (fun u w' =>
    pending w' = [] /\ pin_level INTERRUPT_PIN (sdk_log w') = Some false /\
    spi_tx_buf w' = spi_tx_buf w /\
    exists log, sdk_log w' = nrf_gpio_pin_clear INTERRUPT_PIN ::
      spi_slave_buffers_set SPI_BUF_LEN SPI_BUF_LEN :: log) (fun _ => False).
Proof.
  intros Hw Hcmd E. unfold spi_slave_event_handle.
  apply wp_bind, wp_gets, wp_bind, wp_lift. exists command. split; [done|].
  apply wp_bind, wp_command_dispatch. intros w1 Heq Htxeq _ _.
  unfold wp. rewrite refill_empty by (rewrite Heq; done || apply Hw).
  unfold pending. simpl. rewrite Heq, E. split_and!; eauto.
Qed.

(** when the host has read the last waiting frame the interrupt line drops,
    but the frame stays in [spi_tx_buf], the buffer handed to the SPI driver
    for the next transfer: only the line tells the host that it is old. *)
Theorem last_frame_stays w command :
  wf_fw w -> spi_rx_buf w !! 0%nat = Some command ->
  contents (event_queue w) = [] ->
  exists w', spi_slave_event_handle SPI_SLAVE_XFER_DONE w = Done tt w' /\
    pending w' = [] /\ pin_level INTERRUPT_PIN (sdk_log w') = Some false /\
    spi_tx_buf w' = spi_tx_buf w /\
    exists log, sdk_log w' = nrf_gpio_pin_clear INTERRUPT_PIN ::
      spi_slave_buffers_set SPI_BUF_LEN SPI_BUF_LEN :: log.
Proof.
  intros Hw Hcmd E.
  pose proof (event_handle_empty w command Hw Hcmd E) as Hwp. unfold wp in Hwp.
  destruct (spi_slave_event_handle _ w) as [[] w'| |]; [|done..]. eauto.
Qed.

(** The initialisation. *)
Lemma example_init_ok w :
  wp spi_slave_example_init w (fun code w' =>
      code = NRF_SUCCESS /\
      w' = add_call (spi_slave_buffers_set SPI_BUF_LEN SPI_BUF_LEN)
            (add_call (spi_slave_init (SpiSlaveConfig 9 8 10 11 SPI_MODE_0 SPIM_MSB_FIRST 0 0x55))
              (add_call spi_slave_evt_handler_register w)))
    reset_by_failure.
Proof.
  unfold spi_slave_example_init.
  do 3 (apply wp_call_check; intros _). by apply wp_ret.
Qed.

(** [spi_slave_example_init] hands the buffers to the SPI driver after
    registering the handler and configuring the board's pins; it returns
    [NRF_SUCCESS] and changes nothing else, or the board resets. *)
Theorem spi_slave_example_init_spec w :
  wp spi_slave_example_init w (fun code w' =>
      code = NRF_SUCCESS /\
      w' = add_call (spi_slave_buffers_set SPI_BUF_LEN SPI_BUF_LEN)
            (add_call (spi_slave_init (SpiSlaveConfig 9 8 10 11 SPI_MODE_0 SPIM_MSB_FIRST 0 0x55))
              (add_call spi_slave_evt_handler_register w)))
    reset_by_failure.
Proof. exact (example_init_ok w). Qed.
End theorems.

(** ** The queue and the frame buffer together *)

(** What holds between events: nothing is stuck in the queue behind a free frame
    buffer, and the interrupt line is high exactly when a frame is waiting. *)
Record inv (w : fw) : Prop := Inv {
  inv_wf : wf_fw w;
  inv_loaded : loaded w;
  inv_line : line_ok w;
}.

Section channel.
Context `{Sdk}.
Implicit Types w : fw.

Lemma pending_length w :
  inv w -> length (pending w) =
    (if buffer_full w then S (Z.to_nat (items_in_queue (event_queue w))) else 0%nat).
Proof.
  intros [[Hq _ _ _] Hl _]. unfold pending, loaded in *.
  destruct (buffer_full w); simpl.
  - by rewrite contents_length.
  - by rewrite Hl.
Qed.

Lemma pending_nil_loaded w :
  buffer_full w = bool_decide (pending w <> []) -> loaded w.
Proof.
  unfold loaded, pending. intros Hd Hfull. rewrite Hfull in *. simpl in *.
  symmetry in Hd. apply bool_decide_eq_false in Hd. by apply dec_stable in Hd.
Qed.

Lemma pending_bound w : inv w -> (length (pending w) <= 5)%nat.
Proof.
  intros Hi. rewrite (pending_length w Hi). pose proof (wf_count _ (wf_event_queue _ (inv_wf _ Hi))).
  destruct (buffer_full w); lia.
Qed.

(** [interrupt_event_queue_add] with the notification it makes. *)
Lemma wp_queue_add w e n data :
  inv w -> 1 <= n <= 62 -> (Z.to_nat n <= length data)%nat ->
  wp (interrupt_event_queue_add e n data) w (fun code w' =>
      inv w' /\ bcp_irq_advertisements w' = bcp_irq_advertisements w /\
      if decide (length (pending w) = 5%nat)
      then code = NRF_ERROR_NO_MEM /\ pending w' = pending w
      else code = NRF_SUCCESS /\ pending w' = pending w ++ [new_view e n data])
    reset_by_failure.
Proof.
  intros Hi Hn Hlen. pose proof (pending_length w Hi) as Hpl. pose proof Hi as [Hw Hl Hline].
  pose proof Hw as [Hq Htx Hrx Hfits]. pose proof (wf_count _ Hq) as Hcount.
  assert (items_in_queue (event_queue w) = 0 \/ buffer_full w = true) as Hcase.
  { destruct (buffer_full w) eqn:E; [by right|left]. by apply contents_nil, Hl. }
  destruct (decide (items_in_queue (event_queue w) = 4)) as [Hfour|Hroom].
  - destruct (decide (length (pending w) = 5%nat)) as [_|Hne];
      [|exfalso; destruct Hcase as [|E]; [lia|rewrite E in Hpl; lia]].
    unfold wp. by rewrite (@add_full _ firmware_client w _ _ _ Hfour).
  - destruct (decide (length (pending w) = 5%nat)) as [He|_];
      [exfalso; rewrite He in Hpl; destruct (buffer_full w); lia|].
    destruct (@add_room _ firmware_client w e n data)
      as (it & Hit & Hview & Hadd); simpl in *; try done; [unfold byte; lia|lia|].
    set (w1 := set_event_queue (push (event_queue w) it) w) in *.
    assert (contents (event_queue w1) = contents (event_queue w) ++ [new_view e n data]) as Hc1.
    { simpl. by rewrite push_contents, Hview by done. }
    assert (wf_fw w1) as Hw1.
    { split; [by apply push_wf|done..|]. rewrite Hc1. apply Forall_app_2; [done|].
      constructor; [|done]. unfold fits. simpl. lia. }
    unfold wp. rewrite Hadd. apply (wp_bind spi_slave_notify (fun _ => mret NRF_SUCCESS) w1).
    eapply wp_mono; [exact (notify_ok w1 Hw1)| |done].
    intros _ w' (Hw' & Hsame & Hflag & Hpend & Hfull & _ & Hlo). apply wp_ret.
    assert (pending w' = pending w ++ [new_view e n data]) as Hp.
    { rewrite Hpend. unfold pending. rewrite Hc1. simpl. by rewrite app_assoc. }
    split; [split; [done| |by apply Hlo]|by split].
    apply pending_nil_loaded. by rewrite Hfull, Hpend.
Qed.

(** The radio side adds events; the SPI side reads the frame buffer. *)
Inductive channel_op :=
| Add (event length : Z) (data : list Z)
| TransferDone.

(** What a call of [interrupt_event_queue_add] returns; and the frame the host
    finds at its next transfer, if the line tells it to read one. *)
Inductive channel_reply :=
| Added (code : nrf_code)
| Waiting (f : option event_view).

Definition valid_channel_op (o : channel_op) : Prop :=
  match o with
  | Add _ n data => 1 <= n <= 62 /\ (Z.to_nat n <= length data)%nat
  | TransferDone => True
  end.

#[export] Instance valid_channel_op_dec o : Decision (valid_channel_op o).
Proof. destruct o; simpl; apply _. Defined.

Definition channel_step (o : channel_op) : M fw channel_reply :=
  match o with
  | Add event n data => code ← interrupt_event_queue_add event n data; mret (Added code)
  | TransferDone =>
      spi_slave_event_handle SPI_SLAVE_XFER_DONE;;
      log ← gets sdk_log;
      tx ← gets spi_tx_buf;
      mret (Waiting (if bool_decide (pin_level INTERRUPT_PIN log = Some true) then Some (decode tx) else None))
  end.

Fixpoint channel_run (os : list channel_op) : M fw (list channel_reply) :=
  match os with
  | [] => mret []
  | o :: os => r ← channel_step o; rs ← channel_run os; mret (r :: rs)
  end.

(** The specification: a first-in first-out queue of at most five events. *)
Definition fifo_step (l : list event_view) (o : channel_op) : channel_reply * list event_view :=
  match o with
  | Add event n data =>
      if decide (length l = 5%nat) then (Added NRF_ERROR_NO_MEM, l)
      else (Added NRF_SUCCESS, l ++ [new_view event n data])
  | TransferDone => (Waiting (head (tail l)), tail l)
  end.

Fixpoint fifo_run (l : list event_view) (os : list channel_op) : list channel_reply * list event_view :=
  match os with
  | [] => ([], l)
  | o :: os =>
      let '(r, l') := fifo_step l o in
      let '(rs, l'') := fifo_run l' os in (r :: rs, l'')
  end.

Lemma inv_head w :
  inv w -> (if bool_decide (pin_level INTERRUPT_PIN (sdk_log w) = Some true)
            then Some (decode (spi_tx_buf w)) else None) = head (pending w).
Proof.
  intros [_ Hl ->]. unfold pending, loaded in *. destruct (buffer_full w); simpl; [done|]. by rewrite Hl.
Qed.

Lemma wp_channel_step o w :
  inv w -> valid_channel_op o ->
  wp (channel_step o) w (fun r w' => inv w' /\ (r, pending w') = fifo_step (pending w) o) reset_by_failure.
Proof.
  intros Hi Ho. destruct o as [e n data|]; cbn [channel_step fifo_step valid_channel_op] in *.
  - destruct Ho as [Hn Hlen]. apply wp_bind. eapply wp_mono; [by apply (wp_queue_add w e n data)| |done].
    intros code w' (Hi' & _ & Hc). apply wp_ret. split; [done|]. by case_decide; destruct Hc as [-> ->].
  - pose proof Hi as [Hw Hl _]. destruct (lookup_lt_is_Some_2 (spi_rx_buf w) 0) as [command Hcmd].
    { rewrite (wf_rx _ Hw). lia. }
    apply wp_bind. eapply wp_mono; [by apply (event_handle_ok w command)| |done].
    intros _ w' (Hw' & _ & _ & Hp & Hc & Hlo).
    assert (pending w' = tail (pending w)) as Hp'.
    { rewrite Hp. unfold pending. destruct (buffer_full w) eqn:Hfull; [done|]. by rewrite Hl. }
    assert (inv w') as Hi'.
    { split; [done| |done]. unfold loaded. intros Hfull. rewrite Hc. unfold pending in Hp. rewrite Hfull, Hc in Hp.
      apply tail_fixed in Hp. by rewrite Hp. }
    apply wp_bind, wp_gets, wp_bind, wp_gets, wp_ret. split; [done|]. by rewrite (inv_head w' Hi'), Hp'.
Qed.

(** C18: the event queue with its reader.  [interrupt_event_queue_add], the
    [spi_slave_notify] it calls, [interrupt_event_queue_get] and the handler of a
    completed transfer together are a first-in first-out queue that holds five
    events, four in the ring and one in the frame buffer: through any sequence of
    additions, of 1 to 62 bytes, and completed transfers, every addition returns
    [NRF_SUCCESS], or [NRF_ERROR_NO_MEM] and no change when five wait; and after
    every transfer the line is high and the buffer holds the oldest event that is
    left, if one is.  The only other outcome is a reset after a failed call. *)
Theorem event_queue_refines_fifo os w :
  inv w -> Forall valid_channel_op os ->
  wp (channel_run os) w (fun rs w' => inv w' /\ (rs, pending w') = fifo_run (pending w) os) reset_by_failure.
Proof.
  intros Hi Hos. revert w Hi. induction Hos as [|o os Ho Hos IH]; intros w Hi; [by apply wp_ret|].
  cbn [channel_run fifo_run]. apply wp_bind. eapply wp_mono; [by apply wp_channel_step| |done].
  intros r w1 [Hi1 E1]. apply wp_bind. eapply wp_mono; [by apply IH| |done]. intros rs w2 [Hi2 E2].
  apply wp_ret. split; [done|]. rewrite <-E1, <-E2. done.
Qed.
End channel.

(** ** The interface of the queue

    Programs that leave the event queue alone. *)

Definition keeps_queue {A} (m : M fw A) : Prop :=
  forall w a w', m w = Done a w' -> event_queue w' = event_queue w.

Section keeps_queue.
Context `{Sdk}.

Lemma keeps_bind {A B} (m : M fw A) (f : A -> M fw B) :
  keeps_queue m -> (forall a, keeps_queue (f a)) -> keeps_queue (m ≫= f).
Proof.
  intros Hm Hf w b w'' (a & w' & E & E')%bind_Done_inv.
  apply Hf in E'. apply Hm in E. congruence.
Qed.
Lemma keeps_ret {A} (a : A) : keeps_queue (mret a).
Proof. by intros w b w' [= <- <-]. Qed.
Lemma keeps_gets {A} (f : fw -> A) : keeps_queue (gets f).
Proof. by intros w b w' [= <- <-]. Qed.
Lemma keeps_halt {A} : keeps_queue (halt (A:=A)).
Proof. by intros w b w'. Qed.
Lemma keeps_lift {A} (o : option A) : keeps_queue (lift o).
Proof. intros w b w'. unfold lift. by destruct o; intros [= <- <-]. Qed.
Lemma keeps_modify (f : fw -> fw) :
  (forall w, event_queue (f w) = event_queue w) -> keeps_queue (modify f).
Proof. by intros Hf w b w' [= <- <-]. Qed.
Lemma keeps_call c : keeps_queue (call c).
Proof. by intros w b w' [= <- <-]. Qed.
Lemma keeps_if {A} (b : bool) (m1 m2 : M fw A) :
  keeps_queue m1 -> keeps_queue m2 -> keeps_queue (if b then m1 else m2).
Proof. by destruct b. Qed.
End keeps_queue.

#[export] Hint Resolve keeps_ret keeps_gets keeps_halt keeps_lift keeps_call : gap.

(** Follow the structure of a program down to its primitive steps. *)
Ltac keeps_queue :=
  repeat first
    [ solve [eauto with gap nocore]
    | apply keeps_modify; by intros
    | progress unfold store_tx, APP_ERROR_CHECK, app_error_handler, call_void, bcp_interrupt_host
    | apply keeps_bind; [|intros ?]
    | apply keeps_if ].

(** The SPI layer keeps its promise to the queue. *)
#[export] Instance firmware_client_laws `{Sdk} : QueueClientLaws fw.
Proof.
  split; [done|]. intros w w' Hq Hn. simpl in *. unfold spi_slave_notify in Hn.
  apply bind_Done_inv in Hn as (full & w1 & [= <- <-] & Hn).
  destruct (buffer_full w) eqn:Hfull; [injection Hn as <-; auto|].
  apply bind_Done_inv in Hn as ([data_len response_type] & w2 & Hget & Hn).
  assert (event_queue w' = event_queue w2) as ->.
  { clear -Hn. revert Hn.
    match goal with |- ?m w2 = _ -> _ => assert (keeps_queue m) as Hk by keeps_queue end.
    apply Hk. }
  clear Hn. destruct (contents (event_queue w)) as [|[[e n] bytes] rest] eqn:E.
  { rewrite get_into_tx_buf_empty in Hget by done. injection Hget as _ _ <-. auto. }
  pose proof (queue_get_ok (event_queue w) 0 (spi_tx_buf w) 2 Hq) as Hspec.
  rewrite E in Hspec. destruct Hspec as [_ Hspec]. revert Hget.
  unfold get_into_tx_buf. run_effects.
  destruct (interrupt_event_queue_get _ _ _ _) as [[[[? ?] ?] q']|]; [|done].
  intros [= _ _ <-]. simpl. destruct Hspec as (_ & _ & _ & _ & ? & ->). eauto.
Qed.

(** ** Witnesses *)

(** A free frame buffer and one event of [n] bytes in the queue. *)
Definition queued (n : Z) : fw :=
  set_event_queue
    (State (<[3%nat := Item (7 :: 8 :: replicate 62 0) n 1]> (queue Queue.initial)) 0 3 1) boot.

Lemma queued_wf n : byte n -> Queue.wf (event_queue (queued n)).
Proof. intros. split; simpl; try (done || lia). repeat constructor; by unfold byte in *; simpl; lia. Qed.

Lemma queued_wf_fw : wf_fw (queued 2).
Proof. split; [by apply queued_wf; unfold byte|done..|]. by repeat constructor. Qed.

Lemma spi_slave_notify_spec_witness :
  exists w', @spi_slave_notify quiet_sdk (queued 2) = Done tt w' /\
    pending w' = [(1, 2, [7; 8])] /\ take 4 (spi_tx_buf w') = [3; 1; 7; 8].
Proof.
  destruct (wp_run _ _ _ _ (@spi_slave_notify_spec quiet_sdk (queued 2) queued_wf_fw) eq_refl)
    as ([] & w' & E & _ & _ & _ & Hp & _).
  exists w'. split_and!; [exact E|exact Hp|]. by injection E as <-.
Defined.

Lemma spi_slave_notify_overflow_witness :
  @spi_slave_notify quiet_sdk (queued 63) = Undef.
Proof.
  apply (@spi_slave_notify_overflow quiet_sdk (queued 63)).
  - apply queued_wf. by unfold byte.
  - reflexivity.
  - split; [reflexivity|]. eexists _, _. split; reflexivity.
Defined.

Definition after_transfer : fw := set_spi_rx_buf (2 :: replicate 63 0) (queued 2).

Lemma after_transfer_wf : wf_fw after_transfer.
Proof. destruct queued_wf_fw. by split. Qed.

Lemma spi_slave_event_handle_spec_witness :
  exists w', @spi_slave_event_handle quiet_sdk SPI_SLAVE_XFER_DONE after_transfer = Done tt w' /\
    bcp_irq_advertisements w' = true /\ pending w' = [(1, 2, [7; 8])].
Proof.
  destruct (wp_run _ _ _ _ (@spi_slave_event_handle_spec quiet_sdk after_transfer 2
    after_transfer_wf eq_refl) eq_refl) as ([] & w' & E & _ & _ & Hflag & Hp & _).
  exists w'. split_and!; [exact E|exact Hflag|exact Hp].
Defined.

(** Six events are added, of which the last finds no room, and one is read. *)
Definition lowered : fw := add_call (nrf_gpio_pin_clear INTERRUPT_PIN) boot.

Lemma lowered_inv : inv lowered.
Proof. split; [split; [apply initial_wf|done..]|done|done]. Qed.

Definition six_events : list channel_op := ((fun k => Add 1 2 [k; k]) <$> [1; 2; 3; 4; 5; 6]) ++ [TransferDone].

Lemma event_queue_refines_fifo_witness :
  exists w', @channel_run quiet_sdk six_events lowered =
    Done (replicate 5 (Added NRF_SUCCESS) ++ [Added NRF_ERROR_NO_MEM; Waiting (Some (1, 2, [2; 2]))]) w' /\
    pending w' = [(1, 2, [2; 2]); (1, 2, [3; 3]); (1, 2, [4; 4]); (1, 2, [5; 5])].
Proof.
  destruct (wp_run _ _ _ _ (@event_queue_refines_fifo quiet_sdk six_events lowered lowered_inv ltac:(vm_decide))
    ltac:(vm_compute; reflexivity)) as (rs & w' & E & _ & Hfifo).
  exists w'. injection Hfifo as -> Hp. split; [exact E|exact Hp].
Defined.

Lemma last_frame_stays_witness :
  exists w', @spi_slave_event_handle quiet_sdk SPI_SLAVE_XFER_DONE
      (set_event_queue Queue.initial after_transfer) = Done tt w' /\ pending w' = [].
Proof.
  destruct (@last_frame_stays quiet_sdk (set_event_queue Queue.initial after_transfer) 2)
    as (w' & E & Hp & _); [|reflexivity..|by exists w'].
  split; [apply initial_wf|reflexivity..|constructor].
Defined.

End SpiSlave.
