(* ===== verification/NrfMain.v ===== *)
(** * The BLE co-processor application

    Models [src/software/nrf51822/main.c]: the parser of advertisement data and the
    macro that reads UUIDs (what would call them is commented out), the handlers
    of BLE and system events, the initialisation and [main].  Together with the
    queue and the SPI slave this is the whole firmware; its behaviour towards the
    host is specified by [bcp] and refined by [firmware_refines_bcp]. *)
From S2P Require Import Prelude NrfQueue NrfBoard NrfSpiSlave.
Import Queue Board SpiSlave.

Module Main.

(** ** Advertisement data *)

(** [data_t]: a pointer, here an offset into the block of memory it points
    into, and a 16-bit length. *)
Record data_t := Data { p_data : nat; data_len : Z }.

Inductive parse_result :=
| Parsed (code : nrf_code) (typedata : data_t)
| OutOfBounds
| OutOfFuel.

(** The [while] loop of [adv_report_parse], at position [index]. *)
Fixpoint adv_report_loop (fuel : nat) (type : Z) (mem : list Z) (advdata typedata : data_t)
    (index : Z) : parse_result :=
  match fuel with
  | O => OutOfFuel
  | S fuel =>
      if index <? data_len advdata then
        match mem !! (p_data advdata + Z.to_nat index)%nat,
              mem !! (p_data advdata + Z.to_nat (u32 (index + 1)))%nat with
        | Some field_length, Some field_type =>
            if field_type =? type then
              Parsed NRF_SUCCESS
                (Data (p_data advdata + Z.to_nat (u32 (index + 2))) (u16 (field_length - 1)))
            else adv_report_loop fuel type mem advdata typedata (u32 (index + (field_length + 1)))
        | _, _ => OutOfBounds
        end
      else Parsed NRF_ERROR_NOT_FOUND typedata
  end.

(** [adv_report_parse(type, p_advdata, p_typedata)] *)
Definition adv_report_parse (type : Z) (mem : list Z) (advdata typedata : data_t) : parse_result :=
  adv_report_loop (S (Z.to_nat (data_len advdata))) type mem advdata typedata 0.

Definition UUID16_SIZE : nat := 2.

(** [UUID16_EXTRACT(DST, SRC)]: the [uint16_t] that is read at [SRC]. *)
Definition UUID16_EXTRACT (mem : list Z) (src : nat) : option Z :=
  b1 ← mem !! (src + 1)%nat;
  let dst := u16 b1 in
  let dst := u16 (Z.shiftl dst 8) in
  b0 ← mem !! src;
  Some (u16 (Z.lor dst b0)).

(** ** Events *)

(** [ble_gap_evt_adv_report_t]: the bytes of the structure, of which [dlen] is
    one field. *)
Record adv_report := AdvReport { dlen : Z; report_bytes : list Z }.

Inductive ble_evt :=
| BLE_GAP_EVT_ADV_REPORT (r : adv_report)
| BLE_GAP_EVT_TIMEOUT
| BLE_GAP_EVT_CONN_PARAM_UPDATE_REQUEST
| ble_evt_other (n : Z).

Definition SCAN_INTERVAL : Z := 0x00A0.
Definition SCAN_WINDOW : Z := 0x0050.
Definition SEC_PARAM_BOND : Z := 1.
Definition SEC_PARAM_MITM : Z := 1.
Definition SEC_PARAM_IO_CAPABILITIES : io_caps := BLE_GAP_IO_CAPS_NONE.
Definition SEC_PARAM_OOB : Z := 0.
Definition SEC_PARAM_MIN_KEY_SIZE : Z := 7.
Definition SEC_PARAM_MAX_KEY_SIZE : Z := 16.

Section operations.
Context `{Sdk}.

(** [on_ble_evt]: the code of [interrupt_event_queue_add] is not looked at. *)
Definition on_ble_evt (evt : ble_evt) : M fw () :=
  match evt with
  | BLE_GAP_EVT_ADV_REPORT r =>
      call_void (nrf_gpio_pin_toggle ADV_PIN);;
      sniff ← gets bcp_irq_advertisements;
      if (sniff : bool) then
        _ ← interrupt_event_queue_add BCP_RSP_ADVERTISEMENT (u8 (dlen r + 8)) (report_bytes r);
        mret ()
      else mret ()
  | BLE_GAP_EVT_TIMEOUT => mret ()
  | BLE_GAP_EVT_CONN_PARAM_UPDATE_REQUEST => mret ()
  | ble_evt_other _ => mret ()
  end.

(** [scan_start()] *)
Definition scan_start : M fw () :=
  log ← gets sdk_log;
  err_code ← call pstorage_access_status_get;
  let count := pstorage_count log in
  APP_ERROR_CHECK err_code;;
  if negb (count =? 0) then modify (set_m_memory_access_in_progress true) else
  let m_scan_param := ScanParams 0 0 SCAN_INTERVAL SCAN_WINDOW None 0x0000 in
  modify (set_m_scan_param m_scan_param);;
  err_code ← call (sd_ble_gap_scan_start m_scan_param);
  APP_ERROR_CHECK err_code.

(** [on_sys_evt(sys_evt)] *)
Definition on_sys_evt (evt : sys_evt) : M fw () :=
  match evt with
  | NRF_EVT_FLASH_OPERATION_SUCCESS | NRF_EVT_FLASH_OPERATION_ERROR =>
      busy ← gets m_memory_access_in_progress;
      if (busy : bool) then
        modify (set_m_memory_access_in_progress false);;
        scan_start
      else mret ()
  | sys_evt_other _ => mret ()
  end.

Definition ble_evt_dispatch (evt : ble_evt) : M fw () := on_ble_evt evt.

Definition sys_evt_dispatch (evt : sys_evt) : M fw () :=
  call_void (pstorage_sys_event_handler evt);;
  on_sys_evt evt.

Definition device_manager_event_handler : M fw nrf_code := mret NRF_SUCCESS.

(** ** Initialisation *)

Definition ble_stack_init : M fw () :=
  call_void SOFTDEVICE_HANDLER_INIT;;
  err_code ← call softdevice_ble_evt_handler_set;
  APP_ERROR_CHECK err_code;;
  err_code ← call softdevice_sys_evt_handler_set;
  APP_ERROR_CHECK err_code.

Definition device_manager_init : M fw () :=
  err_code ← call pstorage_init;
  APP_ERROR_CHECK err_code;;
  err_code ← call (dm_init false);
  APP_ERROR_CHECK err_code;;
  let param := {|
    service_type := DM_PROTOCOL_CNTXT_GATT_CLI_ID;
    sec_bond := SEC_PARAM_BOND; sec_mitm := SEC_PARAM_MITM;
    sec_io_caps := SEC_PARAM_IO_CAPABILITIES; sec_oob := SEC_PARAM_OOB;
    sec_min_key_size := SEC_PARAM_MIN_KEY_SIZE; sec_max_key_size := SEC_PARAM_MAX_KEY_SIZE;
    sec_kdist_periph_enc := 1; sec_kdist_periph_id := 1 |} in
  err_code ← call (dm_register param);
  APP_ERROR_CHECK err_code.

Definition db_discovery_init : M fw () :=
  err_code ← call ble_db_discovery_init;
  APP_ERROR_CHECK err_code.

Definition power_manage : M fw () :=
  err_code ← call sd_app_evt_wait;
  APP_ERROR_CHECK err_code.

(** [main] up to its loop. *)
Definition main_init : M fw () :=
  led_init LED_GOT_ADV_PACKET;;
  call_void (nrf_gpio_cfg_output INTERRUPT_PIN);;
  call_void (nrf_gpio_pin_clear INTERRUPT_PIN);;
  call_void (nrf_gpio_cfg_output ADV_PIN);;
  call_void (nrf_gpio_pin_clear ADV_PIN);;
  call_void (nrf_gpio_cfg_output 3);;
  call_void (nrf_gpio_pin_clear 3);;
  led_on LED_GOT_ADV_PACKET;;
  ble_stack_init;;
  _ ← spi_slave_example_init;
  device_manager_init;;
  db_discovery_init;;
  scan_start;;
  led_off LED_GOT_ADV_PACKET.

(** ** The firmware as a reactive system

    What can happen to the running firmware: [main] wakes up, the SoftDevice
    reports an event, or the SPI driver does.  In a completed transfer the
    peripheral has stored the bytes sent by the host in [spi_rx_buf]. *)
Inductive event :=
| Wakeup
| Ble (e : ble_evt)
| Sys (s : sys_evt)
| Transfer (mosi : list Z)
| SpiOther (n : Z).

Definition handle (e : event) : M fw () :=
  match e with
  | Wakeup => power_manage
  | Ble e => ble_evt_dispatch e
  | Sys s => sys_evt_dispatch s
  | Transfer mosi =>
      rx ← gets spi_rx_buf;
      rx' ← lift (memcpy_at rx 0 mosi (length mosi));
      modify (set_spi_rx_buf rx');;
      spi_slave_event_handle SPI_SLAVE_XFER_DONE
  | SpiOther n => spi_slave_event_handle (spi_slave_evt_other n)
  end.

Fixpoint handle_all (es : list event) : M fw () :=
  match es with
  | [] => mret ()
  | e :: es => handle e;; handle_all es
  end.
End operations.

(** An event the hardware can produce: BLE advertisements carry at most 31
    bytes, which the report structure contains; a transfer has a command byte
    and fits the receive buffer. *)
Definition valid_event (e : event) : Prop :=
  match e with
  | Ble (BLE_GAP_EVT_ADV_REPORT r) =>
      0 <= dlen r <= 31 /\ (Z.to_nat (dlen r + 8) <= length (report_bytes r))%nat
  | Transfer mosi => (1 <= length mosi <= 64)%nat
  | _ => True
  end.

#[export] Instance valid_event_dec e : Decision (valid_event e).
Proof. destruct e as [|[| | |]| | |]; simpl; apply _. Defined.

(** ** Specification: what the firmware is to its host *)

Record bcp := Bcp { sniffing : bool; waiting : list event_view }.

(** The view of an advertisement the host is given. *)
Definition adv_view (r : adv_report) : event_view :=
  (BCP_RSP_ADVERTISEMENT, dlen r + 8, take (Z.to_nat (dlen r + 8)) (report_bytes r)).

(** Once asked to sniff, the co-processor keeps the advertisements it hears, up
    to five; every transfer gives the host the oldest. *)
Definition bcp_step (b : bcp) (e : event) : bcp :=
  match e with
  | Ble (BLE_GAP_EVT_ADV_REPORT r) =>
      if sniffing b && bool_decide (length (waiting b) < 5)%nat
      then Bcp true (waiting b ++ [adv_view r]) else b
  | Transfer mosi =>
      Bcp (sniffing b || bool_decide (head mosi = Some BCP_CMD_SNIFF_ADVERTISEMENTS))
          (tail (waiting b))
  | _ => b
  end.

Definition abs (w : fw) : bcp := Bcp (bcp_irq_advertisements w) (pending w).

(** ** Lemmas *)

(** [w'] differs from [w] only in what neither the queue nor the host sees. *)
Record unseen (w w' : fw) : Prop := Unseen {
  unseen_queue : event_queue w' = event_queue w;
  unseen_tx : spi_tx_buf w' = spi_tx_buf w;
  unseen_rx : length (spi_rx_buf w') = length (spi_rx_buf w);
  unseen_full : buffer_full w' = buffer_full w;
  unseen_sniff : bcp_irq_advertisements w' = bcp_irq_advertisements w;
  unseen_line : pin_level INTERRUPT_PIN (sdk_log w') = pin_level INTERRUPT_PIN (sdk_log w);
}.

Section lemmas.
Context `{Sdk}.
Implicit Types w : fw.

Lemma unseen_inv w w' : unseen w w' -> inv w -> inv w' /\ abs w' = abs w.
Proof.
  intros [Hq Htx Hrx Hfull Hsniff Hline] [[] Hl Hlo]. split; [split; [split|..]|].
  1-4: congruence.
  - unfold loaded. by rewrite Hq, Hfull.
  - unfold line_ok in *. congruence.
  - unfold abs, pending. by rewrite Hsniff, Hfull, Htx, Hq.
Qed.

Lemma unseen_step w w' b : unseen w w' -> inv w -> abs w = b -> inv w' /\ abs w' = b.
Proof. intros Hu Hi <-. by apply unseen_inv. Qed.

Lemma wp_unseen {A} (m : M fw A) w b :
  wp m w (fun _ w' => unseen w w') reset_by_failure -> inv w -> abs w = b ->
  wp m w (fun _ w' => inv w' /\ abs w' = b) reset_by_failure.
Proof. intros Hm Hi Hb. eapply wp_mono; [exact Hm| |done]. intros ? w' Hu. by apply (unseen_step w). Qed.

(** An advertisement while sniffing. *)
Lemma wp_on_adv w r :
  inv w -> bcp_irq_advertisements w = true -> 0 <= dlen r <= 31 ->
  (Z.to_nat (dlen r + 8) <= length (report_bytes r))%nat ->
  wp (interrupt_event_queue_add BCP_RSP_ADVERTISEMENT (u8 (dlen r + 8)) (report_bytes r)) w
    (fun _ w' => inv w' /\ abs w' = bcp_step (abs w) (Ble (BLE_GAP_EVT_ADV_REPORT r)))
    reset_by_failure.
Proof.
  intros Hi Hsniff Hd Hlen. rewrite u8_small by (unfold byte; lia).
  assert (new_view BCP_RSP_ADVERTISEMENT (dlen r + 8) (report_bytes r) = adv_view r) as Hview.
  { unfold new_view, adv_view. by rewrite Z.min_l by lia. }
  eapply wp_mono; [apply (wp_queue_add w BCP_RSP_ADVERTISEMENT (dlen r + 8) (report_bytes r)); [done|lia..]| |done].
  intros code w' (Hi' & Hflag & Hcode). split; [done|]. pose proof (pending_bound w Hi) as Hb. unfold abs.
  cbn [bcp_step sniffing waiting]. rewrite Hflag, Hsniff. cbn [andb].
  case_decide as Hfull; destruct Hcode as [_ Hp].
  - rewrite bool_decide_false by lia. by rewrite Hp.
  - rewrite bool_decide_true by lia. by rewrite Hp, Hview.
Qed.

(** What [scan_start] does, exactly. *)
Definition scanning_params : scan_params := ScanParams 0 0 SCAN_INTERVAL SCAN_WINDOW None 0.

Definition scan_started w : fw :=
  let w1 := add_call pstorage_access_status_get w in
  if pstorage_count (sdk_log w) =? 0
  then add_call (sd_ble_gap_scan_start scanning_params) (set_m_scan_param scanning_params w1)
  else set_m_memory_access_in_progress true w1.

Lemma wp_scan_start w (Q : () -> fw -> Prop) :
  Q tt (scan_started w) -> wp scan_start w Q reset_by_failure.
Proof.
  intros HQ. unfold scan_start, scan_started in *.
  apply wp_bind, wp_gets. cbv beta zeta. apply wp_call_check. intros _.
  destruct (pstorage_count (sdk_log w) =? 0); cbn [negb].
  - apply wp_bind, wp_modify. by apply wp_call_check_last.
  - by apply wp_modify.
Qed.

Lemma scan_started_unseen w : unseen w (scan_started w).
Proof. unfold scan_started. by destruct (pstorage_count (sdk_log w) =? 0). Qed.

(** The initialisation, up to its last two steps. *)
Lemma wp_main_init w (Q : () -> fw -> Prop) :
  (forall w1, event_queue w1 = event_queue w -> spi_tx_buf w1 = spi_tx_buf w ->
     spi_rx_buf w1 = spi_rx_buf w -> buffer_full w1 = buffer_full w ->
     bcp_irq_advertisements w1 = bcp_irq_advertisements w ->
     pin_level INTERRUPT_PIN (sdk_log w1) = Some false -> Q tt w1) ->
  wp main_init w Q reset_by_failure.
Proof.
  intros HQ. unfold main_init, led_init, led_on, led_off, ble_stack_init.
  do 8 (apply wp_bind; apply wp_call_void || (apply wp_bind, wp_call_void, wp_call_void)).
  apply wp_bind, wp_bind, wp_call_void.
  apply wp_call_check; intros _. apply wp_call_check_last; intros _.
  apply wp_bind. eapply wp_mono; [apply example_init_ok| |done].
  intros code w1 (_ & ->). apply wp_bind. unfold device_manager_init.
  do 2 (apply wp_call_check; intros _). cbv zeta. apply wp_call_check_last; intros _.
  apply wp_bind. unfold db_discovery_init. apply wp_call_check_last; intros _.
  apply wp_bind, wp_scan_start, wp_call_void, HQ; cbn -[scan_started];
    by unfold scan_started; destruct (pstorage_count _ =? 0).
Qed.

(** Events that neither the queue nor the host sees: everything but transfers,
    and advertisements while the co-processor sniffs. *)
Definition idle_event (sniff : bool) (e : event) : bool :=
  match e with
  | Ble (BLE_GAP_EVT_ADV_REPORT _) => negb sniff
  | Transfer _ => false
  | _ => true
  end.

Lemma wp_idle w e :
  idle_event (bcp_irq_advertisements w) e = true ->
  wp (handle e) w (fun _ w' => unseen w w') reset_by_failure.
Proof.
  intros He. destruct e as [|[r| | |]|s|mosi|]; cbn [handle idle_event] in *; try done.
  - by apply wp_call_check_last.
  - unfold ble_evt_dispatch, on_ble_evt. apply wp_bind, wp_call_void, wp_bind, wp_gets. cbv beta.
    cbn [bcp_irq_advertisements add_call]. apply negb_true_iff in He. rewrite He. by apply wp_ret.
  - unfold sys_evt_dispatch, on_sys_evt.
    apply wp_bind, wp_call_void. destruct s; [| |by apply wp_ret];
      (apply wp_bind, wp_gets; cbv beta;
       destruct (m_memory_access_in_progress _); [|by apply wp_ret];
       apply wp_bind, wp_modify, wp_scan_start;
       unfold scan_started; by destruct (pstorage_count _ =? 0)).
Qed.

Lemma bcp_step_idle w e :
  idle_event (bcp_irq_advertisements w) e = true -> bcp_step (abs w) e = abs w.
Proof.
  destruct e as [|[r| | |]|s|mosi|]; cbn [idle_event bcp_step]; try done.
  intros E%negb_true_iff. cbn [abs sniffing]. by rewrite E.
Qed.

(** One event. *)
Lemma wp_handle w e :
  inv w -> valid_event e ->
  wp (handle e) w (fun _ w' => inv w' /\ abs w' = bcp_step (abs w) e) reset_by_failure.
Proof.
  intros Hi He. destruct (idle_event (bcp_irq_advertisements w) e) eqn:Hidle.
  { apply wp_unseen; [by apply wp_idle|done|by rewrite bcp_step_idle]. }
  destruct e as [|[r| | |]|s|mosi|]; cbn [handle valid_event idle_event] in *; try done.
  - destruct He as [Hd Hlen]. apply negb_false_iff in Hidle. unfold ble_evt_dispatch, on_ble_evt.
    apply wp_bind, wp_call_void, wp_bind, wp_gets. cbv beta.
    destruct (unseen_step w (add_call (nrf_gpio_pin_toggle ADV_PIN) w) (abs w))
      as [Hi1 <-]; [by split|done..|].
    cbn [bcp_irq_advertisements add_call]. rewrite Hidle.
    apply wp_bind. eapply wp_mono; [by apply wp_on_adv| |done]. by intros.
  - pose proof Hi as [[Hq Htx Hrx Hfits] Hl Hline].
    destruct mosi as [|command mosi]; [simpl in He; lia|].
    destruct (memcpy_at (spi_rx_buf w) 0 (command :: mosi) (length (command :: mosi)))
      as [rx|] eqn:Hcpy; [|apply memcpy_at_None in Hcpy; lia].
    apply wp_bind, wp_gets, wp_bind, wp_lift. exists rx. split; [done|].
    apply wp_bind, wp_modify. set (w1 := set_spi_rx_buf rx w).
    assert (Hw1 : wf_fw w1).
    { split; try done. simpl. by rewrite (memcpy_at_length _ _ _ _ _ Hcpy). }
    assert (Hcmd : rx !! 0%nat = Some command).
    { rewrite (memcpy_at_lookup _ _ _ _ _ _ Hcpy). by rewrite decide_True by (simpl; lia). }
    eapply wp_mono; [exact (event_handle_ok w1 command Hw1 Hcmd)| |done].
    intros _ w' (Hw' & _ & Hflag & Hpend & Hc & Hlo).
    split; [split|]; [done| |done|].
    + unfold loaded. intros Hfull. unfold pending in Hpend. rewrite Hfull, Hc in Hpend.
      rewrite Hc. apply tail_fixed in Hpend. by rewrite Hpend.
    + unfold abs. rewrite Hflag, Hpend. cbn [bcp_step abs sniffing waiting head event_queue w1].
      f_equal.
      * simpl. f_equal. apply eq_true_iff_eq. rewrite Z.eqb_eq, bool_decide_eq_true. split; congruence.
      * unfold pending. simpl. destruct (buffer_full w) eqn:Hfull; [done|]. by rewrite Hl.
Qed.
End lemmas.

(** ** Theorems: the firmware *)

(** What the host reads during an event: a transfer of [n] bytes gives it the
    first [n] bytes of [spi_tx_buf]; it looks at them if the interrupt line is
    high. *)
Definition handle_read `{Sdk} (e : event) : M fw (list (list Z)) :=
  log ← gets sdk_log;
  tx ← gets spi_tx_buf;
  handle e;;
  mret (match e with
        | Transfer mosi =>
            if bool_decide (pin_level INTERRUPT_PIN log = Some true) then [take (length mosi) tx] else []
        | _ => []
        end).

Fixpoint handle_reads `{Sdk} (es : list event) : M fw (list (list Z)) :=
  match es with
  | [] => mret []
  | e :: es => r ← handle_read e; rs ← handle_reads es; mret (r ++ rs)
  end.

(** The bytes of a transfer carry the frame of [v], as far as they reach. *)
Definition carries (v : event_view) (bytes : list Z) : Prop :=
  take (length (frame v)) bytes = take (length bytes) (frame v).

Lemma carries_prefix v bytes :
  carries v bytes -> (length (frame v) <= length bytes)%nat -> frame v `prefix_of` bytes.
Proof.
  intros Hc Hlen. unfold carries in Hc. rewrite (take_ge (frame v)) in Hc by lia.
  rewrite <-Hc. apply prefix_take.
Qed.

(** The advertisements that were heard while sniffing and found room. *)
Fixpoint accepted (b : bcp) (es : list event) : list event_view :=
  match es with
  | [] => []
  | e :: es =>
      match e with
      | Ble (BLE_GAP_EVT_ADV_REPORT r) =>
          if sniffing b && bool_decide (length (waiting b) < 5)%nat then [adv_view r] else []
      | _ => []
      end ++ accepted (bcp_step b e) es
  end.

Section theorems.
Context `{Sdk}.
Implicit Types w : fw.

Lemma wp_handle_all es w :
  inv w -> Forall valid_event es ->
  wp (handle_all es) w (fun _ w' => inv w' /\ abs w' = foldl bcp_step (abs w) es)
    reset_by_failure.
Proof.
  revert w. induction es as [|e es IH]; intros w Hi Hes; [by apply wp_ret|].
  apply Forall_cons in Hes as [He Hes]. cbn [handle_all foldl]. apply wp_bind.
  eapply wp_mono; [by apply wp_handle| |done]. intros _ w' [Hi' <-]. by apply IH.
Qed.

Lemma wp_boot (Q : () -> fw -> Prop) :
  (forall w, inv w -> abs w = Bcp false [] -> Q tt w) ->
  wp main_init boot Q reset_by_failure.
Proof.
  intros HQ. apply wp_main_init. intros w Hq Htx Hrx Hfull Hsniff Hline.
  apply HQ; [split; [split|..]|].
  - rewrite Hq. apply initial_wf.
  - by rewrite Htx.
  - by rewrite Hrx.
  - by rewrite Hq.
  - unfold loaded. by rewrite Hq.
  - unfold line_ok. by rewrite Hline, Hfull.
  - unfold abs, pending. by rewrite Hsniff, Hfull, Hq.
Qed.

(** C3: from power-up, through any sequence of events the hardware can
    produce, the firmware keeps its invariant (well-formed queue and buffers,
    nothing stuck in the queue behind a free frame buffer, the interrupt line
    high exactly when a frame is waiting) and is, to its host, the
    co-processor [bcp]: no undefined behaviour, and a reset only after a
    failed SDK call. *)
Theorem firmware_refines_bcp es :
  Forall valid_event es ->
  wp (main_init;; handle_all es) boot
    (fun _ w => inv w /\ abs w = foldl bcp_step (Bcp false []) es) reset_by_failure.
Proof.
  intros Hes. apply wp_bind, wp_boot. intros w Hi <-. by apply wp_handle_all.
Qed.

(** The first of the events that wait is in the buffer while the line is high. *)
Lemma line_frame w :
  inv w -> Forall fits (pending w) ->
  match pending w with
  | [] => pin_level INTERRUPT_PIN (sdk_log w) <> Some true
  | v :: _ => pin_level INTERRUPT_PIN (sdk_log w) = Some true /\
      forall n, (n <= 64)%nat -> carries v (take n (spi_tx_buf w))
  end.
Proof.
  intros [Hwf Hl Hline]. rewrite Hline. unfold pending, loaded in *.
  destruct (buffer_full w); [|by rewrite Hl]. cbn [app]. intros [Hf _]%Forall_cons. split; [done|].
  intros n Hn. pose proof (wf_tx _ Hwf) as Htx. revert Hf. unfold carries, decode, fits, frame. cbn [fst snd].
  destruct (spi_tx_buf w) as [|b0 [|b1 tx]]; try done. cbn [lookup_total list_lookup_total drop].
  intros Hf. rewrite drop_0, Z.sub_add. simpl in Htx.
  assert (b0 :: b1 :: take (Z.to_nat (b0 - 1)) tx = take (2 + Z.to_nat (b0 - 1)) (b0 :: b1 :: tx)) as -> by done.
  rewrite !take_take, !length_take. f_equal. cbn [length]. lia.
Qed.

Lemma adv_view_fits e b :
  valid_event e -> Forall fits (waiting b) -> Forall fits (waiting (bcp_step b e)).
Proof.
  intros He Hb. destruct e as [|[r| | |]|s|mosi|]; cbn [bcp_step]; try done.
  - destruct (sniffing b && _); [|done]. cbn [waiting]. apply Forall_app_2; [done|].
    constructor; [|done]. unfold fits, adv_view. simpl in *. lia.
  - cbn [waiting]. destruct (waiting b); [done|]. by apply Forall_cons in Hb as [_ Hb].
Qed.

(** The bytes of a read are as many as the transfer has. *)
Definition from_transfer (es : list event) (bytes : list Z) : Prop :=
  exists mosi, Transfer mosi ∈ es /\ length bytes = length mosi.

Lemma wp_handle_reads es w :
  inv w -> Forall fits (pending w) -> Forall valid_event es ->
  wp (handle_reads es) w
    (fun reads w' => exists vs, vs ++ pending w' = pending w ++ accepted (abs w) es /\
       Forall2 carries vs reads /\ Forall (from_transfer es) reads) reset_by_failure.
Proof.
  revert w. induction es as [|e es IH]; intros w Hi Hf Hes.
  { apply wp_ret. exists []. by rewrite app_nil_r. }
  apply Forall_cons in Hes as [He Hes]. cbn [handle_reads accepted].
  apply wp_bind. unfold handle_read. apply wp_bind, wp_gets, wp_bind, wp_gets, wp_bind.
  eapply wp_mono; [by apply wp_handle| |done]. intros _ w1 [Hi1 Habs1].
  assert (pending w1 = waiting (bcp_step (abs w) e)) as Hp1 by by rewrite <-Habs1.
  apply wp_ret, wp_bind. eapply wp_mono; [apply IH; [done| |done]| |done].
  { rewrite Hp1. by apply adv_view_fits. }
  intros reads w' (vs & Hvs & Hreads & Hfrom). apply wp_ret. rewrite Habs1, Hp1 in Hvs.
  assert (Forall (from_transfer (e :: es)) reads) as Hfrom'.
  { eapply Forall_impl; [exact Hfrom|]. intros bytes (mosi & Hin & Hlen). exists mosi. split; [by right|done]. }
  pose proof (line_frame w Hi Hf) as Hline.
  destruct e as [|[r| | |]|s|mosi|]; cbn [bcp_step waiting app] in *; rewrite ?app_nil_r;
    try (exists vs; by split_and!).
  - exists vs. split_and!; [|done..]. rewrite Hvs.
    destruct (sniffing (abs w) && _); cbn [waiting]; [by rewrite <-app_assoc|done].
  - change (waiting (abs w)) with (pending w) in *. destruct (pending w) as [|v rest].
    + rewrite (bool_decide_false _ Hline). exists vs. split; [exact Hvs|]. by split.
    + destruct Hline as [Hhigh Hc]. rewrite (bool_decide_true _ Hhigh). exists (v :: vs).
      split; [cbn [app]; f_equal; exact Hvs|]. split.
      * constructor; [|done]. apply Hc. cbn [valid_event] in He. lia.
      * constructor; [|done]. exists mosi. split; [by left|]. cbn [valid_event] in He.
        rewrite length_take, (wf_tx _ (inv_wf _ Hi)). lia.
Qed.

(** Frames of advertisements have at most 41 bytes. *)
Lemma accepted_short b es :
  Forall valid_event es -> Forall (fun v => length (frame v) <= 41)%nat (accepted b es).
Proof.
  intros Hes. revert b. induction Hes as [|e es He Hes IH]; intros b; [done|]. cbn [accepted].
  apply Forall_app_2; [|apply IH]. destruct e as [|[r| | |]|s|mosi|]; try done.
  destruct (sniffing b && _); [|done]. constructor; [|done]. unfold frame, adv_view. cbn [length valid_event] in *.
  rewrite length_take. lia.
Qed.

(** C11: end to end on the co-processor.  The host reads in transfers of any
    length from 1 to 64 bytes, and looks at what it got when the interrupt line
    was high.  Then what it has read are, transfer by transfer, the frames of the
    advertisements accepted since sniffing was turned on, in the order they were
    heard, each cut to the length of its transfer; those still waiting follow.
    None is duplicated, reordered or skipped, except those that found all five
    places taken.  If every transfer has at least 41 bytes, each read begins with
    the whole frame (the driver's transfers have 40, which cuts an advertisement
    of 31 bytes). *)
Theorem advertisements_in_order es :
  Forall valid_event es ->
  wp (main_init;; handle_reads es) boot
    (fun reads w => exists vs, vs ++ pending w = accepted (Bcp false []) es /\
       Forall2 carries vs reads /\ Forall (from_transfer es) reads /\
       ((forall mosi, Transfer mosi ∈ es -> (41 <= length mosi)%nat) ->
          Forall2 (fun v bytes => frame v `prefix_of` bytes) vs reads)) reset_by_failure.
Proof.
  intros Hes. apply wp_bind, wp_boot. intros w Hi Habs.
  pose proof (f_equal waiting Habs) as Hp. cbn [abs waiting] in Hp.
  eapply wp_mono; [apply wp_handle_reads; [done|by rewrite Hp|done]| |done].
  intros reads w' (vs & Hvs & Hreads & Hfrom). rewrite Hp, Habs in Hvs. exists vs. split_and!; [done..|].
  intros Hlong. pose proof (accepted_short (Bcp false []) es Hes) as Hshort. cbn [app] in Hvs.
  rewrite <-Hvs in Hshort. apply Forall_app in Hshort as [Hshort _].
  apply Forall2_same_length_lookup. split; [by eapply Forall2_length|]. intros k v bytes Hv Hb.
  pose proof (Forall2_lookup_lr _ _ _ _ _ _ Hreads Hv Hb) as Hc.
  destruct (Forall_lookup_1 _ _ _ _ Hfrom Hb) as (mosi & Hin & Hlen).
  pose proof (Forall_lookup_1 _ _ _ _ Hshort Hv) as Hs. cbv beta in Hs. specialize (Hlong mosi Hin).
  apply carries_prefix; [done|]. lia.
Qed.

(** scanning waits for the flash.  [scan_start] starts the scan with the
    fixed parameters when no flash access is pending and otherwise only notes
    that it must wait; a flash event then, and only then, tries again. *)
Theorem scan_waits_for_flash w evt :
  wp (sys_evt_dispatch evt) w (fun _ w' =>
      let w1 := add_call (pstorage_sys_event_handler evt) w in
      w' = match evt with
           | sys_evt_other _ => w1
           | _ =>
               if m_memory_access_in_progress w
               then scan_started (set_m_memory_access_in_progress false w1) else w1
           end)
    reset_by_failure.
Proof.
  unfold sys_evt_dispatch, on_sys_evt. apply wp_bind, wp_call_void.
  destruct evt; [| |by apply wp_ret];
    (apply wp_bind, wp_gets; cbn; destruct (m_memory_access_in_progress w);
     [by apply wp_bind, wp_modify, wp_scan_start|by apply wp_ret]).
Qed.
End theorems.

(** ** Theorems: the parser of advertisement data *)

(** A field of advertisement data is a type and a payload; in memory it is
    preceded by the length of both. *)
Definition ad_field : Type := Z * list Z.
Definition encode_field (f : ad_field) : list Z :=
  let '(t, payload) := f in (Z.of_nat (length payload) + 1) :: t :: payload.
Definition encode (fs : list ad_field) : list Z := fs ≫= encode_field.

(** The payload of the first field of a type. *)
Fixpoint first_field (type : Z) (fs : list ad_field) : option (list Z) :=
  match fs with
  | [] => None
  | (t, payload) :: fs => if t =? type then Some payload else first_field type fs
  end.

Definition valid_field (f : ad_field) : Prop := (length f.2 <= 254)%nat.

Lemma length_encode_field f : length (encode_field f) = (2 + length f.2)%nat.
Proof. by destruct f. Qed.

Lemma encode_cons f fs : encode (f :: fs) = encode_field f ++ encode fs.
Proof. done. Qed.

(** The loop at the start of a field. *)
Lemma adv_report_loop_fields fs fuel type pre post off dl td index :
  Forall valid_field fs -> dl <= 65535 ->
  index = Z.of_nat (length pre) - Z.of_nat off -> (off <= length pre)%nat ->
  dl = index + Z.of_nat (length (encode fs)) ->
  (length (encode fs) < fuel)%nat ->
  let mem := pre ++ encode fs ++ post in
  match first_field type fs with
  | None => adv_report_loop fuel type mem (Data off dl) td index = Parsed NRF_ERROR_NOT_FOUND td
  | Some payload => exists td',
      adv_report_loop fuel type mem (Data off dl) td index = Parsed NRF_SUCCESS td' /\
      data_len td' = Z.of_nat (length payload) /\
      take (length payload) (drop (p_data td') mem) = payload
  end.
Proof.
  revert fuel pre index. induction fs as [|[t payload] fs IH];
    intros fuel pre index Hfs Hdl Hindex Hoff Hlen Hfuel mem;
    (destruct fuel as [|fuel]; [simpl in *; lia|]); cbn [first_field adv_report_loop data_len p_data].
  { by rewrite (proj2 (Z.ltb_ge _ _)) by (simpl in *; lia). }
  apply Forall_cons in Hfs as [Hf Hfs]. unfold valid_field in Hf. cbn [snd] in Hf.
  rewrite encode_cons, length_app, length_encode_field in Hlen, Hfuel. cbn [snd] in Hlen, Hfuel.
  rewrite (proj2 (Z.ltb_lt _ _)), !(u32_small _) by lia.
  assert (mem = (pre ++ encode_field (t, payload)) ++ encode fs ++ post) as Hmem.
  { unfold mem. rewrite encode_cons. by rewrite !app_assoc. }
  assert (mem = pre ++ (Z.of_nat (length payload) + 1) :: t :: payload ++ encode fs ++ post) as Emem.
  { rewrite Hmem, <-app_assoc. done. }
  clearbody mem.
  replace (off + Z.to_nat index)%nat with (length pre + 0)%nat by lia.
  replace (off + Z.to_nat (index + 1))%nat with (length pre + 1)%nat by lia.
  assert (mem !! (length pre + 0)%nat = Some (Z.of_nat (length payload) + 1)) as ->.
  { by rewrite Emem, lookup_app_plus. }
  assert (mem !! (length pre + 1)%nat = Some t) as ->.
  { by rewrite Emem, lookup_app_plus. }
  destruct (t =? type).
  - eexists. split; [done|]. cbn [data_len p_data]. split; [rewrite u16_small; lia|].
    replace (off + Z.to_nat (index + 2))%nat with (length pre + 2)%nat by lia.
    rewrite Emem, <-drop_drop, drop_app_length. cbn [skipn]. by rewrite drop_0, take_app_length.
  - rewrite u32_small by lia. rewrite Hmem.
    apply IH; rewrite ?length_app, ?length_encode_field; cbn [snd]; (done || lia).
Qed.

(** A UUID of 16 bits, as it is sent. *)
Definition uuid16 (u : Z) : list Z := [u mod 256; u / 256].

Lemma length_uuids us : length (us ≫= uuid16) = (length us * UUID16_SIZE)%nat.
Proof. induction us as [|u us IH]; [done|]. cbn. by rewrite IH. Qed.

Lemma lor_bytes u : Z.lor (Z.shiftl (u / 256) 8) (u mod 256) = u.
Proof.
  change 256 with (2 ^ 8). rewrite <-Z.shiftr_div_pow2, <-Z.land_ones, <-Z.ldiff_ones_r by lia.
  apply Z.bits_inj'. intros n Hn. rewrite Z.lor_spec, Z.ldiff_spec, Z.land_spec.
  destruct (Z.testbit u n), (Z.testbit (Z.ones 8) n); done.
Qed.

Lemma uuid16_extract mem src u :
  0 <= u < 65536 -> mem !! src = Some (u mod 256) -> mem !! (src + 1)%nat = Some (u / 256) ->
  UUID16_EXTRACT mem src = Some u.
Proof.
  intros Hu H0 H1. unfold UUID16_EXTRACT. rewrite H1. cbn -[Z.shiftl Z.div]. rewrite H0.
  cbn -[Z.shiftl Z.div]. rewrite (u16_small (u / 256)) by zmod.
  rewrite (u16_small (Z.shiftl _ _)), lor_bytes, u16_small; [done|lia|].
  rewrite Z.shiftl_mul_pow2 by lia. zmod.
Qed.

(** In a list of UUIDs that was found in the data, the macro reads every one. *)
Lemma uuids_extracted mem off us k u :
  take (length us * UUID16_SIZE) (drop off mem) = us ≫= uuid16 -> us !! k = Some u ->
  0 <= u < 65536 -> UUID16_EXTRACT mem (off + k * UUID16_SIZE) = Some u.
Proof.
  intros Hmem Hk Hu. pose proof (lookup_lt_Some _ _ _ Hk) as Hlt. unfold UUID16_SIZE in *.
  assert (Hat : forall j, (j < 2)%nat -> mem !! (off + k * 2 + j)%nat = uuid16 u !! j).
  { intros j Hj. rewrite <-Nat.add_assoc, <-lookup_drop, <-(lookup_take_lt _ (length us * 2)) by lia.
    rewrite Hmem. clear Hmem Hlt. revert k Hk.
    induction us as [|v us IH]; intros [|k] Hk; simplify_eq/=; [by destruct j as [|[|[]]]; (lia || done)|].
    apply IH, Hk. }
  apply uuid16_extract; [done| |by rewrite Hat by lia].
  rewrite <-(Nat.add_0_r (off + k * 2)). by rewrite Hat by lia.
Qed.

(** C39: on well-formed advertisement data, wherever it lies in memory,
    [adv_report_parse] finds the first field of the requested type and returns
    the place and the length of its payload; when there is none it returns
    [NRF_ERROR_NOT_FOUND] and leaves the output alone.  If the payload is a list
    of 16-bit UUIDs, [UUID16_EXTRACT] reads each of them where it was found. *)
Theorem adv_report_parse_encode fs type pre post td :
  Forall valid_field fs -> Z.of_nat (length (encode fs)) <= 65535 ->
  let mem := pre ++ encode fs ++ post in
  let r := adv_report_parse type mem (Data (length pre) (Z.of_nat (length (encode fs)))) td in
  match first_field type fs with
  | None => r = Parsed NRF_ERROR_NOT_FOUND td
  | Some payload => exists td', r = Parsed NRF_SUCCESS td' /\
      data_len td' = Z.of_nat (length payload) /\
      take (length payload) (drop (p_data td') mem) = payload /\
      forall us k u, payload = us ≫= uuid16 -> us !! k = Some u -> 0 <= u < 65536 ->
        UUID16_EXTRACT mem (p_data td' + k * UUID16_SIZE) = Some u
  end.
Proof.
  intros Hfs Hlen mem r.
  pose proof (adv_report_loop_fields fs (S (length (encode fs))) type pre post (length pre)
    (Z.of_nat (length (encode fs))) td 0) as H.
  unfold r, adv_report_parse. cbn [data_len]. rewrite Nat2Z.id. fold mem in H |- *.
  destruct (first_field type fs) as [payload|]; [|apply H; (done || lia)].
  destruct H as (td' & E & Hn & Hpay); try (done || lia).
  exists td'. split_and!; try done. intros us k u -> Hk Hu.
  apply (uuids_extracted _ _ us); [|done|done]. by rewrite <-length_uuids.
Qed.

Lemma adv_report_loop_fuel fuel type mem advdata td index :
  Forall byte mem -> data_len advdata <= 65535 -> 0 <= index <= 65535 + 256 ->
  data_len advdata < index + Z.of_nat fuel -> (0 < fuel)%nat ->
  adv_report_loop fuel type mem advdata td index <> OutOfFuel.
Proof.
  intros Hmem Hdl. revert index. induction fuel as [|fuel IH]; intros index Hi Hfuel Hpos; [lia|].
  cbn [adv_report_loop]. destruct (Z.ltb_spec index (data_len advdata)); [|done].
  destruct (mem !! _) as [field_length|] eqn:Efl; [|done].
  destruct (mem !! (_ + Z.to_nat (u32 (index + 1)))%nat) as [field_type|]; [|done].
  destruct (field_type =? type); [done|].
  pose proof (Forall_lookup_byte _ _ _ Hmem Efl) as Hb. unfold byte in Hb.
  rewrite u32_small by lia. apply IH; lia.
Qed.

(** C40: [adv_report_parse] terminates on every input, well-formed or not: the
    fuel given to its loop, one more than the number of bytes, is enough. *)
Theorem adv_report_parse_terminates type mem advdata td :
  Forall byte mem -> 0 <= data_len advdata <= 65535 ->
  adv_report_parse type mem advdata td <> OutOfFuel.
Proof. intros. apply adv_report_loop_fuel; (done || lia). Qed.

(** A field of length 0 whose next byte is the requested type is reported as
    found with 65535 bytes of data: [field_length-1] wraps around in the 16-bit
    [data_len]. *)
Theorem adv_report_parse_zero_field type pre post dl td :
  0 < dl ->
  adv_report_parse type (pre ++ 0 :: type :: post) (Data (length pre) dl) td =
    Parsed NRF_SUCCESS (Data (length pre + 2) 65535).
Proof.
  intros Hdl. unfold adv_report_parse. cbn [adv_report_loop data_len p_data].
  rewrite (proj2 (Z.ltb_lt _ _)) by done.
  replace (length pre + Z.to_nat 0)%nat with (length pre + 0)%nat by lia.
  change (Z.to_nat (u32 (0 + 1))) with 1%nat. change (Z.to_nat (u32 (0 + 2))) with 2%nat.
  rewrite !lookup_app_plus. cbn [lookup list_lookup]. by rewrite Z.eqb_refl.
Qed.

(** ** Witnesses *)

(** The host turns sniffing on, two advertisements arrive, the host reads one. *)
Definition demo_report (b : Z) : adv_report := AdvReport 1 (replicate 9 b ++ replicate 30 0).
Definition demo : list event :=
  [Wakeup; Transfer [2; 0]; Ble (BLE_GAP_EVT_ADV_REPORT (demo_report 5));
   Ble (BLE_GAP_EVT_ADV_REPORT (demo_report 6)); Transfer (1 :: replicate 39 0)].

(** The same, with a transfer of four bytes. *)
Definition short_demo : list event := removelast demo ++ [Transfer [1; 0; 0; 0]].

Lemma firmware_refines_bcp_witness :
  exists w, (@main_init quiet_sdk;; @handle_all quiet_sdk demo) boot = Done tt w /\
    abs w = Bcp true [(1, 9, replicate 9 6)].
Proof.
  destruct (wp_run _ _ _ _ (@firmware_refines_bcp quiet_sdk demo ltac:(vm_decide))
    ltac:(vm_compute; reflexivity)) as ([] & w & E & _ & Habs).
  exists w. split; [exact E|exact Habs].
Defined.

Lemma advertisements_in_order_witness :
  exists reads w vs, (@main_init quiet_sdk;; @handle_reads quiet_sdk short_demo) boot = Done reads w /\
    reads = [[10; 1; 5; 5]] /\
    vs ++ pending w = [(1, 9, replicate 9 5); (1, 9, replicate 9 6)] /\ Forall2 carries vs reads.
Proof.
  destruct (wp_run _ _ _ _ (@advertisements_in_order quiet_sdk short_demo ltac:(vm_decide))
    ltac:(vm_compute; reflexivity)) as (reads & w & E & vs & Horder & Hc & _).
  exists reads, w, vs. split_and!; [exact E| |exact Horder|exact Hc].
  vm_compute in E. by injection E as <- _.
Defined.

(** Two fields, the second of which holds the UUID of the heart rate service. *)
Definition demo_fields : list ad_field := [(1, [6]); (3, [0x0D; 0x18])].

Lemma adv_report_parse_encode_witness :
  exists td', adv_report_parse 3 ([9; 9] ++ encode demo_fields ++ [9]) (Data 2 7) (Data 0 0) =
    Parsed NRF_SUCCESS td' /\ data_len td' = 2 /\ p_data td' = 7%nat /\
    UUID16_EXTRACT ([9; 9] ++ encode demo_fields ++ [9]) (p_data td') = Some 0x180D.
Proof.
  destruct (adv_report_parse_encode demo_fields 3 [9; 9] [9] (Data 0 0)) as (td' & E & Hlen & _ & Hu).
  - by repeat constructor; simpl; lia.
  - by vm_compute.
  - exists td'. split_and!; [exact E|exact Hlen|by injection E as <-|].
    rewrite <-(Nat.add_0_r (p_data td')). by apply (Hu [0x180D] 0%nat 0x180D).
Defined.

Lemma adv_report_parse_terminates_witness :
  adv_report_parse 9 [0; 0; 0; 255] (Data 0 4) (Data 0 0) <> OutOfFuel.
Proof.
  apply (adv_report_parse_terminates 9 [0; 0; 0; 255] (Data 0 4) (Data 0 0)).
  - by vm_decide.
  - by vm_compute.
Defined.

Lemma adv_report_parse_zero_field_witness :
  adv_report_parse 3 [0; 3; 7] (Data 0 3) (Data 0 0) = Parsed NRF_SUCCESS (Data 2 65535).
Proof. apply (adv_report_parse_zero_field 3 [] [7] 3 (Data 0 0)). lia. Defined.

End Main.
