(* ===== verification/NrfFlash.v ===== *)
(** * Where the co-processor keeps persistent data

    Models [src/software/nrf51822/pstorage_platform.h]: the flash pages that the
    SDK's persistent storage uses, computed from registers of the chip with the
    32-bit arithmetic of C.  Shown: a page for the data of every application and
    the swap page lie next to each other at the top of the flash, or below the
    boot loader if there is one. *)
From S2P Require Import Prelude.

Module Flash.

(** The registers: [NRF_FICR->CODEPAGESIZE], [NRF_FICR->CODESIZE] (in pages) and
    [NRF_UICR->BOOTLOADERADDR]. *)
Record chip := Chip { CODEPAGESIZE : Z; CODESIZE : Z; BOOTLOADERADDR : Z }.

Definition PSTORAGE_FLASH_PAGE_SIZE (c : chip) : Z := u16 (CODEPAGESIZE c).
Definition PSTORAGE_FLASH_EMPTY_MASK : Z := 0xFFFFFFFF.

(** The quotient of [uint32_t]; [None]: a division by zero. *)
Definition PSTORAGE_FLASH_PAGE_END (c : chip) : option Z :=
  if negb (BOOTLOADERADDR c =? PSTORAGE_FLASH_EMPTY_MASK)
  then if PSTORAGE_FLASH_PAGE_SIZE c =? 0 then None
       else Some (BOOTLOADERADDR c / PSTORAGE_FLASH_PAGE_SIZE c)
  else Some (CODESIZE c).

Definition PSTORAGE_MAX_APPLICATIONS : Z := 1.
Definition PSTORAGE_MIN_BLOCK_SIZE : Z := 0x0010.

Definition PSTORAGE_DATA_START_ADDR (c : chip) : option Z :=
  pages ← PSTORAGE_FLASH_PAGE_END c;
  Some (u32 (u32 (u32 (pages - PSTORAGE_MAX_APPLICATIONS) - 1) * PSTORAGE_FLASH_PAGE_SIZE c)).

Definition PSTORAGE_DATA_END_ADDR (c : chip) : option Z :=
  pages ← PSTORAGE_FLASH_PAGE_END c;
  Some (u32 (u32 (pages - 1) * PSTORAGE_FLASH_PAGE_SIZE c)).

Definition PSTORAGE_SWAP_ADDR (c : chip) : option Z := PSTORAGE_DATA_END_ADDR c.
Definition PSTORAGE_MAX_BLOCK_SIZE (c : chip) : Z := PSTORAGE_FLASH_PAGE_SIZE c.

(** ** Specification *)

(** Where the flash ends, or the boot loader begins. *)
Definition top (c : chip) : Z :=
  if BOOTLOADERADDR c =? PSTORAGE_FLASH_EMPTY_MASK then CODESIZE c * CODEPAGESIZE c
  else BOOTLOADERADDR c.

(** A chip with room for the pages. *)
Record roomy (c : chip) : Prop := Roomy {
  roomy_page : PSTORAGE_MIN_BLOCK_SIZE <= CODEPAGESIZE c < 65536;
  roomy_size : 0 <= CODESIZE c * CODEPAGESIZE c < 4294967296;
  roomy_boot : 0 <= BOOTLOADERADDR c < 4294967296;
  roomy_top : (PSTORAGE_MAX_APPLICATIONS + 1) * CODEPAGESIZE c <= top c;
}.

(** The data of [PSTORAGE_MAX_APPLICATIONS] applications, a page each, are
    followed by the swap page, which is the last whole page below the top; all of
    them begin at page boundaries, and no computation wraps around. *)
Theorem flash_layout c :
  roomy c ->
  exists start swap, PSTORAGE_DATA_START_ADDR c = Some start /\
    PSTORAGE_DATA_END_ADDR c = Some swap /\ PSTORAGE_SWAP_ADDR c = Some swap /\
    0 <= start /\ start mod CODEPAGESIZE c = 0 /\
    swap = start + PSTORAGE_MAX_APPLICATIONS * PSTORAGE_MAX_BLOCK_SIZE c /\
    swap + CODEPAGESIZE c <= top c < swap + 2 * CODEPAGESIZE c.
Proof.
  intros [Hpage Hsize Hboot Htop].
  unfold PSTORAGE_SWAP_ADDR, PSTORAGE_DATA_START_ADDR, PSTORAGE_DATA_END_ADDR, PSTORAGE_FLASH_PAGE_END,
    PSTORAGE_MAX_BLOCK_SIZE, PSTORAGE_FLASH_PAGE_SIZE, PSTORAGE_MIN_BLOCK_SIZE, PSTORAGE_MAX_APPLICATIONS in *.
  rewrite (u16_small (CODEPAGESIZE c)) by lia. set (p := CODEPAGESIZE c) in *.
  assert (exists pages, (if negb (BOOTLOADERADDR c =? PSTORAGE_FLASH_EMPTY_MASK)
      then if p =? 0 then None else Some (BOOTLOADERADDR c / p) else Some (CODESIZE c)) = Some pages /\
    pages * p <= top c < (pages + 1) * p /\ top c < 4294967296) as (pages & -> & Hpages & Hmax).
  { unfold top in *. fold p in Htop |- *. destruct (BOOTLOADERADDR c =? PSTORAGE_FLASH_EMPTY_MASK); cbn [negb].
    - exists (CODESIZE c). split; [done|]. lia.
    - rewrite (proj2 (Z.eqb_neq p 0)) by lia. eexists. split; [done|].
      pose proof (Z.div_mod (BOOTLOADERADDR c) p ltac:(lia)). pose proof (Z.mod_pos_bound (BOOTLOADERADDR c) p ltac:(lia)). nia. }
  assert (2 <= pages < 4294967296) as Hp2 by nia.
  cbn [mbind option_bind]. rewrite !(u32_small (pages - 1)), (u32_small (pages - 1 - 1)) by lia.
  rewrite !u32_small by nia. eexists _, _. split_and!; [done|done|done|nia|apply Z.mod_mul; lia|nia|nia|nia].
Qed.

(** The nRF51822 with 256 kB and a boot loader at 0x3C000, and without one. *)
Lemma flash_layout_witness :
  PSTORAGE_DATA_START_ADDR (Chip 1024 256 0x3C000) = Some 0x3B800 /\
  exists start swap, PSTORAGE_DATA_START_ADDR (Chip 1024 256 0xFFFFFFFF) = Some start /\
    PSTORAGE_SWAP_ADDR (Chip 1024 256 0xFFFFFFFF) = Some swap /\ swap = start + 1024.
Proof.
  split; [reflexivity|].
  destruct (flash_layout (Chip 1024 256 0xFFFFFFFF)) as (start & swap & Hs & _ & Hw & _ & _ & E & _).
  - split; vm_compute; intuition discriminate.
  - exists start, swap. split; [exact Hs|]. split; [exact Hw|]. exact E.
Defined.
End Flash.
