(* ===== verification/GapSpi.v ===== *)
(** * The SPI multiplexer module

    Models [src/software/driver/gapspi/gapspi.c]: one SPI bus and one chip select
    are shared by several radios through a demultiplexer whose select pins the
    module drives.  [gap_spi_async] tags a message with its device; the module
    splices [our_transfer_one_message] into the SPI controller so that the
    select pins are set from the tag just before the message goes out.

    The kernel is not part of the repository: its answers are a parameter
    ([Kernel]) and the calls made to it are recorded in [klog], newest first. *)
From S2P Require Import Prelude.

Module GapSpi.

(** The error numbers the drivers return, negated in the source. *)
Inductive errno := EINVAL | EFAULT | ENOTTY | EINTR.

Inductive result :=
| Ret (n : Z)
| Err (e : errno).

#[export] Instance errno_eq_dec : EqDecision errno.
Proof. solve_decision. Defined.
#[export] Instance result_eq_dec : EqDecision result.
Proof. solve_decision. Defined.

(** A [struct spi_message]: who it belongs to, and the [state] field the module
    stores the device number in. *)
Record spi_message := SpiMessage { owner : Z; state : Z }.

Inductive kcall :=
| gpio_set_value (pin value : Z)
| devm_gpio_request_one (pin : Z)
| spi_async (m : spi_message)
| spi_sync (m : spi_message)
| controller_transfer (m : spi_message).

(** The functions [master->transfer_one_message] can point to. *)
Inductive transfer_fn := controller_transfer_one_message | our_transfer.

Class Kernel := {
  (** the device tree: "num-csmux-pins" and "csmux%i-gpio" *)
  num_csmux_pins : option Z;
  csmux_gpio : nat -> Z;
  gpio_is_valid : Z -> bool;
  (** what the calls return, given the calls before *)
  kret : list kcall -> kcall -> Z;
}.

(** The module's globals, the controller's function pointer and the trace. *)
Record bus := Bus {
  num_demux_ctrl_pins : Z;
  demux_ctrl_pins : list Z;
  gapspi_spi_device : bool;
  real_transfer_one_message : option transfer_fn;
  master_transfer : transfer_fn;
  klog : list kcall;
}.

(** Before the module is loaded. *)
Definition unloaded : bus :=
  Bus 0 [0; 0; 0] false None controller_transfer_one_message [].

Definition set_num (n : Z) (b : bus) : bus :=
  Bus n (demux_ctrl_pins b) (gapspi_spi_device b) (real_transfer_one_message b)
      (master_transfer b) (klog b).
Definition set_pins (l : list Z) (b : bus) : bus :=
  Bus (num_demux_ctrl_pins b) l (gapspi_spi_device b) (real_transfer_one_message b)
      (master_transfer b) (klog b).
Definition set_device (d : bool) (b : bus) : bus :=
  Bus (num_demux_ctrl_pins b) (demux_ctrl_pins b) d (real_transfer_one_message b)
      (master_transfer b) (klog b).
Definition set_real (f : option transfer_fn) (b : bus) : bus :=
  Bus (num_demux_ctrl_pins b) (demux_ctrl_pins b) (gapspi_spi_device b) f
      (master_transfer b) (klog b).
Definition set_master (f : transfer_fn) (b : bus) : bus :=
  Bus (num_demux_ctrl_pins b) (demux_ctrl_pins b) (gapspi_spi_device b)
      (real_transfer_one_message b) f (klog b).
Definition add_kcall (c : kcall) (b : bus) : bus :=
  Bus (num_demux_ctrl_pins b) (demux_ctrl_pins b) (gapspi_spi_device b)
      (real_transfer_one_message b) (master_transfer b) (c :: klog b).

(** ** Operations *)

(** A 32-bit device tree cell stored in an [int]. *)
Definition s32 (x : Z) : Z := (x + 2147483648) mod 4294967296 - 2147483648.

Section operations.
Context `{Kernel}.

Definition kernel (c : kcall) : M bus Z :=
  fun b => Done (kret (klog b) c) (add_kcall c b).

(** The body of the loop of [gapspi_cs_mux]. *)
Definition cs_mux_pin (id : Z) (i : nat) : M bus () :=
  pins ← gets demux_ctrl_pins;
  pin ← lift (pins !! i);
  (if negb (Z.land id (Z.shiftl 1 (Z.of_nat i)) =? 0)
   then kernel (gpio_set_value pin 1) else kernel (gpio_set_value pin 0));;
  mret ().

Fixpoint cs_mux_loop (id : Z) (n i : nat) : M bus () :=
  match n with
  | O => mret ()
  | S n => cs_mux_pin id i;; cs_mux_loop id n (S i)
  end.

(** [gapspi_cs_mux(id)] *)
Definition gapspi_cs_mux (id : Z) : M bus () :=
  n ← gets num_demux_ctrl_pins;
  cs_mux_loop id (Z.to_nat n) 0.

(** [gap_spi_async(message, dev_id)] and [gap_spi_sync(message, dev_id)] *)
Definition gap_spi_async (message : spi_message) (dev_id : Z) : M bus Z :=
  kernel (spi_async (SpiMessage (owner message) dev_id)).
Definition gap_spi_sync (message : spi_message) (dev_id : Z) : M bus Z :=
  kernel (spi_sync (SpiMessage (owner message) dev_id)).

(** A call of [*f] with message [mesg]; [our_transfer] is
    [our_transfer_one_message], which calls [real_transfer_one_message].  The
    fuel bounds the depth of these calls; [None] when it runs out. *)
Fixpoint transfer_one_message (fuel : nat) (f : transfer_fn) (mesg : spi_message) :
    M bus (option Z) :=
  match fuel with
  | O => mret None
  | S fuel =>
      match f with
      | controller_transfer_one_message => r ← kernel (controller_transfer mesg); mret (Some r)
      | our_transfer =>
          gapspi_cs_mux (state mesg);;
          real ← gets real_transfer_one_message;
          real ← lift real;
          transfer_one_message fuel real mesg
      end
  end.

(** The loop of [gapspi_spi_probe] over the select pins; [Some] is an early
    return. *)
Fixpoint probe_pins (n i : nat) : M bus (option result) :=
  match n with
  | O => mret None
  | S n =>
      let pin := csmux_gpio i in
      pins ← gets demux_ctrl_pins;
      pins' ← lift (store_at pins i pin);
      modify (set_pins pins');;
      if negb (gpio_is_valid pin) then mret (Some (Err EINVAL)) else
      err ← kernel (devm_gpio_request_one pin);
      if negb (err =? 0) then mret (Some (Err EINVAL)) else
      probe_pins n (S i)
  end.

(** [gapspi_spi_probe(spi_device)] *)
Definition gapspi_spi_probe : M bus result :=
  match num_csmux_pins with
  | None => mret (Err EINVAL)
  | Some prop =>
      modify (set_num (s32 prop));;
      early ← probe_pins (Z.to_nat (s32 prop)) 0;
      match early with
      | Some r => mret r
      | None =>
          f ← gets master_transfer;
          modify (set_real (Some f));;
          modify (set_master our_transfer);;
          modify (set_device true);;
          mret (Ret 0)
      end
  end.

(** [gapspi_spi_remove(spi_device)] *)
Definition gapspi_spi_remove : M bus result :=
  real ← gets real_transfer_one_message;
  f ← lift real;
  modify (set_master f);;
  modify (set_device false);;
  mret (Ret 0).
End operations.

(** ** Reading the trace *)

(** The value last written to a pin. *)
Fixpoint gpio_value (pin : Z) (log : list kcall) : option Z :=
  match log with
  | [] => None
  | gpio_set_value p v :: log => if p =? pin then Some v else gpio_value pin log
  | _ :: log => gpio_value pin log
  end.

(** The device the demultiplexer selects when its input pins, least significant
    first, have these values. *)
Fixpoint selected (pins : list Z) (log : list kcall) : option Z :=
  match pins with
  | [] => Some 0
  | p :: pins =>
      v ← gpio_value p log; r ← selected pins log; Some (v + 2 * r)
  end.

(** The select pins in use. *)
Definition select_pins (b : bus) : list Z :=
  take (Z.to_nat (num_demux_ctrl_pins b)) (demux_ctrl_pins b).

(** The messages the SPI core has accepted, and those the controller's function
    has got, oldest first. *)
Fixpoint accepted `{Kernel} (log : list kcall) : list spi_message :=
  match log with
  | [] => []
  | c :: log =>
      accepted log ++ match c with spi_async m | spi_sync m => if kret log c =? 0 then [m] else [] | _ => [] end
  end.
Fixpoint transferred (log : list kcall) : list spi_message :=
  match log with
  | [] => []
  | c :: log => transferred log ++ match c with controller_transfer m => [m] | _ => [] end
  end.

(** Every message went to the controller while the demultiplexer was addressed
    with the device [dev] of its owner. *)
Fixpoint well_selected (dev : Z -> Z) (pins : list Z) (log : list kcall) : Prop :=
  match log with
  | [] => True
  | controller_transfer m :: log =>
      selected pins log = Some (dev (owner m) mod 2 ^ Z.of_nat (length pins)) /\ well_selected dev pins log
  | _ :: log => well_selected dev pins log
  end.

(** The module as [gapspi_spi_probe] leaves it. *)
Record probed (b : bus) : Prop := Probed {
  probed_num : 0 <= num_demux_ctrl_pins b <= 3;
  probed_pins : length (demux_ctrl_pins b) = 3%nat;
  probed_distinct : NoDup (select_pins b);
  probed_master : master_transfer b = our_transfer;
  probed_real : real_transfer_one_message b = Some controller_transfer_one_message;
}.

(** ** Lemmas *)

(** The test [id & (1 << i)]. *)
Lemma land_bit id i :
  0 <= i -> negb (Z.land id (Z.shiftl 1 i) =? 0) = Z.testbit id i.
Proof.
  intros Hi. rewrite Z.shiftl_1_l. destruct (Z.testbit id i) eqn:Hbit.
  - apply negb_true_iff, Z.eqb_neq. intros E.
    assert (Z.testbit (Z.land id (2 ^ i)) i = true) as Ht.
    { by rewrite Z.land_spec, Hbit, Z.pow2_bits_true by lia. }
    by rewrite E, Z.bits_0 in Ht.
  - apply negb_false_iff, Z.eqb_eq, Z.bits_inj. intros j. rewrite Z.land_spec, Z.bits_0.
    destruct (decide (i = j)) as [<-|Hne]; [by rewrite Hbit|].
    by rewrite Z.pow2_bits_false, andb_false_r by lia.
Qed.

(** The writes of [gapspi_cs_mux], oldest first, from pin number [i] on. *)
Fixpoint mux_calls (id : Z) (pins : list Z) (i : nat) : list kcall :=
  match pins with
  | [] => []
  | p :: pins => gpio_set_value p (Z.b2z (Z.testbit id (Z.of_nat i))) :: mux_calls id pins (S i)
  end.

Definition add_kcalls (cs : list kcall) (b : bus) : bus :=
  foldl (fun b c => add_kcall c b) b cs.

Lemma add_kcalls_eq cs b :
  add_kcalls cs b = Bus (num_demux_ctrl_pins b) (demux_ctrl_pins b) (gapspi_spi_device b)
    (real_transfer_one_message b) (master_transfer b) (rev cs ++ klog b).
Proof.
  unfold add_kcalls. revert b. induction cs as [|c cs IH]; intros b; simpl; [by destruct b|].
  rewrite IH. simpl. by rewrite <-app_assoc.
Qed.

Lemma gpio_value_mux_calls p id pins i log :
  p ∉ pins -> gpio_value p (rev (mux_calls id pins i) ++ log) = gpio_value p log.
Proof.
  revert i log. induction pins as [|q pins IH]; intros i log Hp; [done|].
  apply not_elem_of_cons in Hp as [Hne Hp]. simpl. rewrite <-app_assoc, IH by done. simpl.
  by rewrite (proj2 (Z.eqb_neq q p)) by done.
Qed.

Lemma bit_split x k : 0 <= k -> x mod 2 ^ (k + 1) = x mod 2 + 2 * ((x / 2) mod 2 ^ k).
Proof.
  intros. replace (2 ^ (k + 1)) with (2 * 2 ^ k) by (rewrite Z.pow_add_r; lia).
  apply Z.rem_mul_r; [done|]. by apply Z.pow_pos_nonneg.
Qed.

Lemma selected_mux_calls id pins i log :
  NoDup pins ->
  selected pins (rev (mux_calls id pins i) ++ log) =
    Some ((id / 2 ^ Z.of_nat i) mod 2 ^ Z.of_nat (length pins)).
Proof.
  revert i log. induction pins as [|p pins IH]; intros i log Hnd.
  { simpl. by rewrite Z.mod_1_r. }
  apply NoDup_cons in Hnd as [Hp Hnd]. cbn [selected mux_calls rev length].
  rewrite <-app_assoc, gpio_value_mux_calls, IH by done. cbn [app gpio_value].
  rewrite Z.eqb_refl. cbn [mbind option_bind]. f_equal.
  rewrite (Nat2Z.inj_succ (length pins)), <-Z.add_1_r, bit_split by lia.
  pose proof (Z.pow_pos_nonneg 2 (Z.of_nat i) ltac:(lia) ltac:(lia)).
  rewrite Z.div_div by lia.
  replace (2 ^ Z.of_nat i * 2) with (2 ^ Z.of_nat (S i)).
  2:{ rewrite Nat2Z.inj_succ, Z.pow_succ_r; lia. }
  by rewrite Z.testbit_spec' by lia.
Qed.

Lemma selected_controller_transfer pins m log :
  selected pins (controller_transfer m :: log) = selected pins log.
Proof. induction pins as [|p pins IH]; [done|]. cbn [selected gpio_value]. by rewrite IH. Qed.

Lemma well_selected_mux_calls dev pins id ps i log :
  well_selected dev pins (rev (mux_calls id ps i) ++ log) <-> well_selected dev pins log.
Proof.
  revert i log. induction ps as [|p ps IH]; intros i log; [done|].
  simpl. by rewrite <-app_assoc, IH.
Qed.

Lemma transferred_mux_calls id ps i log :
  transferred (rev (mux_calls id ps i) ++ log) = transferred log.
Proof.
  revert i log. induction ps as [|p ps IH]; intros i log; [done|].
  simpl. rewrite <-app_assoc, IH. cbn [transferred app]. by rewrite app_nil_r.
Qed.

Section lemmas.
Context `{Kernel}.
Implicit Types b : bus.

Lemma cs_mux_loop_ok id n i b :
  (i + n <= length (demux_ctrl_pins b))%nat ->
  cs_mux_loop id n i b =
    Done tt (add_kcalls (mux_calls id (take n (drop i (demux_ctrl_pins b))) i) b).
Proof.
  revert i b. induction n as [|n IH]; intros i b Hlen; [done|]. cbn [cs_mux_loop].
  destruct (lookup_lt_is_Some_2 (demux_ctrl_pins b) i) as [p Hp]; [lia|].
  rewrite (drop_S _ _ _ Hp). cbn [take mux_calls add_kcalls foldl].
  erewrite bind_Done.
  { apply (IH (S i) (add_kcall (gpio_set_value p (Z.b2z (Z.testbit id (Z.of_nat i)))) b)).
    simpl. lia. }
  unfold cs_mux_pin. rewrite (bind_Done _ _ _ (demux_ctrl_pins b) b) by done.
  rewrite (bind_Done _ _ _ p b) by by rewrite Hp.
  rewrite land_bit by lia. by destruct (Z.testbit id (Z.of_nat i)).
Qed.

Lemma cs_mux_loop_oob id n i b :
  (i <= length (demux_ctrl_pins b) < i + n)%nat -> cs_mux_loop id n i b = Undef.
Proof.
  revert i b. induction n as [|n IH]; intros i b Hlen; [lia|]. cbn [cs_mux_loop].
  destruct (demux_ctrl_pins b !! i) as [p|] eqn:Hp.
  - apply lookup_lt_Some in Hp as Hlt. cbv [mbind M_bind].
    pose proof (cs_mux_loop_ok id 1 i b ltac:(lia)) as Hone. cbn [cs_mux_loop] in Hone.
    cbv [mbind M_bind] in Hone. destruct (cs_mux_pin id i b) as [[] b'| |]; [|done..].
    injection Hone as ->. apply IH. rewrite add_kcalls_eq. simpl. lia.
  - unfold cs_mux_pin. cbv [mbind M_bind gets lift]. by rewrite Hp.
Qed.

Lemma gapspi_cs_mux_ok id b :
  num_demux_ctrl_pins b <= Z.of_nat (length (demux_ctrl_pins b)) ->
  gapspi_cs_mux id b = Done tt (add_kcalls (mux_calls id (select_pins b) 0) b).
Proof.
  intros Hn. unfold gapspi_cs_mux. rewrite (bind_Done _ _ _ (num_demux_ctrl_pins b) b) by done.
  by rewrite cs_mux_loop_ok, drop_0 by lia.
Qed.
End lemmas.

(** ** Theorems *)

Section theorems.
Context `{Kernel}.
Implicit Types b : bus.

(** [gapspi_cs_mux] selects its device: with up to three distinct select
    pins it drives pin [i] to bit [i] of [id], so that the demultiplexer is
    addressed with [id] modulo the number of devices, and it touches no other
    pin or variable. *)
Theorem gapspi_cs_mux_selects id b :
  num_demux_ctrl_pins b <= Z.of_nat (length (demux_ctrl_pins b)) -> NoDup (select_pins b) ->
  exists b', gapspi_cs_mux id b = Done tt b' /\
    selected (select_pins b) (klog b') = Some (id mod 2 ^ Z.of_nat (length (select_pins b))) /\
    (forall p, p ∉ select_pins b -> gpio_value p (klog b') = gpio_value p (klog b)) /\
    b' = Bus (num_demux_ctrl_pins b) (demux_ctrl_pins b) (gapspi_spi_device b)
           (real_transfer_one_message b) (master_transfer b) (klog b').
Proof.
  intros Hn Hnd. eexists. split; [by apply gapspi_cs_mux_ok|].
  rewrite add_kcalls_eq. simpl. split_and!; [|intros; by apply gpio_value_mux_calls|done].
  rewrite selected_mux_calls by done. by rewrite Z.div_1_r.
Qed.

(** [gapspi_cs_mux] reads past the array [demux_ctrl_pins] exactly when the
    device tree announced more than three select pins. *)
Theorem gapspi_cs_mux_bounds id b :
  length (demux_ctrl_pins b) = 3%nat ->
  gapspi_cs_mux id b = Undef <-> 3 < num_demux_ctrl_pins b.
Proof.
  intros Hlen. destruct (Z_lt_le_dec 3 (num_demux_ctrl_pins b)) as [Hgt|Hle].
  - split; [done|]. intros _. unfold gapspi_cs_mux.
    rewrite (bind_Done _ _ _ (num_demux_ctrl_pins b) b) by done.
    apply cs_mux_loop_oob. rewrite Hlen. lia.
  - rewrite gapspi_cs_mux_ok by (rewrite Hlen; lia). split; [done|lia].
Qed.

(** *** The SPI core

    Drivers submit messages at any time; the SPI core queues those it accepts, as
    the calls of the module gave them to it, and hands them to the controller's
    function one by one, in an order of its own. *)

Record core := Core { the_bus : bus; queue : list spi_message }.

(** The messages accepted between two logs. *)
Definition newly_accepted (l l' : list kcall) : list spi_message :=
  drop (length (accepted l)) (accepted l').

(** [owner] submits a message, in whose [state] field [stale] was left. *)
Inductive core_op :=
| Submit (owner stale : Z)
| SubmitSync (owner stale : Z)
| Process (k : nat).

(** [m] runs, and the core queues what it accepts. *)
Definition submitting (m : M bus Z) : M core Z := fun s =>
  match m (the_bus s) with
  | Done r b => Done r (Core b (queue s ++ newly_accepted (klog (the_bus s)) (klog b)))
  | Halt b => Halt (Core b (queue s))
  | Undef => Undef
  end.

(** The controller's function gets a message. *)
Definition process (m : spi_message) : M bus (option Z) :=
  f ← gets master_transfer; transfer_one_message 2 f m.

Definition core_step (dev : Z -> Z) (o : core_op) : M core (option Z) :=
  match o with
  | Submit i stale => r ← submitting (gap_spi_async (SpiMessage i stale) (dev i)); mret (Some r)
  | SubmitSync i stale => r ← submitting (gap_spi_sync (SpiMessage i stale) (dev i)); mret (Some r)
  | Process k => fun s =>
      match queue s !! k with
      | None => Done (Some 0) s
      | Some m =>
          match process m (the_bus s) with
          | Done r b => Done r (Core b (delete k (queue s)))
          | Halt b => Halt (Core b (queue s))
          | Undef => Undef
          end
      end
  end.

Fixpoint core_run (dev : Z -> Z) (os : list core_op) : M core (list (option Z)) :=
  match os with
  | [] => mret []
  | o :: os => r ← core_step dev o; rs ← core_run dev os; mret (r :: rs)
  end.

(** Whose submissions were answered with success. *)
Definition served (o : core_op) (r : option Z) : list Z :=
  match o, r with
  | Submit i _, Some 0 | SubmitSync i _, Some 0 => [i]
  | _, _ => []
  end.
Definition all_served (os : list core_op) (rs : list (option Z)) : list Z := concat (zip_with served os rs).

(** The message that is served finds its own device selected. *)
Lemma process_ok m b :
  probed b -> exists r b', process m b = Done (Some r) b' /\ probed b' /\
    select_pins b' = select_pins b /\ transferred (klog b') = transferred (klog b) ++ [m] /\
    selected (select_pins b') (klog b') =
      Some (state m mod 2 ^ Z.of_nat (length (select_pins b))) /\
    (forall dev, well_selected dev (select_pins b) (klog b') <->
       well_selected dev (select_pins b) (klog b) /\
       dev (owner m) mod 2 ^ Z.of_nat (length (select_pins b)) = state m mod 2 ^ Z.of_nat (length (select_pins b))).
Proof.
  intros Hb. pose proof Hb as [Hn Hp Hnd Hm Hr]. unfold process.
  rewrite (bind_Done _ _ _ (master_transfer b) b), Hm by done. cbn [transfer_one_message].
  rewrite (bind_Done _ _ _ _ _ (gapspi_cs_mux_ok (state m) b ltac:(rewrite Hp; lia))).
  rewrite add_kcalls_eq. set (b1 := Bus _ _ _ _ _ _).
  rewrite (bind_Done _ _ _ (Some controller_transfer_one_message) b1) by (unfold gets, b1; simpl; by rewrite Hr).
  assert (selected (select_pins b) (klog b1) =
    Some (state m mod 2 ^ Z.of_nat (length (select_pins b)))) as Hsel.
  { unfold b1. cbn [klog]. fold (select_pins b).
    rewrite selected_mux_calls by done. by rewrite Z.div_1_r. }
  eexists _, _. split; [reflexivity|]. split_and!; [by split|done| | |].
  - unfold b1. simpl. by rewrite transferred_mux_calls.
  - cbn [klog add_kcall]. rewrite selected_controller_transfer. exact Hsel.
  - intros dev. change (klog (add_kcall (controller_transfer m) b1)) with (controller_transfer m :: klog b1).
    cbn [well_selected]. rewrite Hsel. unfold b1. cbn [klog]. rewrite well_selected_mux_calls.
    split; [intros [[= E] H1]|intros [H1 E]]; split; congruence.
Qed.

(** The core's queue, and what has been transferred. *)
Record core_ok (dev : Z -> Z) (pins : list Z) (s : core) : Prop := CoreOk {
  co_probed : probed (the_bus s);
  co_pins : select_pins (the_bus s) = pins;
  co_tagged : Forall (fun m => state m = dev (owner m)) (queue s);
  co_selected : well_selected dev pins (klog (the_bus s));
}.

Definition owners (s : core) : list Z := owner <$> transferred (klog (the_bus s)) ++ queue s.

Lemma newly_accepted_cons c l :
  newly_accepted l (c :: l) =
    match c with spi_async m | spi_sync m => if kret l c =? 0 then [m] else [] | _ => [] end.
Proof. unfold newly_accepted. cbn [accepted]. by rewrite drop_app_length. Qed.

Lemma submitting_ok c i (f : M bus Z) dev pins s :
  f = kernel c -> (c = spi_async (SpiMessage i (dev i)) \/ c = spi_sync (SpiMessage i (dev i))) ->
  core_ok dev pins s ->
  exists r s', submitting f s = Done r s' /\ core_ok dev pins s' /\
    owners s' = owners s ++ (if r =? 0 then [i] else []).
Proof.
  intros -> Hc [Hp Hpins Hq Hs]. eexists _, _. split; [reflexivity|].
  cbn [klog add_kcall]. rewrite newly_accepted_cons. split.
  - split; cbn [the_bus queue add_kcall klog]; [by destruct Hp|done| |by destruct Hc as [-> | ->]].
    apply Forall_app. split; [done|]. destruct Hc as [-> | ->]; case_match; by repeat constructor.
  - unfold owners. destruct Hc as [-> | ->]; cbn [the_bus queue add_kcall klog transferred];
      rewrite app_nil_r, !fmap_app, <-app_assoc; do 2 f_equal; by case_match.
Qed.

Lemma core_step_ok dev pins o s :
  core_ok dev pins s ->
  exists r s', core_step dev o s = Done r s' /\ is_Some r /\ core_ok dev pins s' /\
    owners s' ≡ₚ owners s ++ served o r.
Proof.
  intros Hs. destruct o as [i stale|i stale|k]; cbn [core_step].
  - destruct (submitting_ok _ i (gap_spi_async (SpiMessage i stale) (dev i)) dev pins s eq_refl ltac:(by left) Hs)
      as (r & s' & E & Hs' & Eo). rewrite (bind_Done _ _ _ _ _ E). eexists _, s'. split; [reflexivity|].
    split; [by eexists|]. split; [done|]. rewrite Eo. cbn [served]. by destruct r.
  - destruct (submitting_ok _ i (gap_spi_sync (SpiMessage i stale) (dev i)) dev pins s eq_refl ltac:(by right) Hs)
      as (r & s' & E & Hs' & Eo). rewrite (bind_Done _ _ _ _ _ E). eexists _, s'. split; [reflexivity|].
    split; [by eexists|]. split; [done|]. rewrite Eo. cbn [served]. by destruct r.
  - destruct (queue s !! k) as [m|] eqn:Hk.
    2:{ eexists _, s. split; [reflexivity|]. split; [by eexists|]. split; [done|]. cbn. by rewrite app_nil_r. }
    destruct Hs as [Hp Hpins Hq Hsel]. destruct (process_ok m (the_bus s) Hp)
      as (r & b' & -> & Hp' & Hpins' & Ht & _ & Hw).
    eexists _, _. split; [reflexivity|]. split; [by eexists|]. split.
    + split; cbn [the_bus queue]; [done|congruence| |].
      * by apply Forall_delete.
      * rewrite <-Hpins. apply Hw. rewrite Hpins. split; [done|]. f_equal. symmetry.
        by apply (Forall_lookup_1 _ _ _ _ Hq Hk).
    + unfold owners. cbn [the_bus queue served]. rewrite Ht, app_nil_r. apply fmap_Permutation.
      rewrite <-app_assoc. f_equiv. symmetry. apply (delete_Permutation _ _ _ Hk).
Qed.

(** C13: every message reaches its own device.  Whatever the interleaving of
    [gap_spi_async] and [gap_spi_sync] of drivers, each with a device number of its
    own, and of transfers by the SPI core in any order, every message that goes to
    the controller does so while the demultiplexer is addressed with the device
    number its driver passed; the messages that were transferred or still wait are
    those the core accepted, each once; no call recurses or reads out of bounds. *)
Theorem messages_reach_their_device dev os b :
  probed b -> transferred (klog b) = [] ->
  exists rs s', core_run dev os (Core b []) = Done rs s' /\ Forall is_Some rs /\
    select_pins (the_bus s') = select_pins b /\
    well_selected dev (select_pins b) (klog (the_bus s')) /\
    owners s' ≡ₚ all_served os rs.
Proof.
  intros Hb Ht. assert (core_ok dev (select_pins b) (Core b [])) as Hs.
  { split; cbn [the_bus queue]; try done. revert Ht. clear Hb. induction (klog b) as [|c l IH]; [done|].
    cbn [transferred]. intros [Hl Hc]%app_nil. destruct c; try by apply IH. done. }
  assert (owners (Core b []) = []) as Ho by (unfold owners; cbn [the_bus queue]; by rewrite Ht).
  enough (forall s, core_ok dev (select_pins b) s -> exists rs s', core_run dev os s = Done rs s' /\
    Forall is_Some rs /\ core_ok dev (select_pins b) s' /\ owners s' ≡ₚ owners s ++ all_served os rs) as Hrun.
  { destruct (Hrun _ Hs) as (rs & s' & E & Hrs & Hs' & Ho'). exists rs, s'. rewrite Ho in Ho'.
    split_and!; try done; apply Hs'. }
  clear Hb Ht Hs Ho. induction os as [|o os IH]; intros s Hs.
  { exists [], s. split_and!; [done..|]. cbn. by rewrite app_nil_r. }
  destruct (core_step_ok dev _ o s Hs) as (r & s1 & E1 & Hr & Hs1 & Ho1).
  destruct (IH s1 Hs1) as (rs & s2 & E2 & Hrs & Hs2 & Ho2). exists (r :: rs), s2. cbn [core_run].
  rewrite (bind_Done _ _ _ _ _ E1), (bind_Done _ _ _ _ _ E2). split_and!; [done|by constructor|done|].
  rewrite Ho2, Ho1. unfold all_served. cbn [zip_with concat]. by rewrite app_assoc.
Qed.

(** The pin loop of the probe function. *)
Lemma probe_pins_spec n i b :
  length (demux_ctrl_pins b) = 3%nat -> (i <= 3)%nat ->
  match probe_pins n i b with
  | Done r b' =>
      b' = Bus (num_demux_ctrl_pins b) (demux_ctrl_pins b') (gapspi_spi_device b)
             (real_transfer_one_message b) (master_transfer b) (klog b') /\
      length (demux_ctrl_pins b') = 3%nat /\
      take i (demux_ctrl_pins b') = take i (demux_ctrl_pins b) /\
      (r = Some (Err EINVAL) \/
       r = None /\ (i + n <= 3)%nat /\
       take n (drop i (demux_ctrl_pins b')) = csmux_gpio <$> seq i n)
  | Halt _ => False
  | Undef => (3 < i + n)%nat
  end.
Proof.
  revert i b. induction n as [|n IH]; intros i b Hlen Hi; cbn [probe_pins].
  { run_effects. split_and!; [by destruct b|done..|right; split; [done|split; [lia|done]]]. }
  run_effects. unfold store_at. rewrite Hlen.
  destruct (decide (i < 3)%nat) as [Hlt|]; [|lia].
  set (pins' := <[i := csmux_gpio i]> (demux_ctrl_pins b)).
  assert (length pins' = 3%nat) as Hlen' by (unfold pins'; by rewrite length_insert).
  assert (take i pins' = take i (demux_ctrl_pins b)) as Htake.
  { unfold pins'. by rewrite take_insert_ge by lia. }
  destruct (negb (gpio_is_valid (csmux_gpio i))); [simpl; by eauto|].
  cbv [kernel]. destruct (negb (_ =? 0)); [simpl; by eauto|].
  set (b1 := add_kcall _ _). specialize (IH (S i) b1 Hlen' ltac:(lia)).
  destruct (probe_pins n (S i) b1) as [r b'| |]; [|done|lia].
  destruct IH as (Hb' & Hl & Ht & Hr). simpl in *.
  assert (Hget : demux_ctrl_pins b' !! i = Some (csmux_gpio i)).
  { rewrite <-(lookup_take_lt _ (S i)), Ht, lookup_take_lt by lia.
    unfold pins'. apply list_lookup_insert_eq. lia. }
  split_and!; [done|done| |].
  - rewrite <-Htake. apply (f_equal (take i)) in Ht. rewrite !take_take in Ht.
    by replace (i `min` S i)%nat with i in Ht by lia.
  - destruct Hr as [->|(-> & Hle & Hdrop)]; [by left|right]. split_and!; [done|lia|].
    rewrite (drop_S _ _ _ Hget). cbn [take seq fmap list_fmap]. by f_equal.
Qed.

(** Probing splices [our_transfer_one_message] in front of the controller's
    own function and removing takes it out again.  A failed probe returns
    [-EINVAL] and leaves the controller alone; the probe writes past
    [demux_ctrl_pins] only if more than three pins are announced. *)
Theorem probe_remove b :
  length (demux_ctrl_pins b) = 3%nat ->
  match gapspi_spi_probe b with
  | Done (Ret r) b' =>
      r = 0 /\ master_transfer b' = our_transfer /\
      real_transfer_one_message b' = Some (master_transfer b) /\
      (exists prop, num_csmux_pins = Some prop /\ s32 prop <= 3 /\
         select_pins b' = csmux_gpio <$> seq 0 (Z.to_nat (s32 prop))) /\
      (exists b'', gapspi_spi_remove b' = Done (Ret 0) b'' /\
         master_transfer b'' = master_transfer b /\ gapspi_spi_device b'' = false)
  | Done (Err e) b' =>
      e = EINVAL /\ master_transfer b' = master_transfer b /\
      real_transfer_one_message b' = real_transfer_one_message b
  | Halt _ => False
  | Undef => exists prop, num_csmux_pins = Some prop /\ 3 < s32 prop
  end.
Proof.
  intros Hlen. unfold gapspi_spi_probe. destruct num_csmux_pins as [prop|] eqn:Hprop; [|done].
  run_effects. set (b1 := set_num (s32 prop) b).
  pose proof (probe_pins_spec (Z.to_nat (s32 prop)) 0 b1 Hlen ltac:(lia)) as Hspec.
  destruct (probe_pins _ 0 b1) as [r b'| |]; [|done|exists prop; split; [done|lia]].
  destruct Hspec as (Hb' & Hl & _ & Hr). rewrite Hb'. destruct Hr as [->|(-> & Hle & Hsel)]; [done|].
  simpl. split_and!; [done..| |].
  - exists prop. split_and!; [done|lia|]. unfold select_pins. simpl. by rewrite drop_0 in Hsel.
  - eexists. split; [reflexivity|done].
Qed.
End theorems.

(** ** Witnesses *)

(** A board with two select pins. *)
Definition two_pins : Kernel := {|
  num_csmux_pins := Some 2; csmux_gpio i := 60 + Z.of_nat i;
  gpio_is_valid _ := true; kret _ _ := 0;
|}.

Definition two_pins_bus : bus :=
  Bus 2 [60; 61; 0] true (Some controller_transfer_one_message) our_transfer [].

Lemma two_pins_probed : probed two_pins_bus.
Proof. split; try done. vm_decide. Qed.

Lemma gapspi_cs_mux_selects_witness :
  exists b', @gapspi_cs_mux two_pins 6 two_pins_bus = Done tt b' /\
    selected [60; 61] (klog b') = Some 2.
Proof.
  destruct (@gapspi_cs_mux_selects two_pins 6 two_pins_bus) as (b' & E & Hsel & _).
  - by vm_compute.
  - apply two_pins_probed.
  - exists b'. split; [exact E|exact Hsel].
Defined.

Lemma gapspi_cs_mux_bounds_witness :
  @gapspi_cs_mux two_pins 0 (set_num 4 two_pins_bus) = Undef.
Proof. apply (@gapspi_cs_mux_bounds two_pins 0 (set_num 4 two_pins_bus)); reflexivity. Defined.

(** Drivers 7 and 8 with devices 1 and 2 submit; that of the second is served
    first. *)
Definition demo_dev (i : Z) : Z := i - 6.

Lemma messages_reach_their_device_witness :
  exists rs s', @core_run two_pins demo_dev [Submit 7 0; SubmitSync 8 0; Process 1; Process 0; Submit 8 3]
      (Core two_pins_bus []) = Done rs s' /\
    well_selected demo_dev [60; 61] (klog (the_bus s')) /\ owners s' ≡ₚ [7; 8; 8] /\
    transferred (klog (the_bus s')) = [SpiMessage 8 2; SpiMessage 7 1].
Proof.
  destruct (@messages_reach_their_device two_pins demo_dev
      [Submit 7 0; SubmitSync 8 0; Process 1; Process 0; Submit 8 3]
      two_pins_bus two_pins_probed eq_refl) as (rs & s' & E & _ & _ & Hlog & Ho).
  exists rs, s'. vm_compute in E. injection E as <- <-. split_and!; [reflexivity|exact Hlog|exact Ho|reflexivity].
Defined.

Lemma probe_remove_witness :
  exists b' b'', @gapspi_spi_probe two_pins unloaded = Done (Ret 0) b' /\
    select_pins b' = [60; 61] /\ @gapspi_spi_remove b' = Done (Ret 0) b'' /\
    master_transfer b'' = controller_transfer_one_message.
Proof.
  destruct (@probe_remove two_pins unloaded eq_refl) as (_ & _ & _ & _ & b'' & E & Hm & _).
  eexists _, b''. split_and!; [reflexivity|reflexivity|exact E|exact Hm].
Defined.

End GapSpi.
