(* ===== verification/NrfDriver.v ===== *)
(** * The Linux driver of the BLE co-processor

    Models [src/software/driver/nrf51822/nrf51822.c] with [nrf51822.h], [bcp.h] and
    [ioctl.h]: the SPI transactions with the nRF51822, their completion, the
    interrupt handler and the file operations, for one radio.

    The sections under [spi_spin_lock] are atomic steps.  Calls into the kernel
    are recorded in [klog], newest first; the kernel's answers are a parameter
    ([Linux]).  The printing macros of [debug.h] are left out: they change no
    state. *)
From S2P Require Import Prelude GapSpi.
Import GapSpi (errno(..), result(..)).

Module Driver.

(** ** Constants *)

Definition SPI_BUF_LEN : nat := 128.
Definition CHAR_DEVICE_BUFFER_LEN : nat := 256.
Definition BCP_COMMAND_READ_IRQ : Z := 1.
Definition BCP_COMMAND_SNIFF_ADVERTISEMENTS : Z := 2.
Definition DEBUG_PRINT_DBG : Z := 3.

(** ** Data *)

(** The callbacks an SPI message can complete with. *)
Inductive completion := read_irq_done | issue_simple_command_done.

Inductive spi_buffer := command_buffer | data_buffer.

(** [struct spi_transfer]; zeroed memory has null buffers. *)
Record spi_transfer := SpiTransfer {
  tx_buf : option spi_buffer; rx_buf : option spi_buffer; tsfer_len : Z; cs_change : Z;
}.
Definition zero_transfer : spi_transfer := SpiTransfer None None 0 0.

(** [struct spi_message]: its callback, whose context is the device, and its
    transfers, indices into [spi_tsfers]. *)
Record spi_message := SpiMessage { complete : option completion; transfers : list nat }.

Inductive kcall :=
| gap_spi_async (m : spi_message) (dev_id : Z)
| wake_up
| usleep_range (min max : Z)
| gpio_get_value (pin : Z)
| copy_to_user (bytes : list Z)
| poll_wait.

Class Linux := {
  (** what [gap_spi_async], [gpio_get_value] and [copy_to_user] return *)
  kret : list kcall -> kcall -> Z;
}.

(** [struct nrf51822_dev], the verbosity of [struct nrf51822_config], the trace. *)
Record dev := Dev {
  chipselect_demux_index : Z;
  pin_interrupt : Z;
  spi_command_buffer : list Z;
  spi_data_buffer : list Z;
  spi_tsfers : list spi_transfer;
  spi_msg : spi_message;
  spi_pending : bool;
  buf_to_user : list Z;
  buf_to_user_len : Z;
  debug_print : Z;
  klog : list kcall;
}.

Definition set_spi_command_buffer (b : list Z) (d : dev) : dev :=
  Dev (chipselect_demux_index d) (pin_interrupt d) b (spi_data_buffer d) (spi_tsfers d)
      (spi_msg d) (spi_pending d) (buf_to_user d) (buf_to_user_len d) (debug_print d) (klog d).
Definition set_spi_data_buffer (b : list Z) (d : dev) : dev :=
  Dev (chipselect_demux_index d) (pin_interrupt d) (spi_command_buffer d) b (spi_tsfers d)
      (spi_msg d) (spi_pending d) (buf_to_user d) (buf_to_user_len d) (debug_print d) (klog d).
Definition set_spi_tsfers (t : list spi_transfer) (d : dev) : dev :=
  Dev (chipselect_demux_index d) (pin_interrupt d) (spi_command_buffer d) (spi_data_buffer d) t
      (spi_msg d) (spi_pending d) (buf_to_user d) (buf_to_user_len d) (debug_print d) (klog d).
Definition set_spi_msg (m : spi_message) (d : dev) : dev :=
  Dev (chipselect_demux_index d) (pin_interrupt d) (spi_command_buffer d) (spi_data_buffer d)
      (spi_tsfers d) m (spi_pending d) (buf_to_user d) (buf_to_user_len d) (debug_print d) (klog d).
Definition set_spi_pending (p : bool) (d : dev) : dev :=
  Dev (chipselect_demux_index d) (pin_interrupt d) (spi_command_buffer d) (spi_data_buffer d)
      (spi_tsfers d) (spi_msg d) p (buf_to_user d) (buf_to_user_len d) (debug_print d) (klog d).
Definition set_buf_to_user (b : list Z) (n : Z) (d : dev) : dev :=
  Dev (chipselect_demux_index d) (pin_interrupt d) (spi_command_buffer d) (spi_data_buffer d)
      (spi_tsfers d) (spi_msg d) (spi_pending d) b n (debug_print d) (klog d).
Definition set_debug_print (n : Z) (d : dev) : dev :=
  Dev (chipselect_demux_index d) (pin_interrupt d) (spi_command_buffer d) (spi_data_buffer d)
      (spi_tsfers d) (spi_msg d) (spi_pending d) (buf_to_user d) (buf_to_user_len d) n (klog d).
Definition add_kcall (c : kcall) (d : dev) : dev :=
  Dev (chipselect_demux_index d) (pin_interrupt d) (spi_command_buffer d) (spi_data_buffer d)
      (spi_tsfers d) (spi_msg d) (spi_pending d) (buf_to_user d) (buf_to_user_len d)
      (debug_print d) (c :: klog d).

(** A device as the probe function leaves it. *)
Definition fresh (chipselect pin : Z) : dev :=
  Dev chipselect pin (replicate SPI_BUF_LEN 0) (replicate SPI_BUF_LEN 0)
      (replicate 4 zero_transfer) (SpiMessage None []) false
      (replicate CHAR_DEVICE_BUFFER_LEN 0) 0 DEBUG_PRINT_DBG [].

(** What [read] does: it sleeps, or returns having copied some bytes. *)
Inductive read_outcome :=
| Blocked
| Returned (r : result) (delivered : list Z).

(** Where [read] is after its copy to the user. *)
Inductive read_copied := Sleeping | CopyFailed | Copied (bytes : list Z).

(** Bits of the mask of [poll]. *)
Inductive poll_bit := POLLIN | POLLRDNORM | POLLOUT | POLLWRNORM.

(** The commands of [ioctl.h]; [other] is any other number. *)
Inductive ioctl_num :=
| NRF51822_IOCTL_SET_DEBUG_VERBOSITY
| NRF51822_IOCTL_SIMPLE_COMMAND
| ioctl_other (n : Z).

(** ** Operations *)

Section operations.
Context `{Linux}.

Definition kernel (c : kcall) : M dev Z := fun d => Done (kret (klog d) c) (add_kcall c d).
Definition kernel_void (c : kcall) : M dev () := modify (add_kcall c).

(** The section under the lock that claims the SPI buffers; [false] when
    something else is using them. *)
Definition claim : M dev bool :=
  pending ← gets spi_pending;
  if (pending : bool) then mret false else
  modify (set_spi_pending true);;
  mret true.

(** Setting up and sending the message of a command, once it is claimed.  The
    value of [gap_spi_async] is not looked at. *)
Definition submit (command : Z) (done : completion) : M dev () :=
  modify (set_spi_tsfers (replicate 4 zero_transfer));;
  modify (fun d => set_spi_tsfers
    (<[0%nat := SpiTransfer (Some command_buffer) (Some data_buffer) 40 1]> (spi_tsfers d)) d);;
  buf ← gets spi_command_buffer;
  buf' ← lift (store_at buf 0 command);
  modify (set_spi_command_buffer buf');;
  let m := SpiMessage (Some done) [0%nat] in
  modify (set_spi_msg m);;
  index ← gets chipselect_demux_index;
  _ ← kernel (gap_spi_async m index);
  mret ().

(** [nrf51822_read_irq(dev)] *)
Definition nrf51822_read_irq : M dev () :=
  claimed ← claim;
  if (claimed : bool) then submit BCP_COMMAND_READ_IRQ read_irq_done else mret ().

(** [nrf51822_check_irq(dev)] *)
Definition nrf51822_check_irq : M dev () :=
  pin ← gets pin_interrupt;
  level ← kernel (gpio_get_value pin);
  if level =? 1 then
    kernel_void (usleep_range 25 50);;
    nrf51822_read_irq
  else mret ().

(** [memcpy(dev->buf_to_user, dev->spi_data_buffer, len); dev->buf_to_user_len = len] *)
Definition move_to_user (len : Z) : M dev () :=
  src ← gets spi_data_buffer;
  dst ← gets buf_to_user;
  dst' ← lift (memcpy_at dst 0 src (Z.to_nat len));
  modify (set_buf_to_user dst' len).

Definition data_byte (i : nat) : M dev Z := b ← gets spi_data_buffer; lift (b !! i).

(** The section under the lock that gives the SPI buffers back. *)
Definition release : M dev () := modify (set_spi_pending false).

(** [nrf51822_read_irq_done(arg)] *)
Definition nrf51822_read_irq_done : M dev () :=
  b0 ← data_byte 0;
  b1 ← data_byte 1;
  if (b0 =? 0) && (b1 =? 0) then
    release;;
    nrf51822_check_irq
  else
    (if b0 =? 0 then
       let len := b1 + 1 in move_to_user len
     else
       let len := b0 + 1 in move_to_user len);;
    release;;
    kernel_void wake_up;;
    nrf51822_check_irq.

(** [nrf51822_issue_simple_command_done(arg)] *)
Definition nrf51822_issue_simple_command_done : M dev () :=
  b0 ← data_byte 0;
  b1 ← data_byte 1;
  received_valid_data ←
    (if (b0 =? 0) && (b1 =? 0) then mret false else
     (if b0 =? 0 then
        let len := b1 + 1 in move_to_user len
      else
        let len := b0 + 1 in move_to_user len);;
     mret true);
  release;;
  (if (received_valid_data : bool) then kernel_void wake_up else mret ());;
  nrf51822_check_irq.

(** [nrf51822_interrupt_handler(irq, data)]; it always returns [IRQ_HANDLED]. *)
Definition nrf51822_interrupt_handler : M dev () := nrf51822_read_irq.

(** [nrf51822_issue_simple_command(command, dev)] *)
Definition nrf51822_issue_simple_command (command : Z) : M dev result :=
  claimed ← claim;
  if (claimed : bool) then submit command issue_simple_command_done;; mret (Ret 0)
  else mret (Err EINTR).

(** *** File operations *)

(** [nrf51822_write] *)
Definition nrf51822_write (in_buf : list Z) (len : Z) : M dev result := mret (Err EFAULT).

(** The first half of [nrf51822_read]: wait, and copy to the user.
    [interrupted]: a signal is pending for the process, which ends
    [wait_event_interruptible]; its value is not looked at. *)
Definition read_copy (interrupted : bool) : M dev read_copied :=
  len ← gets buf_to_user_len;
  if negb (0 <? len) && negb interrupted then mret Sleeping else
  src ← gets buf_to_user;
  bytes ← lift (memcpy_at (replicate (Z.to_nat len) 0) 0 src (Z.to_nat len));
  left ← kernel (copy_to_user bytes);
  mret (if left =? 0 then Copied bytes else CopyFailed).

(** The second half, without a lock in between: it reads the length again. *)
Definition read_finish : M dev Z :=
  user_len ← gets buf_to_user_len;
  modify (fun d => set_buf_to_user (buf_to_user d) 0 d);;
  mret user_len.

(** [nrf51822_read(filp, buf, count, offp)]; [count] is not looked at. *)
Definition nrf51822_read (interrupted : bool) (count : Z) : M dev read_outcome :=
  c ← read_copy interrupted;
  match c with
  | Sleeping => mret Blocked
  | CopyFailed => mret (Returned (Err EFAULT) [])
  | Copied bytes => user_len ← read_finish; mret (Returned (Ret user_len) bytes)
  end.

(** [nrf51822_ioctl_set_debug_verbosity(data)]; [None]: the user's structure
    could not be copied. *)
Definition nrf51822_ioctl_set_debug_verbosity (data : option Z) : M dev result :=
  match data with
  | None => mret (Ret 0)
  | Some debug_level => modify (set_debug_print debug_level);; mret (Ret 0)
  end.

(** [nrf51822_ioctl_simple_command(data, dev)] *)
Definition nrf51822_ioctl_simple_command (data : option Z) : M dev result :=
  match data with
  | None => mret (Ret 0)
  | Some command => nrf51822_issue_simple_command command
  end.

(** [nrf51822_ioctl(file, ioctl_num, ioctl_param)] *)
Definition nrf51822_ioctl (num : ioctl_num) (param : option Z) : M dev result :=
  match num with
  | NRF51822_IOCTL_SET_DEBUG_VERBOSITY => nrf51822_ioctl_set_debug_verbosity param
  | NRF51822_IOCTL_SIMPLE_COMMAND => nrf51822_ioctl_simple_command param
  | ioctl_other _ => mret (Err ENOTTY)
  end.

(** [nrf51822_poll(file, wait)] *)
Definition nrf51822_poll : M dev (list poll_bit) :=
  kernel_void poll_wait;;
  let mask := [POLLOUT; POLLWRNORM] in
  len ← gets buf_to_user_len;
  mret (if 0 <? len then mask ++ [POLLIN; POLLRDNORM] else mask).
End operations.

(** ** Lemmas *)

(** The sizes of the arrays, and their bytes. *)
Record wf_dev (d : dev) : Prop := WfDev {
  wf_command : length (spi_command_buffer d) = SPI_BUF_LEN;
  wf_data : length (spi_data_buffer d) = SPI_BUF_LEN;
  wf_tsfers : length (spi_tsfers d) = 4%nat;
  wf_user : length (buf_to_user d) = CHAR_DEVICE_BUFFER_LEN;
  wf_user_len : 0 <= buf_to_user_len d <= Z.of_nat SPI_BUF_LEN;
  wf_bytes : Forall byte (spi_data_buffer d);
}.

(** The number of bytes the completion handlers take from the data buffer. *)
Definition received_length (d : dev) : option Z :=
  let b0 := spi_data_buffer d !!! 0%nat in
  let b1 := spi_data_buffer d !!! 1%nat in
  if (b0 =? 0) && (b1 =? 0) then None else Some ((if b0 =? 0 then b1 else b0) + 1).

Definition moved (n : Z) (d : dev) : dev :=
  set_buf_to_user
    (take (Z.to_nat n) (spi_data_buffer d) ++ drop (Z.to_nat n) (buf_to_user d)) n d.

Definition the_transfer : spi_transfer :=
  SpiTransfer (Some command_buffer) (Some data_buffer) 40 1.
Definition message_of (done : completion) : spi_message := SpiMessage (Some done) [0%nat].

Definition submitted (command : Z) (done : completion) (d : dev) : dev :=
  add_kcall (gap_spi_async (message_of done) (chipselect_demux_index d))
    (set_spi_msg (message_of done)
      (set_spi_command_buffer (<[0%nat := command]> (spi_command_buffer d))
        (set_spi_tsfers (the_transfer :: replicate 3 zero_transfer) d))).

Section lemmas.
Context `{Linux}.
Implicit Types d : dev.

Lemma submit_ok command done d :
  length (spi_command_buffer d) = SPI_BUF_LEN ->
  submit command done d = Done tt (submitted command done d).
Proof.
  intros Hlen. unfold submit. run_effects. cbn [spi_command_buffer set_spi_tsfers].
  by rewrite store_at_ok by (rewrite Hlen; unfold SPI_BUF_LEN; lia).
Qed.

Lemma claim_free d :
  spi_pending d = false -> claim d = Done true (set_spi_pending true d).
Proof. intros E. unfold claim. run_effects. by rewrite E. Qed.

Lemma claim_busy d : spi_pending d = true -> claim d = Done false d.
Proof. intros E. unfold claim. run_effects. by rewrite E. Qed.

Lemma claim_inv b d d' :
  claim d = Done b d' ->
  spi_pending d = negb b /\ d' = if b then set_spi_pending true d else d.
Proof.
  unfold claim. run_effects. destruct (spi_pending d); by intros [= <- <-].
Qed.

(** What [nrf51822_read_irq] and [nrf51822_check_irq] do to the device. *)
Definition irq_read d : dev :=
  if spi_pending d then d
  else submitted BCP_COMMAND_READ_IRQ read_irq_done (set_spi_pending true d).

Definition irq_checked d : dev :=
  let d1 := add_kcall (gpio_get_value (pin_interrupt d)) d in
  if kret (klog d) (gpio_get_value (pin_interrupt d)) =? 1
  then irq_read (add_kcall (usleep_range 25 50) d1) else d1.

Lemma read_irq_ok d :
  length (spi_command_buffer d) = SPI_BUF_LEN -> nrf51822_read_irq d = Done tt (irq_read d).
Proof.
  intros Hlen. unfold nrf51822_read_irq, irq_read. destruct (spi_pending d) eqn:E.
  - by rewrite (bind_Done _ _ _ _ _ (claim_busy d E)).
  - rewrite (bind_Done _ _ _ _ _ (claim_free d E)). by apply submit_ok.
Qed.

Lemma check_irq_ok d :
  length (spi_command_buffer d) = SPI_BUF_LEN -> nrf51822_check_irq d = Done tt (irq_checked d).
Proof.
  intros Hlen. unfold nrf51822_check_irq, irq_checked. run_effects. unfold kernel.
  destruct (_ =? 1); [|done]. unfold kernel_void, modify. by apply read_irq_ok.
Qed.

(** What is common to the two completion handlers: take the bytes, give the
    buffers back, wake the reader. *)
Definition receive : M dev bool :=
  b0 ← data_byte 0;
  b1 ← data_byte 1;
  if (b0 =? 0) && (b1 =? 0) then mret false else
  move_to_user ((if b0 =? 0 then b1 else b0) + 1);;
  mret true.

Lemma data_byte_ok d i :
  (i < length (spi_data_buffer d))%nat -> data_byte i d = Done (spi_data_buffer d !!! i) d.
Proof.
  intros Hi. unfold data_byte. run_effects.
  by rewrite (list_lookup_lookup_total_lt _ _ Hi).
Qed.

Lemma receive_ok d :
  length (spi_data_buffer d) = SPI_BUF_LEN -> length (buf_to_user d) = CHAR_DEVICE_BUFFER_LEN ->
  receive d =
    match received_length d with
    | None => Done false d
    | Some n => if decide (n <= Z.of_nat SPI_BUF_LEN) then Done true (moved n d) else Undef
    end.
Proof.
  intros Hdata Huser. unfold receive, received_length.
  rewrite (bind_Done _ _ _ _ _ (data_byte_ok d 0 ltac:(rewrite Hdata; unfold SPI_BUF_LEN; lia))).
  rewrite (bind_Done _ _ _ _ _ (data_byte_ok d 1 ltac:(rewrite Hdata; unfold SPI_BUF_LEN; lia))).
  destruct (_ && _); [done|]. set (n := _ + 1). unfold move_to_user. run_effects.
  unfold memcpy_at. rewrite Hdata, Huser. unfold SPI_BUF_LEN, CHAR_DEVICE_BUFFER_LEN, moved.
  repeat case_decide; first [done|lia].
Qed.

Definition finish (received : bool) : M dev () :=
  release;;
  (if received then kernel_void wake_up else mret ());;
  nrf51822_check_irq.

Lemma read_irq_done_eq d : nrf51822_read_irq_done d = (receive ≫= finish) d.
Proof.
  unfold nrf51822_read_irq_done, receive. cbv [mbind M_bind].
  destruct (data_byte 0 d) as [b0 d0| |]; [|done..].
  destruct (data_byte 1 d0) as [b1 d1| |]; [|done..].
  destruct (b0 =? 0), (b1 =? 0); simpl; try done;
    by destruct (move_to_user _ d1) as [[] d2| |].
Qed.

Lemma issue_simple_command_done_eq d :
  nrf51822_issue_simple_command_done d = (receive ≫= finish) d.
Proof.
  unfold nrf51822_issue_simple_command_done, receive. cbv [mbind M_bind].
  destruct (data_byte 0 d) as [b0 d0| |]; [|done..].
  destruct (data_byte 1 d0) as [b1 d1| |]; [|done..].
  destruct (b0 =? 0), (b1 =? 0); simpl; try done;
    by destruct (move_to_user _ d1) as [[] d2| |].
Qed.

Lemma finish_ok received d :
  length (spi_command_buffer d) = SPI_BUF_LEN ->
  finish received d = Done tt (irq_checked
    (if received then add_kcall wake_up (set_spi_pending false d) else set_spi_pending false d)).
Proof. intros. destruct received; unfold finish; run_effects; by apply check_irq_ok. Qed.

(** After the check a transfer is under way exactly if the line was high. *)
Lemma irq_checked_line d :
  spi_pending d = false ->
  let line := gpio_get_value (pin_interrupt d) in
  spi_pending (irq_checked d) = (kret (klog d) line =? 1) /\
  (spi_pending (irq_checked d) = false -> klog (irq_checked d) = line :: klog d) /\
  (spi_pending (irq_checked d) = true -> klog (irq_checked d) =
     gap_spi_async (message_of read_irq_done) (chipselect_demux_index d) ::
     usleep_range 25 50 :: line :: klog d).
Proof.
  intros E. unfold irq_checked, irq_read. destruct (_ =? 1); cbn; rewrite E; cbn; done.
Qed.

Lemma wf_set_spi_pending p d : wf_dev d -> wf_dev (set_spi_pending p d).
Proof. by intros []. Qed.

Lemma wf_add_kcall c d : wf_dev d -> wf_dev (add_kcall c d).
Proof. by intros []. Qed.

Lemma wf_submitted command done d : wf_dev d -> wf_dev (submitted command done d).
Proof. intros []. split; simpl; try done. by rewrite length_insert. Qed.

Lemma wf_moved n d : 0 <= n <= Z.of_nat SPI_BUF_LEN -> wf_dev d -> wf_dev (moved n d).
Proof.
  intros Hn [? Hdata ? Huser ??]. split; simpl; try done.
  rewrite length_app, length_take, length_drop, Hdata, Huser.
  unfold SPI_BUF_LEN, CHAR_DEVICE_BUFFER_LEN in *. lia.
Qed.

Lemma wf_irq_checked d : wf_dev d -> wf_dev (irq_checked d).
Proof.
  intros Hd. unfold irq_checked, irq_read. destruct (_ =? 1); [|by apply wf_add_kcall].
  destruct (spi_pending _); auto using wf_add_kcall, wf_submitted, wf_set_spi_pending.
Qed.

Lemma irq_checked_user d :
  buf_to_user (irq_checked d) = buf_to_user d /\
  buf_to_user_len (irq_checked d) = buf_to_user_len d /\
  exists log, klog (irq_checked d) = log ++ klog d.
Proof.
  unfold irq_checked, irq_read. destruct (_ =? 1); [destruct (spi_pending _)|]; simpl;
    (split_and!; [done..|]).
  - by eexists [_; _].
  - by eexists [_; _; _].
  - by eexists [_].
Qed.

Lemma irq_checked_buffers d :
  spi_data_buffer (irq_checked d) = spi_data_buffer d /\
  length (spi_command_buffer (irq_checked d)) = length (spi_command_buffer d).
Proof.
  unfold irq_checked, irq_read. destruct (_ =? 1); [|done].
  cbn. destruct (spi_pending d); simpl; by rewrite ?length_insert.
Qed.

(** The bytes of the data buffer are bytes, so the lengths are in range. *)
Lemma received_length_bounds d n : wf_dev d -> received_length d = Some n -> 1 <= n <= 256.
Proof.
  intros [_ Hdata _ _ _ Hbytes]. unfold received_length.
  assert (Hb : forall i, (i < SPI_BUF_LEN)%nat -> byte (spi_data_buffer d !!! i)).
  { intros i Hi. rewrite <-Hdata in Hi. apply list_lookup_lookup_total_lt in Hi.
    by eapply Forall_lookup_byte. }
  pose proof (Hb 0%nat ltac:(unfold SPI_BUF_LEN; lia)).
  pose proof (Hb 1%nat ltac:(unfold SPI_BUF_LEN; lia)). unfold byte in *.
  destruct (_ && _); [done|]. intros [= <-]. destruct (_ =? 0); lia.
Qed.

(** The completion handlers, as one equation. *)
Lemma read_irq_done_ok d :
  length (spi_command_buffer d) = SPI_BUF_LEN -> length (spi_data_buffer d) = SPI_BUF_LEN ->
  length (buf_to_user d) = CHAR_DEVICE_BUFFER_LEN ->
  nrf51822_read_irq_done d =
    match received_length d with
    | None => Done tt (irq_checked (set_spi_pending false d))
    | Some n => if decide (n <= Z.of_nat SPI_BUF_LEN)
                then Done tt (irq_checked (add_kcall wake_up (set_spi_pending false (moved n d))))
                else Undef
    end.
Proof.
  intros Hcmd Hdata Huser. rewrite read_irq_done_eq. cbv [mbind M_bind].
  rewrite receive_ok by done. destruct (received_length d) as [n|]; [case_decide; [|done]|].
  all: by rewrite finish_ok.
Qed.

(** [read], as one equation. *)
Lemma poll_ok d :
  nrf51822_poll d =
    Done ([POLLOUT; POLLWRNORM] ++ (if 0 <? buf_to_user_len d then [POLLIN; POLLRDNORM] else []))
      (add_kcall poll_wait d).
Proof.
  transitivity (Done (if 0 <? buf_to_user_len d
    then [POLLOUT; POLLWRNORM] ++ [POLLIN; POLLRDNORM] else [POLLOUT; POLLWRNORM])
    (add_kcall poll_wait d)); [done|].
  by destruct (0 <? buf_to_user_len d).
Qed.

Lemma read_ok interrupted count d :
  length (buf_to_user d) = CHAR_DEVICE_BUFFER_LEN ->
  0 <= buf_to_user_len d <= Z.of_nat SPI_BUF_LEN ->
  let frame := take (Z.to_nat (buf_to_user_len d)) (buf_to_user d) in
  let copy := copy_to_user frame in
  nrf51822_read interrupted count d =
    (if negb (0 <? buf_to_user_len d) && negb interrupted then Done Blocked d
     else if negb (kret (klog d) copy =? 0)
     then Done (Returned (Err EFAULT) []) (add_kcall copy d)
     else Done (Returned (Ret (Z.of_nat (length frame))) frame)
            (set_buf_to_user (buf_to_user d) 0 (add_kcall copy d))).
Proof.
  intros Huser Hlen frame copy. unfold nrf51822_read, read_copy, read_finish, kernel. run_effects.
  destruct (_ && _); [done|].
  unfold memcpy_at. rewrite decide_True.
  2:{ unfold SPI_BUF_LEN, CHAR_DEVICE_BUFFER_LEN in *. rewrite length_replicate. lia. }
  rewrite drop_ge, app_nil_r by (rewrite length_replicate; lia). simpl take at 1. simpl app.
  fold frame. fold copy. destruct (_ =? 0); [|done]. simpl. repeat f_equal.
  unfold frame. rewrite length_take. unfold SPI_BUF_LEN, CHAR_DEVICE_BUFFER_LEN in *. lia.
Qed.
End lemmas.

(** ** Interleavings

    The interrupt handler, the commands, the completions and the readers run
    concurrently; the sections under the lock are atomic.  A step of the system
    is one such section, or the code between two of them that only its claimant
    runs.  [holders] are the claims of the SPI buffers that are under way. *)

Inductive holder :=
| Claimed (command : Z) (done : completion)      (* about to send its message *)
| InFlight (command : Z) (done : completion)     (* the SPI core has its message *)
| Completed (done : completion)                  (* its callback is running *)
| Received (wake : bool).                        (* the data buffer has been read *)

Record sys := Sys { device : dev; holders : list holder }.

(** The bytes a transfer reads from the SPI bus. *)
Definition transferred (miso : list Z) (d : dev) : dev :=
  set_spi_data_buffer (miso ++ drop 40 (spi_data_buffer d)) d.

Section transactions.
Context `{Linux}.

(** Calls into the kernel and file operations that need no claim. *)
Inductive unclaimed_step : dev -> dev -> Prop :=
| step_kernel c d : unclaimed_step d (add_kcall c d)
| step_read_copy interrupted d c d' :
    read_copy interrupted d = Done c d' -> unclaimed_step d d'
| step_read_finish d n d' : read_finish d = Done n d' -> unclaimed_step d d'
| step_poll d mask d' : nrf51822_poll d = Done mask d' -> unclaimed_step d d'
| step_set_debug data d r d' :
    nrf51822_ioctl_set_debug_verbosity data d = Done r d' -> unclaimed_step d d'.

Inductive step : sys -> sys -> Prop :=
| step_claim d hs command done d' :
    claim d = Done true d' -> step (Sys d hs) (Sys d' (Claimed command done :: hs))
| step_busy d hs d' :
    claim d = Done false d' -> step (Sys d hs) (Sys d' hs)
| step_submit d hs1 hs2 command done d' :
    submit command done d = Done () d' ->
    kret (klog d) (gap_spi_async (message_of done) (chipselect_demux_index d)) = 0 ->
    step (Sys d (hs1 ++ Claimed command done :: hs2))
         (Sys d' (hs1 ++ InFlight command done :: hs2))
| step_submit_fail d hs1 hs2 command done d' :
    submit command done d = Done () d' ->
    kret (klog d) (gap_spi_async (message_of done) (chipselect_demux_index d)) <> 0 ->
    step (Sys d (hs1 ++ Claimed command done :: hs2)) (Sys d' (hs1 ++ hs2))
| step_transfer d hs1 hs2 command done miso :
    length miso = 40%nat -> Forall byte miso ->
    step (Sys d (hs1 ++ InFlight command done :: hs2))
         (Sys (transferred miso d) (hs1 ++ Completed done :: hs2))
| step_receive d hs1 hs2 done wake d' :
    receive d = Done wake d' ->
    step (Sys d (hs1 ++ Completed done :: hs2)) (Sys d' (hs1 ++ Received wake :: hs2))
| step_release d hs1 hs2 wake d' :
    (release;; if (wake : bool) then kernel_void wake_up else mret ()) d = Done () d' ->
    step (Sys d (hs1 ++ Received wake :: hs2)) (Sys d' (hs1 ++ hs2))
| step_unclaimed d hs d' : unclaimed_step d d' -> step (Sys d hs) (Sys d' hs).

(** The other way a step can end: the C code leaves the behaviour undefined.
    Which of the steps above can do so is not decided here: there is a
    constructor for each of them that accesses an array. *)
Inductive undefined_step : sys -> Prop :=
| undefined_submit d hs1 hs2 command done :
    submit command done d = Undef -> undefined_step (Sys d (hs1 ++ Claimed command done :: hs2))
| undefined_receive d hs1 hs2 done :
    receive d = Undef -> undefined_step (Sys d (hs1 ++ Completed done :: hs2))
| undefined_read_copy interrupted d hs :
    read_copy interrupted d = Undef -> undefined_step (Sys d hs).

(** The message of a transfer that is under way is the one of its claimant. *)
Definition holder_ok (d : dev) (h : holder) : Prop :=
  match h with
  | InFlight command done =>
      spi_command_buffer d !! 0%nat = Some command /\
      spi_tsfers d !! 0%nat = Some the_transfer /\ spi_msg d = message_of done
  | _ => True
  end.

Definition exclusive (s : sys) : Prop :=
  wf_dev (device s) /\
  match holders s with
  | [] => True
  | [h] => spi_pending (device s) = true /\ holder_ok (device s) h
  | _ => False
  end.

Lemma unclaimed_step_ok d d' :
  unclaimed_step d d' -> wf_dev d ->
  wf_dev d' /\ spi_pending d' = spi_pending d /\ spi_command_buffer d' = spi_command_buffer d /\
  spi_tsfers d' = spi_tsfers d /\ spi_msg d' = spi_msg d.
Proof.
  intros Hstep Hd. destruct Hstep as [c d|i d c d' E|d n d' E|d mask d' E|[x|] d r d' E].
  - by destruct Hd.
  - revert E. unfold read_copy, kernel. run_effects. destruct (_ && _); [by intros [= <- <-]|].
    destruct (memcpy_at _ _ _ _); [|done]. intros [= <- <-]. by destruct Hd.
  - injection E as <- <-. destruct Hd; repeat split; simpl; try done; unfold SPI_BUF_LEN; lia.
  - injection E as <- <-. by destruct Hd.
  - injection E as <- <-. by destruct Hd.
  - injection E as <- <-. by destruct Hd.
Qed.

(** A claimant in the middle of a list of at most one is alone in it. *)
Lemma one_holder (P : holder -> Prop) hs1 h hs2 :
  match hs1 ++ h :: hs2 with [] => True | [h] => P h | _ => False end ->
  hs1 = [] /\ hs2 = [] /\ P h.
Proof. by destruct hs1 as [|? [|? ?]], hs2; simpl. Qed.

Lemma wf_transferred miso d :
  length miso = 40%nat -> Forall byte miso -> wf_dev d -> wf_dev (transferred miso d).
Proof.
  intros Hm Hb [? Hdata ? ? ? Hbytes]. split; simpl; try done.
  - rewrite length_app, length_drop, Hm, Hdata. done.
  - apply Forall_app. split; [done|]. by apply Forall_drop.
Qed.

Lemma exclusive_step s s' : exclusive s -> step s s' -> exclusive s'.
Proof.
  intros [Hd Hs] Hstep. destruct Hstep as [d hs c k d' E|d hs d' E|d hs1 hs2 c k d' E _
    |d hs1 hs2 c k d' E _|d hs1 hs2 c k miso Hm Hb|d hs1 hs2 k w d' E|d hs1 hs2 w d' E|d hs d' E];
    cbn [device holders] in *.
  - apply claim_inv in E as [Ep ->].
    destruct hs as [|h [|? ?]]; [|by rewrite Ep in Hs; destruct Hs|done].
    split; [by apply wf_set_spi_pending|done].
  - apply claim_inv in E as [_ ->]. by split.
  - apply one_holder in Hs as (-> & -> & Hp & _).
    rewrite submit_ok in E by apply Hd. injection E as <-.
    split; [by apply wf_submitted|]. simpl. split_and!; [done| |done..].
    apply list_lookup_insert_eq. rewrite (wf_command d Hd). unfold SPI_BUF_LEN. lia.
  - apply one_holder in Hs as (-> & -> & Hp & _).
    rewrite submit_ok in E by apply Hd. injection E as <-. split; [by apply wf_submitted|done].
  - apply one_holder in Hs as (-> & -> & Hp & _). split; [by apply wf_transferred|done].
  - apply one_holder in Hs as (-> & -> & Hp & _).
    rewrite receive_ok in E by apply Hd. destruct (received_length d) as [n|] eqn:En.
    + case_decide; [|done]. injection E as <- <-.
      split; [|done]. pose proof (received_length_bounds d n Hd En). apply wf_moved; [lia|done].
    + by injection E as <- <-.
  - apply one_holder in Hs as (-> & -> & Hp & _).
    destruct w; injection E as <-; (split; [|done]); simpl;
      auto using wf_add_kcall, wf_set_spi_pending.
  - destruct (unclaimed_step_ok d d' E Hd) as (Hd' & Hp & Hc & Ht & Hm). split; [done|].
    destruct hs as [|h [|? ?]]; [done| |done]. simpl. rewrite Hp.
    destruct Hs as [? Hh]. split; [done|]. destruct h; simpl in *; try done.
    by rewrite Hc, Ht, Hm.
Qed.

(** The buffers hold bytes. *)
Record typed (d : dev) : Prop := Typed {
  ty_sizes : wf_dev d;
  ty_command : Forall byte (spi_command_buffer d);
  ty_user : Forall byte (buf_to_user d);
}.

(** A command is the byte of the user's structure. *)
Definition byte_command (h : holder) : Prop :=
  match h with Claimed command _ | InFlight command _ => byte command | _ => True end.
Definition byte_step (s s' : sys) : Prop := step s s' /\ Forall byte_command (holders s').

Definition byte_sys (s : sys) : Prop :=
  exclusive s /\ typed (device s) /\ Forall byte_command (holders s).

Lemma unclaimed_user d d' :
  unclaimed_step d d' -> spi_command_buffer d' = spi_command_buffer d /\ buf_to_user d' = buf_to_user d.
Proof.
  intros Hstep. destruct Hstep as [c d|i d c d' E|d n d' E|d mask d' E|[x|] d r d' E];
    [done| |by injection E as <- <-..].
  revert E. unfold read_copy, kernel. run_effects. destruct (_ && _); [by intros [= <- <-]|].
  destruct (memcpy_at _ _ _ _); [|done]. by intros [= <- <-].
Qed.

Lemma typed_step s s' : byte_sys s -> byte_step s s' -> byte_sys s'.
Proof.
  intros (Hex & [Hd Hcmd Huser] & Hh) [Hstep Hh'].
  pose proof (exclusive_step s s' Hex Hstep) as Hex'. split; [done|]. split; [|done].
  destruct Hstep as [d hs c k d' E|d hs d' E|d hs1 hs2 c k d' E _|d hs1 hs2 c k d' E _
    |d hs1 hs2 c k miso Hm Hb|d hs1 hs2 k w d' E|d hs1 hs2 w d' E|d hs d' E];
    cbn [device holders] in *; (split; [apply Hex'|..]).
  1,2: by apply claim_inv in E as [_ ->].
  1,2: by apply claim_inv in E as [_ ->].
  all: try (apply Forall_app in Hh as [_ [Hc _]%Forall_cons]).
  all: try (rewrite submit_ok in E by apply Hd; injection E as <-; cbn;
    first [done|by apply Forall_insert]).
  1,2: done.
  1,2: rewrite receive_ok in E by apply Hd; destruct (received_length d) as [n|];
    [case_decide; [|done]; injection E as <- <-; cbn|by injection E as <- <-]; try done.
  - apply Forall_app. split; [apply Forall_take, Hd|by apply Forall_drop].
  - destruct w; by injection E as <-.
  - destruct w; by injection E as <-.
  - by rewrite (proj1 (unclaimed_user d d' E)).
  - by rewrite (proj2 (unclaimed_user d d' E)).
Qed.

Lemma read_copy_defined interrupted d : wf_dev d -> read_copy interrupted d <> Undef.
Proof.
  intros Hd. pose proof (wf_user _ Hd). pose proof (wf_user_len _ Hd).
  unfold read_copy, kernel. run_effects. destruct (_ && _); [done|]. unfold memcpy_at.
  rewrite decide_True by (unfold CHAR_DEVICE_BUFFER_LEN, SPI_BUF_LEN in *; rewrite length_replicate; lia).
  by case_match.
Qed.

(** Only a callback that takes more bytes than were received goes wrong. *)
Lemma undefined_step_iff s :
  exclusive s ->
  undefined_step s <-> exists done n,
    Completed done ∈ holders s /\ received_length (device s) = Some n /\ 128 < n.
Proof.
  intros [Hd _]. destruct s as [d hs]. cbn [device holders] in *. split.
  - intros Hu. inversion Hu as [d' hs1 hs2 c k E|d' hs1 hs2 k E|i d' hs' E]; subst.
    + by rewrite submit_ok in E by apply Hd.
    + rewrite receive_ok in E by apply Hd. destruct (received_length d) as [n|] eqn:En; [|done].
      case_decide as Hn; [done|]. exists k, n. unfold SPI_BUF_LEN in Hn.
      split_and!; [set_solver|done|lia].
    + by apply read_copy_defined in E.
  - intros (k & n & (hs1 & hs2 & ->)%list_elem_of_split & En & Hn). apply undefined_receive.
    rewrite receive_ok, En by apply Hd. rewrite decide_False by (unfold SPI_BUF_LEN; lia). done.
Qed.

(** While the SPI module accepts every message, the flag tells whether the
    buffers are in use. *)
Lemma accurate_step s s' :
  (forall log c, kret log c = 0) ->
  exclusive s -> spi_pending (device s) = bool_decide (holders s <> []) ->
  step s s' -> spi_pending (device s') = bool_decide (holders s' <> []).
Proof.
  intros Hret [Hd Hs] Hp Hstep. destruct Hstep as [d hs c k d' E|d hs d' E|d hs1 hs2 c k d' E _
    |d hs1 hs2 c k d' E Hne|d hs1 hs2 c k miso _ _|d hs1 hs2 k w d' E|d hs1 hs2 w d' E|d hs d' E];
    cbn [device holders] in *.
  - by apply claim_inv in E as [_ ->].
  - by apply claim_inv in E as [_ ->].
  - apply one_holder in Hs as (-> & -> & Hpend & _).
    rewrite submit_ok in E by apply Hd. by injection E as <-.
  - by rewrite Hret in Hne.
  - by apply one_holder in Hs as (-> & -> & Hpend & _).
  - apply one_holder in Hs as (-> & -> & Hpend & _). rewrite receive_ok in E by apply Hd.
    destruct (received_length d); [case_decide; [|done]|]; by injection E as <- <-.
  - apply one_holder in Hs as (-> & -> & _). by destruct w; injection E as <-.
  - destruct (unclaimed_step_ok d d' E Hd) as (_ & -> & _). done.
Qed.

(** With the flag set and no claim under way, nothing changes either. *)
Lemma wedged_step s s' :
  wf_dev (device s) /\ holders s = [] /\ spi_pending (device s) = true -> step s s' ->
  wf_dev (device s') /\ holders s' = [] /\ spi_pending (device s') = true.
Proof.
  intros (Hd & Hh & Hp) Hstep. destruct Hstep as [d hs c k d' E|d hs d' E|d hs1 hs2|d hs1 hs2
    |d hs1 hs2|d hs1 hs2|d hs1 hs2|d hs d' E]; cbn [device holders] in *;
    try by destruct hs1.
  - apply claim_inv in E as [Ep _]. by rewrite Ep in Hp.
  - by apply claim_inv in E as [_ ->].
  - by destruct (unclaimed_step_ok d d' E Hd) as (? & -> & _).
Qed.

(** Each operation, run without interruption, is a sequence of steps. *)
Lemma submit_run command done d hs d' :
  submit command done d = Done () d' ->
  exists hs', rtc step (Sys d (Claimed command done :: hs)) (Sys d' hs').
Proof.
  intros E. destruct (decide (kret (klog d)
    (gap_spi_async (message_of done) (chipselect_demux_index d)) = 0)); eexists; apply rtc_once.
  - by apply (step_submit d [] hs).
  - by apply (step_submit_fail d [] hs).
Qed.

Lemma claim_run command done d hs b d1 :
  claim d = Done b d1 ->
  rtc step (Sys d hs) (Sys d1 (if b then Claimed command done :: hs else hs)).
Proof. intros E. apply rtc_once. destruct b; [by apply step_claim|by apply step_busy]. Qed.

Lemma read_irq_run d hs d' :
  nrf51822_read_irq d = Done () d' -> exists hs', rtc step (Sys d hs) (Sys d' hs').
Proof.
  intros (b & d1 & E1 & E2)%bind_Done_inv.
  pose proof (claim_run BCP_COMMAND_READ_IRQ read_irq_done d hs b d1 E1) as Hrun. destruct b.
  - destruct (submit_run _ _ _ hs _ E2) as [hs' ?]. exists hs'. by etrans.
  - injection E2 as <-. by exists hs.
Qed.

Lemma command_run command d hs r d' :
  nrf51822_issue_simple_command command d = Done r d' ->
  exists hs', rtc step (Sys d hs) (Sys d' hs').
Proof.
  intros (b & d1 & E1 & E2)%bind_Done_inv.
  pose proof (claim_run command issue_simple_command_done d hs b d1 E1) as Hrun. destruct b.
  - apply bind_Done_inv in E2 as ([] & d2 & E2 & E3). injection E3 as <- <-.
    destruct (submit_run _ _ _ hs _ E2) as [hs' ?]. exists hs'. by etrans.
  - injection E2 as <- <-. by exists hs.
Qed.

Lemma check_irq_run d hs d' :
  nrf51822_check_irq d = Done () d' -> exists hs', rtc step (Sys d hs) (Sys d' hs').
Proof.
  unfold nrf51822_check_irq. cbv [mbind M_bind kernel gets kernel_void modify].
  set (d1 := add_kcall _ d).
  assert (rtc step (Sys d hs) (Sys d1 hs)) as Hrun by by apply rtc_once, step_unclaimed, step_kernel.
  destruct (_ =? 1); [|intros [= <-]; by exists hs].
  intros [hs' ?]%(read_irq_run _ hs). exists hs'. do 2 (etrans; [done|]).
  etrans; [apply rtc_once, step_unclaimed, step_kernel|done].
Qed.

Lemma finish_run wake d hs d' :
  finish wake d = Done () d' ->
  exists hs', rtc step (Sys d (Received wake :: hs)) (Sys d' hs').
Proof.
  intros ([] & d1 & E1 & ([] & d2 & E2 & E3)%bind_Done_inv)%bind_Done_inv.
  destruct (check_irq_run d2 hs d' E3) as [hs' ?]. exists hs'.
  etrans; [apply rtc_once|done]. apply (step_release _ [] hs). by rewrite (bind_Done _ _ _ _ _ E1).
Qed.
End transactions.

(** ** Theorems *)

Section theorems.
Context `{Linux}.
Implicit Types d : dev.

(** C20: a finished transfer is dealt with in the same way whether the interrupt
    or a command started it.  Two leading zero bytes deliver nothing; otherwise
    the first non-zero byte [n - 1] is a length and the reader gets the first
    [n] bytes of the data buffer and is woken, the source being over-read when
    [n] exceeds its 128 bytes.  In the end the SPI buffers are free, or, when
    the interrupt line is still high, busy with a new transfer that has been
    handed to the SPI module: no interrupt is lost. *)
Theorem transfer_done_spec d :
  wf_dev d ->
  nrf51822_issue_simple_command_done d = nrf51822_read_irq_done d /\
  match nrf51822_read_irq_done d with
  | Done _ d' =>
      wf_dev d' /\
      match received_length d with
      | None => buf_to_user d' = buf_to_user d /\ buf_to_user_len d' = buf_to_user_len d
      | Some n =>
          1 <= n <= 128 /\ buf_to_user_len d' = n /\ wake_up ∈ klog d' /\
          take (Z.to_nat n) (buf_to_user d') = take (Z.to_nat n) (spi_data_buffer d)
      end /\
      exists log, let line := gpio_get_value (pin_interrupt d) in
        spi_pending d' = (kret log line =? 1) /\
        (spi_pending d' = false -> klog d' = line :: log) /\
        (spi_pending d' = true -> klog d' =
          gap_spi_async (message_of read_irq_done) (chipselect_demux_index d) ::
          usleep_range 25 50 :: line :: log)
  | Halt _ => False
  | Undef => exists n, received_length d = Some n /\ 128 < n
  end.
Proof.
  intros Hd. split.
  { by rewrite issue_simple_command_done_eq, read_irq_done_eq. }
  rewrite read_irq_done_ok by apply Hd. destruct (received_length d) as [n|] eqn:En.
  - pose proof (received_length_bounds d n Hd En) as Hn. case_decide as Hle.
    2:{ exists n. split; [done|]. unfold SPI_BUF_LEN in Hle. lia. }
    unfold SPI_BUF_LEN in Hle. set (d1 := add_kcall wake_up _).
    destruct (irq_checked_user d1) as (-> & -> & log & Hlog). split_and!; try done; try lia.
    + apply wf_irq_checked, wf_add_kcall, wf_set_spi_pending, wf_moved; [|done].
      unfold SPI_BUF_LEN. lia.
    + rewrite Hlog. apply elem_of_app. right. simpl. left.
    + unfold d1. simpl. rewrite take_app_le, take_take by
        (rewrite length_take, (wf_data d Hd); unfold SPI_BUF_LEN; lia). f_equal; lia.
    + exists (klog d1). exact (irq_checked_line d1 eq_refl).
  - set (d1 := set_spi_pending false d).
    destruct (irq_checked_user d1) as (-> & -> & _). split_and!; try done.
    + by apply wf_irq_checked, wf_set_spi_pending.
    + exists (klog d1). exact (irq_checked_line d1 eq_refl).
Qed.

(** C23: [read] sleeps exactly while there is nothing to read and no signal.
    Otherwise it hands over the whole frame, however few bytes the caller asked
    for; a failed copy reports [-EFAULT] and keeps the frame for the next call;
    a successful one takes it, and afterwards [read] sleeps and [poll] reports
    no data.  A signal without data makes it return 0 and not [-EINTR]. *)
Theorem nrf51822_read_spec interrupted count d :
  wf_dev d ->
  let frame := take (Z.to_nat (buf_to_user_len d)) (buf_to_user d) in
  let copy := copy_to_user frame in
  nrf51822_read interrupted count d =
    (if negb (0 <? buf_to_user_len d) && negb interrupted then Done Blocked d
     else if negb (kret (klog d) copy =? 0)
     then Done (Returned (Err EFAULT) []) (add_kcall copy d)
     else Done (Returned (Ret (Z.of_nat (length frame))) frame)
            (set_buf_to_user (buf_to_user d) 0 (add_kcall copy d))) /\
  forall d', nrf51822_read interrupted count d = Done (Returned (Ret (Z.of_nat (length frame))) frame) d' ->
    nrf51822_read false count d' = Done Blocked d' /\
    nrf51822_poll d' = Done [POLLOUT; POLLWRNORM] (add_kcall poll_wait d').
Proof.
  intros [_ _ _ Huser Hlen _] frame copy.
  pose proof (read_ok interrupted count d Huser Hlen) as E.
  split; [exact E|]. intros d'. rewrite E.
  destruct (_ && _); [done|]. destruct (negb _); [done|]. intros [= <-]. done.
Qed.

(** C33: the copy and the reset of the length are not one atomic step: a frame
    that arrives between them is never delivered, and the reader is told the
    new frame's length with the old frame's bytes. *)
Theorem read_race_loses_frame d m bytes d1 d2 :
  wf_dev d -> 0 < buf_to_user_len d -> received_length d = Some m ->
  read_copy false d = Done (Copied bytes) d1 ->
  nrf51822_read_irq_done d1 = Done () d2 ->
  bytes = take (Z.to_nat (buf_to_user_len d)) (buf_to_user d) /\
  exists d3, read_finish d2 = Done m d3 /\ buf_to_user_len d3 = 0 /\
    nrf51822_read false 256 d3 = Done Blocked d3.
Proof.
  intros Hd Hlen Hm. pose proof Hd as [_ _ _ Huser Hlen' _].
  unfold read_copy, kernel. run_effects. rewrite (proj2 (Z.ltb_lt _ _) Hlen). simpl.
  unfold memcpy_at. rewrite decide_True.
  2:{ unfold SPI_BUF_LEN, CHAR_DEVICE_BUFFER_LEN in *. rewrite length_replicate. lia. }
  rewrite drop_ge, app_nil_r by (rewrite length_replicate; lia). simpl.
  destruct (_ =? 0); [|done]. intros [= <- <-]. set (d1' := add_kcall _ d).
  rewrite read_irq_done_ok by apply Hd.
  replace (received_length d1') with (Some m). case_decide; [|done]. intros [= <-].
  split; [done|]. set (d4 := add_kcall wake_up _).
  exists (set_buf_to_user (buf_to_user (irq_checked d4)) 0 (irq_checked d4)). split; [|done].
  unfold read_finish. run_effects. by destruct (irq_checked_user d4) as (_ & -> & _).
Qed.

(** C30: [ioctl]: an unknown number is [-ENOTTY]; a command is refused with
    [-EINTR] when the SPI buffers are in use and otherwise claims them and sends
    the command byte, reporting success without looking at the SPI module's
    answer; parameters that cannot be copied from the user are ignored and
    reported as success. *)
Theorem nrf51822_ioctl_spec num param d :
  wf_dev d ->
  nrf51822_ioctl num param d =
    match num, param with
    | ioctl_other _, _ => Done (Err ENOTTY) d
    | NRF51822_IOCTL_SET_DEBUG_VERBOSITY, Some level => Done (Ret 0) (set_debug_print level d)
    | NRF51822_IOCTL_SIMPLE_COMMAND, Some command =>
        if spi_pending d then Done (Err EINTR) d
        else Done (Ret 0)
               (submitted command issue_simple_command_done (set_spi_pending true d))
    | _, None => Done (Ret 0) d
    end.
Proof.
  intros [Hcmd _ _ _ _ _]. destruct num, param as [x|]; try done. cbn.
  unfold nrf51822_issue_simple_command. destruct (spi_pending d) eqn:E.
  - by rewrite (bind_Done _ _ _ _ _ (claim_busy d E)).
  - rewrite (bind_Done _ _ _ _ _ (claim_free d E)). run_effects. by rewrite submit_ok.
Qed.

(** C12: mutual exclusion on the SPI buffers, whatever the interleaving of
    interrupts, commands, completions and readers: at most one claim is under
    way and [spi_pending] is set while one is; nobody changes the command byte,
    the transfer or the message while the SPI core has them; the arrays keep
    their sizes.  It holds of every state up to the first over-read of the data
    buffer by a callback ([undefined_step]).  While the SPI module accepts every message, [spi_pending] is
    set only as long as a claim is under way. *)
Theorem one_transaction_at_a_time chipselect pin s :
  rtc step (Sys (fresh chipselect pin) []) s ->
  exclusive s /\
  ((forall log c, kret log c = 0) ->
   spi_pending (device s) = bool_decide (holders s <> [])).
Proof.
  assert (exclusive (Sys (fresh chipselect pin) [])) as Hfresh.
  { split; [|done]. split; try done. apply Forall_replicate. done. }
  intros Hs. split; [exact (rtc_invariant step _ exclusive_step _ _ Hs Hfresh)|].
  intros Hret.
  refine (proj2 (rtc_invariant step (fun s => exclusive s /\
    spi_pending (device s) = bool_decide (holders s <> [])) _ _ _ Hs (conj Hfresh eq_refl))).
  intros s1 s2 [] ?. eauto using exclusive_step, accurate_step.
Qed.

(** C25: types and bounds, whatever the interleaving, as long as the commands are
    bytes.  In every state that is reached the buffers have their sizes and
    hold bytes, the length for the user is one of a frame, and what [read]
    copies to the user are at most 128 bytes, the first ones of the buffer.  And
    every access of a step that is possible in it is in bounds, but for one: a
    completion callback goes on to over-read the 128 bytes of the data buffer,
    exactly when the length it received exceeds them.  Nothing is promised of
    what follows such an over-read. *)
Theorem buffers_hold_bytes chipselect pin s :
  rtc byte_step (Sys (fresh chipselect pin) []) s ->
  typed (device s) /\
  (forall interrupted bytes d', read_copy interrupted (device s) = Done (Copied bytes) d' ->
    Forall byte bytes /\ bytes = take (length bytes) (buf_to_user (device s)) /\ (length bytes <= 128)%nat) /\
  (undefined_step s <-> exists done n,
    Completed done ∈ holders s /\ received_length (device s) = Some n /\ 128 < n).
Proof.
  assert (byte_sys (Sys (fresh chipselect pin) [])) as Hfresh.
  { split_and!; [|split|done]; repeat split; try done; by apply Forall_replicate. }
  intros Hs. destruct (rtc_invariant byte_step _ typed_step _ _ Hs Hfresh) as (Hex & Hty & _).
  split; [done|]. split; [|by apply undefined_step_iff].
  destruct Hty as [Hd _ Huser]. intros i bytes d'. unfold read_copy, kernel. run_effects.
  destruct (_ && _); [done|]. destruct (memcpy_at _ _ _ _) as [b|] eqn:E; [|done].
  case_match; [|done]. intros [= <- _]. pose proof (wf_user_len _ Hd) as Hlen. unfold SPI_BUF_LEN in Hlen.
  pose proof (memcpy_at_length _ _ _ _ _ E) as Hb. rewrite length_replicate in Hb.
  pose proof (memcpy_at_take _ _ _ _ E) as Ht. rewrite <-Hb, firstn_all in Ht.
  split_and!; [rewrite Ht; by apply Forall_take|done|lia].
Qed.

(** Every run of an operation of the driver - the interrupt handler, both
    completion callbacks, [ioctl], [read] and [poll] - is a sequence of the
    steps above, so that the invariant covers them. *)
Theorem operations_are_runs d d' hs :
  (nrf51822_interrupt_handler d = Done () d' -> exists hs', rtc step (Sys d hs) (Sys d' hs')) /\
  (forall k, nrf51822_read_irq_done d = Done () d' \/
             nrf51822_issue_simple_command_done d = Done () d' ->
     exists hs', rtc step (Sys d (Completed k :: hs)) (Sys d' hs')) /\
  (forall num param r, nrf51822_ioctl num param d = Done r d' ->
     exists hs', rtc step (Sys d hs) (Sys d' hs')) /\
  (forall interrupted count r, nrf51822_read interrupted count d = Done r d' ->
     rtc step (Sys d hs) (Sys d' hs)) /\
  (forall mask, nrf51822_poll d = Done mask d' -> rtc step (Sys d hs) (Sys d' hs)).
Proof.
  split_and!.
  - apply read_irq_run.
  - intros k E. rewrite read_irq_done_eq, issue_simple_command_done_eq in E.
    assert ((receive ≫= finish) d = Done () d') as (wake & d1 & E1 & E2)%bind_Done_inv
      by by destruct E.
    destruct (finish_run wake d1 hs d' E2) as [hs' ?]. exists hs'.
    etrans; [apply rtc_once, (step_receive _ [] hs _ _ _ E1)|done].
  - intros [| |n] [x|] r E; try (injection E as <- <-; by exists hs).
    + exists hs. by eapply rtc_once, step_unclaimed, step_set_debug with (data := Some x).
    + by eapply command_run.
  - intros i n r (c & d1 & E1 & E2)%bind_Done_inv.
    etrans; [by eapply rtc_once, step_unclaimed, step_read_copy|].
    destruct c as [| |bytes]; [by injection E2 as _ <-..|].
    apply bind_Done_inv in E2 as (m & d2 & E2 & E3). injection E3 as _ <-.
    by eapply rtc_once, step_unclaimed, step_read_finish.
  - intros mask E. by eapply rtc_once, step_unclaimed, step_poll.
Qed.

(** C24: when the SPI module refuses the message of a command, the command still
    reports success, and the buffers stay claimed for good: whatever happens
    later, every command is refused with [-EINTR] and every interrupt is
    ignored. *)
Theorem refused_message_wedges command d :
  wf_dev d -> spi_pending d = false ->
  kret (klog d) (gap_spi_async (message_of issue_simple_command_done)
                   (chipselect_demux_index d)) <> 0 ->
  exists d', nrf51822_issue_simple_command command d = Done (Ret 0) d' /\
    rtc step (Sys d []) (Sys d' []) /\
    forall s, rtc step (Sys d' []) s ->
      (forall c, nrf51822_issue_simple_command c (device s) = Done (Err EINTR) (device s)) /\
      nrf51822_interrupt_handler (device s) = Done () (device s).
Proof.
  intros Hd Hp Hret. set (d1 := set_spi_pending true d).
  assert (submit command issue_simple_command_done d1 =
    Done tt (submitted command issue_simple_command_done d1)) as Hsubmit by apply submit_ok, Hd.
  exists (submitted command issue_simple_command_done d1). split_and!.
  - unfold nrf51822_issue_simple_command. rewrite (bind_Done _ _ _ _ _ (claim_free d Hp)).
    by rewrite (bind_Done _ _ _ _ _ Hsubmit).
  - etrans; [exact (claim_run command issue_simple_command_done _ _ _ _ (claim_free d Hp))|].
    apply rtc_once. by apply (step_submit_fail d1 [] []).
  - intros s Hs. destruct (rtc_invariant step _ wedged_step _ _ Hs) as (_ & _ & Hpend).
    { split_and!; [by apply wf_submitted, wf_set_spi_pending|done..]. }
    unfold nrf51822_issue_simple_command, nrf51822_interrupt_handler, nrf51822_read_irq.
    split; intros; by rewrite (bind_Done _ _ _ _ _ (claim_busy _ Hpend)).
Qed.

End theorems.
(** ** Witnesses *)

(** A kernel that does everything it is asked; the interrupt line is low. *)
Definition quiet_kernel : Linux := {| kret _ _ := 0 |}.

(** A kernel whose SPI module refuses every message. *)
Definition refusing_kernel : Linux :=
  {| kret _ c := if c is gap_spi_async _ _ then -22 else 0 |}.

(** A kernel on which the interrupt line stays high. *)
Definition busy_kernel : Linux := {| kret _ c := if c is gpio_get_value _ then 1 else 0 |}.

(** A device whose transfer of a three-byte frame has just ended. *)
Definition arrived : dev :=
  set_spi_pending true (transferred (3 :: 1 :: 7 :: 8 :: replicate 36 0) (fresh 1 60)).

Lemma wf_arrived : wf_dev arrived.
Proof. split; try done. unfold arrived. vm_decide. Qed.

Lemma transfer_done_spec_witness :
  exists d', @nrf51822_read_irq_done busy_kernel arrived = Done tt d' /\
    buf_to_user_len d' = 4 /\ take 4 (buf_to_user d') = [3; 1; 7; 8] /\ spi_pending d' = true.
Proof.
  pose proof (@transfer_done_spec busy_kernel arrived wf_arrived) as [_ H].
  destruct (@nrf51822_read_irq_done busy_kernel arrived) as [[] d'| |] eqn:E.
  - destruct H as (_ & (_ & Hlen & _ & Hbytes) & log & Hp & _).
    exists d'. split_and!; [done|exact Hlen|exact Hbytes|]. exact Hp.
  - destruct H.
  - exfalso. destruct H as (n & [= <-] & H). vm_compute in H. discriminate H.
Defined.

(** A device with a frame for the reader. *)
Definition readable : dev := moved 4 arrived.

Lemma wf_readable : wf_dev readable.
Proof. apply wf_moved; [unfold SPI_BUF_LEN; lia|apply wf_arrived]. Qed.

Lemma nrf51822_read_spec_witness :
  exists d', @nrf51822_read quiet_kernel false 1 readable = Done (Returned (Ret 4) [3; 1; 7; 8]) d' /\
    @nrf51822_read quiet_kernel false 1 d' = Done Blocked d'.
Proof.
  destruct (@nrf51822_read_spec quiet_kernel false 1 readable wf_readable) as [E Hafter].
  eexists. split; [exact E|]. exact (proj1 (Hafter _ E)).
Defined.

Lemma read_race_loses_frame_witness :
  let d := set_spi_data_buffer (<[0%nat := 5]> (spi_data_buffer readable)) readable in
  exists d1 d2 d3, @read_copy quiet_kernel false d = Done (Copied [3; 1; 7; 8]) d1 /\
    @nrf51822_read_irq_done quiet_kernel d1 = Done tt d2 /\ read_finish d2 = Done 6 d3 /\
    buf_to_user_len d3 = 0.
Proof.
  intros d. eexists _, _.
  destruct (@read_race_loses_frame quiet_kernel d 6 [3; 1; 7; 8]
    (add_kcall (copy_to_user [3; 1; 7; 8]) d)
    (irq_checked (H:=quiet_kernel) (add_kcall wake_up (set_spi_pending false
      (moved 6 (add_kcall (copy_to_user [3; 1; 7; 8]) d))))))
    as (_ & d3 & Hfinish & Hlen & _).
  - destruct wf_readable. split; try done. unfold d. vm_decide.
  - reflexivity.
  - reflexivity.
  - reflexivity.
  - reflexivity.
  - exists d3. split_and!; [reflexivity|reflexivity|exact Hfinish|exact Hlen].
Defined.

Lemma nrf51822_ioctl_spec_witness :
  exists d', @nrf51822_ioctl quiet_kernel NRF51822_IOCTL_SIMPLE_COMMAND (Some 2) (fresh 1 60) =
    Done (Ret 0) d' /\ spi_pending d' = true /\
    @nrf51822_ioctl quiet_kernel NRF51822_IOCTL_SIMPLE_COMMAND (Some 2) d' = Done (Err EINTR) d'.
Proof.
  assert (Hd : wf_dev (fresh 1 60)) by (split; try done; vm_decide).
  eexists. split_and!.
  - exact (@nrf51822_ioctl_spec quiet_kernel NRF51822_IOCTL_SIMPLE_COMMAND (Some 2) _ Hd).
  - reflexivity.
  - reflexivity.
Defined.

Lemma one_transaction_at_a_time_witness :
  exists d, rtc (@step quiet_kernel) (Sys (fresh 1 60) [])
      (Sys d [InFlight 2 issue_simple_command_done]) /\
    spi_pending d = true /\ spi_command_buffer d !! 0%nat = Some 2.
Proof.
  exists (@submitted 2 issue_simple_command_done (set_spi_pending true (fresh 1 60))).
  match goal with |- ?P /\ _ => assert (Hrun : P) end.
  { etrans; apply rtc_once; [by apply (step_claim (fresh 1 60))|].
    by apply (step_submit (set_spi_pending true (fresh 1 60)) [] []). }
  split; [exact Hrun|].
  destruct (@one_transaction_at_a_time quiet_kernel 1 60 _ Hrun) as ((_ & Hp & Hc & _) & _).
  split; [exact Hp|exact Hc].
Defined.

(** A command whose transfer brings in a length byte of 200. *)
Lemma buffers_hold_bytes_witness :
  exists d, rtc (@byte_step quiet_kernel) (Sys (fresh 1 60) []) (Sys d [Completed issue_simple_command_done]) /\
    Forall byte (spi_command_buffer d) /\
    @undefined_step quiet_kernel (Sys d [Completed issue_simple_command_done]).
Proof.
  set (d0 := @submitted 2 issue_simple_command_done (set_spi_pending true (fresh 1 60))).
  exists (transferred (200 :: replicate 39 0) d0).
  match goal with |- ?P /\ _ => assert (Hrun : P) end.
  { apply (rtc_l _ _ (Sys (set_spi_pending true (fresh 1 60)) [Claimed 2 issue_simple_command_done]));
      [|apply (rtc_l _ _ (Sys d0 [InFlight 2 issue_simple_command_done])); [|apply rtc_once]].
    - split; [by apply (step_claim (fresh 1 60) [] 2 issue_simple_command_done)|].
      constructor; [vm_decide|constructor].
    - split; [by apply (step_submit (set_spi_pending true (fresh 1 60)) [] [])|].
      constructor; [vm_decide|constructor].
    - split; [|by constructor].
      apply (step_transfer d0 [] []); [done|vm_decide]. }
  split; [exact Hrun|].
  destruct (@buffers_hold_bytes quiet_kernel 1 60 _ Hrun) as (Hty & _ & Hu).
  split; [exact (ty_command _ Hty)|]. apply Hu. exists issue_simple_command_done, 201.
  split_and!; [left|reflexivity|lia].
Defined.

Lemma refused_message_wedges_witness :
  exists d', @nrf51822_issue_simple_command refusing_kernel 2 (fresh 1 60) = Done (Ret 0) d' /\
    forall c, @nrf51822_issue_simple_command refusing_kernel c d' = Done (Err EINTR) d'.
Proof.
  destruct (@refused_message_wedges refusing_kernel 2 (fresh 1 60)) as (d' & E & _ & Hall).
  - split; try done. vm_decide.
  - reflexivity.
  - discriminate.
  - exists d'. split; [exact E|]. exact (proj1 (Hall _ (rtc_refl _ _))).
Defined.

End Driver.
