(* ===== verification/NrfProbe.v ===== *)
(** * Loading and unloading the driver of the BLE co-processor

    Models [nrf51822_probe] and [nrf51822_remove] of
    [src/software/driver/nrf51822/nrf51822.c], with the labels the probe function
    jumps to on an error.  The calls that take and give back kernel resources
    are recorded with their results in [klog], newest first, and [held] reads
    from it what the driver holds.  Resources requested with a [devm_] function
    belong to the kernel's device management, which releases them itself. *)
From S2P Require Import Prelude NrfDriver.
Import Driver(DEBUG_PRINT_DBG).

Module Probe.

(** ** Data *)

Inductive kcall :=
| request_module
| kmalloc_radios (count : Z)
| kfree_radios
| devm_gpio_request_one (pin : Z)
| devm_request_irq (pin : Z) (radio : nat)
| alloc_chrdev_region (count : Z)
| unregister_chrdev_region (count : Z)
| class_create
| class_destroy
| cdev_add (radio : nat) (devno : Z)
| cdev_del (radio : nat)
| device_create (radio : nat) (devno : Z)
| device_destroy (devno : Z)
| unregister_chrdev (major : Z).

Class Kernel := {
  (** the device tree: "num-radios", "interrupt%i-gpio" and "radio%i-csmux" *)
  num_radios_property : option Z;
  interrupt_gpio : nat -> Z;
  csmux_property : nat -> option Z;
  gpio_is_valid : Z -> bool;
  (** the device numbers *)
  region_major : Z;
  MKDEV : Z -> Z -> Z;
  (** what the calls return; for the ones that return a pointer 0 is NULL *)
  kret : list (kcall * Z) -> kcall -> Z;
}.

(** The fields of [struct nrf51822_dev] that the functions set. *)
Record radio := Radio {
  id : Z; chipselect_demux_index : Z; pin_interrupt : Z; devno : Z;
}.
Definition zero_radio : radio := Radio 0 0 0 0.

Definition set_pin (pin : Z) (r : radio) : radio :=
  Radio (id r) (chipselect_demux_index r) pin (devno r).
Definition set_chipselect (index : Z) (r : radio) : radio :=
  Radio (id r) index (pin_interrupt r) (devno r).
Definition set_id (i : Z) (r : radio) : radio :=
  Radio i (chipselect_demux_index r) (pin_interrupt r) (devno r).
Definition set_devno (n : Z) (r : radio) : radio :=
  Radio (id r) (chipselect_demux_index r) (pin_interrupt r) n.

(** [struct nrf51822_config config] and the trace; [radios] is the memory the
    pointer of that name refers to. *)
Record config := Config {
  major : Z; num_radios : Z; radios : list radio; debug_print : Z;
  klog : list (kcall * Z);
}.

Definition set_major (m : Z) (c : config) : config :=
  Config m (num_radios c) (radios c) (debug_print c) (klog c).
Definition set_num_radios (n : Z) (c : config) : config :=
  Config (major c) n (radios c) (debug_print c) (klog c).
Definition set_radios (l : list radio) (c : config) : config :=
  Config (major c) (num_radios c) l (debug_print c) (klog c).
Definition add_klog (k : kcall) (ret : Z) (c : config) : config :=
  Config (major c) (num_radios c) (radios c) (debug_print c) ((k, ret) :: klog c).

(** The labels at the end of the probe function. *)
Inductive label := error0 | error1 | error2 | error3.

(** ** Operations *)

Section operations.
Context `{Kernel}.

Definition kernel (k : kcall) : M config Z :=
  fun c => let r := kret (klog c) k in Done r (add_klog k r c).
Definition kernel_void (k : kcall) : M config () := fun c => Done tt (add_klog k 0 c).

(** [dev = &config.radios[i]], and an update of [*dev]. *)
Definition radio_at (i : nat) : M config radio := l ← gets radios; lift (l !! i).
Definition update_radio (i : nat) (f : radio -> radio) : M config () :=
  l ← gets radios;
  r ← lift (l !! i);
  l' ← lift (store_at l i (f r));
  modify (set_radios l').

(** The body of the first loop; [Some] is a jump. *)
Definition setup_radio (i : nat) : M config (option label) :=
  let pin := interrupt_gpio i in
  update_radio i (set_pin pin);;
  if negb (gpio_is_valid pin) then mret (Some error1) else
  err ← kernel (devm_gpio_request_one pin);
  if negb (err =? 0) then mret (Some error1) else
  result ← kernel (devm_request_irq pin i);
  if negb (result =? 0) then mret (Some error1) else
  match csmux_property i with
  | None => mret (Some error1)
  | Some prop =>
      update_radio i (set_chipselect (u32 prop));;
      update_radio i (set_id (Z.of_nat i));;
      mret None
  end.

(** The body of the second loop. *)
Definition register_radio (i : nat) : M config (option label) :=
  m ← gets major;
  dev ← radio_at i;
  let n := MKDEV m (id dev) in
  update_radio i (set_devno n);;
  result ← kernel (cdev_add i n);
  if result <? 0 then mret (Some error3) else
  de ← kernel (device_create i n);
  if de =? 0 then mret (Some error3) else mret None.

(** [for (i = from; i < from + n; i++)] with a body that may jump out. *)
Fixpoint for_radios (body : nat -> M config (option label)) (n from : nat) :
    M config (option label) :=
  match n with
  | O => mret None
  | S n =>
      jump ← body from;
      match jump with
      | Some l => mret (Some l)
      | None => for_radios body n (S from)
      end
  end.

(** The function up to [return 0]. *)
Definition probe_body : M config (option label) :=
  (fun _ => Done tt (Config 0 0 [] DEBUG_PRINT_DBG []));;
  kernel_void request_module;;
  match num_radios_property with
  | None => mret (Some error0)
  | Some prop =>
      modify (set_num_radios (u8 prop));;
      count ← gets num_radios;
      p ← kernel (kmalloc_radios count);
      if p =? 0 then mret (Some error0) else
      modify (set_radios (replicate (Z.to_nat count) zero_radio));;
      jump ← for_radios setup_radio (Z.to_nat count) 0;
      match jump with
      | Some l => mret (Some l)
      | None =>
          err ← kernel (alloc_chrdev_region count);
          if err <? 0 then mret (Some error1) else
          modify (set_major region_major);;
          cl ← kernel class_create;
          if cl =? 0 then mret (Some error2) else
          for_radios register_radio (Z.to_nat count) 0
      end
  end.

(** What runs from a label on. *)
Definition unwind (l : label) : M config () :=
  n ← gets num_radios;
  match l with
  | error3 => kernel_void class_destroy;; kernel_void (unregister_chrdev_region n);; kernel_void kfree_radios
  | error2 => kernel_void (unregister_chrdev_region n);; kernel_void kfree_radios
  | error1 => kernel_void kfree_radios
  | error0 => mret ()
  end.

(** [nrf51822_probe(pltf)] *)
Definition nrf51822_probe : M config Z :=
  jump ← probe_body;
  match jump with
  | None => mret 0
  | Some l => unwind l;; mret (-1)
  end.

Fixpoint remove_radios (n i : nat) : M config () :=
  match n with
  | O => mret ()
  | S n =>
      dev ← radio_at i;
      kernel_void (cdev_del i);;
      kernel_void (unregister_chrdev (devno dev));;
      kernel_void (device_destroy (devno dev));;
      remove_radios n (S i)
  end.

(** [nrf51822_remove(pltf)] *)
Definition nrf51822_remove : M config Z :=
  n ← gets num_radios;
  remove_radios (Z.to_nat n) 0;;
  kernel_void class_destroy;;
  mret 0.
End operations.

(** ** What is held *)

Inductive resource :=
| the_radios
| the_region
| the_class
| the_cdev (radio : nat)
| the_device (devno : Z).

#[export] Instance resource_eq_dec : EqDecision resource.
Proof. solve_decision. Defined.

(** The resource a successful call takes, and the one a call gives back.
    [unregister_chrdev] gives back what [register_chrdev] took. *)
Definition taken (k : kcall) (ret : Z) : option resource :=
  match k with
  | kmalloc_radios _ => if ret =? 0 then None else Some the_radios
  | alloc_chrdev_region _ => if ret <? 0 then None else Some the_region
  | class_create => if ret =? 0 then None else Some the_class
  | cdev_add i _ => if ret <? 0 then None else Some (the_cdev i)
  | device_create _ n => if ret =? 0 then None else Some (the_device n)
  | _ => None
  end.

Definition given_back (k : kcall) : option resource :=
  match k with
  | kfree_radios => Some the_radios
  | unregister_chrdev_region _ => Some the_region
  | class_destroy => Some the_class
  | cdev_del i => Some (the_cdev i)
  | device_destroy n => Some (the_device n)
  | _ => None
  end.

Fixpoint held (log : list (kcall * Z)) (r : resource) : bool :=
  match log with
  | [] => false
  | (k, ret) :: log =>
      if decide (taken k ret = Some r) then true
      else if decide (given_back k = Some r) then false
      else held log r
  end.

(** The driver holds exactly these resources. *)
Definition holds (c : config) (l : list resource) : Prop :=
  forall r, held (klog c) r = true <-> r ∈ l.

(** How many calls of a kind the trace has. *)
Fixpoint count (p : kcall -> Z -> bool) (log : list (kcall * Z)) : nat :=
  match log with
  | [] => 0
  | (k, ret) :: log => (if p k ret then 1 else 0) + count p log
  end.

(** The calls that registered a character device or a device node, and those
    that failed. *)
Definition is_added (k : kcall) (ret : Z) : bool :=
  match k with cdev_add _ _ => 0 <=? ret | _ => false end.
Definition is_created (k : kcall) (ret : Z) : bool :=
  match k with device_create _ _ => negb (ret =? 0) | _ => false end.
Definition is_failed (k : kcall) (ret : Z) : bool :=
  match k with
  | kmalloc_radios _ | class_create | device_create _ _ => ret =? 0
  | devm_gpio_request_one _ | devm_request_irq _ _ => negb (ret =? 0)
  | alloc_chrdev_region _ | cdev_add _ _ => ret <? 0
  | _ => false
  end.

Definition added (c : config) : nat := count is_added (klog c).
Definition created (c : config) : nat := count is_created (klog c).
Definition failed (c : config) : nat := count is_failed (klog c).

(** What makes loading impossible: a device tree without the number of radios,
    or without a valid pin or output for one of them, or a failed call. *)
Definition bad_pin `{Kernel} (i : nat) : Prop :=
  gpio_is_valid (interrupt_gpio i) = false \/ csmux_property i = None.
Definition trouble `{Kernel} (c : config) : Prop :=
  num_radios_property = None \/
  (exists i, Z.of_nat i < num_radios c /\ bad_pin i) \/ (0 < failed c)%nat.

(** Radio [i] as the first loop leaves it. *)
Definition configured `{Kernel} (i : nat) (r : radio) : Prop :=
  id r = Z.of_nat i /\ Some (chipselect_demux_index r) = u32 <$> csmux_property i /\
  pin_interrupt r = interrupt_gpio i.

(** The resources of the first [j] character devices and [k] device nodes. *)
Definition registered `{Kernel} (j k : nat) : list resource :=
  (the_cdev <$> seq 0 j) ++ ((fun i => the_device (MKDEV region_major (Z.of_nat i))) <$> seq 0 k).

(** ** Lemmas *)

Lemma holds_take c l k ret r :
  taken k ret = Some r -> holds c l -> holds (add_klog k ret c) (r :: l).
Proof.
  intros Ht Hl r'. simpl. rewrite Ht, elem_of_cons. destruct (decide (Some r = Some r')) as [[= ->]|Hne].
  - by split; [left|].
  - destruct (decide (given_back k = Some r')) as [E|_]; [by destruct k; simpl in *; try done|].
    rewrite (Hl r'). split; [by right|by intros [->|?]].
Qed.

Lemma holds_other c l k ret :
  taken k ret = None -> given_back k = None -> holds c l -> holds (add_klog k ret c) l.
Proof. intros Ht Hg Hl r. simpl. rewrite Ht, Hg. exact (Hl r). Qed.

Lemma holds_give c l k ret r l' :
  taken k ret = None -> given_back k = Some r -> (forall x, x ∈ l' <-> x ∈ l /\ x <> r) ->
  holds c l -> holds (add_klog k ret c) l'.
Proof.
  intros Ht Hg Hl' Hl r'. simpl. rewrite Ht, Hg, Hl', <-(Hl r').
  destruct (decide (None = Some r')); [done|].
  destruct (decide (Some r = Some r')) as [[= ->]|Hne].
  - split; [done|by intros [_ []]].
  - split; [intros Hr; split; [done|congruence]|by intros []].
Qed.

Lemma holds_release c l k ret r :
  taken k ret = None -> given_back k = Some r -> r ∉ l ->
  holds c (r :: l) -> holds (add_klog k ret c) l.
Proof.
  intros Ht Hg Hr Hl. eapply holds_give; [done..| |exact Hl].
  intros x. rewrite elem_of_cons. split; [|tauto]. intros ?. split; [tauto|by intros ->].
Qed.

Lemma holds_equiv c l l' : (forall x, x ∈ l <-> x ∈ l') -> holds c l -> holds c l'.
Proof. intros E Hl r. by rewrite (Hl r). Qed.

Lemma added_add k ret c :
  added (add_klog k ret c) = ((if is_added k ret then 1 else 0) + added c)%nat.
Proof. done. Qed.
Lemma created_add k ret c :
  created (add_klog k ret c) = ((if is_created k ret then 1 else 0) + created c)%nat.
Proof. done. Qed.
Lemma failed_add k ret c :
  failed (add_klog k ret c) = ((if is_failed k ret then 1 else 0) + failed c)%nat.
Proof. done. Qed.

Section lemmas.
Context `{Kernel}.
Implicit Types c : config.

Lemma wp_kernel k c (Q : Z -> config -> Prop) R :
  Q (kret (klog c) k) (add_klog k (kret (klog c) k) c) -> wp (kernel k) c Q R.
Proof. done. Qed.

Lemma wp_kernel_void k c (Q : () -> config -> Prop) R :
  Q tt (add_klog k 0 c) -> wp (kernel_void k) c Q R.
Proof. done. Qed.

Lemma wp_update_radio i f c r (Q : () -> config -> Prop) R :
  radios c !! i = Some r -> Q tt (set_radios (<[i := f r]> (radios c)) c) ->
  wp (update_radio i f) c Q R.
Proof.
  intros Hr HQ. unfold wp, update_radio. run_effects. rewrite Hr.
  rewrite store_at_ok by by eapply lookup_lt_Some. done.
Qed.

(** What the loops keep: the numbers, and the length of the array. *)
Definition same_shape c c' : Prop :=
  major c' = major c /\ num_radios c' = num_radios c /\
  length (radios c') = length (radios c).

Lemma setup_radio_ok i c l :
  (i < length (radios c))%nat -> holds c l ->
  wp (setup_radio i) c (fun jump c' => same_shape c c' /\ holds c' l /\
    added c' = added c /\ created c' = created c /\
    match jump with
    | None => failed c' = failed c /\ ~ bad_pin i /\
        exists r, configured i r /\ radios c' = <[i := r]> (radios c)
    | Some label => label = error1 /\ (bad_pin i \/ (0 < failed c')%nat)
    end) (fun _ => False).
Proof.
  intros [r Hr]%lookup_lt_is_Some_2 Hl. pose proof (lookup_lt_Some _ _ _ Hr) as Hi.
  unfold setup_radio, same_shape, bad_pin. apply wp_bind. eapply wp_update_radio; [done|].
  set (c1 := set_radios _ c).
  assert (length (radios c1) = length (radios c)) as H1 by (simpl; by rewrite length_insert).
  destruct (gpio_is_valid _) eqn:Hv; cbn [negb]; [|apply wp_ret; by split_and!; auto].
  apply wp_bind, wp_kernel. set (c2 := add_klog _ _ c1).
  assert (holds c2 l) as Hl2 by by apply holds_other.
  destruct (negb (_ =? 0)) eqn:E1.
  { apply wp_ret. split_and!; try done. right. unfold c2. rewrite failed_add. cbn [is_failed]. rewrite E1. lia. }
  apply wp_bind, wp_kernel. set (c3 := add_klog _ _ c2).
  assert (holds c3 l) as Hl3 by by apply holds_other.
  destruct (negb (kret (klog c2) _ =? 0)) eqn:E2.
  { apply wp_ret. split_and!; try done. right. unfold c3. rewrite failed_add. cbn [is_failed]. rewrite E2. lia. }
  assert (failed c3 = failed c) as Hfail.
  { unfold c3. rewrite failed_add. cbn [is_failed]. rewrite E2. unfold c2. rewrite failed_add.
    cbn [is_failed]. by rewrite E1. }
  destruct (csmux_property i) as [p|] eqn:Hp; [|apply wp_ret; by split_and!; auto].
  apply wp_bind. eapply wp_update_radio; [by apply list_lookup_insert_eq|].
  apply wp_bind. eapply wp_update_radio.
  { simpl. apply list_lookup_insert_eq. by rewrite length_insert. }
  apply wp_ret. simpl. rewrite !list_insert_insert_eq, length_insert. split_and!; try done.
  { by intros []. }
  eexists. split; [|done]. unfold configured. by rewrite Hp.
Qed.

Lemma register_radio_ok i c l :
  (exists r, radios c !! i = Some r /\ id r = Z.of_nat i) -> holds c l ->
  let n := MKDEV (major c) (Z.of_nat i) in
  wp (register_radio i) c (fun jump c' => same_shape c c' /\
    (exists r, radios c !! i = Some r /\ radios c' = <[i := set_devno n r]> (radios c)) /\
    match jump with
    | None => holds c' (the_device n :: the_cdev i :: l) /\ failed c' = failed c /\
        added c' = S (added c) /\ created c' = S (created c)
    | Some label => label = error3 /\ (0 < failed c')%nat /\ created c' = created c /\
        (added c' = added c /\ holds c' l \/ added c' = S (added c) /\ holds c' (the_cdev i :: l))
    end) (fun _ => False).
Proof.
  intros (r & Hr & Hid) Hl n. pose proof (lookup_lt_Some _ _ _ Hr) as Hi.
  unfold register_radio, same_shape, radio_at. apply wp_bind, wp_gets, wp_bind, wp_bind, wp_gets.
  apply wp_lift. exists r. split; [done|]. rewrite Hid. fold n.
  apply wp_bind. eapply wp_update_radio; [done|]. set (c1 := set_radios _ c).
  assert (length (radios c1) = length (radios c)) as H1 by (simpl; by rewrite length_insert).
  apply wp_bind, wp_kernel. destruct (_ <? 0) eqn:E1.
  { apply wp_ret. split_and!; try done; [by exists r|rewrite failed_add; cbn [is_failed]; rewrite E1; lia|].
    left. split.
    - rewrite added_add. cbn [is_added]. destruct (0 <=? _) eqn:E; [lia|done].
    - apply holds_other; cbn [taken given_back]; [|done..]. by rewrite E1. }
  set (c2 := add_klog _ _ c1).
  assert (holds c2 (the_cdev i :: l)) as Hl2 by (apply holds_take; cbn [taken]; [by rewrite E1|done]).
  assert (added c2 = S (added c) /\ failed c2 = failed c) as [Ha Hf].
  { unfold c2. rewrite added_add, failed_add. cbn [is_added is_failed]. rewrite E1.
    destruct (0 <=? _) eqn:E; [done|lia]. }
  apply wp_bind, wp_kernel. destruct (_ =? 0) eqn:E2; apply wp_ret; (split_and!; try done; [by exists r|..]).
  - rewrite failed_add. cbn [is_failed]. rewrite E2. lia.
  - rewrite created_add. cbn [is_created]. by rewrite E2.
  - right. split; [exact Ha|]. apply holds_other; cbn [taken given_back]; [|done..]. by rewrite E2.
  - apply holds_take; cbn [taken]; [by rewrite E2|done].
  - rewrite failed_add. cbn [is_failed]. rewrite E2. exact Hf.
  - rewrite created_add. cbn [is_created]. by rewrite E2.
Qed.

Lemma same_shape_trans c1 c2 c3 : same_shape c1 c2 -> same_shape c2 c3 -> same_shape c1 c3.
Proof. unfold same_shape. intros (-> & -> & ->) (-> & -> & ->). done. Qed.

(** What the loops do to the array: [P j] holds of the radios in the range. *)
Definition updated (P : nat -> radio -> radio -> Prop) (n i : nat) c c' : Prop :=
  forall j r', radios c' !! j = Some r' -> exists r, radios c !! j = Some r /\
    if decide (i <= j < i + n)%nat then P j r r' else r' = r.

Lemma updated_cons P n i c r r' c1 c2 :
  radios c !! i = Some r -> radios c1 = <[i := r']> (radios c) -> P i r r' ->
  updated P n (S i) c1 c2 -> updated P (S n) i c c2.
Proof.
  intros Hr Hc1 HP Hup j rj Hj. destruct (Hup j rj Hj) as (r1 & Hr1 & H1).
  rewrite Hc1 in Hr1. destruct (decide (j = i)) as [->|Hne].
  - rewrite list_lookup_insert_eq in Hr1 by by eapply lookup_lt_Some. injection Hr1 as <-.
    rewrite decide_False in H1 by lia. subst rj. exists r. rewrite decide_True by lia. done.
  - rewrite list_lookup_insert_ne in Hr1 by done. exists r1. split; [done|].
    destruct (decide (S i <= j < S i + n)%nat).
    + by rewrite decide_True by lia.
    + by rewrite decide_False by lia.
Qed.

Lemma setup_radios_ok n i c l :
  (i + n <= length (radios c))%nat -> holds c l ->
  wp (for_radios setup_radio n i) c (fun jump c' => same_shape c c' /\ holds c' l /\
    added c' = added c /\ created c' = created c /\
    match jump with
    | None => updated (fun j _ r' => configured j r') n i c c' /\ failed c' = failed c /\
        forall j, (i <= j < i + n)%nat -> ~ bad_pin j
    | Some label => label = error1 /\
        ((exists j, (i <= j < i + n)%nat /\ bad_pin j) \/ (0 < failed c')%nat)
    end) (fun _ => False).
Proof.
  revert i c. induction n as [|n IH]; intros i c Hlen Hl; cbn [for_radios].
  { apply wp_ret. split_and!; try done; [|lia]. intros j r Hr. exists r. by rewrite decide_False by lia. }
  destruct (lookup_lt_is_Some_2 (radios c) i) as [r Hr]; [lia|].
  apply wp_bind. eapply wp_mono; [apply (setup_radio_ok i c l); [lia|done]| |done].
  intros [label|] c1 (Hs1 & Hl1 & Ha1 & Hc1 & H1).
  { apply wp_ret. split_and!; try done; [apply H1|]. destruct H1 as [_ [?|?]]; [left|by right].
    exists i. split; [lia|done]. }
  destruct H1 as (Hf1 & Hok1 & r' & Hr' & Hrs).
  eapply wp_mono; [apply (IH (S i) c1); [|done]| |done].
  { destruct Hs1 as (_ & _ & ->). lia. }
  intros jump c2 (Hs2 & Hl2 & Ha2 & Hc2 & H2).
  split_and!; [by eapply same_shape_trans|done|congruence..|]. destruct jump.
  - destruct H2 as [-> [(j & ? & ?)|?]]; (split; [done|]); [left; exists j; split; [lia|done]|by right].
  - destruct H2 as (Hup & Hf2 & Hok). split_and!; [by eapply updated_cons|congruence|].
    intros j Hj. destruct (decide (j = i)) as [->|]; [done|apply Hok; lia].
Qed.

Lemma registered_cdev j k l x :
  x ∈ registered (S j) k ++ l <-> x ∈ the_cdev j :: registered j k ++ l.
Proof. unfold registered. rewrite seq_S, fmap_app. cbn [fmap list_fmap].
  rewrite elem_of_cons, !elem_of_app, list_elem_of_singleton. tauto. Qed.

Lemma registered_device j k l x :
  x ∈ registered j (S k) ++ l <->
  x ∈ the_device (MKDEV region_major (Z.of_nat k)) :: registered j k ++ l.
Proof. unfold registered. rewrite seq_S, fmap_app. cbn [fmap list_fmap].
  rewrite elem_of_cons, !elem_of_app, list_elem_of_singleton. tauto. Qed.

Lemma register_radios_ok n i c l :
  major c = region_major -> (i + n <= length (radios c))%nat ->
  (forall j r, (i <= j < i + n)%nat -> radios c !! j = Some r -> id r = Z.of_nat j) ->
  added c = i -> created c = i ->
  holds c (registered i i ++ l) ->
  wp (for_radios register_radio n i) c (fun jump c' => same_shape c c' /\
    match jump with
    | None => holds c' (registered (i + n) (i + n) ++ l) /\ failed c' = failed c /\
        updated (fun j r r' => r' = set_devno (MKDEV region_major (Z.of_nat j)) r) n i c c'
    | Some label => label = error3 /\ (0 < failed c')%nat /\
        (created c' <= added c' <= S (created c'))%nat /\ (added c' <= i + n)%nat /\
        holds c' (registered (added c') (created c') ++ l)
    end) (fun _ => False).
Proof.
  revert i c. induction n as [|n IH]; intros i c Hm Hlen Hids Ha Hc Hl; cbn [for_radios].
  { apply wp_ret. split_and!; try done; [by rewrite Nat.add_0_r|].
    intros j r Hr. exists r. by rewrite decide_False by lia. }
  destruct (lookup_lt_is_Some_2 (radios c) i) as [r Hr]; [lia|].
  apply wp_bind. eapply wp_mono; [apply (register_radio_ok i c (registered i i ++ l))| |done].
  { exists r. split; [done|]. apply Hids; [lia|done]. }
  { exact Hl. }
  rewrite Hm. intros [label|] c1 (Hs1 & (r0 & Hr0 & Hc1) & H1); rewrite Hr in Hr0; injection Hr0 as <-.
  { apply wp_ret. split; [done|].
    destruct H1 as (-> & Hf & Hcr & [[Had H1]|[Had H1]]); rewrite Had, Hcr, Ha, Hc;
      (split_and!; [done|done|lia..|]).
    - done.
    - eapply holds_equiv; [|exact H1]. intros x. by rewrite registered_cdev. }
  destruct H1 as (H1 & Hf1 & Ha1 & Hcr1).
  eapply wp_mono; [apply (IH (S i) c1)| |done].
  - by destruct Hs1 as (-> & _).
  - destruct Hs1 as (_ & _ & ->). lia.
  - intros j rj Hj. rewrite Hc1, list_lookup_insert_ne by lia. apply Hids. lia.
  - by rewrite Ha1, Ha.
  - by rewrite Hcr1, Hc.
  - eapply holds_equiv; [|exact H1]. intros x.
    by rewrite registered_device, !elem_of_cons, registered_cdev, elem_of_cons.
  - intros jump c2 (Hs2 & H2). split; [by eapply same_shape_trans|].
    replace (i + S n)%nat with (S i + n)%nat by lia. destruct jump; [done|].
    destruct H2 as (H2 & Hf2 & Hup). split_and!; [done|congruence|]. by eapply updated_cons.
Qed.

(** What is held where the function jumps to a label, besides the registered
    devices. *)
Definition kept (l : label) : list resource :=
  match l with
  | error0 => []
  | error1 => [the_radios]
  | error2 => [the_region; the_radios]
  | error3 => [the_class; the_region; the_radios]
  end.

(** The calls behind a label give those back, and nothing else. *)
Lemma unwind_ok l c j k :
  holds c (registered j k ++ kept l) ->
  wp (unwind l) c (fun _ c' => num_radios c' = num_radios c /\ added c' = added c /\
    created c' = created c /\ failed c' = failed c /\ holds c' (registered j k))
    (fun _ => False).
Proof.
  intros Hl. assert (Hnot : forall x, x ∈ registered j k ->
    x <> the_class /\ x <> the_region /\ x <> the_radios).
  { intros x. unfold registered. rewrite elem_of_app, !list_elem_of_fmap.
    by intros [(? & -> & _)|(? & -> & _)]. }
  assert (Hgive : forall c k0 r l, taken k0 0 = None -> given_back k0 = Some r ->
    r ∈ [the_class; the_region; the_radios] -> r ∉ l ->
    holds c (registered j k ++ r :: l) -> holds (add_klog k0 0 c) (registered j k ++ l)).
  { intros c0 k0 r l0 Ht Hg Hr Hrl H0. eapply holds_give; [done..| |exact H0].
    intros x. rewrite !elem_of_app, elem_of_cons. split.
    - intros [Hx|Hx]; (split; [tauto|]); [|by intros ->].
      pose proof (Hnot x Hx) as (? & ? & ?). intros ->.
      rewrite !elem_of_cons in Hr. destruct Hr as [|[|[|[]%elem_of_nil]]]; done.
    - tauto. }
  unfold unwind. apply wp_bind, wp_gets. rewrite <-(app_nil_r (registered j k)).
  destruct l; repeat apply wp_bind, wp_kernel_void; [apply wp_ret|apply wp_kernel_void..];
    (split_and!; [done..|]).
  - done.
  - eapply Hgive; [done..|vm_decide|vm_decide|done].
  - do 2 (eapply Hgive; [done..|vm_decide|vm_decide|]). done.
  - do 3 (eapply Hgive; [done..|vm_decide|vm_decide|]). done.
Qed.

Lemma remove_radios_ok n i c :
  (i + n <= length (radios c))%nat ->
  wp (remove_radios n i) c (fun _ c' => radios c' = radios c /\
    forall r, held (klog c') r = true <-> held (klog c) r = true /\
      forall j d, (i <= j < i + n)%nat -> radios c !! j = Some d ->
        r <> the_cdev j /\ r <> the_device (devno d)) (fun _ => False).
Proof.
  revert i c. induction n as [|n IH]; intros i c Hlen; cbn [remove_radios].
  { apply wp_ret. split; [done|]. intros r. split; [|by intros []]. intros ?. split; [done|lia]. }
  destruct (lookup_lt_is_Some_2 (radios c) i) as [d Hd]; [lia|].
  unfold radio_at. apply wp_bind, wp_bind, wp_gets, wp_lift. exists d. split; [done|].
  do 3 apply wp_bind, wp_kernel_void. set (c1 := add_klog _ _ _).
  eapply wp_mono; [apply (IH (S i) c1); simpl; lia| |done].
  intros _ c' (Hr & Hheld). split; [done|]. intros r. rewrite Hheld. simpl.
  destruct (decide (Some (the_device (devno d)) = Some r)) as [[= <-]|Hne1].
  { split; [by intros []|]. intros [_ Hall]. by destruct (Hall i d ltac:(lia) Hd) as [_ []]. }
  destruct (decide (Some (the_cdev i) = Some r)) as [[= <-]|Hne2].
  { split; [by intros []|]. intros [_ Hall]. by destruct (Hall i d ltac:(lia) Hd) as [[] _]. }
  destruct (decide (None = Some r)); [done|].
  split; intros [Hh Hall]; (split; [done|]); intros j d' Hj Hd'.
  - destruct (decide (j = i)) as [->|]; [|apply Hall; [lia|done]].
    rewrite Hd in Hd'. injection Hd' as <-. split; congruence.
  - apply Hall; [lia|done].
Qed.
(** Loaded: all radios configured, everything held. *)
Definition loaded c : Prop :=
  (exists prop, num_radios_property = Some prop /\ num_radios c = u8 prop) /\
  length (radios c) = Z.to_nat (num_radios c) /\
  (forall i r, radios c !! i = Some r ->
     configured i r /\ devno r = MKDEV region_major (Z.of_nat i)) /\
  holds c (registered (length (radios c)) (length (radios c)) ++
    [the_class; the_region; the_radios]).

(** Nothing was in the way. *)
Definition smooth c : Prop :=
  failed c = 0%nat /\ forall i, Z.of_nat i < num_radios c -> ~ bad_pin i.

(** Where the body of the probe function ends. *)
Definition held_at (jump : option label) c : Prop :=
  match jump with
  | None => loaded c /\ smooth c
  | Some l =>
      trouble c /\ (created c <= added c <= S (created c))%nat /\
      (added c <= Z.to_nat (num_radios c))%nat /\
      holds c (registered (added c) (created c) ++ kept l)
  end.

(** A failure before anything is registered. *)
Lemma held_at_early l c :
  trouble c -> added c = 0%nat -> created c = 0%nat -> holds c (kept l) -> held_at (Some l) c.
Proof. intros Ht Ha Hc Hl. unfold held_at. rewrite Ha, Hc. split_and!; [done|lia..|done]. Qed.

Lemma trouble_failed c : (0 < failed c)%nat -> trouble c.
Proof. intros. right. by right. Qed.

(** From the allocation of the device numbers on. *)
Lemma register_all_ok c :
  length (radios c) = Z.to_nat (num_radios c) ->
  (exists prop, num_radios_property = Some prop /\ num_radios c = u8 prop) ->
  (forall i r, radios c !! i = Some r -> configured i r) ->
  added c = 0%nat -> created c = 0%nat -> smooth c -> holds c [the_radios] ->
  wp (err ← kernel (alloc_chrdev_region (num_radios c));
      if err <? 0 then mret (Some error1) else
      modify (set_major region_major);;
      cl ← kernel class_create;
      if cl =? 0 then mret (Some error2) else
      for_radios register_radio (Z.to_nat (num_radios c)) 0) c held_at (fun _ => False).
Proof.
  intros Hlen Hnum Hconf Ha Hc [Hf Hok] Hl. apply wp_bind, wp_kernel. destruct (_ <? 0) eqn:E1.
  { apply wp_ret, held_at_early; [|done..|].
    - apply trouble_failed. rewrite failed_add. cbn [is_failed]. rewrite E1. lia.
    - apply holds_other; cbn [taken given_back]; [by rewrite E1|done..]. }
  set (c1 := add_klog _ _ c).
  assert (holds c1 [the_region; the_radios]) as Hl1
    by (apply holds_take; cbn [taken]; [by rewrite E1|done]).
  assert (failed c1 = 0%nat) as Hf1
    by (unfold c1; rewrite failed_add; cbn [is_failed]; by rewrite E1).
  apply wp_bind, wp_modify, wp_bind, wp_kernel. destruct (_ =? 0) eqn:E2.
  { apply wp_ret, held_at_early; [|done..|].
    - apply trouble_failed. rewrite failed_add. cbn [is_failed]. rewrite E2. lia.
    - apply holds_other; cbn [taken given_back]; [by rewrite E2|done..]. }
  set (c2 := add_klog _ _ _).
  assert (holds c2 [the_class; the_region; the_radios]) as Hl2
    by (apply holds_take; cbn [taken]; [by rewrite E2|done]).
  assert (failed c2 = 0%nat) as Hf2
    by (unfold c2; rewrite failed_add; cbn [is_failed]; by rewrite E2).
  eapply wp_mono; [apply (register_radios_ok (Z.to_nat (num_radios c)) 0 c2
    [the_class; the_region; the_radios])| |done]; try done.
  - by rewrite <-Hlen.
  - intros j r _ Hr. by destruct (Hconf j r Hr).
  - intros [label|] c3 ((Hm & Hn & Hlen3) & H3); simpl in *.
    + destruct H3 as (-> & H3 & H4). rewrite Hn. split; [by apply trouble_failed|exact H4].
    + destruct H3 as (H3 & Hf3 & Hup). unfold loaded, smooth. rewrite Hn, Hlen3, Hlen.
      split_and!; try done; [|by rewrite Hf3].
      intros i r' Hr'. destruct (Hup i r' Hr') as (r & Hr & Hr''). simpl in Hr.
      pose proof (lookup_lt_Some _ _ _ Hr). rewrite decide_True in Hr'' by lia.
      rewrite Hr''. by destruct (Hconf i r Hr) as (? & ? & ?).
Qed.

Lemma probe_body_ok c : wp probe_body c held_at (fun _ => False).
Proof.
  unfold probe_body. apply wp_bind. unfold wp at 1. set (c0 := Config _ _ _ _ _).
  assert (holds c0 []) as Hl0 by (intros r; split; [done|by intros ?%elem_of_nil]).
  apply wp_bind, wp_kernel_void. assert (holds (add_klog request_module 0 c0) []) as Hl1
    by by apply holds_other.
  destruct num_radios_property as [prop|] eqn:Hprop;
    [|apply wp_ret, held_at_early; [by left|done|done|exact Hl1]].
  apply wp_bind, wp_modify, wp_bind, wp_gets, wp_bind, wp_kernel.
  set (c1 := set_num_radios _ _). destruct (_ =? 0) eqn:E1.
  { apply wp_ret, held_at_early; [|done..|].
    - apply trouble_failed. rewrite failed_add. cbn [is_failed]. rewrite E1. lia.
    - apply holds_other; cbn [taken given_back]; [by rewrite E1|done..]. }
  apply wp_bind, wp_modify. set (c2 := set_radios _ _).
  assert (holds c2 [the_radios]) as Hl2.
  { apply (holds_take c1); cbn [taken]; [by rewrite E1|done]. }
  assert (failed c2 = 0%nat) as Hf2.
  { change (failed (add_klog (kmalloc_radios (num_radios c1))
      (kret (klog c1) (kmalloc_radios (num_radios c1))) c1) = 0%nat).
    rewrite failed_add. cbn [is_failed]. by rewrite E1. }
  assert (length (radios c2) = Z.to_nat (num_radios c2)) as Hlen by apply length_replicate.
  change (num_radios c1) with (num_radios c2).
  apply wp_bind. eapply wp_mono;
    [apply (setup_radios_ok (Z.to_nat (num_radios c2)) 0 c2 [the_radios]); [lia|done]| |done].
  intros [label|] c3 ((Hm & Hn & Hlen3) & Hl3 & Ha3 & Hc3 & H3).
  { apply wp_ret. destruct H3 as [-> H3]. apply held_at_early; [|done..].
    destruct H3 as [(j & Hj & ?)|?]; [|by apply trouble_failed].
    right. left. exists j. rewrite Hn. split; [lia|done]. }
  destruct H3 as (Hup & Hf3 & Hok). rewrite <-Hn. apply register_all_ok; try done.
  - by rewrite Hlen3, Hn.
  - exists prop. by rewrite Hn.
  - intros i r' Hr'. destruct (Hup i r' Hr') as (r & Hr & Hr'').
    pose proof (lookup_lt_Some _ _ _ Hr). by rewrite decide_True in Hr'' by lia.
  - split; [by rewrite Hf3|]. intros i Hi. apply Hok. rewrite Hn in Hi. lia.
Qed.

End lemmas.

(** ** Theorems *)

Section theorems.
Context `{Kernel}.
Implicit Types c : config.


(** Unloading a loaded driver stops no earlier than after its last radio and
    returns 0, but keeps the radios' memory and the device number region. *)
Theorem nrf51822_remove_spec c :
  loaded c ->
  wp nrf51822_remove c (fun r c' => r = 0 /\ holds c' [the_region; the_radios]) (fun _ => False).
Proof.
  intros (_ & Hlen & Hall & Hl). unfold nrf51822_remove. apply wp_bind, wp_gets, wp_bind.
  rewrite <-Hlen. eapply wp_mono; [apply remove_radios_ok; lia| |done].
  intros _ c1 (Hr & Hheld). apply wp_bind, wp_kernel_void, wp_ret. split; [done|].
  apply (holds_release c1 _ _ _ the_class); [done..|vm_decide|].
  intros r. rewrite Hheld, (Hl r), elem_of_app. split.
  - intros [[Hreg|?] Hno]; [exfalso|done]. revert Hreg. unfold registered.
    rewrite elem_of_app, !list_elem_of_fmap.
    intros [(i & -> & Hi%elem_of_seq)|(i & -> & Hi%elem_of_seq)];
      destruct (lookup_lt_is_Some_2 (radios c) i) as [d Hd]; try lia;
      destruct (Hno i d ltac:(lia) Hd) as [Hn1 Hn2]; [done|].
    destruct (Hall i d Hd) as [_ E]. by rewrite E in Hn2.
  - intros Hr3. split; [by right|]. intros j d _ _.
    rewrite !elem_of_cons in Hr3. destruct Hr3 as [->|[->|[->|[]%elem_of_nil]]]; done.
Qed.
End theorems.

(** ** Witnesses *)

(** A board with two radios where everything works, or where [cdev_add] fails
    for the second radio. *)
Definition two_radios (second_fails : bool) : Kernel := {|
  num_radios_property := Some 2;
  interrupt_gpio i := 60 + Z.of_nat i;
  csmux_property i := Some (1 + Z.of_nat i);
  gpio_is_valid _ := true;
  region_major := 247;
  MKDEV ma mi := ma * 1048576 + mi;
  kret _ k := match k with
              | kmalloc_radios _ | class_create | device_create _ _ => 4096
              | cdev_add 1 _ => if second_fails then -12 else 0
              | _ => 0
              end;
|}.

Definition unprobed : config := Config 0 0 [] 0 [].


(** The two radios, loaded. *)
Definition two_loaded : config :=
  Config 247 2 [Radio 0 1 60 258998272; Radio 1 2 61 258998273] 3
    [(device_create 1 258998273, 4096); (cdev_add 1 258998273, 0);
     (device_create 0 258998272, 4096); (cdev_add 0 258998272, 0);
     (class_create, 4096); (alloc_chrdev_region 2, 0);
     (devm_request_irq 61 1, 0); (devm_gpio_request_one 61, 0);
     (devm_request_irq 60 0, 0); (devm_gpio_request_one 60, 0);
     (kmalloc_radios 2, 4096); (request_module, 0)].

Lemma two_loaded_reached : @probe_body (two_radios false) unprobed = Done None two_loaded.
Proof. vm_compute. reflexivity. Qed.

Lemma two_loaded_ok : @loaded (two_radios false) two_loaded.
Proof.
  exact (proj1 (wp_Done _ _ _ _ _ _ (@probe_body_ok (two_radios false) unprobed) two_loaded_reached)).
Qed.

Lemma nrf51822_remove_spec_witness :
  exists c', @nrf51822_probe (two_radios false) unprobed = Done 0 two_loaded /\
    nrf51822_remove two_loaded = Done 0 c' /\ held (klog c') the_radios = true.
Proof.
  destruct (wp_run _ _ _ _ (@nrf51822_remove_spec (two_radios false) two_loaded two_loaded_ok))
    as (r & c' & Hrun & -> & Hheld); [by vm_compute|].
  exists c'. split_and!; [by vm_compute|exact Hrun|]. apply Hheld. vm_decide.
Defined.
End Probe.
