(* ===== verification/CapeSpec.v ===== *)
(** * What the cape promises: several radios behind one bus

    The abstract specification of the cape.  Each radio is a [channel]: the
    frames that wait in its co-processor, a mailbox of one frame for the user,
    and the state of the transaction that moves frames from the one to the other.
    The operations are what can happen to the real system ([Cape]), which is
    shown there to refine this specification.

    Proved here of the specification alone: transactions and the queue of the
    SPI bus agree and no interrupt is lost; the frames fetched are the accepted
    ones in order; every waiting frame can be delivered. *)
From S2P Require Import Prelude NrfQueue NrfBoard NrfSpiSlave NrfMain GapSpi NrfDriver BcpLink.
Import Queue Board SpiSlave Main BcpLink.

Module CapeSpec.

(** ** State *)

Record channel := Channel {
  sniffs : bool;                 (* forwards advertisements *)
  waits : list event_view;       (* frames the driver has still to fetch *)
  shown : option (list Z);       (* the last frame fetched: still in the buffer *)
  mailbox : option (list Z);     (* what [read] will return *)
  busy : option Z;               (* the command of the transaction under way *)
  edge : bool;                   (* the interrupt line rose, not handled yet *)
}.

Definition silent : channel := Channel false [] None None None false.

Definition set_mailbox (m : option (list Z)) (c : channel) : channel :=
  Channel (sniffs c) (waits c) (shown c) m (busy c) (edge c).
Definition set_busy (b : option Z) (c : channel) : channel :=
  Channel (sniffs c) (waits c) (shown c) (mailbox c) b (edge c).
Definition set_edge (e : bool) (c : channel) : channel :=
  Channel (sniffs c) (waits c) (shown c) (mailbox c) (busy c) e.

(** [order]: the radios whose messages wait for the bus; [handles]: the radios
    of the open files. *)
Record spec := Spec { channels : list channel; order : list nat; handles : list nat }.

(** ** Operations *)

Inductive op :=
| Happens (i : nat) (e : event)             (* in the co-processor of radio [i] *)
| Interrupt (i : nat)                       (* the driver takes the interrupt *)
| Transferring (k : nat)                    (* the bus serves its [k]-th message *)
| Open (i : nat)
| Ioctl (f : nat) (command : Z)
| Read (f : nat) (interrupted : bool)
| Poll (f : nat)
| Write (f : nat) (bytes : list Z).

Inductive out :=
| Nothing
| Opened (r : Z)
| BadFile
| Commanded (r : GapSpi.result)
| WasRead (o : Driver.read_outcome)
| Polled (mask : list Driver.poll_bit)
| Wrote (r : GapSpi.result).

(** An advertisement is kept if the radio sniffs and there is room for it. *)
Definition keeps (c : channel) (e : event) : list event_view :=
  match e with
  | Ble (BLE_GAP_EVT_ADV_REPORT r) =>
      if sniffs c && bool_decide (length (waits c) < 5)%nat then [adv_view r] else []
  | _ => []
  end.

Definition hear (e : event) (c : channel) : channel :=
  Channel (sniffs c) (waits c ++ keeps c e) (shown c) (mailbox c) (busy c)
    (edge c || bool_decide (waits c = [] /\ keeps c e <> [])).

(** A transaction: the oldest frame moves to the mailbox; with none waiting the
    last one is repeated.  A further transaction follows while frames wait. *)
Definition fetch (c : channel) : channel :=
  let on := sniffs c || bool_decide (busy c = Some BCP_CMD_SNIFF_ADVERTISEMENTS) in
  match waits c with
  | v :: rest =>
      Channel on rest (Some (frame v)) (Some (through_spi (frame v)))
        (match rest with [] => None | _ => Some Driver.BCP_COMMAND_READ_IRQ end) (edge c)
  | [] =>
      Channel on [] (shown c)
        (match shown c with Some f => Some (through_spi f) | None => mailbox c end)
        None (edge c)
  end.

Definition returned (f : list Z) : Driver.read_outcome :=
  Driver.Returned (GapSpi.Ret (Z.of_nat (length f))) f.

Definition update (i : nat) (c : channel) (s : spec) : spec :=
  Spec (<[i := c]> (channels s)) (order s) (handles s).
Definition enqueue (i : nat) (s : spec) : spec :=
  Spec (channels s) (order s ++ [i]) (handles s).

(** What [poll] reports: writable always, readable if there is a frame. *)
Definition ready (c : channel) : list Driver.poll_bit :=
  [Driver.POLLOUT; Driver.POLLWRNORM] ++
  match mailbox c with Some _ => [Driver.POLLIN; Driver.POLLRDNORM] | None => [] end.

Definition spec_step (o : op) (s : spec) : out * spec :=
  match o with
  | Happens i e =>
      match channels s !! i with
      | Some c => (Nothing, update i (hear e c) s)
      | None => (Nothing, s)
      end
  | Interrupt i =>
      match channels s !! i with
      | Some c =>
          if negb (edge c) then (Nothing, s) else
          match busy c with
          | Some _ => (Nothing, update i (set_edge false c) s)
          | None => (Nothing, enqueue i (update i
              (set_busy (Some Driver.BCP_COMMAND_READ_IRQ) (set_edge false c)) s))
          end
      | None => (Nothing, s)
      end
  | Transferring k =>
      match i ← order s !! k; (i,.) <$> channels s !! i with
      | Some (i, c) =>
          let s := update i (fetch c) (Spec (channels s) (delete k (order s)) (handles s)) in
          (Nothing, if busy (fetch c) is Some _ then enqueue i s else s)
      | None => (Nothing, s)
      end
  | Open i => (Opened 0, Spec (channels s) (order s) (handles s ++ [i]))
  | Ioctl f command =>
      match i ← handles s !! f; (i,.) <$> channels s !! i with
      | Some (i, c) =>
          match busy c with
          | Some _ => (Commanded (GapSpi.Err GapSpi.EINTR), s)
          | None => (Commanded (GapSpi.Ret 0), enqueue i (update i (set_busy (Some command) c) s))
          end
      | None => (BadFile, s)
      end
  | Read f interrupted =>
      match i ← handles s !! f; (i,.) <$> channels s !! i with
      | Some (i, c) =>
          match mailbox c with
          | Some m => (WasRead (returned m), update i (set_mailbox None c) s)
          | None => (WasRead (if interrupted : bool then returned [] else Driver.Blocked), s)
          end
      | None => (BadFile, s)
      end
  | Poll f =>
      match i ← handles s !! f; channels s !! i with
      | Some c => (Polled (ready c), s)
      | None => (BadFile, s)
      end
  | Write f _ =>
      match i ← handles s !! f; channels s !! i with
      | Some c => (Wrote (GapSpi.Err GapSpi.EFAULT), s)
      | None => (BadFile, s)
      end
  end.

Fixpoint spec_run (os : list op) (s : spec) : list out * spec :=
  match os with
  | [] => ([], s)
  | o :: os =>
      let '(r, s1) := spec_step o s in
      let '(rs, s2) := spec_run os s1 in
      (r :: rs, s2)
  end.

(** An operation of a system of [n] radios; transfers are the bus's business. *)
Definition valid_op (n : nat) (o : op) : Prop :=
  match o with
  | Happens i e => (i < n)%nat /\ valid_event e /\ (forall mosi, e <> Transfer mosi)
  | Interrupt i | Open i => (i < n)%nat
  | Ioctl _ command => byte command
  | Transferring _ | Read _ _ | Poll _ | Write _ _ => True
  end.

(** ** Invariant *)

(** The transactions under way are the messages in the queue, one per radio, and
    a frame that waits is fetched or announced by an interrupt to come. *)
Record spec_ok (s : spec) : Prop := SpecOk {
  ok_order : NoDup (order s);
  ok_bound i : i ∈ order s -> (i < length (channels s))%nat;
  ok_busy i c : channels s !! i = Some c -> (i ∈ order s <-> busy c <> None);
  ok_wakeup i c : channels s !! i = Some c -> waits c <> [] -> busy c <> None \/ edge c = true;
  ok_handles : Forall (fun i => i < length (channels s))%nat (handles s);
}.

Section lemmas.
Implicit Types (s : spec) (c : channel).

Lemma lookup_update (l : list channel) i c0 c j :
  l !! i = Some c0 -> <[i := c]> l !! j = if decide (i = j) then Some c else l !! j.
Proof.
  intros Hi%lookup_lt_Some. case_decide as E; subst.
  - by apply list_lookup_insert_eq.
  - by apply list_lookup_insert_ne.
Qed.

(** Changing a channel, without changing whether it is busy. *)
Lemma spec_ok_update i c c' s :
  spec_ok s -> channels s !! i = Some c ->
  (busy c' = None <-> busy c = None) ->
  (waits c' <> [] -> busy c' <> None \/ edge c' = true) ->
  spec_ok (update i c' s).
Proof.
  intros [Hnd Hbd Hbusy Hwake Hh] Hi Hb Hw. split; cbn [order handles update channels].
  - done.
  - intros j Hj. rewrite length_insert. by apply Hbd.
  - intros j d. rewrite (lookup_update _ i c c' j Hi). case_decide as E; subst.
    + intros [= <-]. rewrite (Hbusy _ _ Hi). tauto.
    + apply Hbusy.
  - intros j d. rewrite (lookup_update _ i c c' j Hi). case_decide; [by intros [= <-]|].
    apply Hwake.
  - simpl. by rewrite length_insert.
Qed.

(** Starting a transaction. *)
Lemma spec_ok_start i c c' s :
  spec_ok s -> channels s !! i = Some c -> busy c = None -> busy c' <> None ->
  spec_ok (enqueue i (update i c' s)).
Proof.
  intros [Hnd Hbd Hbusy Hwake Hh] Hi Hb Hb'. pose proof (lookup_lt_Some _ _ _ Hi) as Hlt.
  split; cbn [order handles update enqueue channels].
  - apply NoDup_app. split_and!; [done| |apply NoDup_singleton].
    intros j Hj ->%list_elem_of_singleton. by apply (Hbusy _ _ Hi) in Hj.
  - intros j. rewrite elem_of_app, list_elem_of_singleton, length_insert.
    intros [Hj| ->]; [by apply Hbd|done].
  - intros j d. rewrite elem_of_app, list_elem_of_singleton.
    rewrite (lookup_update _ i c c' j Hi). case_decide as E; subst.
    + intros [= <-]. split; [done|by right].
    + intros Hd. rewrite (Hbusy _ _ Hd). split; [intros [?| ->]; done|by left].
  - intros j d. rewrite (lookup_update _ i c c' j Hi). case_decide; [intros [= <-]; by left|apply Hwake].
  - by rewrite length_insert.
Qed.

(** The queue without the message that is served. *)
Lemma spec_ok_serve i k c c' s :
  spec_ok s -> order s !! k = Some i -> channels s !! i = Some c ->
  busy c' = None -> waits c' = [] ->
  spec_ok (update i c' (Spec (channels s) (delete k (order s)) (handles s))).
Proof.
  intros [Hnd Hbd Hbusy Hwake Hh] Hk Hi Hb Hw.
  pose proof (delete_Permutation _ _ _ Hk) as Hperm. rewrite Hperm in Hnd.
  remember (delete k (order s)) as q eqn:Eq. clear Eq.
  apply NoDup_cons in Hnd as [Hni Hnd].
  assert (forall j, i <> j -> j ∈ q <-> j ∈ order s) as Hin.
  { intros j Hne. rewrite Hperm, elem_of_cons. split; [by right|by intros [->|?]]. }
  split; cbn [order handles update channels].
  - done.
  - intros j Hj. rewrite length_insert. apply Hbd. rewrite Hperm. by right.
  - intros j d. rewrite (lookup_update _ i c c' j Hi).
    case_decide as E; subst.
    + intros [= <-]. split; [done|by rewrite Hb].
    + intros Hd. rewrite Hin by done. by apply Hbusy.
  - intros j d. rewrite (lookup_update _ i c c' j Hi).
    case_decide; [by intros [= <-]|apply Hwake].
  - by rewrite length_insert.
Qed.

(** The two parts of serving a message: taking it out, and a further transaction. *)
Lemma spec_ok_serve_again i k c c' s :
  spec_ok s -> order s !! k = Some i -> channels s !! i = Some c -> busy c' <> None ->
  spec_ok (enqueue i (update i c' (Spec (channels s) (delete k (order s)) (handles s)))).
Proof.
  intros Hs Hk Hi Hb. pose proof (spec_ok_serve i k c silent s Hs Hk Hi eq_refl eq_refl) as Hs1.
  assert (channels (update i silent (Spec (channels s) (delete k (order s)) (handles s))) !! i =
    Some silent) as Hi1.
  { apply list_lookup_insert_eq. by eapply lookup_lt_Some. }
  pose proof (spec_ok_start i silent c' _ Hs1 Hi1 eq_refl Hb) as Hs2.
  unfold update in Hs2. cbn [channels order handles] in Hs2.
  by rewrite list_insert_insert_eq in Hs2.
Qed.

Lemma hear_wakeup e c :
  (waits c <> [] -> busy c <> None \/ edge c = true) ->
  waits (hear e c) <> [] -> busy (hear e c) <> None \/ edge (hear e c) = true.
Proof.
  unfold hear. cbn [waits busy edge]. intros Hc Hne. destruct (decide (waits c = [])) as [E|Hw].
  - right. rewrite E in *. simpl in Hne. rewrite bool_decide_true by done. apply orb_true_r.
  - destruct (Hc Hw) as [?|E]; [by left|right]. by rewrite E.
Qed.

Lemma fetch_busy c : busy (fetch c) = None <-> waits (fetch c) = [].
Proof. unfold fetch. by destruct (waits c) as [|v [|v' rest]]. Qed.

Lemma spec_step_ok n o s :
  length (channels s) = n -> valid_op n o -> spec_ok s ->
  spec_ok (spec_step o s).2 /\ length (channels (spec_step o s).2) = n.
Proof.
  intros Hn Ho Hs. destruct o as [i e|i|k|i|f command|f interrupted|f|f bytes]; cbn [spec_step].
  - destruct (channels s !! i) as [c|] eqn:Hi; [|done]. simpl. rewrite length_insert.
    split; [|done]. eapply spec_ok_update; [done..|].
    by apply hear_wakeup, (ok_wakeup s Hs i).
  - destruct (channels s !! i) as [c|] eqn:Hi; [|done].
    destruct (edge c) eqn:Ee; [simpl|done]. destruct (busy c) eqn:Eb; simpl; rewrite length_insert.
    + split; [|done]. eapply spec_ok_update; [done..|]. intros _. left. simpl. by rewrite Eb.
    + split; [|done]. by eapply spec_ok_start.
  - destruct (order s !! k) as [i|] eqn:Hk; [|done]. simpl.
    destruct (channels s !! i) as [c|] eqn:Hi; [|done]. simpl.
    destruct (busy (fetch c)) as [b|] eqn:Eb; simpl; rewrite length_insert; (split; [|done]).
    + eapply spec_ok_serve_again; [done..|]. by rewrite Eb.
    + eapply spec_ok_serve; [done..|]. by apply fetch_busy.
  - split; [|done]. destruct Hs. split; try done. simpl. apply Forall_app_2; [done|].
    constructor; [|done]. by rewrite Hn.
  - destruct (handles s !! f) as [i|]; [|done]. simpl.
    destruct (channels s !! i) as [c|] eqn:Hi; [|done]. simpl.
    destruct (busy c) eqn:Eb; [done|]. simpl. rewrite length_insert. split; [|done].
    by eapply spec_ok_start.
  - destruct (handles s !! f) as [i|]; [|done]. simpl.
    destruct (channels s !! i) as [c|] eqn:Hi; [|done]. simpl.
    destruct (mailbox c); [|done]. simpl. rewrite length_insert. split; [|done].
    eapply spec_ok_update; [done..|]. apply (ok_wakeup s Hs i _ Hi).
  - by destruct (_ ≫= _).
  - by destruct (_ ≫= _).
Qed.

Lemma spec_run_ok n os s :
  length (channels s) = n -> Forall (valid_op n) os -> spec_ok s ->
  spec_ok (spec_run os s).2 /\ length (channels (spec_run os s).2) = n.
Proof.
  revert s. induction os as [|o os IH]; intros s Hn Hos Hs; [done|].
  apply Forall_cons in Hos as [Ho Hos]. cbn [spec_run].
  destruct (spec_step_ok n o s Hn Ho Hs) as [Hs1 Hn1].
  destruct (spec_step o s) as [r s1]. simpl in Hs1, Hn1.
  destruct (IH s1 Hn1 Hos Hs1). by destruct (spec_run os s1).
Qed.

Lemma spec_run_app os1 os2 s :
  spec_run (os1 ++ os2) s =
    ((spec_run os1 s).1 ++ (spec_run os2 (spec_run os1 s).2).1,
     (spec_run os2 (spec_run os1 s).2).2).
Proof.
  revert s. induction os1 as [|o os1 IH]; intros s; simpl; [by destruct (spec_run os2 s)|].
  destruct (spec_step o s) as [r s1]. rewrite IH.
  by destruct (spec_run os1 s1) as [rs s2], (spec_run os2 _).
Qed.
End lemmas.

(** ** The frames of one radio *)

(** What an operation does to one channel. *)
Definition acts (o : op) (s : spec) (i : nat) (c : channel) : channel :=
  match o with
  | Happens j e => if decide (i = j) then hear e c else c
  | Interrupt j =>
      if decide (i = j) then
        if edge c then
          set_busy (Some (default Driver.BCP_COMMAND_READ_IRQ (busy c))) (set_edge false c)
        else c
      else c
  | Transferring k => if decide (order s !! k = Some i) then fetch c else c
  | Open _ | Poll _ | Write _ _ => c
  | Ioctl f command =>
      if decide (handles s !! f = Some i) then set_busy (Some (default command (busy c))) c else c
  | Read f _ => if decide (handles s !! f = Some i) then set_mailbox None c else c
  end.

Lemma set_busy_same c b : busy c = b -> set_busy b c = c.
Proof. intros <-. by destruct c. Qed.
Lemma set_mailbox_same c m : mailbox c = m -> set_mailbox m c = c.
Proof. intros <-. by destruct c. Qed.

(** An update of channel [j], seen from channel [i]. *)
Lemma lookup_acts (l : list channel) i j d (f : channel -> channel) :
  l !! j = Some d -> <[j := f d]> l !! i = (fun c => if decide (i = j) then f c else c) <$> l !! i.
Proof.
  intros Hj. rewrite (lookup_update _ j d _ i Hj). destruct (decide (j = i)) as [<-|Hne].
  - rewrite Hj. simpl. by rewrite decide_True.
  - destruct (l !! i); [|done]. simpl. by rewrite decide_False.
Qed.

Lemma fmap_same (l : list channel) i (f : channel -> channel) :
  (forall c, l !! i = Some c -> f c = c) -> l !! i = f <$> l !! i.
Proof. intros Hf. destruct (l !! i) as [c|]; simpl; [by rewrite Hf|done]. Qed.

Lemma channels_step o s i :
  channels (spec_step o s).2 !! i = acts o s i <$> channels s !! i.
Proof.
  destruct o as [j e|j|k|j|f command|f interrupted|f|f bytes]; cbn [spec_step acts].
  - destruct (channels s !! j) as [d|] eqn:Hj; [by apply (lookup_acts _ i j d)|].
    apply fmap_same. intros c Hi. unfold acts. by case_decide; [congruence|].
  - destruct (channels s !! j) as [d|] eqn:Hj.
    2:{ apply fmap_same. intros c Hi. unfold acts. by case_decide; [congruence|]. }
    set (f := fun c => if edge c then
      set_busy (Some (default Driver.BCP_COMMAND_READ_IRQ (busy c))) (set_edge false c) else c).
    transitivity (<[j := f d]> (channels s) !! i); [|by apply (lookup_acts _ i j d f)]. unfold f.
    destruct (edge d); [|cbn; by rewrite list_insert_id].
    destruct (busy d) eqn:Eb; cbn [negb snd enqueue update channels default]; [|done].
    by rewrite (set_busy_same (set_edge false d)).
  - destruct (order s !! k) as [j|] eqn:Hk; cbn [mbind option_bind].
    2:{ apply fmap_same. intros c Hi. unfold acts. by case_decide; [congruence|]. }
    destruct (channels s !! j) as [d|] eqn:Hj; cbn [fmap option_fmap option_map].
    2:{ apply fmap_same. intros c Hi. unfold acts. by case_decide; [congruence|]. }
    transitivity (<[j := fetch d]> (channels s) !! i); [by destruct (busy (fetch d))|].
    rewrite (lookup_acts _ i j d fetch Hj). destruct (channels s !! i); [|done]. simpl. f_equal.
    repeat case_decide; congruence.
  - by apply fmap_same.
  - destruct (handles s !! f) as [j|] eqn:Hf; cbn [mbind option_bind].
    2:{ apply fmap_same. intros c Hi. unfold acts. by case_decide; [congruence|]. }
    destruct (channels s !! j) as [d|] eqn:Hj; cbn [fmap option_fmap option_map].
    2:{ apply fmap_same. intros c Hi. unfold acts. by case_decide; [congruence|]. }
    transitivity (<[j := set_busy (Some (default command (busy d))) d]> (channels s) !! i).
    { destruct (busy d) eqn:Eb; [|done]. cbn [snd default].
      by rewrite set_busy_same, list_insert_id. }
    rewrite (lookup_acts _ i j d (fun c => set_busy (Some (default command (busy c))) c) Hj).
    destruct (channels s !! i); [|done]. simpl. f_equal. repeat case_decide; congruence.
  - destruct (handles s !! f) as [j|] eqn:Hf; cbn [mbind option_bind].
    2:{ apply fmap_same. intros c Hi. unfold acts. by case_decide; [congruence|]. }
    destruct (channels s !! j) as [d|] eqn:Hj; cbn [fmap option_fmap option_map].
    2:{ apply fmap_same. intros c Hi. unfold acts. by case_decide; [congruence|]. }
    transitivity (<[j := set_mailbox None d]> (channels s) !! i).
    { destruct (mailbox d) eqn:Em; [done|]. cbn [snd]. by rewrite set_mailbox_same, list_insert_id. }
    rewrite (lookup_acts _ i j d (set_mailbox None) Hj).
    destruct (channels s !! i); [|done]. simpl. f_equal. repeat case_decide; congruence.
  - destruct (_ ≫= _); by apply fmap_same.
  - destruct (_ ≫= _); by apply fmap_same.
Qed.

Section frames.
Context (i : nat).

(** What an operation adds to the frames that wait, what it takes from them,
    what it puts into the mailbox, and what the user reads from there. *)
Definition kept (o : op) (s : spec) : list event_view :=
  match o, channels s !! i with
  | Happens j e, Some c => if decide (i = j) then keeps c e else []
  | _, _ => []
  end.

Definition served (o : op) (s : spec) : option channel :=
  match o with
  | Transferring k => if decide (order s !! k = Some i) then channels s !! i else None
  | _ => None
  end.

Definition fetched (o : op) (s : spec) : list event_view :=
  match served o s with Some c => take 1 (waits c) | None => [] end.

Definition puts (o : op) (s : spec) : list (list Z) :=
  match served o s with
  | Some c => match waits c with
              | v :: _ => [through_spi (frame v)]
              | [] => through_spi <$> option_list (shown c)
              end
  | None => []
  end.

Definition taken (o : op) (s : spec) : list (list Z) :=
  match o, channels s !! i with
  | Read f _, Some c => if decide (handles s !! f = Some i) then option_list (mailbox c) else []
  | _, _ => []
  end.

(** The same for a run. *)
Fixpoint over_run {A} (f : op -> spec -> list A) (os : list op) (s : spec) : list A :=
  match os with
  | [] => []
  | o :: os => f o s ++ over_run f os (spec_step o s).2
  end.

Lemma step_frames o s c c' :
  channels s !! i = Some c -> channels (spec_step o s).2 !! i = Some c' ->
  fetched o s ++ waits c' = waits c ++ kept o s /\
  taken o s ++ option_list (mailbox c') `sublist_of` option_list (mailbox c) ++ puts o s.
Proof.
  intros Hi. rewrite channels_step, Hi. intros [= <-].
  unfold fetched, taken, kept, puts, served, acts. rewrite Hi.
  destruct o as [j e|j|k|j|f command|f interrupted|f|f bytes]; try case_decide; rewrite ?app_nil_r;
    try (split; done).
  - by destruct (edge c).
  - unfold fetch. destruct (waits c) as [|v rest]; cbn [waits mailbox take app].
    + split; [done|]. destruct (shown c); [|by rewrite app_nil_r].
      simpl. by apply sublist_inserts_l.
    + split; [done|]. simpl. by apply sublist_inserts_l.
Qed.

Lemma run_frames os s c c' :
  channels s !! i = Some c -> channels (spec_run os s).2 !! i = Some c' ->
  over_run fetched os s ++ waits c' = waits c ++ over_run kept os s /\
  over_run taken os s ++ option_list (mailbox c') `sublist_of`
    option_list (mailbox c) ++ over_run puts os s.
Proof.
  revert s c. induction os as [|o os IH]; intros s c Hi; cbn [spec_run over_run].
  { simpl. rewrite Hi. intros [= <-]. by rewrite !app_nil_r. }
  pose proof (channels_step o s i) as Hs. rewrite Hi in Hs. simpl in Hs.
  destruct (step_frames o s c _ Hi Hs) as [H1 H2].
  destruct (spec_step o s) as [r s1]. cbn [snd] in *.
  destruct (spec_run os s1) as [rs s2] eqn:Er. cbn [snd]. intros Hi'.
  destruct (IH s1 _ Hs) as [H3 H4]; [by rewrite Er|]. split.
  - by rewrite <-(assoc_L (++)), H3, (assoc_L (++)), H1, (assoc_L (++)).
  - rewrite <-(assoc_L (++)), (assoc_L (++) (option_list _)).
    etrans; [by apply sublist_app; [|exact H4]|]. rewrite (assoc_L (++)).
    by apply sublist_app.
Qed.
End frames.

(** ** What a user reads *)

(** The frames that the reads of file [f] returned. *)
Fixpoint file_reads (f : nat) (os : list op) (rs : list out) : list (list Z) :=
  match os, rs with
  | o :: os, r :: rs =>
      match o, r with
      | Read f' _, WasRead (Driver.Returned _ m) =>
          if decide (f' = f /\ m <> []) then [m] else []
      | _, _ => []
      end ++ file_reads f os rs
  | _, _ => []
  end.

Lemma handles_step o s f i :
  handles s !! f = Some i -> handles (spec_step o s).2 !! f = Some i.
Proof.
  intros Hf. destruct o as [j e|j|k|j|f' command|f' interrupted|f'|f' bytes]; cbn [spec_step].
  - by destruct (channels s !! j).
  - destruct (channels s !! j) as [c|]; [|done]. by destruct (edge c), (busy c).
  - destruct (order s !! k) as [j|]; [|done]. cbn. destruct (channels s !! j) as [c|]; [|done]. cbn.
    by destruct (busy (fetch c)).
  - cbn. by apply lookup_app_l_Some.
  - destruct (handles s !! f') as [j|]; [|done]. cbn. destruct (channels s !! j) as [c|]; [|done]. cbn.
    by destruct (busy c).
  - destruct (handles s !! f') as [j|]; [|done]. cbn. destruct (channels s !! j) as [c|]; [|done]. cbn.
    by destruct (mailbox c).
  - by destruct (_ ≫= _).
  - by destruct (_ ≫= _).
Qed.

Lemma handles_run os s f i :
  handles s !! f = Some i -> handles (spec_run os s).2 !! f = Some i.
Proof.
  revert s. induction os as [|o os IH]; intros s Hf; [done|]. cbn [spec_run].
  pose proof (handles_step o s f i Hf) as H1. destruct (spec_step o s) as [r s1].
  specialize (IH s1 H1). by destruct (spec_run os s1).
Qed.

(** They are frames that were in the mailbox of the file's radio. *)
Lemma file_reads_taken f i os s c :
  channels s !! i = Some c -> handles (spec_run os s).2 !! f = Some i ->
  file_reads f os (spec_run os s).1 `sublist_of` over_run (taken i) os s.
Proof.
  revert s c. induction os as [|o os IH]; intros s c Hc Hf; [done|]. cbn [spec_run] in *.
  pose proof (channels_step o s i) as Hc1. rewrite Hc in Hc1. cbn [fmap option_fmap option_map] in Hc1.
  destruct (handles s !! f) as [i'|] eqn:Ef.
  - pose proof (handles_run (o :: os) s f i' Ef) as Hf'. cbn [spec_run] in Hf'.
    cbn [over_run]. destruct (spec_step o s) as [r s1] eqn:Es. cbn [snd] in Hc1 |- *.
    specialize (IH s1 _ Hc1). destruct (spec_run os s1) as [rs s2]. cbn [fst snd] in *.
    assert (i' = i) as -> by congruence. specialize (IH Hf). cbn [file_reads].
    apply sublist_app; [|exact IH]. unfold taken. rewrite Hc.
    destruct o as [| | | | |f' interrupted| |]; try apply sublist_nil_l.
    destruct r as [| | | |[|x m]| |]; try apply sublist_nil_l.
    case_decide as Hm; [|apply sublist_nil_l].
    destruct Hm as [-> Hm]. rewrite decide_True by done. cbn [spec_step] in Es.
    rewrite Ef in Es. cbn [mbind option_bind] in Es. rewrite Hc in Es. cbn in Es.
    destruct (mailbox c); [|destruct interrupted]; by inversion Es; subst.
  - cbn [over_run]. destruct (spec_step o s) as [r s1] eqn:Es. cbn [snd] in Hc1 |- *.
    specialize (IH s1 _ Hc1). destruct (spec_run os s1) as [rs s2]. cbn [fst snd] in *.
    cbn [file_reads].
    assert (match o, r with
      | Read f' _, WasRead (Driver.Returned _ m) => if decide (f' = f /\ m <> []) then [m] else []
      | _, _ => []
      end = []) as ->; [|by apply sublist_inserts_l, IH].
    destruct o as [| | | | |f' interrupted| |]; try done.
    destruct r as [| | | |[|x m]| |]; try done. rewrite decide_False; [done|].
    intros [-> _]. cbn [spec_step] in Es. by rewrite Ef in Es.
Qed.

(** ** Delivery *)

(** What the user was given by the reads of a run. *)
Definition reads (rs : list out) : list Driver.read_outcome :=
  omap (fun r => if r is WasRead o then Some o else None) rs.

Section delivery.
Context (f i : nat).
Implicit Types (s : spec) (c : channel).

(** The transfers that fetch the waiting frames, one by one, each followed by a
    [read]; radio [i]'s message is the [k]-th, and then always the last one. *)
Fixpoint fetching (m : nat) (k last : nat) : list op :=
  match m with
  | O => []
  | S m => Transferring k :: Read f false :: fetching m last last
  end.

Lemma fetching_delivers vs s k c :
  spec_ok s -> handles s !! f = Some i -> channels s !! i = Some c -> order s !! k = Some i ->
  waits c = vs -> vs <> [] ->
  exists s' c', spec_run (fetching (length vs) k (pred (length (order s)))) s =
      (concat ((fun v => [Nothing; WasRead (returned (through_spi (frame v)))]) <$> vs), s') /\
    channels s' !! i = Some c' /\ waits c' = [] /\ busy c' = None.
Proof.
  revert s k c. induction vs as [|v vs IH]; intros s k c Hs Hf Hi Hk Hw Hne; [done|clear Hne].
  cbn [length fetching spec_run spec_step]. rewrite Hk. cbn [mbind option_bind]. rewrite Hi.
  cbn [fmap option_fmap option_map].
  set (s1 := update i (fetch c) (Spec (channels s) (delete k (order s)) (handles s))).
  assert (fetch c = Channel (sniffs (fetch c)) vs (Some (frame v)) (Some (through_spi (frame v)))
    (match vs with [] => None | _ => Some Driver.BCP_COMMAND_READ_IRQ end) (edge c)) as Hc1.
  { unfold fetch. by rewrite Hw. }
  set (s2 := if busy (fetch c) is Some _ then enqueue i s1 else s1).
  assert (channels s2 = <[i := fetch c]> (channels s)) as Hch by (unfold s2; by destruct (busy (fetch c))).
  assert (handles s2 = handles s) as Hh by (unfold s2; by destruct (busy (fetch c))).
  assert (channels s2 !! i = Some (fetch c)) as Hi2.
  { rewrite Hch. apply list_lookup_insert_eq. by eapply lookup_lt_Some. }
  rewrite Hh, Hf. cbn [mbind option_bind]. rewrite Hi2. cbn [fmap option_fmap option_map list_fmap].
  assert (mailbox (fetch c) = Some (through_spi (frame v))) as -> by by rewrite Hc1.
  set (c3 := set_mailbox None (fetch c)). set (s3 := update i c3 s2).
  assert (channels s3 !! i = Some c3) as Hi3.
  { apply list_lookup_insert_eq. by eapply lookup_lt_Some. }
  destruct vs as [|v' vs].
  { cbn [length fetching spec_run concat]. exists s3, c3. split_and!; [done|done| |].
    - unfold c3. by rewrite Hc1.
    - unfold c3. by rewrite Hc1. }
  assert (busy (fetch c) = Some Driver.BCP_COMMAND_READ_IRQ) as Hb by by rewrite Hc1.
  assert (s2 = enqueue i s1) as Hs2 by (unfold s2; by rewrite Hb).
  assert (spec_ok s3) as Hok3.
  { eapply spec_ok_update; [|done..|].
    - rewrite Hs2. eapply spec_ok_serve_again; [done..|]. by rewrite Hb.
    - intros _. left. unfold c3. cbn. by rewrite Hb. }
  assert (order s3 = delete k (order s) ++ [i]) as Ho by (unfold s3; by rewrite Hs2).
  assert (S (length (delete k (order s))) = length (order s)) as Hl.
  { rewrite length_delete; [|by eexists]. apply lookup_lt_Some in Hk. lia. }
  destruct (IH s3 (pred (length (order s))) c3) as (s' & c' & E & H'); [done| |done| | |done|].
  - by unfold s3; rewrite <-Hf, <-Hh.
  - rewrite Ho, lookup_app_r by lia. by replace (_ - _)%nat with 0%nat by lia.
  - unfold c3. by rewrite Hc1.
  - exists s', c'. split; [|done].
    assert (pred (length (order s3)) = pred (length (order s))) as Hp.
    { rewrite Ho, length_app. simpl. lia. }
    rewrite Hp in E. by rewrite E.
Qed.

Lemma reads_concat (g : event_view -> Driver.read_outcome) vs :
  reads (concat ((fun v => [Nothing; WasRead (g v)]) <$> vs)) = g <$> vs.
Proof. induction vs as [|v vs IH]; [done|]. simpl. by f_equal. Qed.

(** However the radio was left, the frames that wait in it can be delivered: by
    the interrupt, unless a transaction is under way, and their transfers. *)
Lemma spec_delivers n s c :
  length (channels s) = n -> spec_ok s -> handles s !! f = Some i -> channels s !! i = Some c ->
  exists os, (length os <= 1 + 2 * length (waits c))%nat /\ Forall (valid_op n) os /\
    reads (spec_run os s).1 = (returned ∘ through_spi ∘ frame) <$> waits c /\
    exists c', channels (spec_run os s).2 !! i = Some c' /\ waits c' = [].
Proof.
  intros Hn Hs Hf Hi. destruct (waits c) as [|v vs] eqn:Hw.
  { exists []. split_and!; [simpl; lia|done|done|by exists c]. }
  assert (forall m k last, Forall (valid_op n) (fetching m k last)) as Hvalid.
  { induction m; intros k last; cbn [fetching]; [done|]. by repeat constructor. }
  assert (forall m k last, length (fetching m k last) = 2 * m)%nat as Hlen.
  { induction m; intros k last; cbn [fetching length]; [done|]. rewrite IHm. lia. }
  destruct (busy c) as [b|] eqn:Hb.
  - assert (i ∈ order s) as [k Hk]%list_elem_of_lookup.
    { apply (ok_busy s Hs i c Hi). by rewrite Hb. }
    destruct (fetching_delivers (v :: vs) s k c) as (s' & c' & E & Hc' & Hw' & _); [done..|].
    eexists. rewrite E. split_and!; [|apply Hvalid|apply (reads_concat (returned ∘ through_spi ∘ frame))|by exists c'].
    rewrite Hlen. lia.
  - destruct (ok_wakeup s Hs i c Hi) as [?|He]; [by rewrite Hw|done|].
    set (c1 := set_busy (Some Driver.BCP_COMMAND_READ_IRQ) (set_edge false c)).
    set (s1 := enqueue i (update i c1 s)).
    assert (spec_ok s1) as Hs1 by by eapply spec_ok_start.
    assert (channels s1 !! i = Some c1) as Hi1.
    { apply list_lookup_insert_eq. by eapply lookup_lt_Some. }
    assert (order s1 !! length (order s) = Some i) as Hk.
    { cbn. rewrite lookup_app_r by lia. by rewrite Nat.sub_diag. }
    destruct (fetching_delivers (v :: vs) s1 (length (order s)) c1)
      as (s' & c' & E & Hc' & Hw' & _); [done..|].
    eexists (Interrupt i :: _). cbn [spec_run spec_step]. rewrite Hi, He, Hb. cbn [negb].
    fold c1. fold s1. rewrite E. cbn [fst snd]. split_and!; [| | |by exists c'].
    + cbn [length]. rewrite Hlen. simpl. lia.
    + constructor; [|apply Hvalid]. simpl. rewrite <-Hn. by eapply lookup_lt_Some.
    + apply (reads_concat (returned ∘ through_spi ∘ frame)).
Qed.
End delivery.
End CapeSpec.
