(* ===== verification/Cape.v ===== *)
(** * The cape: radios, driver and bus together

    Puts the parts that share one cape together: a firmware ([NrfMain]) and a
    driver's device ([NrfDriver]) per radio, the module that shares the SPI bus
    ([GapSpi]), and the files through which users reach the radios.

    A message that the driver gives to [gap_spi_async] waits in [spi_queue]; the
    SPI core serves the messages in any order.  When it does, the function that
    [GapSpi] put into the controller drives the select pins, and the bytes are
    exchanged with the radio that these pins select: nothing but the pins says
    which one that is.  The interrupt of a radio is triggered by the rising edge
    of its line ([IRQF_TRIGGER_RISING]).  An operation of the driver, and a
    completed transfer with the two handlers that follow it, is one step; the
    interleaving of their parts is the subject of [NrfDriver]. *)
From S2P Require Import Prelude NrfQueue NrfBoard NrfSpiSlave NrfMain GapSpi NrfDriver BcpLink CapeSpec.
Import Queue Board SpiSlave Main BcpLink CapeSpec.

Module Cape.

(** ** State *)

Record radio := Radio { the_link : link; risen : bool }.

(** [struct file]: its [private_data] is the device of a radio. *)
Record file := File { private_data : nat }.

Record cape := CapeState {
  bus : GapSpi.bus;
  spi_queue : list GapSpi.spi_message;
  radios : list radio;
  files : list file;
}.

Definition set_bus (b : GapSpi.bus) (g : cape) : cape :=
  CapeState b (spi_queue g) (radios g) (files g).
Definition set_queue (q : list GapSpi.spi_message) (g : cape) : cape :=
  CapeState (bus g) q (radios g) (files g).
Definition set_radio (i : nat) (r : radio) (g : cape) : cape :=
  CapeState (bus g) (spi_queue g) (<[i := r]> (radios g)) (files g).
Definition set_files (fs : list file) (g : cape) : cape :=
  CapeState (bus g) (spi_queue g) (radios g) fs.

(** The devices of the messages a driver's device has submitted since. *)
Definition submissions (d d' : Driver.dev) : list Z :=
  omap (fun c => if c is Driver.gap_spi_async _ dev_id then Some dev_id else None)
    (rev (take (length (Driver.klog d') - length (Driver.klog d)) (Driver.klog d'))).

(** ** Operations *)

Section operations.
Context (sdk : nat -> Sdk) `{K : GapSpi.Kernel} (output : nat -> Z).

Definition radio_at (i : nat) : M cape radio := l ← gets radios; lift (l !! i).

Definition on_bus {A} (m : M GapSpi.bus A) : M cape A := fun g =>
  match m (bus g) with
  | Done a b => Done a (set_bus b g)
  | Halt b => Halt (set_bus b g)
  | Undef => Undef
  end.

(** The driver gives a message of radio [i] to the bus module; what the module
    gives to the SPI core waits there, if the core accepts it. *)
Definition submit (i : nat) (dev_id : Z) : M cape () :=
  b ← gets bus;
  _ ← on_bus (GapSpi.gap_spi_async (GapSpi.SpiMessage (Z.of_nat i) 0) dev_id);
  b' ← gets bus;
  modify (fun g => set_queue (spi_queue g ++ GapSpi.newly_accepted (GapSpi.klog b) (GapSpi.klog b')) g).

Fixpoint submit_all (i : nat) (ids : list Z) : M cape () :=
  match ids with [] => mret () | id :: ids => submit i id;; submit_all i ids end.

(** Something happens at radio [i]: the edge of its line and the messages of its
    driver are passed on. *)
Definition on_radio {A} (i : nat) (m : M link A) : M cape A :=
  r ← radio_at i;
  let l := the_link r in
  match m l with
  | Done a l' =>
      modify (set_radio i (Radio l' (risen r || (negb (line_high l) && line_high l'))));;
      submit_all i (submissions (host l) (host l'));;
      mret a
  | Halt l' => modify (set_radio i (Radio l' (risen r)));; halt
  | Undef => lift None
  end.

(** The completion callback of the message that was transferred. *)
Definition callback : M link () :=
  high ← gets line_high;
  m ← gets (fun l => Driver.spi_msg (host l));
  match Driver.complete m with
  | Some Driver.read_irq_done => on_host (Driver.nrf51822_read_irq_done (H:=line_kernel high))
  | Some Driver.issue_simple_command_done =>
      on_host (Driver.nrf51822_issue_simple_command_done (H:=line_kernel high))
  | None => lift None
  end.

(** The radio at an output of the demultiplexer. *)
Definition radio_on (out : Z) (n : nat) : option nat :=
  snd <$> list_find (fun i => output i = out) (seq 0 n).

(** The bus serves a message. *)
Definition transfer (m : GapSpi.spi_message) : M cape () :=
  _ ← on_bus (GapSpi.process m);
  b ← gets bus;
  out ← lift (GapSpi.selected (GapSpi.select_pins b) (GapSpi.klog b));
  n ← gets (fun g => length (radios g));
  j ← lift (radio_on out n);
  let i := Z.to_nat (GapSpi.owner m) in
  slave ← radio_at j;
  master ← radio_at i;
  let tx := miso (the_link slave) in
  let rx := mosi (the_link master) in
  on_radio j (on_nrf (handle (H:=sdk j) (Transfer rx)));;
  on_radio i (on_host (modify (Driver.transferred tx));; callback).

(** [nrf51822_open(inode, filp)]; the inode belongs to the device of radio [i]. *)
Definition nrf51822_open (i : nat) : M cape Z :=
  modify (fun g => set_files (files g ++ [File i]) g);;
  mret 0.

(** [struct file_operations fops]: what a call for a file of the device runs.
    Its [open] is [nrf51822_open] above, and there is no [release]. *)
Inductive fcall :=
| read (interrupted : bool) (count : Z)
| write (in_buf : list Z) (len : Z)
| unlocked_ioctl (num : Driver.ioctl_num) (param : option Z)
| poll.

Definition fops (high : bool) (c : fcall) : M Driver.dev out :=
  let _ := line_kernel high in
  match c with
  | read interrupted count => o ← Driver.nrf51822_read interrupted count; mret (WasRead o)
  | write in_buf len => r ← Driver.nrf51822_write in_buf len; mret (Wrote r)
  | unlocked_ioctl num param => r ← Driver.nrf51822_ioctl num param; mret (Commanded r)
  | poll => mask ← Driver.nrf51822_poll; mret (Polled mask)
  end.

Definition with_file (f : nat) (m : nat -> M cape out) : M cape out :=
  fs ← gets files;
  match fs !! f with Some fl => m (private_data fl) | None => mret BadFile end.

(** A call for an open file. *)
Definition file_call (f : nat) (c : fcall) : M cape out :=
  with_file f (fun i => on_radio i (high ← gets line_high; on_host (fops high c))).

Definition cape_step (o : op) : M cape out :=
  match o with
  | Happens i e => on_radio i (on_nrf (handle (H:=sdk i) e));; mret Nothing
  | Interrupt i =>
      r ← radio_at i;
      (if risen r then
         modify (set_radio i (Radio (the_link r) false));;
         on_radio i interrupt
       else mret ());;
      mret Nothing
  | Transferring k =>
      q ← gets spi_queue;
      match q !! k with
      | Some m => modify (set_queue (delete k q));; transfer m;; mret Nothing
      | None => mret Nothing
      end
  | Open i => r ← nrf51822_open i; mret (Opened r)
  | Ioctl f command =>
      file_call f (unlocked_ioctl Driver.NRF51822_IOCTL_SIMPLE_COMMAND (Some command))
  | Read f interrupted => file_call f (read interrupted 256)
  | Poll f => file_call f poll
  | Write f bytes => file_call f (write bytes (Z.of_nat (length bytes)))
  end.

Fixpoint cape_run (os : list op) : M cape (list out) :=
  match os with
  | [] => mret []
  | o :: os => r ← cape_step o; rs ← cape_run os; mret (r :: rs)
  end.
End operations.

(** ** One radio *)

(** The two ends of the link of a radio at chip select [id], and its channel. *)
Record link_ok (id : Z) (l : link) (c : channel) : Prop := LinkOk {
  lk_inv : inv (nrf l);
  lk_sniff : bcp_irq_advertisements (nrf l) = sniffs c;
  lk_waits : pending (nrf l) = waits c;
  lk_fits : Forall fits (waits c);
  lk_shown : waits c = [] ->
    match shown c with
    | Some f => shows (nrf l) f
    | None => take 2 (spi_tx_buf (nrf l)) = [0; 0]
    end;
  lk_host : host_ok (host l);
  lk_id : Driver.chipselect_demux_index (host l) = id;
  lk_mailbox :
    match mailbox c with
    | Some f => (2 <= length f <= 64)%nat /\
        Driver.buf_to_user_len (host l) = Z.of_nat (length f) /\
        take (length f) (Driver.buf_to_user (host l)) = f
    | None => Driver.buf_to_user_len (host l) = 0
    end;
  lk_busy :
    match busy c with
    | Some k => Driver.spi_pending (host l) = true /\
        Driver.spi_command_buffer (host l) !! 0%nat = Some k /\
        exists done, Driver.spi_msg (host l) = Driver.message_of done
    | None => Driver.spi_pending (host l) = false
    end;
}.

Lemma submissions_app d d' log :
  Driver.klog d' = log ++ Driver.klog d ->
  submissions d d' =
    omap (fun c => if c is Driver.gap_spi_async _ dev_id then Some dev_id else None) (rev log).
Proof.
  intros E. unfold submissions. rewrite E, length_app.
  replace (length log + length (Driver.klog d) - length (Driver.klog d))%nat with (length log) by lia.
  by rewrite take_app_length.
Qed.

Lemma submissions_same d d' : Driver.klog d' = Driver.klog d -> submissions d d' = [].
Proof. intros E. by rewrite (submissions_app d d' []). Qed.

(** A call into the kernel that is not a message. *)
Lemma link_ok_kcall id w d c k :
  link_ok id (Link w d) c -> link_ok id (Link w (Driver.add_kcall k d)) c.
Proof. intros [? ? ? ? ? [] ? ? ?]. by split. Qed.

(** The edge of the interrupt does not concern the link. *)
Lemma link_ok_edge id l c e : link_ok id l c -> link_ok id l (set_edge e c).
Proof. by intros []. Qed.

Lemma line_high_waits id l c : link_ok id l c -> line_high l = bool_decide (waits c <> []).
Proof. intros Hl. rewrite line_high_pending by apply Hl. by rewrite (lk_waits _ _ _ Hl). Qed.

(** A transaction is started. *)
Lemma link_ok_started id w d c k done :
  link_ok id (Link w d) c ->
  link_ok id (Link w (Driver.submitted k done (Driver.set_spi_pending true d)))
    (set_busy (Some k) c).
Proof.
  intros [? ? ? ? ? [Hcmd ? ? ?] ? ? ?]. split; cbn [busy set_busy]; try done.
  - split; try done. simpl. by rewrite length_insert.
  - split_and!; [done| |by exists done]. simpl. apply list_lookup_insert_eq.
    simpl in Hcmd. rewrite Hcmd. unfold Driver.SPI_BUF_LEN. lia.
Qed.

Lemma read_irq_started id w d c :
  link_ok id (Link w d) c ->
  link_ok id (Link w (Driver.irq_read d))
    (set_busy (Some (default Driver.BCP_COMMAND_READ_IRQ (busy c))) c) /\
  submissions d (Driver.irq_read d) = (if busy c is Some _ then [] else [id]).
Proof.
  intros Hl. pose proof (lk_busy _ _ _ Hl) as Hb. pose proof (lk_id _ _ _ Hl) as Hid.
  unfold Driver.irq_read. cbn [host] in *. destruct (busy c) as [k|] eqn:Eb.
  - destruct Hb as (-> & _). split; [|by apply submissions_same]. by rewrite set_busy_same.
  - rewrite Hb. split; [by apply link_ok_started|].
    rewrite (submissions_app _ _ [_]) by reflexivity. simpl. by rewrite Hid.
Qed.

(** The check of the line after a transfer. *)
Lemma irq_checked_started id w d c :
  link_ok id (Link w d) c -> busy c = None ->
  let high := bool_decide (waits c <> []) in
  let d' := Driver.irq_checked (H:=line_kernel high) d in
  link_ok id (Link w d')
    (set_busy (if high then Some Driver.BCP_COMMAND_READ_IRQ else None) c) /\
  exists log, Driver.klog d' = log ++ Driver.klog d /\
    omap (fun c => if c is Driver.gap_spi_async _ dev_id then Some dev_id else None) (rev log) =
      (if high then [id] else []).
Proof.
  intros Hl Hb high d'. pose proof (lk_busy _ _ _ Hl) as Hp. rewrite Hb in Hp. cbn [host] in Hp.
  pose proof (lk_id _ _ _ Hl) as Hid. cbn [host] in Hid.
  unfold d', Driver.irq_checked. cbn [Driver.kret line_kernel]. destruct high; cbn [Z.b2z Z.eqb Pos.eqb].
  - unfold Driver.irq_read. cbn [Driver.spi_pending Driver.add_kcall]. rewrite Hp. split.
    + apply link_ok_started. by do 2 apply link_ok_kcall.
    + eexists [_; _; _]. split; [reflexivity|]. simpl. by rewrite Hid.
  - split; [|by eexists [_]]. rewrite set_busy_same by done. by apply link_ok_kcall.
Qed.

(** *** The firmware's half *)

Section firmware.
Context `{Sdk}.

Lemma wp_hear id l c e :
  link_ok id l c -> valid_event e -> (forall mosi, e <> Transfer mosi) ->
  wp (on_nrf (handle e)) l (fun _ l' => link_ok id l' (hear e c) /\ host l' = host l)
    (fun l' => reset_by_failure (nrf l')).
Proof.
  intros [Hi Hs Hw Hf Hsh Hh Hid Hm Hb] He Hne. apply wp_on_nrf.
  assert (abs (nrf l) = Bcp (sniffs c) (waits c)) as Habs by (unfold abs; congruence).
  destruct (idle_event (bcp_irq_advertisements (nrf l)) e) eqn:Hidle.
  - eapply wp_mono; [by apply wp_idle| |done]. intros [] w' Hu.
    destruct (unseen_inv _ _ Hu Hi) as [Hi' Habs']. rewrite Habs in Habs'. injection Habs' as Hs' Hw'.
    assert (keeps c e = []) as Hk.
    { unfold keeps. destruct e as [|[r| | |]|s|mosi|]; try done. cbn [idle_event] in Hidle.
      apply negb_true_iff in Hidle. by rewrite <-Hs, Hidle. }
    split; [|done]. split; cbn [nrf host]; unfold hear; rewrite ?Hk, ?app_nil_r;
      cbn [sniffs waits shown mailbox busy]; try done.
    intros E. specialize (Hsh E). destruct (shown c).
    + unfold shows in *. by rewrite (unseen_tx _ _ Hu).
    + by rewrite (unseen_tx _ _ Hu).
  - eapply wp_mono; [by apply wp_handle| |done]. intros _ w' [Hi' Habs'].
    rewrite Habs in Habs'. destruct e as [|[r| | |]|s|mosi|]; try done; [|by destruct (Hne mosi)].
    cbn [idle_event] in Hidle. apply negb_false_iff in Hidle. rewrite Hs in Hidle.
    cbn [bcp_step sniffing waiting valid_event] in *. rewrite Hidle in Habs'. cbn [andb] in Habs'.
    split; [|done]. unfold hear, keeps. rewrite Hidle. cbn [andb].
    assert (fits (adv_view r)) as Hr by (unfold fits, adv_view; simpl; lia).
    case_bool_decide; injection Habs' as Hs' Hw'; split; cbn [nrf host sniffs waits shown mailbox busy];
      rewrite ?app_nil_r; try done.
    + by apply Forall_app_2; [|repeat constructor; apply Hr].
    + intros E. by apply app_nil in E as [_ ?].
    + intros E. by rewrite E in *; simpl in *; lia.
Qed.

(** The firmware's half of a transfer, and what is then known of its buffer. *)
Definition after_transfer (l : link) (c : channel) (w' : fw) : Prop :=
  inv w' /\ pending w' = waits (fetch c) /\
  bcp_irq_advertisements w' = sniffs (fetch c) /\
  (waits (fetch c) = [] -> spi_tx_buf w' = spi_tx_buf (nrf l)).

Lemma wp_slave id l c k :
  link_ok id l c -> busy c = Some k ->
  wp (on_nrf (handle (Transfer (mosi l)))) l
    (fun _ l' => after_transfer l c (nrf l') /\ host l' = host l)
    (fun l' => reset_by_failure (nrf l')).
Proof.
  intros [Hi Hs Hw Hf Hsh Hh Hid Hm Hb] Eb. rewrite Eb in Hb. destruct Hb as (_ & Hk & _).
  apply wp_on_nrf. eapply wp_mono; [by apply (wp_transfer (nrf l) (host l) k)| |done].
  intros [] w' (Hi' & Hp' & Htx & Hs'). split; [|done]. unfold after_transfer. cbn [nrf].
  split_and!; [done| | |].
  - rewrite Hp', Hw. unfold fetch. by destruct (waits c).
  - rewrite Hs', Hs. assert (sniffs (fetch c) = sniffs c || bool_decide (busy c = Some 2)) as ->.
    { unfold fetch. by destruct (waits c). }
    rewrite Eb. f_equal. apply eq_true_iff_eq. rewrite Z.eqb_eq, bool_decide_eq_true. split; congruence.
  - intros E. apply Htx. unfold pending in Hw.
    destruct (buffer_full (nrf l)) eqn:Ef; simpl in Hw.
    + unfold fetch in E. rewrite <-Hw in E. cbn [waits] in E. done.
    + by apply (inv_loaded _ Hi).
Qed.
End firmware.

(** *** The driver's half *)

(** The frame a transfer brings: the one that waits, or the last one again. *)
Definition arrives (c : channel) : option (list Z) :=
  match waits c with v :: _ => Some (frame v) | [] => shown c end.

Lemma arrives_shows id l c f : link_ok id l c -> arrives c = Some f -> shows (nrf l) f.
Proof.
  intros Hl. unfold arrives. destruct (waits c) as [|v rest] eqn:Ew.
  - intros E. pose proof (lk_shown _ _ _ Hl Ew) as H. by rewrite E in H.
  - intros [= <-]. eapply head_frame; [apply Hl|by rewrite (lk_waits _ _ _ Hl)|].
    pose proof (lk_fits _ _ _ Hl) as H. rewrite Ew in H. by apply Forall_cons in H as [H _].
Qed.

(** The device when the callback looks at the line. *)
Definition unchecked (tx : list Z) (d : Driver.dev) (c : channel) : Driver.dev :=
  let d1 := Driver.transferred (take 40 tx) d in
  match arrives c with
  | Some f => Driver.add_kcall Driver.wake_up
      (Driver.set_spi_pending false (Driver.moved (Z.of_nat (length f)) d1))
  | None => Driver.set_spi_pending false d1
  end.

Lemma received_ok `{Driver.Linux} id l c :
  link_ok id l c ->
  let d1 := Driver.transferred (miso l) (host l) in
  Driver.nrf51822_read_irq_done d1 =
    Done tt (Driver.irq_checked (unchecked (spi_tx_buf (nrf l)) (host l) c)).
Proof.
  intros Hl d1. pose proof (lk_host _ _ _ Hl) as Hd. pose proof (wf_tx _ (inv_wf _ (lk_inv _ _ _ Hl))) as Htx.
  pose proof (host_ok_moved _ 0 _ Htx ltac:(lia) Hd) as Hm.
  rewrite Driver.read_irq_done_ok; [|apply Hd|apply Hm|apply Hd]. unfold unchecked, d1, miso.
  destruct (arrives c) as [f|] eqn:Ea.
  - pose proof (arrives_shows id l c f Hl Ea) as Hf. pose proof Hf as [Hlen _].
    rewrite (frame_received _ f) by done. rewrite decide_True; [done|]. unfold Driver.SPI_BUF_LEN. lia.
  - assert (take 2 (spi_tx_buf (nrf l)) = [0; 0]) as H0.
    { unfold arrives in Ea. destruct (waits c) eqn:Ew; [|done].
      pose proof (lk_shown _ _ _ Hl Ew) as H'. by rewrite Ea in H'. }
    destruct (spi_tx_buf (nrf l)) as [|b0 [|b1 tx]]; try done. by injection H0 as -> ->.
Qed.

Lemma fetch_mailbox c :
  mailbox (fetch c) = match arrives c with Some f => Some (through_spi f) | None => mailbox c end.
Proof. unfold fetch, arrives. by destruct (waits c). Qed.

Lemma fetch_shown c :
  shown (fetch c) = match arrives c with Some f => Some f | None => None end.
Proof. unfold fetch, arrives. destruct (waits c); [|done]. simpl. by destruct (shown c). Qed.

Lemma unchecked_ok id l c w' :
  link_ok id l c -> after_transfer l c w' ->
  link_ok id (Link w' (unchecked (spi_tx_buf (nrf l)) (host l) c)) (set_busy None (fetch c)).
Proof.
  intros Hl (Hi' & Hp' & Hs' & Htx'). pose proof (wf_tx _ (inv_wf _ (lk_inv _ _ _ Hl))) as Htx.
  pose proof (lk_host _ _ _ Hl) as Hd.
  split; cbn [nrf host sniffs waits shown mailbox busy set_busy]; try done.
  - pose proof (lk_fits _ _ _ Hl) as Hf. unfold fetch. destruct (waits c); [done|].
    by apply Forall_cons in Hf as [_ Hf].
  - intros E. specialize (Htx' E). rewrite fetch_shown. destruct (arrives c) as [f|] eqn:Ea.
    + pose proof (arrives_shows id l c f Hl Ea) as Hf. unfold shows in *. by rewrite Htx'.
    + unfold arrives in Ea. destruct (waits c) eqn:Ew; [|done].
      pose proof (lk_shown _ _ _ Hl Ew) as H'. rewrite Ea in H'. by rewrite Htx'.
  - unfold unchecked. destruct (arrives c) as [f|] eqn:Ea.
    + pose proof (arrives_shows id l c f Hl Ea) as [Hf _].
      destruct (host_ok_moved _ (length f) _ Htx ltac:(lia) Hd). by split.
    + destruct (host_ok_moved _ 0 _ Htx ltac:(lia) Hd), Hd. by split.
  - unfold unchecked. pose proof (lk_id _ _ _ Hl). by destruct (arrives c).
  - rewrite fetch_mailbox. unfold unchecked. destruct (arrives c) as [f|] eqn:Ea.
    + pose proof (arrives_shows id l c f Hl Ea) as Hf. rewrite length_through_spi.
      split_and!; [apply Hf|apply Hf|done|].
      by apply (moved_frame (nrf l)).
    + exact (lk_mailbox _ _ _ Hl).
  - unfold unchecked. by destruct (arrives c).
Qed.

Lemma fetch_busy_waits c :
  busy (fetch c) =
    (if bool_decide (waits (fetch c) <> []) then Some Driver.BCP_COMMAND_READ_IRQ else None).
Proof. unfold fetch. by destruct (waits c) as [|v [|v' rest]]. Qed.

(** The callback, whatever the firmware has done by then. *)
Lemma wp_callback_at id l c w2 c2 k (Q : () -> link -> Prop) R :
  link_ok id l c -> busy c = Some k ->
  link_ok id (Link w2 (unchecked (spi_tx_buf (nrf l)) (host l) c)) c2 -> busy c2 = None ->
  (forall d', let high := bool_decide (waits c2 <> []) in
     link_ok id (Link w2 d') (set_busy (if high then Some Driver.BCP_COMMAND_READ_IRQ else None) c2) ->
     submissions (host l) d' = (if high then [id] else []) ->
     Q tt (Link w2 d')) ->
  wp (on_host (modify (Driver.transferred (miso l)));; callback) (Link w2 (host l)) Q R.
Proof.
  intros Hl Hb Hu Hb2 HQ. set (d1 := Driver.transferred (miso l) (host l)).
  apply wp_bind, (wp_on_host _ _ tt d1); [done|]. cbn [nrf]. apply wp_bind, wp_gets. cbv beta.
  assert (line_high (Link w2 d1) = bool_decide (waits c2 <> [])) as ->.
  { exact (line_high_waits id _ _ Hu). }
  apply wp_bind, wp_gets. cbn [host]. set (high := bool_decide _) in *.
  pose proof (lk_busy _ _ _ Hl) as Hbusy. rewrite Hb in Hbusy. destruct Hbusy as (_ & _ & done & Hdone).
  change (Driver.spi_msg d1) with (Driver.spi_msg (host l)). rewrite Hdone. cbn [Driver.complete Driver.message_of].
  destruct (irq_checked_started id w2 _ _ Hu Hb2) as [Hl' (log & Elog & Hsub)].
  fold high in Hl', Elog, Hsub.
  assert (Driver.nrf51822_read_irq_done (H:=line_kernel high) d1 = Done tt
    (Driver.irq_checked (H:=line_kernel high) (unchecked (spi_tx_buf (nrf l)) (host l) c))) as E.
  { by apply (received_ok (H:=line_kernel high) id). }
  assert (Q tt (Link w2 (Driver.irq_checked (H:=line_kernel high)
    (unchecked (spi_tx_buf (nrf l)) (host l) c)))) as HQ'.
  { apply HQ; [exact Hl'|]. rewrite <-Hsub. revert Elog. unfold unchecked. destruct (arrives c); intros Elog.
    - rewrite (submissions_app _ _ (log ++ [Driver.wake_up])).
      + by rewrite rev_app_distr.
      + by rewrite Elog, <-(assoc_L (++)).
    - by rewrite (submissions_app _ _ log). }
  destruct done; eapply wp_on_host; try exact HQ'.
  - exact E.
  - rewrite Driver.issue_simple_command_done_eq, <-Driver.read_irq_done_eq. exact E.
Qed.

Lemma wp_callback id l c w' k (Q : () -> link -> Prop) R :
  link_ok id l c -> busy c = Some k -> after_transfer l c w' ->
  (forall d', link_ok id (Link w' d') (fetch c) ->
     submissions (host l) d' = (if busy (fetch c) is Some _ then [id] else []) ->
     Q tt (Link w' d')) ->
  wp (on_host (modify (Driver.transferred (miso l)));; callback) (Link w' (host l)) Q R.
Proof.
  intros Hl Hb Hw' HQ.
  apply (wp_callback_at id l c w' _ k Q R Hl Hb (unchecked_ok id l c w' Hl Hw') eq_refl).
  intros d'. cbn [waits set_busy]. intros Hl' Hsub. apply HQ.
  - assert (set_busy (if bool_decide (waits (fetch c) <> []) then Some Driver.BCP_COMMAND_READ_IRQ else None)
      (set_busy None (fetch c)) = fetch c) as <-; [|exact Hl'].
    rewrite <-fetch_busy_waits. by destruct (fetch c).
  - rewrite fetch_busy_waits. rewrite Hsub. by destruct (bool_decide _).
Qed.

(** ** The whole cape *)

Section system.
Context (sdk : nat -> Sdk) `{K : GapSpi.Kernel} (output : nat -> Z).

(** Every radio has an output of the demultiplexer of its own. *)
Definition wired (pins n : nat) : Prop :=
  (forall i, (i < n)%nat -> 0 <= output i < 2 ^ Z.of_nat pins) /\
  (forall i j, (i < n)%nat -> (j < n)%nat -> output i = output j -> i = j).

(** The message of radio [i]. *)
Definition message (i : nat) : GapSpi.spi_message := GapSpi.SpiMessage (Z.of_nat i) (output i).

Record sim (g : cape) (s : spec) : Prop := Sim {
  sim_probed : GapSpi.probed (bus g);
  sim_wired : wired (length (GapSpi.select_pins (bus g))) (length (radios g));
  sim_queue : spi_queue g = message <$> order s;
  sim_length : length (radios g) = length (channels s);
  sim_radios i r c : radios g !! i = Some r -> channels s !! i = Some c ->
    link_ok (output i) (the_link r) c /\ risen r = edge c;
  sim_files : private_data <$> files g = handles s;
}.

(** A firmware was reset because a call had failed. *)
Definition a_reset (g : cape) : Prop :=
  exists i r, radios g !! i = Some r /\ reset_by_failure (H:=sdk i) (nrf (the_link r)).

(** The SPI core accepts every message. *)
Definition accepting : Prop := forall log m, GapSpi.kret log (GapSpi.spi_async m) = 0.

Lemma sim_channel g s i r :
  sim g s -> radios g !! i = Some r -> exists c, channels s !! i = Some c.
Proof.
  intros Hs Hi%lookup_lt_Some. rewrite (sim_length _ _ Hs) in Hi.
  by apply lookup_lt_is_Some_2 in Hi.
Qed.

Lemma sim_radio g s i c :
  sim g s -> channels s !! i = Some c -> exists r, radios g !! i = Some r.
Proof.
  intros Hs Hi%lookup_lt_Some. rewrite <-(sim_length _ _ Hs) in Hi.
  by apply lookup_lt_is_Some_2 in Hi.
Qed.

(** A change at one radio and its channel. *)
Lemma sim_update g s i r c :
  sim g s -> (i < length (radios g))%nat ->
  link_ok (output i) (the_link r) c -> risen r = edge c ->
  sim (set_radio i r g) (update i c s).
Proof.
  intros [Hp Hw Hq Hlen Hr Hf] Hi Hl He. split; cbn; rewrite ?length_insert; try done.
  intros j r' c'. destruct (decide (i = j)) as [<-|Hne].
  - rewrite !list_lookup_insert_eq by (rewrite <-?Hlen; done). by intros [= <-] [= <-].
  - rewrite !list_lookup_insert_ne by done. apply Hr.
Qed.

(** A message is queued. *)
Lemma wp_submit g s i (Q : () -> cape -> Prop) R :
  accepting -> sim g s ->
  (forall g', sim g' (enqueue i s) -> Q tt g') ->
  wp (submit i (output i)) g Q R.
Proof.
  intros Hacc [Hp Hw Hq Hlen Hr Hf] HQ. unfold submit.
  apply wp_bind, wp_gets, wp_bind. unfold wp at 1, on_bus, GapSpi.gap_spi_async, GapSpi.kernel.
  apply wp_bind, wp_gets, wp_modify. cbn [bus set_bus GapSpi.klog GapSpi.add_kcall].
  rewrite GapSpi.newly_accepted_cons, Hacc. apply HQ. split; cbn; try done.
  - by destruct Hp.
  - by rewrite Hq, fmap_app.
Qed.

(** An operation at one radio: what it does to the link decides the rest. *)
Lemma wp_at_radio {A} (m : M link A) g i r (started : bool) (Q : A -> cape -> Prop) :
  accepting -> radios g !! i = Some r ->
  wp m (the_link r) (fun a l' =>
      submissions (host (the_link r)) (host l') = (if started then [output i] else []) /\
      let g' := set_radio i
        (Radio l' (risen r || (negb (line_high (the_link r)) && line_high l'))) g in
      if started
      then exists s', sim g' s' /\ forall g'', sim g'' (enqueue i s') -> Q a g''
      else Q a g')
    (fun l' => reset_by_failure (H:=sdk i) (nrf l')) ->
  wp (on_radio i m) g Q a_reset.
Proof.
  intros Hacc Hi Hm. pose proof (lookup_lt_Some _ _ _ Hi) as Hlt.
  unfold on_radio, radio_at. apply wp_bind, wp_bind, wp_gets, wp_lift. exists r. split; [done|].
  unfold wp in Hm |- *. destruct (m (the_link r)) as [a l'|l'|]; [|..].
  - destruct Hm as [Hsub Hm]. cbv zeta in Hm. rewrite Hsub.
    set (r' := Radio l' _) in *. destruct started; cbn [submit_all]; [|exact Hm].
    destruct Hm as (s' & Hs' & HQ).
    change (wp (modify (set_radio i r');; (submit i (output i);; mret ());; mret a) g Q a_reset).
    apply wp_bind, wp_modify, wp_bind, wp_bind.
    apply (wp_submit _ _ i _ _ Hacc Hs'). intros g' Hg'. by apply wp_ret, wp_ret, HQ.
  - exists i, (Radio l' (risen r)). split; [|done]. by apply list_lookup_insert_eq.
  - done.
Qed.

Lemma wp_on_radio {A} (m : M link A) g s i r (started : bool) c' a (Q : A -> cape -> Prop) :
  accepting -> sim g s -> radios g !! i = Some r ->
  wp m (the_link r) (fun a' l' => a' = a /\ link_ok (output i) l' c' /\
      (risen r || (negb (line_high (the_link r)) && line_high l')) = edge c' /\
      submissions (host (the_link r)) (host l') = (if started then [output i] else []))
    (fun l' => reset_by_failure (H:=sdk i) (nrf l')) ->
  (forall g', sim g' (if started then enqueue i (update i c' s) else update i c' s) -> Q a g') ->
  wp (on_radio i m) g Q a_reset.
Proof.
  intros Hacc Hs Hi Hm HQ. pose proof (lookup_lt_Some _ _ _ Hi) as Hlt.
  apply (wp_at_radio m g i r started Q Hacc Hi). eapply wp_mono; [exact Hm| |done].
  intros a' l' (-> & Hl & He & Hsub). split; [done|]. cbv zeta. rewrite He.
  pose proof (sim_update g s i (Radio l' (edge c')) c' Hs Hlt Hl eq_refl) as Hs'.
  destruct started; [by eexists|by apply HQ].
Qed.

Lemma update_update i c c' s : update i c' (update i c s) = update i c' s.
Proof. unfold update. cbn. by rewrite list_insert_insert_eq. Qed.

(** The same for an operation of the driver alone: the line does not move. *)
Lemma wp_driver {A} (m : bool -> M Driver.dev A) g s i r c c' (started : bool) a d' (Q : A -> cape -> Prop) :
  accepting -> sim g s -> radios g !! i = Some r -> channels s !! i = Some c ->
  m (line_high (the_link r)) (host (the_link r)) = Done a d' ->
  link_ok (output i) (Link (nrf (the_link r)) d') c' -> edge c' = edge c ->
  submissions (host (the_link r)) d' = (if started then [output i] else []) ->
  (forall g', sim g' (if started then enqueue i (update i c' s) else update i c' s) -> Q a g') ->
  wp (on_radio i (high ← gets line_high; on_host (m high))) g Q a_reset.
Proof.
  intros Hacc Hs Hi Hc Em Hl He Hsub HQ. destruct (sim_radios _ _ Hs i r c Hi Hc) as [_ Hr].
  eapply (wp_on_radio _ g s i r started c' a Q Hacc Hs Hi); [|exact HQ].
  apply wp_bind, wp_gets. eapply wp_on_host; [exact Em|]. split_and!; [done|done| |done].
  rewrite He, <-Hr. change (line_high (Link (nrf (the_link r)) d')) with (line_high (the_link r)).
  by destruct (line_high (the_link r)); rewrite ?orb_false_r.
Qed.

Lemma rises (w k : list event_view) :
  negb (bool_decide (w <> [])) && bool_decide (w ++ k <> []) = bool_decide (w = [] /\ k <> []).
Proof. destruct w, k; done. Qed.

Definition refines (o : op) (g : cape) (s : spec) : Prop :=
  wp (cape_step sdk output o) g
    (fun r g' => r = (spec_step o s).1 /\ sim g' (spec_step o s).2) a_reset.

Lemma step_happens i e g s :
  accepting -> sim g s -> valid_op (length (radios g)) (Happens i e) -> refines (Happens i e) g s.
Proof.
  intros Hacc Hs (Hi & He & Hne). apply lookup_lt_is_Some_2 in Hi as [r Hi].
  destruct (sim_channel g s i r Hs Hi) as [c Hc]. destruct (sim_radios _ _ Hs i r c Hi Hc) as [Hl Hr].
  unfold refines. cbn [cape_step spec_step]. rewrite Hc. cbn [fst snd].
  apply wp_bind. eapply (wp_on_radio _ g s i r false (hear e c) tt _ Hacc Hs Hi).
  2:{ intros g' Hg'. by apply wp_ret. }
  eapply wp_mono; [by apply (wp_hear (H:=sdk i) (output i) _ c)| |done].
  intros [] l' [Hl' Hh]. split_and!; [done|done| |by apply submissions_same; rewrite Hh].
  rewrite (line_high_waits _ _ _ Hl), (line_high_waits _ _ _ Hl'), Hr. unfold hear. cbn [edge waits].
  f_equal. apply rises.
Qed.

Lemma step_interrupt i g s :
  accepting -> sim g s -> valid_op (length (radios g)) (Interrupt i) -> refines (Interrupt i) g s.
Proof.
  intros Hacc Hs Hi. apply lookup_lt_is_Some_2 in Hi as [r Hi]. pose proof (lookup_lt_Some _ _ _ Hi) as Hlt.
  destruct (sim_channel g s i r Hs Hi) as [c Hc]. destruct (sim_radios _ _ Hs i r c Hi Hc) as [Hl Hr].
  unfold refines. cbn [cape_step spec_step]. rewrite Hc.
  apply wp_bind. unfold radio_at. apply wp_bind, wp_gets, wp_lift. exists r. split; [done|].
  rewrite Hr. destruct (edge c) eqn:Ee; cbn [negb]; [|by apply wp_bind, wp_ret, wp_ret].
  apply wp_bind, wp_bind, wp_modify. set (c1 := set_edge false c).
  set (r1 := Radio (the_link r) false). set (g1 := set_radio i r1 g).
  assert (sim g1 (update i c1 s)) as Hs1 by (apply sim_update; [done|done|by apply link_ok_edge|done]).
  assert (radios g1 !! i = Some r1) as Hi1 by by apply list_lookup_insert_eq.
  assert (channels (update i c1 s) !! i = Some c1) as Hc1.
  { apply list_lookup_insert_eq. by rewrite <-(sim_length _ _ Hs). }
  pose proof (link_ok_edge _ _ _ false Hl) as Hl1. fold c1 in Hl1.
  assert (link_ok (output i) (Link (nrf (the_link r)) (host (the_link r))) c1) as Hl2 by by destruct (the_link r).
  destruct (read_irq_started _ _ _ _ Hl2) as [Hl3 Hsub].
  eapply (wp_driver (fun high => Driver.nrf51822_interrupt_handler (H:=line_kernel high)) g1 _ i r1 c1
    _ (if busy c is Some _ then false else true)); [done..| |exact Hl3|done| |].
  - apply Driver.read_irq_ok. apply (lk_host _ _ _ Hl).
  - etransitivity; [exact Hsub|]. cbn [busy c1 set_edge]. by destruct (busy c).
  - intros g' Hg'. rewrite !update_update in Hg'. apply wp_ret. revert Hg'.
    change (busy c1) with (busy c). destruct (busy c) as [k|] eqn:Eb; cbn [fst snd default]; [|done].
    by rewrite set_busy_same.
Qed.

Lemma step_open i g s :
  sim g s -> refines (Open i) g s.
Proof.
  intros [Hp Hw Hq Hlen Hr Hf]. unfold refines. cbn [cape_step spec_step].
  apply wp_bind, wp_bind, wp_modify, wp_ret, wp_ret. split; [done|]. split; try done.
  cbn. by rewrite fmap_app, Hf.
Qed.

(** The radio of an open file. *)
Lemma wp_with_file f (m : nat -> M cape out) g s (Q : out -> cape -> Prop) R :
  sim g s ->
  match i ← handles s !! f; Some i with
  | Some i => wp (m i) g Q R
  | None => Q BadFile g
  end ->
  wp (with_file f m) g Q R.
Proof.
  intros Hs HQ. unfold with_file. apply wp_bind, wp_gets.
  rewrite <-(sim_files _ _ Hs), list_lookup_fmap in HQ.
  by destruct (files g !! f); simpl in *; [|apply wp_ret].
Qed.

Lemma file_radio f i g s :
  sim g s -> spec_ok s -> handles s !! f = Some i ->
  exists r c, radios g !! i = Some r /\ channels s !! i = Some c /\
    link_ok (output i) (Link (nrf (the_link r)) (host (the_link r))) c /\ risen r = edge c.
Proof.
  intros Hs Hok Hf. pose proof (Forall_lookup_1 _ _ _ _ (ok_handles s Hok) Hf) as Hi.
  apply lookup_lt_is_Some_2 in Hi as [c Hc]. destruct (sim_radio g s i c Hs Hc) as [r Hr].
  destruct (sim_radios _ _ Hs i r c Hr Hc). exists r, c. by destruct (the_link r).
Qed.

(** A call for an open file: what the driver does decides. *)
Lemma wp_file_call f fc g s (Q : out -> cape -> Prop) :
  accepting -> sim g s -> spec_ok s ->
  match handles s !! f with
  | Some i => forall c high l, channels s !! i = Some c -> link_ok (output i) l c ->
      exists a c' (started : bool) d', fops high fc (host l) = Done a d' /\
        link_ok (output i) (Link (nrf l) d') c' /\ edge c' = edge c /\
        submissions (host l) d' = (if started then [output i] else []) /\
        forall g', sim g' (if started then enqueue i (update i c' s) else update i c' s) -> Q a g'
  | None => Q BadFile g
  end ->
  wp (file_call f fc) g Q a_reset.
Proof.
  intros Hacc Hs Hok HQ. unfold file_call. apply (wp_with_file _ _ g s); [done|].
  destruct (handles s !! f) as [i|] eqn:Hf; [|done].
  destruct (file_radio f i g s Hs Hok Hf) as (r & c & Hi & Hc & Hl & Hr).
  destruct (HQ c (line_high (the_link r)) (the_link r) Hc) as (a & c' & started & d' & E & Hl' & He & Hsub & HQ').
  { by destruct (the_link r). }
  by eapply (wp_driver (fun high => fops high fc) g s i r c c' started a d').
Qed.

(** The channel that a file stands for. *)
Ltac file_step f s :=
  unfold refines; cbn [cape_step spec_step]; apply (wp_file_call _ _ _ s); [done..|];
  destruct (handles s !! f) as [i|] eqn:Hf; [|done]; intros c high l Hc Hl;
  cbn [mbind option_bind]; rewrite Hc; cbn [fmap option_fmap option_map].

Lemma update_same i c s : channels s !! i = Some c -> update i c s = s.
Proof. intros Hc. unfold update. rewrite list_insert_id by done. by destruct s. Qed.

Lemma step_ioctl f command g s :
  accepting -> sim g s -> spec_ok s -> refines (Ioctl f command) g s.
Proof.
  intros Hacc Hs Hok. file_step f s. pose proof (lk_busy _ _ _ Hl) as Hb.
  destruct (busy c) as [k|] eqn:Eb.
  - destruct Hb as (Hb & _).
    exists (Commanded (GapSpi.Err GapSpi.EINTR)), c, false, (host l).
    split_and!; [|by destruct l|done|by apply submissions_same|].
    + refine (bind_Done _ _ _ (GapSpi.Err GapSpi.EINTR) _ _).
      unfold Driver.nrf51822_ioctl, Driver.nrf51822_ioctl_simple_command,
        Driver.nrf51822_issue_simple_command.
      by rewrite (bind_Done _ _ _ _ _ (Driver.claim_busy _ Hb)).
    + intros g' Hg'. by rewrite update_same in Hg'.
  - exists (Commanded (GapSpi.Ret 0)), (set_busy (Some command) c), true,
      (Driver.submitted command Driver.issue_simple_command_done
        (Driver.set_spi_pending true (host l))). split_and!; [| |done| |done].
    + refine (bind_Done _ _ _ (GapSpi.Ret 0) _ _).
      unfold Driver.nrf51822_ioctl, Driver.nrf51822_ioctl_simple_command,
        Driver.nrf51822_issue_simple_command.
      rewrite (bind_Done _ _ _ _ _ (Driver.claim_free _ Hb)).
      by rewrite (bind_Done _ _ _ _ _ (Driver.submit_ok _ _ (Driver.set_spi_pending true _)
        (host_command _ (lk_host _ _ _ Hl)))).
    + apply link_ok_started. by destruct l.
    + rewrite (submissions_app _ _ [_]) by reflexivity. simpl. f_equal. apply (lk_id _ _ _ Hl).
Qed.

Lemma step_poll f g s :
  accepting -> sim g s -> spec_ok s -> refines (Poll f) g s.
Proof.
  intros Hacc Hs Hok. file_step f s. pose proof (lk_mailbox _ _ _ Hl) as Hm.
  exists (Polled (ready c)), c, false, (Driver.add_kcall Driver.poll_wait (host l)).
  split_and!; [|destruct l; by apply link_ok_kcall|done|by rewrite (submissions_app _ _ [Driver.poll_wait])|].
  - refine (bind_Done _ _ _ (ready c) _ _). rewrite Driver.poll_ok. unfold ready. do 2 f_equal.
    destruct (mailbox c) as [m|].
    + destruct Hm as (Hlen & -> & _). by rewrite (proj2 (Z.ltb_lt _ _)) by lia.
    + by rewrite Hm.
  - intros g' Hg'. by rewrite update_same in Hg'.
Qed.

Lemma step_write f bytes g s :
  accepting -> sim g s -> spec_ok s -> refines (Write f bytes) g s.
Proof.
  intros Hacc Hs Hok. file_step f s.
  exists (Wrote (GapSpi.Err GapSpi.EFAULT)), c, false, (host l).
  split_and!; [done|by destruct l|done|by apply submissions_same|].
  intros g' Hg'. by rewrite update_same in Hg'.
Qed.

(** What [read] does to the device. *)
Lemma link_ok_read id w d c k :
  link_ok id (Link w d) c ->
  link_ok id (Link w (Driver.set_buf_to_user (Driver.buf_to_user d) 0 (Driver.add_kcall k d)))
    (set_mailbox None c).
Proof. intros [? ? ? ? ? [] ? ? ?]. by split. Qed.

Lemma read_link id w d c high interrupted :
  link_ok id (Link w d) c ->
  exists d', Driver.nrf51822_read (H:=line_kernel high) interrupted 256 d =
      Done (match mailbox c with
            | Some f => returned f
            | None => if interrupted : bool then returned [] else Driver.Blocked
            end) d' /\
    link_ok id (Link w d') (set_mailbox None c) /\ submissions d d' = [].
Proof.
  intros Hl. pose proof (lk_host _ _ _ Hl) as Hd. pose proof (lk_mailbox _ _ _ Hl) as Hm.
  cbn [host] in Hd, Hm. assert (0 <= Driver.buf_to_user_len d <= 64) as Hlen.
  { destruct (mailbox c) as [f|]; [destruct Hm as (? & -> & _)|rewrite Hm]; lia. }
  rewrite Driver.read_ok by (apply Hd || (unfold Driver.SPI_BUF_LEN; lia)).
  cbn [Driver.kret line_kernel Z.eqb negb].
  set (k := Driver.copy_to_user _). set (d' := Driver.set_buf_to_user _ _ _).
  assert (link_ok id (Link w d') (set_mailbox None c)) as Hl' by by apply link_ok_read.
  assert (submissions d d' = []) as Hsub by by rewrite (submissions_app _ _ [k]).
  destruct (mailbox c) as [f|] eqn:Em.
  - destruct Hm as (Hf & En & Ef). rewrite En, Nat2Z.id, Ef.
    rewrite (proj2 (Z.ltb_lt _ _)) by lia. by exists d'.
  - rewrite Hm. cbn [Z.ltb Z.compare negb andb]. destruct interrupted; cbn [negb].
    + by exists d'.
    + exists d. split_and!; [done| |by apply submissions_same]. by rewrite set_mailbox_same.
Qed.

Lemma step_read f interrupted g s :
  accepting -> sim g s -> spec_ok s -> refines (Read f interrupted) g s.
Proof.
  intros Hacc Hs Hok. file_step f s. destruct l as [w d].
  destruct (read_link (output i) w d c high interrupted Hl) as (d' & E & Hl' & Hsub).
  eexists _, (set_mailbox None c), false, d'.
  split_and!; [cbn [fops host]; exact (bind_Done _ _ _ _ _ E)|exact Hl'|done|exact Hsub|].
  intros g' Hg'. destruct (mailbox c) eqn:Em; [done|]. split; [done|].
  by rewrite set_mailbox_same, update_same in Hg'.
Qed.

(** The bus finds the radio of the message. *)
Lemma radio_on_output n i :
  (forall j k, (j < n)%nat -> (k < n)%nat -> output j = output k -> j = k) -> (i < n)%nat ->
  radio_on output (output i) n = Some i.
Proof.
  intros Hinj Hi. unfold radio_on.
  assert (list_find (fun j => output j = output i) (seq 0 n) = Some (i, i)) as ->; [|done].
  apply list_find_Some. split_and!; [by apply lookup_seq_lt|done|].
  intros j y Hj Hlt E. apply lookup_seq in Hj as [-> Hj]. simpl in E.
  apply Hinj in E; [lia|lia|done].
Qed.
Lemma fmap_delete {A B} (f : A -> B) k (l : list A) : f <$> delete k l = delete k (f <$> l).
Proof.
  revert k. induction l as [|x l IH]; intros k; [by destruct k|].
  destruct k as [|k]; [done|]. cbn. by rewrite <-IH.
Qed.

(** Both halves of a transfer with radio [i]. *)
Lemma wp_exchanged i r c k g s (Q : () -> cape -> Prop) :
  accepting -> sim g s -> radios g !! i = Some r -> channels s !! i = Some c -> busy c = Some k ->
  (forall g', sim g' (if busy (fetch c) is Some _ then enqueue i (update i (fetch c) s)
                      else update i (fetch c) s) -> Q tt g') ->
  wp (on_radio i (on_nrf (handle (H:=sdk i) (Transfer (mosi (the_link r)))));;
      on_radio i (on_host (modify (Driver.transferred (miso (the_link r))));; callback)) g Q a_reset.
Proof.
  intros Hacc Hs Hi Hc Hb HQ. destruct (sim_radios _ _ Hs i r c Hi Hc) as [Hl Hr].
  pose proof (lookup_lt_Some _ _ _ Hi) as Hlt.
  apply wp_bind, (wp_at_radio _ g i r false _ Hacc Hi).
  eapply wp_mono; [by apply (wp_slave (H:=sdk i) (output i) _ c k)| |done].
  intros [] [w' d] [Hw' Hd]. cbn [nrf host] in Hw', Hd. subst d.
  split; [by apply submissions_same|]. cbv zeta.
  pose proof (unchecked_ok _ _ _ _ Hl Hw') as Hu.
  assert (line_high (Link w' (host (the_link r))) = bool_decide (waits (fetch c) <> [])) as Hhigh.
  { exact (line_high_waits _ _ _ Hu). }
  assert (forall d, negb (line_high (the_link r)) && line_high (Link w' d) = false) as Hfall.
  { intros d. change (line_high (Link w' d)) with (line_high (Link w' (host (the_link r)))).
    rewrite Hhigh, (line_high_waits _ _ _ Hl). unfold fetch. by destruct (waits c). }
  rewrite Hfall, orb_false_r. set (r1 := Radio (Link w' _) _).
  apply (wp_at_radio _ _ i r1 (if busy (fetch c) is Some _ then true else false) _ Hacc).
  { by apply list_lookup_insert_eq. }
  apply (wp_callback (output i) (the_link r) c w' k); [done..|]. intros d' Hl' Hsub.
  split; [etransitivity; [exact Hsub|by destruct (busy (fetch c))]|]. cbv zeta.
  assert (sim (set_radio i (Radio (Link w' d') (risen r)) g) (update i (fetch c) s)) as Hs'.
  { apply sim_update; [done..|]. rewrite Hr. unfold fetch. by destruct (waits c). }
  assert (set_radio i (Radio (Link w' d') (risen r1 || (negb (line_high (the_link r1)) &&
    line_high (Link w' d')))) (set_radio i r1 g) = set_radio i (Radio (Link w' d') (risen r)) g) as ->.
  { unfold set_radio. cbn [bus spi_queue radios files]. rewrite list_insert_insert_eq.
    change (line_high (Link w' d')) with (line_high (the_link r1)).
    by destruct (line_high (the_link r1)); rewrite ?orb_false_r. }
  destruct (busy (fetch c)); [by eexists|by apply HQ].
Qed.

Lemma step_transferring k g s :
  accepting -> sim g s -> spec_ok s -> refines (Transferring k) g s.
Proof.
  intros Hacc Hs Hok. unfold refines. cbn [cape_step spec_step].
  apply wp_bind, wp_gets. rewrite (sim_queue _ _ Hs), list_lookup_fmap.
  destruct (order s !! k) as [i|] eqn:Hk; [|by apply wp_ret].
  pose proof (ok_bound s Hok i (list_elem_of_lookup_2 _ _ _ Hk)) as [c Hc]%lookup_lt_is_Some_2.
  destruct (sim_radio g s i c Hs Hc) as [r Hi]. pose proof (lookup_lt_Some _ _ _ Hi) as Hlt.
  cbn [fmap option_fmap option_map mbind option_bind]. rewrite Hc.
  assert (exists b, busy c = Some b) as [b Hb].
  { pose proof (proj1 (ok_busy s Hok i c Hc) (list_elem_of_lookup_2 _ _ _ Hk)) as Hne.
    destruct (busy c) as [b|]; [by exists b|done]. }
  set (s1 := Spec (channels s) (delete k (order s)) (handles s)).
  rewrite <-fmap_delete. pose proof Hs as [Hp [Hrange Hinj] Hq Hlen Hr Hf].
  apply wp_bind, wp_modify, wp_bind. set (g1 := set_queue _ g).
  unfold transfer. destruct (GapSpi.process_ok (message i) (bus g1) Hp)
    as (res & b' & E & Hp' & Hpins & _ & Hout & _).
  apply wp_bind. unfold wp at 1, on_bus. rewrite E. set (g2 := set_bus b' g1).
  rewrite Z.mod_small in Hout by (by apply Hrange).
  assert (sim g2 s1) as Hs2.
  { split; try done. cbn. by rewrite Hpins. }
  apply wp_bind, wp_gets, wp_bind, wp_lift. exists (output i). split; [exact Hout|].
  apply wp_bind, wp_gets, wp_bind, wp_lift. exists i. split; [by apply radio_on_output|].
  cbn [GapSpi.owner message]. rewrite Nat2Z.id. unfold radio_at.
  apply wp_bind, wp_bind, wp_gets, wp_lift. exists r. split; [done|].
  apply wp_bind, wp_bind, wp_gets, wp_lift. exists r. split; [done|].
  apply (wp_exchanged i r c b g2 s1); [done..|]. intros g' Hg'. apply wp_ret.
  split; [done|exact Hg'].
Qed.

Lemma step_refines o g s :
  accepting -> sim g s -> spec_ok s -> valid_op (length (radios g)) o -> refines o g s.
Proof.
  intros. destruct o; [by apply step_happens|by apply step_interrupt|by apply step_transferring|
    by apply step_open|by apply step_ioctl|by apply step_read|
    by apply step_poll|by apply step_write].
Qed.

Lemma cape_run_ok os g s :
  accepting -> sim g s -> spec_ok s -> Forall (valid_op (length (radios g))) os ->
  wp (cape_run sdk output os) g
    (fun rs g' => rs = (spec_run os s).1 /\ sim g' (spec_run os s).2 /\
       spec_ok (spec_run os s).2 /\ length (radios g') = length (radios g)) a_reset.
Proof.
  intros Hacc. revert g s. induction os as [|o os IH]; intros g s Hs Hok Hos; [by apply wp_ret|].
  apply Forall_cons in Hos as [Ho Hos]. cbn [cape_run spec_run]. apply wp_bind.
  eapply wp_mono; [by apply step_refines| |done]. intros r g1 [-> Hs1].
  rewrite (sim_length _ _ Hs) in Ho.
  destruct (spec_step_ok _ o s eq_refl Ho Hok) as [Hok1 Hlen1].
  destruct (spec_step o s) as [r s1]. cbn [fst snd] in *.
  assert (length (radios g1) = length (radios g)) as Hlen.
  { by rewrite (sim_length _ _ Hs1), Hlen1, (sim_length _ _ Hs). }
  apply wp_bind. eapply wp_mono; [apply (IH g1 s1 Hs1 Hok1); by rewrite Hlen| |done].
  intros rs g2 (-> & Hs2 & Hok2 & Hlen2). apply wp_ret.
  destruct (spec_run os s1) as [rs s2]. cbn [fst snd] in *. by rewrite Hlen2, Hlen.
Qed.

(** ** The start *)

(** The modules are loaded and every co-processor has started. *)
Record powered (g : cape) : Prop := Powered {
  pw_probed : GapSpi.probed (bus g);
  pw_wired : wired (length (GapSpi.select_pins (bus g))) (length (radios g));
  pw_queue : spi_queue g = [];
  pw_files : files g = [];
  pw_radios i r : radios g !! i = Some r -> risen r = false /\
    main_init (H:=sdk i) boot = Done tt (nrf (the_link r)) /\
    exists pin, host (the_link r) = Driver.fresh (output i) pin;
}.

Definition start (n : nat) : spec := Spec (replicate n silent) [] [].

Lemma start_ok n : spec_ok (start n).
Proof.
  split; cbn [order channels handles start].
  - apply NoDup_nil_2.
  - by intros i ?%not_elem_of_nil.
  - intros i c [-> _]%lookup_replicate. split; [by intros ?%not_elem_of_nil|done].
  - by intros i c [-> _]%lookup_replicate.
  - done.
Qed.

Lemma powered_sim g : powered g -> sim g (start (length (radios g))).
Proof.
  intros [Hp Hw Hq Hf Hr]. split; cbn [channels order handles start]; try done.
  - by rewrite length_replicate.
  - intros i r c Hi [-> _]%lookup_replicate. destruct (Hr i r Hi) as (Hrisen & Hboot & pin & Hhost).
    split; [|done].
    pose proof (wp_boot (H:=sdk i) (fun _ w => inv w /\ abs w = Bcp false [])
      (fun w Hi Ha => conj Hi Ha)) as H1.
    pose proof (wp_main_init (H:=sdk i) boot (fun _ w => spi_tx_buf w = spi_tx_buf boot)
      (fun w _ Htx _ _ _ _ => Htx)) as H2.
    apply (fun H => wp_Done _ _ _ _ _ _ H Hboot) in H1 as [Hi1 Habs], H2 as Htx.
    injection Habs as Hsniff Hpend. split; rewrite ?Hhost; try done.
    + intros _. cbn [shown silent]. by rewrite Htx.
  - by rewrite Hf.
Qed.

Lemma cape_from_start os g :
  accepting -> powered g -> Forall (valid_op (length (radios g))) os ->
  let s' := (spec_run os (start (length (radios g)))) in
  wp (cape_run sdk output os) g
    (fun rs g' => rs = s'.1 /\ sim g' s'.2 /\ spec_ok s'.2 /\ length (radios g') = length (radios g))
    a_reset.
Proof. intros Hacc Hg Hos. apply cape_run_ok; auto using powered_sim, start_ok. Qed.

(** ** Theorems *)

(** C1: the whole cape.  As long as the SPI core accepts every message
    ([accepting]), and started with any number of radios, through any sequence of
    advertisements and other events in the co-processors, interrupts, transfers
    in any order, [open], [ioctl], [read], [poll] and [write], the firmware, the
    driver and the bus module together behave as the specification [spec]: every
    operation returns what it returns there, and the states correspond, in
    particular each radio exchanges its frames with its own device only.  There
    is no undefined behaviour, and a co-processor is reset only after a failed
    call of its SDK. *)
Theorem cape_refines_spec os g :
  accepting -> powered g -> Forall (valid_op (length (radios g))) os ->
  wp (cape_run sdk output os) g
    (fun rs g' => exists s', spec_run os (start (length (radios g))) = (rs, s') /\ sim g' s')
    a_reset.
Proof.
  intros Hacc Hg Hos. eapply wp_mono; [by apply cape_from_start| |done].
  intros rs g' (-> & Hs & _). eexists. split; [apply surjective_pairing|done].
Qed.

(** C8: no interrupt is lost.  As long as the SPI core accepts every message,
    whatever else happened, a radio whose interrupt line is high has a
    transaction under way or a rising edge the driver has still to take; and the
    messages in the queue of the bus are those of the devices
    whose buffers are claimed, one each. *)
Theorem no_interrupt_lost os g :
  accepting -> powered g -> Forall (valid_op (length (radios g))) os ->
  wp (cape_run sdk output os) g
    (fun _ g' => NoDup (GapSpi.owner <$> spi_queue g') /\
      forall i r, radios g' !! i = Some r ->
        (message i ∈ spi_queue g' <-> Driver.spi_pending (host (the_link r)) = true) /\
        (line_high (the_link r) = true -> message i ∈ spi_queue g' \/ risen r = true))
    a_reset.
Proof.
  intros Hacc Hg Hos. eapply wp_mono; [by apply cape_from_start| |done].
  intros rs g' (_ & Hs & Hok & _). set (s := (spec_run os _).2) in *.
  assert (forall i, message i ∈ spi_queue g' <-> i ∈ order s) as Hin.
  { intros i. rewrite (sim_queue _ _ Hs), list_elem_of_fmap. split; [|by exists i].
    intros (j & E & Hj). injection E as E _. by apply Nat2Z.inj in E as ->. }
  split.
  - rewrite (sim_queue _ _ Hs), <-list_fmap_compose. apply NoDup_fmap_2; [|apply Hok].
    intros i j E. by apply Nat2Z.inj.
  - intros i r Hi. destruct (sim_channel _ _ i r Hs Hi) as [c Hc].
    destruct (sim_radios _ _ Hs i r c Hi Hc) as [Hl Hr]. rewrite Hin, (ok_busy s Hok i c Hc).
    pose proof (lk_busy _ _ _ Hl) as Hb. split.
    + destruct (busy c); [destruct Hb as [-> _]|rewrite Hb]; by split.
    + rewrite (line_high_waits _ _ _ Hl), bool_decide_eq_true, Hr. apply (ok_wakeup s Hok i c Hc).
Qed.

(** C14: everything that waits can be delivered.  If the SPI core accepts every
    message, then in whatever state the system is, for every open file there is a
    sequence of at most one interrupt and a transfer and a [read] per frame, after which the reads have returned the
    frames that waited in the radio, all of them in their order, and no frame
    waits any more. *)
Theorem cape_delivers os g :
  accepting -> powered g -> Forall (valid_op (length (radios g))) os ->
  wp (cape_run sdk output os) g
    (fun _ g' => forall f i r, files g' !! f = Some (File i) -> radios g' !! i = Some r ->
      exists os', (length os' <= 1 + 2 * length (pending (nrf (the_link r))))%nat /\
        wp (cape_run sdk output os') g' (fun rs g'' =>
          reads rs = (returned ∘ through_spi ∘ frame) <$> pending (nrf (the_link r)) /\
          exists r'', radios g'' !! i = Some r'' /\ pending (nrf (the_link r'')) = []) a_reset)
    a_reset.
Proof.
  intros Hacc Hg Hos. eapply wp_mono; [by apply cape_from_start| |done].
  intros rs g' (_ & Hs & Hok & _) f i r Hf Hi. set (s := (spec_run os _).2) in *.
  destruct (sim_channel _ _ i r Hs Hi) as [c Hc].
  destruct (sim_radios _ _ Hs i r c Hi Hc) as [Hl _].
  assert (handles s !! f = Some i) as Hh.
  { by rewrite <-(sim_files _ _ Hs), list_lookup_fmap, Hf. }
  destruct (spec_delivers f i _ s c eq_refl Hok Hh Hc) as (os' & Hlen & Hvalid & Hreads & c' & Hc' & Hw').
  exists os'. rewrite (lk_waits _ _ _ Hl). split; [done|].
  eapply wp_mono; [apply (cape_run_ok os' g' s Hacc Hs Hok); by rewrite (sim_length _ _ Hs)| |done].
  intros rs' g'' (-> & Hs'' & _). split; [done|].
  destruct (sim_radio _ _ i c' Hs'' Hc') as [r'' Hi'']. exists r''. split; [done|].
  destruct (sim_radios _ _ Hs'' i r'' c' Hi'' Hc') as [Hl'' _]. by rewrite (lk_waits _ _ _ Hl'').
Qed.

(** C15: what arrives where.  If the SPI core accepts every message, then for every
    radio the frames the driver has fetched, followed by those that still wait in the co-processor, are the accepted
    advertisements of that radio, in order; and what a user reads from a file of
    that radio are frames its mailbox was given, in order, each at most once. *)
Theorem cape_in_order os g :
  accepting -> powered g -> Forall (valid_op (length (radios g))) os ->
  wp (cape_run sdk output os) g
    (fun rs g' => let s := start (length (radios g)) in
      forall i r, radios g' !! i = Some r ->
        over_run (fetched i) os s ++ pending (nrf (the_link r)) = over_run (kept i) os s /\
        forall f, files g' !! f = Some (File i) ->
          file_reads f os rs `sublist_of` over_run (puts i) os s)
    a_reset.
Proof.
  intros Hacc Hg Hos. eapply wp_mono; [by apply cape_from_start| |done].
  intros rs g' (-> & Hs & Hok & Hlen) s i r Hi. destruct (sim_channel _ _ i r Hs Hi) as [c' Hc'].
  destruct (sim_radios _ _ Hs i r c' Hi Hc') as [Hl _].
  assert (channels s !! i = Some silent) as Hc.
  { apply lookup_replicate. split; [done|]. rewrite <-Hlen. by eapply lookup_lt_Some. }
  destruct (run_frames i os s silent c' Hc Hc') as [H1 H2]. split.
  - by rewrite (lk_waits _ _ _ Hl), H1.
  - intros f Hf. etrans; [apply (file_reads_taken f i os s silent Hc)|].
    + pose proof (sim_files _ _ Hs) as Hfiles. fold s in Hfiles.
      by rewrite <-Hfiles, list_lookup_fmap, Hf.
    + etrans; [|exact H2]. by apply sublist_inserts_r.
Qed.
End system.

(** ** Witnesses *)

(** A cape with two radios, at the outputs 1 and 2. *)
Definition demo_output (i : nat) : Z := Z.of_nat i + 1.
Definition demo_sdk (i : nat) : Sdk := quiet_sdk.

Definition started : fw :=
  if main_init (H:=quiet_sdk) boot is Done _ w then w else boot.

Definition demo_cape : cape :=
  CapeState GapSpi.two_pins_bus []
    [Radio (Link started (Driver.fresh 1 60)) false; Radio (Link started (Driver.fresh 2 61)) false]
    [].

Lemma demo_powered : powered demo_sdk demo_output demo_cape.
Proof.
  split; try done.
  - apply GapSpi.two_pins_probed.
  - split.
    + intros [|[|i]] Hi; simpl in *; unfold demo_output; lia.
    + intros i j _ _. unfold demo_output. lia.
  - intros [|[|i]] r Hi; [| |done]; injection Hi as <-.
    all: split_and!; [done|vm_compute; reflexivity|by eexists].
Qed.

(** Both radios are told to sniff and hear something; the frame of the second is
    fetched first. *)
Definition demo_ops : list op :=
  [Open 0; Open 1; Ioctl 0 2; Ioctl 1 2; Transferring 0; Transferring 0;
   Happens 0 (Ble (BLE_GAP_EVT_ADV_REPORT (demo_report 7)));
   Happens 1 (Ble (BLE_GAP_EVT_ADV_REPORT (demo_report 8)));
   Interrupt 0; Interrupt 1; Transferring 1; Poll 1; Read 1 false; Poll 1; Write 1 [0]].

Lemma demo_valid : Forall (valid_op 2) demo_ops.
Proof.
  unfold demo_ops. repeat (apply Forall_cons; split); [..|constructor].
  all: cbn [valid_op];
    first [done | lia | unfold byte; lia | split_and!; [lia|vm_decide|done]].
Qed.

Definition demo_end : cape :=
  if cape_run (K:=GapSpi.two_pins) demo_sdk demo_output demo_ops demo_cape is Done _ g
  then g else demo_cape.

Definition demo_outs : list out :=
  [Opened 0; Opened 0; Commanded (GapSpi.Ret 0); Commanded (GapSpi.Ret 0); Nothing; Nothing;
   Nothing; Nothing; Nothing; Nothing; Nothing;
   Polled [Driver.POLLOUT; Driver.POLLWRNORM; Driver.POLLIN; Driver.POLLRDNORM];
   WasRead (returned (10 :: 1 :: replicate 9 8));
   Polled [Driver.POLLOUT; Driver.POLLWRNORM]; Wrote (GapSpi.Err GapSpi.EFAULT)].

Lemma demo_run :
  cape_run (K:=GapSpi.two_pins) demo_sdk demo_output demo_ops demo_cape = Done demo_outs demo_end.
Proof. vm_compute. reflexivity. Qed.

Lemma demo_accepting : accepting (K:=GapSpi.two_pins).
Proof. done. Qed.

Lemma cape_refines_spec_witness :
  exists s', spec_run demo_ops (start 2) = (demo_outs, s') /\ sim demo_output demo_end s'.
Proof.
  exact (wp_Done _ _ _ _ _ _ (cape_refines_spec (K:=GapSpi.two_pins) demo_sdk demo_output demo_ops
    demo_cape demo_accepting demo_powered demo_valid) demo_run).
Defined.

(** The message of the first radio is still in the queue. *)
Lemma no_interrupt_lost_witness : message demo_output 0 ∈ spi_queue demo_end.
Proof.
  destruct (wp_Done _ _ _ _ _ _ (no_interrupt_lost (K:=GapSpi.two_pins) demo_sdk demo_output
    demo_ops demo_cape demo_accepting demo_powered demo_valid) demo_run) as [_ H].
  refine (proj2 (proj1 (H 0%nat (Radio (Link _ _) _) _)) _).
  - vm_compute. reflexivity.
  - reflexivity.
Defined.

(** The frame of the first radio can be delivered in three operations. *)
Definition demo_radio : radio := default (Radio (Link started (Driver.fresh 1 60)) false) (radios demo_end !! 0%nat).

Lemma demo_waits : pending (nrf (the_link demo_radio)) = [adv_view (demo_report 7)].
Proof. vm_compute. reflexivity. Qed.

Lemma demo_radio_at : radios demo_end !! 0%nat = Some demo_radio.
Proof. vm_compute. reflexivity. Qed.

Lemma demo_file_at : files demo_end !! 0%nat = Some (File 0).
Proof. vm_compute. reflexivity. Qed.

Lemma cape_delivers_witness :
  exists os', (length os' <= 3)%nat /\
    wp (cape_run (K:=GapSpi.two_pins) demo_sdk demo_output os') demo_end
      (fun rs _ => reads rs = [returned (10 :: 1 :: replicate 9 7)]) (a_reset demo_sdk).
Proof.
  destruct (wp_Done _ _ _ _ _ _ (cape_delivers (K:=GapSpi.two_pins) demo_sdk demo_output demo_ops
    demo_cape demo_accepting demo_powered demo_valid) demo_run 0%nat 0%nat demo_radio
    demo_file_at demo_radio_at) as (os' & Hlen & Hwp).
  rewrite demo_waits in Hlen, Hwp. exists os'. split; [exact Hlen|].
  eapply wp_mono; [exact Hwp| |by intros ?]. by intros rs g'' [-> _].
Defined.

Lemma cape_in_order_witness :
  over_run (fetched 0) demo_ops (start 2) ++ [adv_view (demo_report 7)] =
    over_run (kept 0) demo_ops (start 2).
Proof.
  rewrite <-demo_waits.
  exact (proj1 (wp_Done _ _ _ _ _ _ (cape_in_order (K:=GapSpi.two_pins) demo_sdk demo_output demo_ops
    demo_cape demo_accepting demo_powered demo_valid) demo_run 0%nat demo_radio demo_radio_at)).
Defined.
End Cape.
