(* ===== verification/CapeOverlap.v ===== *)
(** * Events during a transfer

    In [Cape] a transfer and the handlers that follow it are one step.  Here the
    step is taken apart at one radio: what happens to the co-processor while the
    bytes are exchanged, and between its handler of the completed transfer and
    the callback of the driver.

    [spi_tx_buf] is the memory that the SPI slave reads, byte by byte, so an event
    that fills it changes the bytes that are still to be sent; and the handler
    takes the frame in the buffer for the one that was sent.  Shown: while a frame
    waits, events at any of these times are as good as events before or after the
    transfer; of the advertisements that arrive during a transfer for which none
    waited the first is dropped, and the others wait in order. *)
From S2P Require Import Prelude NrfQueue NrfBoard NrfSpiSlave NrfMain GapSpi NrfDriver BcpLink CapeSpec Cape.
Import Queue Board SpiSlave Main BcpLink CapeSpec Cape.

Module CapeOverlap.

(** ** A transfer, taken apart *)

Section operations.
Context `{Sdk}.

(** An event at the co-processor; the driver takes the interrupt at once. *)
Definition arrive (e : event) : M link () :=
  before ← gets line_high;
  on_nrf (handle e);;
  after ← gets line_high;
  if negb before && after then interrupt else mret ().

Fixpoint arrive_all (es : list event) : M link () :=
  match es with [] => mret () | e :: es => arrive e;; arrive_all es end.

(** A transfer with events after [n] bytes, and between the two handlers. *)
Definition transfer_during (n : nat) (during after : list event) : M link () :=
  old ← gets miso;
  rx ← gets mosi;
  arrive_all during;;
  new ← gets miso;
  on_nrf (handle (Transfer rx));;
  arrive_all after;;
  on_host (modify (Driver.transferred (take n old ++ drop n new)));;
  callback.
End operations.

(** ** The same of a channel *)

(** The driver takes the interrupt. *)
Definition announce (c : channel) : channel :=
  if edge c then
    match busy c with
    | Some _ => set_edge false c
    | None => set_busy (Some Driver.BCP_COMMAND_READ_IRQ) (set_edge false c)
    end
  else c.

Definition arrivals (es : list event) (c : channel) : channel :=
  foldl (fun c e => announce (hear e c)) c es.

(** An event of the co-processor itself. *)
Definition own_event (e : event) : Prop := valid_event e /\ forall mosi, e <> Transfer mosi.

(** ** Lemmas *)

Section lemmas.
Context `{Sdk}.

(** While the frame buffer is full, or the event is no advertisement to forward,
    the buffer stays as it is. *)
Lemma wp_buffer_stays w e :
  inv w -> own_event e ->
  buffer_full w = true \/ idle_event (bcp_irq_advertisements w) e = true ->
  wp (handle e) w (fun _ w' => spi_tx_buf w' = spi_tx_buf w) reset_by_failure.
Proof.
  intros Hi [He Hne] Hcase. destruct (idle_event (bcp_irq_advertisements w) e) eqn:Hidle.
  { eapply wp_mono; [by apply wp_idle| |done]. by intros _ w' []. }
  destruct Hcase as [Hfull|]; [|done].
  destruct e as [|[r| | |]|s|mosi|]; cbn [handle valid_event idle_event] in *; try done; [|by destruct (Hne mosi)].
  destruct He as [Hd Hlen]. apply negb_false_iff in Hidle. unfold ble_evt_dispatch, on_ble_evt.
  apply wp_bind, wp_call_void, wp_bind, wp_gets. cbv beta. cbn [bcp_irq_advertisements add_call]. rewrite Hidle.
  apply wp_bind. set (w1 := add_call _ w). rewrite u8_small by (unfold byte; lia).
  pose proof (wf_event_queue _ (inv_wf _ Hi)) as Hq.
  destruct (decide (items_in_queue (event_queue w1) = 4)) as [Hfour|Hroom].
  - unfold wp. by rewrite (@add_full _ firmware_client w1 _ _ _ Hfour).
  - destruct (@add_room _ firmware_client w1 BCP_RSP_ADVERTISEMENT (dlen r + 8) (report_bytes r))
      as (it & Hit & Hview & Hadd); simpl in *; try done; [unfold byte; lia|lia|].
    unfold wp. rewrite Hadd. set (w2 := set_event_queue _ w1). cbv [mbind M_bind].
    by rewrite (notify_full w2 Hfull).
Qed.

(** With nothing waiting the advertisement goes into the buffer. *)
Lemma wp_buffer_filled w r :
  inv w -> valid_event (Ble (BLE_GAP_EVT_ADV_REPORT r)) -> bcp_irq_advertisements w = true -> pending w = [] ->
  wp (handle (Ble (BLE_GAP_EVT_ADV_REPORT r))) w
    (fun _ w' => spi_tx_buf w' = framed (spi_tx_buf w) (adv_view r)) reset_by_failure.
Proof.
  intros Hi [Hd Hlen] Hsniff Hp. cbn [handle]. unfold ble_evt_dispatch, on_ble_evt.
  apply wp_bind, wp_call_void, wp_bind, wp_gets. cbv beta. cbn [bcp_irq_advertisements add_call]. rewrite Hsniff.
  apply wp_bind. set (w1 := add_call _ w). rewrite u8_small by (unfold byte; lia).
  pose proof (wf_event_queue _ (inv_wf _ Hi)) as Hq. pose proof (wf_tx _ (inv_wf _ Hi)) as Htx.
  assert (buffer_full w = false) as Hfull.
  { rewrite (buffer_full_pending _ Hi), Hp. done. }
  assert (contents (event_queue w) = []) as Hc by by apply (inv_loaded _ Hi).
  assert (items_in_queue (event_queue w) = 0) as H0 by by apply contents_nil.
  destruct (@add_room _ firmware_client w1 BCP_RSP_ADVERTISEMENT (dlen r + 8) (report_bytes r))
    as (it & Hit & Hview & Hadd); simpl in *; try done; [lia|unfold byte; lia|lia|].
  unfold wp. rewrite Hadd. set (w2 := set_event_queue _ w1).
  fold (wp (spi_slave_notify;; mret NRF_SUCCESS) w2
    (fun _ w' => wp (mret ()) w' (fun _ w' => spi_tx_buf w' = framed (spi_tx_buf w) (adv_view r)) reset_by_failure)
    reset_by_failure).
  apply wp_bind. eapply wp_mono; [apply (notify_load w2 1 (dlen r + 8) (take (Z.to_nat (dlen r + 8)) (report_bytes r)) [])| |done].
  - by apply push_wf; [|lia|].
  - done.
  - done.
  - simpl. rewrite push_contents, Hview, Hc by (done || lia). unfold new_view.
    by rewrite Z.min_l by lia.
  - lia.
  - intros _ w' (q' & _ & _ & ->). by apply wp_ret, wp_ret.
Qed.

(** An interrupt while a transaction is under way is refused. *)
Lemma interrupt_refused l :
  host_ok (host l) -> Driver.spi_pending (host l) = true -> interrupt l = Done tt l.
Proof.
  intros Hh Hp.
  change (interrupt l) with (on_host (Driver.nrf51822_interrupt_handler (H:=line_kernel (line_high l))) l).
  unfold on_host, Driver.nrf51822_interrupt_handler. rewrite Driver.read_irq_ok by apply Hh.
  unfold Driver.irq_read. rewrite Hp. by destruct l.
Qed.

(** What is heard at any time; the driver has the device [d]. *)
Definition hears (es : list event) (c : channel) : channel := foldl (fun c e => hear e c) c es.

Definition none_kept (es : list event) (c : channel) : Prop := Forall (fun e => keeps c e = []) es.

Lemma wp_arrive id d l c e (P : fw -> Prop) :
  link_ok id (Link (nrf l) d) c -> own_event e -> host_ok (host l) -> Driver.spi_pending (host l) = true ->
  wp (handle e) (nrf l) (fun _ => P) reset_by_failure ->
  wp (arrive e) l (fun _ l' => host l' = host l /\ link_ok id (Link (nrf l') d) (hear e c) /\ P (nrf l'))
    host_reset.
Proof.
  intros Hl [He Hne] Hh Hp HP. unfold arrive. apply wp_bind, wp_gets, wp_bind, wp_on_nrf.
  pose proof (wp_hear id _ c e Hl He Hne) as Hhear.
  unfold wp in Hhear, HP |- *. unfold on_nrf in Hhear. cbn [nrf host] in Hhear.
  destruct (handle e (nrf l)) as [[] w'|w'|]; [|exact Hhear|done]. destruct Hhear as [Hl' _].
  set (l' := Link w' (host l)). fold (wp (high ← gets line_high; if negb (line_high l) && high then interrupt else mret ())
    l' (fun _ l2 => host l2 = host l /\ link_ok id (Link (nrf l2) d) (hear e c) /\ P (nrf l2)) host_reset).
  apply wp_bind, wp_gets. destruct (_ && _); [|apply wp_ret; by split_and!].
  unfold wp. rewrite interrupt_refused by done. by split_and!.
Qed.

(** The transmit buffer stays while a frame waits, or if the event brings none. *)
Lemma wp_event_stays id d w c e :
  link_ok id (Link w d) c -> own_event e ->
  wp (handle e) w (fun _ w' => waits c <> [] \/ keeps c e = [] -> spi_tx_buf w' = spi_tx_buf w)
    reset_by_failure.
Proof.
  intros Hl He. destruct (decide (waits c = [] /\ keeps c e <> [])) as [[Hw Hk]|Hcase].
  { eapply wp_mono; [apply (wp_handle w e); [exact (lk_inv _ _ _ Hl)|apply He]| |done]. intros ? w' _ [Hw'|Hk']; contradiction. }
  pose proof (lk_inv _ _ _ Hl) as Hi. pose proof (lk_sniff _ _ _ Hl) as Es. pose proof (lk_waits _ _ _ Hl) as Ew.
  cbn [nrf] in Hi, Es, Ew.
  eapply wp_mono; [apply wp_buffer_stays; [done|done|]|intros ? w' Hw' _; exact Hw'|done].
  rewrite (buffer_full_pending _ Hi), Es, Ew.
  destruct (decide (waits c = [])) as [Hw|Hw]; [right|left; by apply bool_decide_true].
  assert (keeps c e = []) as Hk by (apply dec_stable; tauto). unfold keeps in Hk. rewrite Hw in Hk.
  destruct e as [|[r| | |]|x|mosi|]; try done; [|by destruct (proj2 He mosi)].
  cbn [idle_event]. by destruct (sniffs c).
Qed.

Lemma none_kept_hear es e c :
  keeps c e = [] -> none_kept es c -> none_kept es (hear e c).
Proof.
  intros E Hes. eapply Forall_impl; [exact Hes|]. intros e'. unfold hear. rewrite E, app_nil_r.
  by destruct e' as [|[]| | |].
Qed.

Lemma wp_arrive_all id d es l c :
  link_ok id (Link (nrf l) d) c -> Forall own_event es -> host_ok (host l) -> Driver.spi_pending (host l) = true ->
  wp (arrive_all es) l (fun _ l' => host l' = host l /\ link_ok id (Link (nrf l') d) (hears es c) /\
      (waits c <> [] \/ none_kept es c -> spi_tx_buf (nrf l') = spi_tx_buf (nrf l))) host_reset.
Proof.
  intros Hl Hes Hh Hp. revert l c Hl Hh Hp. induction Hes as [|e es He Hes IH]; intros l c Hl Hh Hp.
  { by apply wp_ret. }
  cbn [arrive_all hears foldl]. apply wp_bind.
  eapply wp_mono; [apply (wp_arrive id d l c e _ Hl He Hh Hp (wp_event_stays id d _ c e Hl He))| |done].
  intros _ l1 (Eh & Hl1 & Htx1). eapply wp_mono; [apply (IH l1 _ Hl1); by rewrite Eh| |done].
  intros _ l2 (Eh2 & Hl2 & Htx2). split_and!; [congruence|done|]. intros Hcase.
  rewrite Htx2.
  - apply Htx1. destruct Hcase as [?|Hk%Forall_cons]; [by left|right; apply Hk].
  - destruct Hcase as [Hw|[Hk Hks]%Forall_cons]; [left|right; by apply none_kept_hear].
    intros E. by apply app_nil in E as [? _].
Qed.

(** The driver's part of a channel does not matter to what is heard. *)
Lemma hears_drivers es c b e :
  hears es (set_busy b c) = set_busy b (hears es c) /\
  set_edge false (hears es (set_edge e c)) = set_edge false (hears es c).
Proof.
  revert c e. induction es as [|x es IH]; intros c e; [done|]. cbn [hears foldl].
  change (hear x (set_busy b c)) with (set_busy b (hear x c)).
  change (hear x (set_edge e c)) with (set_edge (edge (hear x (set_edge e c))) (hear x c)).
  apply IH.
Qed.

Lemma arrivals_busy es c k :
  busy c = Some k -> edge c = false -> arrivals es c = set_edge false (hears es c).
Proof.
  revert c. induction es as [|x es IH]; intros c Hb He; [by destruct c; simpl in *; subst|].
  cbn [arrivals foldl hears].
  assert (announce (hear x c) = set_edge false (hear x c)) as ->.
  { unfold announce. change (busy (hear x c)) with (busy c). rewrite Hb.
    destruct (edge (hear x c)) eqn:E; [done|]. destruct (hear x c). by simpl in *; subst. }
  fold (arrivals es (set_edge false (hear x c))). rewrite IH by done. apply (hears_drivers es _ None).
Qed.

(** The command of the driver when the line decides. *)
Definition awaited (c : channel) : option Z :=
  if bool_decide (waits c <> []) then Some Driver.BCP_COMMAND_READ_IRQ else None.

Lemma arrivals_awaited es c :
  busy c = awaited c -> edge c = false ->
  arrivals es c = set_edge false (set_busy (awaited (hears es c)) (hears es c)).
Proof.
  revert c. induction es as [|x es IH]; intros c Hb He.
  { cbn [hears foldl arrivals]. rewrite <-Hb. by destruct c; simpl in *; subst. }
  cbn [arrivals foldl hears].
  assert (announce (hear x c) = set_edge false (set_busy (awaited (hear x c)) (hear x c))) as ->.
  { unfold announce, awaited, hear in *. cbn [edge busy waits]. rewrite Hb, He. cbn [orb].
    destruct (waits c) as [|v vs]; cbn [app].
    - by destruct (keeps c x).
    - rewrite (bool_decide_false (_ = [] /\ _)) by (by intros [? _]). done. }
  set (c1 := hear x c). fold (arrivals es (set_edge false (set_busy (awaited c1) c1))).
  rewrite IH by done. destruct (hears_drivers es c1 (awaited c1) false) as [E1 _].
  destruct (hears_drivers es (set_busy (awaited c1) c1) None false) as [_ E2].
  fold (hears es c1). rewrite E1 in E2.
  assert (forall c2 c3, set_edge false c2 = set_edge false (set_busy (awaited c1) c3) ->
    set_edge false (set_busy (awaited c2) c2) = set_edge false (set_busy (awaited c3) c3)) as Hsame.
  { intros [] []. intros [=]. by subst. }
  by apply Hsame.
Qed.

Lemma fetch_awaited c : busy (fetch c) = awaited (fetch c).
Proof. apply fetch_busy_waits. Qed.

(** Edges and the state of the driver, in the refinement of a channel. *)
Lemma link_ok_set_edge id l c e : link_ok id l (set_edge e c) <-> link_ok id l c.
Proof. split; intros []; by split. Qed.

Lemma link_pending id l c k : link_ok id l c -> busy c = Some k -> Driver.spi_pending (host l) = true.
Proof. intros Hl Hb. pose proof (lk_busy _ _ _ Hl) as H'. rewrite Hb in H'. apply H'. Qed.

(** ** Theorems *)

(** C9: events during a transfer are as good as events before or after it.  A
    frame is transferred, or the events bring none; then whatever happens to the
    co-processor while the bytes are exchanged, after however many of them, and
    between the two handlers, and though the driver refuses every interrupt
    meanwhile, the radio is in the state in which the events before, the transfer
    and the events after, one after the other, leave it: no frame is cut, lost or
    reordered, and if frames wait the driver's next transaction is under way. *)
Theorem transfer_overlaps n during after id l c k :
  link_ok id l c -> busy c = Some k -> edge c = false ->
  Forall own_event during -> Forall own_event after ->
  waits c <> [] \/ none_kept during c ->
  wp (transfer_during n during after) l
    (fun _ l' => link_ok id l' (arrivals after (fetch (arrivals during c)))) host_reset.
Proof.
  intros Hl Hb He Hd Ha Hcase. pose proof (link_pending _ _ _ _ Hl Hb) as Hp.
  pose proof (lk_host _ _ _ Hl) as Hh. rewrite (arrivals_busy during c k Hb He).
  unfold transfer_during. apply wp_bind, wp_gets, wp_bind, wp_gets, wp_bind.
  eapply wp_mono; [apply (wp_arrive_all id (host l) during l c); [by destruct l|done..]| |done].
  intros _ l1 (Eh1 & Hl1 & Htx1). specialize (Htx1 Hcase). rewrite <-Eh1 in Hl1.
  assert (link_ok id l1 (hears during c)) as Hl1' by by destruct l1.
  set (c1 := hears during c) in *.
  assert (busy c1 = Some k) as Hb1.
  { unfold c1. clear -Hb. revert c Hb. induction during as [|x es IH]; intros c Hb; [done|]. by apply IH. }
  apply wp_bind, wp_gets. replace (miso l) with (miso l1) by (unfold miso; by rewrite Htx1).
  rewrite take_drop. replace (mosi l) with (mosi l1) by (unfold mosi; by rewrite Eh1).
  apply wp_bind. eapply wp_mono; [by apply (wp_slave id l1 c1 k)| |done].
  intros _ l2 [Hw2 Eh2]. pose proof (unchecked_ok id l1 c1 (nrf l2) Hl1' Hw2) as Hu.
  apply wp_bind. eapply wp_mono; [apply (wp_arrive_all id _ after l2 _ Hu); [done|..]| |done].
  { by rewrite Eh2, Eh1. }
  { by rewrite Eh2, Eh1. }
  intros _ l3 (Eh3 & Hl3 & _). rewrite Eh2 in Eh3.
  assert (l3 = Link (nrf l3) (host l1)) as -> by (rewrite <-Eh3; by destruct l3).
  destruct (hears_drivers after (fetch c1) None false) as [E3 _]. rewrite E3 in Hl3.
  apply (wp_callback_at id l1 c1 _ _ k _ _ Hl1' Hb1 Hl3); [done|].
  intros d' high Hl4 _. rewrite (arrivals_awaited after (fetch (set_edge false c1))).
  - assert (fetch (set_edge false c1) = set_edge false (fetch c1)) as ->.
    { unfold fetch. cbn [waits set_edge]. by destruct (waits c1). }
    apply link_ok_set_edge.
    destruct (hears_drivers after (fetch c1) None false) as [_ E4].
    assert (forall ca cb, set_edge false ca = set_edge false cb -> link_ok id (Link (nrf l3) d') (set_busy (awaited cb) cb) ->
      link_ok id (Link (nrf l3) d') (set_busy (awaited ca) ca)) as Hsame.
    { intros [] []. intros [=]. subst. intros []. by split. }
    apply (Hsame _ _ E4). by destruct (hears after (fetch c1)).
  - apply fetch_awaited.
  - unfold fetch. cbn [waits set_edge]. by destruct (waits c1).
Qed.
End lemmas.

(** *** Bytes that change while they are sent *)

(** The first [n] from [old], the rest from [new]. *)
Definition mix (n : nat) (old new : list Z) : list Z := take n old ++ drop n new.

Lemma lookup_mix n old new i :
  length old = length new -> mix n old new !! i = if decide (i < n)%nat then old !! i else new !! i.
Proof.
  intros E. unfold mix. destruct (decide (i < length (take n old))%nat) as [Hi|Hi].
  - rewrite lookup_app_l by done. rewrite length_take in Hi. rewrite lookup_take. by rewrite !decide_True by lia.
  - rewrite lookup_app_r, lookup_drop by lia. rewrite length_take in *. case_decide as Hn.
    + rewrite !lookup_ge_None_2; [done|lia..].
    + destruct (decide (n <= length old)%nat); [f_equal; lia|]. rewrite !lookup_ge_None_2; [done|lia..].
Qed.

Lemma length_mix n old new : length old = length new -> length (mix n old new) = length old.
Proof. intros E. unfold mix. rewrite length_app, length_take, length_drop. lia. Qed.

(** [g] written over the beginning of [f]. *)
Definition over (g f : list Z) : list Z := g ++ drop (length g) f.

Lemma lookup_over g f i : over g f !! i = if decide (i < length g)%nat then g !! i else f !! i.
Proof.
  unfold over. case_decide as Hi; [by apply lookup_app_l|]. rewrite lookup_app_r, lookup_drop by lia.
  f_equal. lia.
Qed.

Lemma length_over g f : (length g <= length f)%nat -> length (over g f) = length f.
Proof. intros. unfold over. rewrite length_app, length_drop. lia. Qed.

(** The frame the host gets for [f] if [g] takes its place after [n] bytes. *)
Definition torn (n : nat) (f g : list Z) : list Z := mix n f (take (length f) (over g f)).

Lemma length_take_over g f : length (take (length f) (over g f)) = length f.
Proof. unfold over. rewrite length_take, length_app, length_drop. lia. Qed.

Lemma length_torn n f g : length (torn n f g) = length f.
Proof. unfold torn. apply length_mix. by rewrite length_take_over. Qed.

(** All of [f] was sent before. *)
Lemma torn_late n f g : (length f <= n)%nat -> torn n f g = f.
Proof.
  intros Hn. unfold torn, mix. rewrite take_ge, drop_ge, app_nil_r by (rewrite ?length_take_over; lia). done.
Qed.

(** The bytes of a transfer, and the memory they would be the beginning of. *)
Definition sent (n : nat) (tx g : list Z) : list Z := mix n (take 40 tx) (take 40 (over g tx)) ++ drop 40 tx.

Lemma lookup_sent n tx g i :
  length tx = 64%nat -> (length g <= 64)%nat ->
  sent n tx g !! i = if decide (i < 40)%nat then (if decide (i < n)%nat then tx !! i else over g tx !! i) else tx !! i.
Proof.
  intros Htx Hg. assert (length (take 40 tx) = 40%nat) as E1 by (rewrite length_take; lia).
  assert (length (take 40 tx) = length (take 40 (over g tx))) as E2.
  { rewrite !length_take, length_over; lia. }
  unfold sent. case_decide as Hi.
  - rewrite lookup_app_l by (rewrite length_mix; lia). rewrite lookup_mix, !lookup_take by done.
    by repeat case_decide.
  - rewrite lookup_app_r, length_mix, lookup_drop by (rewrite ?length_mix; lia). f_equal. lia.
Qed.

Lemma length_sent n tx g : length tx = 64%nat -> (length g <= 64)%nat -> length (sent n tx g) = 64%nat.
Proof.
  intros Htx Hg. unfold sent. rewrite length_app, length_mix by (rewrite !length_take, length_over; lia).
  rewrite length_take, length_drop. lia.
Qed.

(** What is received of a frame. *)
Lemma through_sent n tx f g :
  length tx = 64%nat -> (length g <= 64)%nat -> (length f <= 64)%nat -> take (length f) tx = f ->
  through_spi (take (length f) (sent n tx g)) = through_spi (torn n f g).
Proof.
  intros Htx Hg Hf Ef. unfold through_spi. rewrite length_torn, length_take, length_sent by done.
  f_equal; [|f_equal; lia]. apply list_eq. intros i. rewrite !lookup_take, lookup_sent by done.
  case_decide as Hi; [|done]. unfold torn. rewrite lookup_mix, lookup_take, !lookup_over by by rewrite length_take_over.
  destruct (decide (i < length f)%nat) as [Hl|Hl].
  - assert (f !! i = tx !! i) as -> by (rewrite <-Ef, lookup_take; by rewrite decide_True).
    done.
  - rewrite (lookup_ge_None_2 f i) by lia. by repeat case_decide.
Qed.

(** *** A transfer for which nothing waited *)

Section torn.
Context `{Sdk}.

(** Another firmware at the same driver, with [f] in its buffer if nothing waits. *)
Lemma link_ok_other id w w2 d c f :
  link_ok id (Link w d) c -> inv w2 -> Forall fits (pending w2) ->
  (pending w2 = [] -> shows w2 f) ->
  link_ok id (Link w2 d)
    (Channel (bcp_irq_advertisements w2) (pending w2) (Some f) (mailbox c) (busy c) (edge c)).
Proof. intros [] Hi Hfits Hf. by split. Qed.

(** With nothing waiting the contents of the buffer are of no consequence. *)
Lemma inv_tx w tx :
  inv w -> pending w = [] -> length tx = 64%nat ->
  inv (set_spi_tx_buf tx w) /\ pending (set_spi_tx_buf tx w) = [].
Proof.
  intros Hi Hp Htx. pose proof (buffer_full_pending w Hi) as Hfull. rewrite Hp in Hfull.
  destruct Hi as [[] Hl Hlo]. split.
  - by split; [split|..].
  - unfold pending in *. cbn [buffer_full set_spi_tx_buf event_queue]. rewrite Hfull in *. done.
Qed.

(** The driver's view of a transfer in which [g] is written over the buffer: as
    though this had been there before. *)
Definition told (n : nat) (g : list Z) (l : link) : link :=
  Link (set_spi_tx_buf (sent n (spi_tx_buf (nrf l)) g) (nrf l)) (host l).
Definition told_shown (n : nat) (g : list Z) (l : link) (c : channel) : channel :=
  Channel (sniffs c) [] ((fun f => take (length f) (sent n (spi_tx_buf (nrf l)) g)) <$> shown c)
    (mailbox c) (busy c) (edge c).

Lemma told_ok id n g l c :
  link_ok id l c -> waits c = [] -> (2 <= n)%nat -> (length g <= 64)%nat ->
  link_ok id (told n g l) (told_shown n g l c).
Proof.
  intros Hl Hw Hn Hg. pose proof (wf_tx _ (inv_wf _ (lk_inv _ _ _ Hl))) as Htx.
  set (tx := spi_tx_buf (nrf l)) in *. pose proof (length_sent n tx g Htx Hg) as Hlen.
  assert (forall i, (i < 2)%nat -> sent n tx g !! i = tx !! i) as Hlow.
  { intros i Hi. rewrite lookup_sent by done. by rewrite !decide_True by lia. }
  destruct (inv_tx (nrf l) (sent n tx g) (lk_inv _ _ _ Hl)) as [Hi Hp]; [by rewrite (lk_waits _ _ _ Hl)|done|].
  pose proof (lk_shown _ _ _ Hl Hw) as Hshown.
  destruct Hl as [_ Hs _ _ _ Hh Hid Hm Hb]. split; cbn [nrf host told told_shown waits sniffs shown mailbox busy]; try done.
  intros _. fold tx. destruct (shown c) as [f|]; simpl.
  - destruct Hshown as (Hf & H0 & Ef & Etake). fold tx in H0, Ef, Etake. unfold shows.
    cbn [spi_tx_buf set_spi_tx_buf]. rewrite length_take, Hlen, Nat.min_l by lia.
    assert (sent n tx g !!! 0%nat = tx !!! 0%nat) as ->.
    { rewrite !list_lookup_total_alt. by rewrite Hlow by lia. }
    done.
  - rewrite <-Hshown. apply list_eq. intros i. rewrite !lookup_take. case_decide; [|done]. by apply Hlow.
Qed.

(** The frame of an advertisement. *)
Lemma length_adv r : valid_event (Ble (BLE_GAP_EVT_ADV_REPORT r)) -> (10 <= length (frame (adv_view r)) <= 41)%nat.
Proof. intros [Hd Hlen]. unfold frame, adv_view. simpl. rewrite length_take. lia. Qed.

Lemma framed_over tx r :
  valid_event (Ble (BLE_GAP_EVT_ADV_REPORT r)) -> length tx = 64%nat ->
  framed tx (adv_view r) = over (frame (adv_view r)) tx.
Proof.
  intros [Hd Hlen] Htx. unfold adv_view. rewrite framed_eq by (rewrite length_take; lia). done.
Qed.

Lemma adv_shows w r tx :
  valid_event (Ble (BLE_GAP_EVT_ADV_REPORT r)) ->
  spi_tx_buf w = over (frame (adv_view r)) tx -> shows w (frame (adv_view r)).
Proof.
  intros He E. pose proof (length_adv r He) as Hlen. destruct He as [Hd Hr]. unfold shows. rewrite E.
  unfold over. rewrite take_app_length. split_and!; [lia|lia|..|done].
  - unfold frame, adv_view. cbn [app lookup_total list_lookup_total]. lia.
  - unfold frame, adv_view. cbn [app lookup_total list_lookup_total length]. rewrite length_take. lia.
Qed.

(** What a list of events does to the buffer with nothing waiting: the first
    frame it brings is written over it. *)
Definition filled (es : list event) (c : channel) (tx : list Z) : list Z :=
  match waits (hears es c) with [] => tx | v :: _ => over (frame v) tx end.

Lemma keeps_idle c e :
  waits c = [] -> keeps c e = [] \/
  exists r, e = Ble (BLE_GAP_EVT_ADV_REPORT r) /\ sniffs c = true /\ keeps c e = [adv_view r].
Proof.
  intros Hw. unfold keeps. destruct e as [|[r| | |]| | |]; try by left. rewrite Hw.
  destruct (sniffs c); [right; by exists r|by left].
Qed.

Lemma hears_waits es c : exists vs, waits (hears es c) = waits c ++ vs.
Proof.
  revert c. induction es as [|e es IH]; intros c; [exists []; by rewrite app_nil_r|].
  cbn [hears foldl]. destruct (IH (hear e c)) as [vs E]. exists (keeps c e ++ vs).
  etransitivity; [exact E|]. unfold hear. cbn [waits]. by rewrite <-app_assoc.
Qed.

Lemma wp_filled id d es l c :
  link_ok id (Link (nrf l) d) c -> Forall own_event es -> host_ok (host l) -> Driver.spi_pending (host l) = true ->
  waits c = [] ->
  wp (arrive_all es) l (fun _ l' => host l' = host l /\ link_ok id (Link (nrf l') d) (hears es c) /\
      spi_tx_buf (nrf l') = filled es c (spi_tx_buf (nrf l))) host_reset.
Proof.
  intros Hl Hes Hh Hp. revert l c Hl Hh Hp. induction Hes as [|e es He Hes IH]; intros l c Hl Hh Hp Hw.
  { apply wp_ret. unfold filled. cbn [hears foldl]. by rewrite Hw. }
  cbn [arrive_all]. unfold filled. cbn [hears foldl]. fold (hears es (hear e c)). apply wp_bind.
  destruct (keeps_idle c e Hw) as [Hk|(r & -> & Hsn & Hk)].
  - eapply wp_mono; [apply (wp_arrive id d l c e _ Hl He Hh Hp (wp_event_stays id d _ c e Hl He))| |done].
    intros _ l1 (Eh & Hl1 & Htx1).
    eapply wp_mono; [apply (IH l1 _ Hl1); rewrite ?Eh; try done; unfold hear; cbn [waits]; by rewrite Hw, Hk| |done].
    intros _ l2 (Eh2 & Hl2 & Htx2). split_and!; [congruence|done|]. rewrite Htx2, Htx1 by by right. done.
  - pose proof (wf_tx _ (inv_wf _ (lk_inv _ _ _ Hl))) as Htx. cbn [nrf] in Htx.
    assert (wp (handle (Ble (BLE_GAP_EVT_ADV_REPORT r))) (nrf l)
      (fun _ w' => spi_tx_buf w' = over (frame (adv_view r)) (spi_tx_buf (nrf l))) reset_by_failure) as Hfill.
    { rewrite <-framed_over by (done || apply He).
      apply wp_buffer_filled; [exact (lk_inv _ _ _ Hl)|apply He|rewrite <-Hsn; apply (lk_sniff _ _ _ Hl)|].
      rewrite <-Hw. apply (lk_waits _ _ _ Hl). }
    eapply wp_mono; [apply (wp_arrive id d l c _ _ Hl He Hh Hp Hfill)| |done].
    intros _ l1 (Eh & Hl1 & Htx1). set (c1 := hear _ c) in *.
    assert (waits c1 = [adv_view r]) as Hw1 by (unfold c1, hear; cbn [waits]; by rewrite Hw, Hk).
    eapply wp_mono; [apply (wp_arrive_all id d es l1 c1 Hl1 Hes); by rewrite Eh| |done].
    intros _ l2 (Eh2 & Hl2 & Htx2). split_and!; [congruence|done|].
    destruct (hears_waits es c1) as [vs ->]. rewrite Hw1. rewrite Htx2, Htx1; [done|]. left. by rewrite Hw1.
Qed.

Lemma first_heard es c v rest :
  Forall own_event es -> waits c = [] -> waits (hears es c) = v :: rest ->
  sniffs c = true /\ exists r, v = adv_view r /\ valid_event (Ble (BLE_GAP_EVT_ADV_REPORT r)).
Proof.
  intros Hes. revert c. induction Hes as [|e es He Hes IH]; intros c Hw Hv; [cbn in Hv; congruence|].
  cbn [hears foldl] in Hv. fold (hears es (hear e c)) in Hv.
  destruct (keeps_idle c e Hw) as [Hk|(r & -> & Hsn & Hk)].
  - apply (IH (hear e c)); [|done]. unfold hear. cbn [waits]. by rewrite Hw, Hk.
  - split; [done|]. exists r. split; [|apply He]. destruct (hears_waits es (hear (Ble (BLE_GAP_EVT_ADV_REPORT r)) c)) as [vs E].
    rewrite E in Hv. unfold hear in Hv. cbn [waits] in Hv. rewrite Hw, Hk in Hv. by injection Hv.
Qed.

Lemma hears_sniffs es c : sniffs (hears es c) = sniffs c /\ busy (hears es c) = busy c.
Proof. revert c. induction es as [|e es IH]; intros c; [done|]. exact (IH (hear e c)). Qed.

(** A channel after a transfer that has missed [v]: the user may be given the
    frame before again, torn. *)
Definition missed (n : nat) (v : event_view) (rest : list event_view) (c : channel) : channel :=
  Channel true rest (Some (frame v))
    (match shown c with Some f => Some (through_spi (torn n f (frame v))) | None => mailbox c end)
    (match rest with [] => None | _ => Some Driver.BCP_COMMAND_READ_IRQ end) false.

(** The callback, when the driver was told [g] after [n] bytes. *)
Lemma wp_callback_missed id n l c k w2 v rest after (r : adv_report) :
  link_ok id l c -> busy c = Some k -> waits c = [] -> edge c = false -> (2 <= n)%nat ->
  v = adv_view r -> valid_event (Ble (BLE_GAP_EVT_ADV_REPORT r)) -> Forall own_event after ->
  inv w2 -> pending w2 = rest -> Forall fits rest -> bcp_irq_advertisements w2 = true ->
  (rest = [] -> spi_tx_buf w2 = over (frame v) (spi_tx_buf (nrf l))) ->
  wp (arrive_all after;; on_host (modify (Driver.transferred
      (take n (miso l) ++ drop n (take 40 (over (frame v) (spi_tx_buf (nrf l)))))));; callback)
    (Link w2 (host l)) (fun _ l' => link_ok id l' (arrivals after (missed n v rest c))) host_reset.
Proof.
  intros Hl Hb Hw He Hn -> Hr Ha Hi2 Hp2 Hf2 Hs2 Htx2. pose proof (link_pending _ _ _ _ Hl Hb) as Hp.
  pose proof (lk_host _ _ _ Hl) as Hh. set (g := frame (adv_view r)) in *.
  pose proof (length_adv r Hr) as Hg. fold g in Hg.
  pose proof (wf_tx _ (inv_wf _ (lk_inv _ _ _ Hl))) as Htx. set (tx := spi_tx_buf (nrf l)) in *.
  pose proof (told_ok id n g l c Hl Hw Hn ltac:(lia)) as Ht. set (lt := told n g l) in *.
  set (ct := told_shown n g l c) in *.
  assert (take n (miso l) ++ drop n (take 40 (over g tx)) = miso lt) as ->.
  { unfold miso, lt, told. cbn [nrf spi_tx_buf set_spi_tx_buf]. fold tx. unfold sent.
    fold (mix n (take 40 tx) (take 40 (over g tx))).
    assert (length (mix n (take 40 tx) (take 40 (over g tx))) = 40%nat) as Hm.
    { rewrite length_mix by (rewrite !length_take, length_over; lia). rewrite length_take. lia. }
    by rewrite take_app_length'. }
  (* the driver's device, with some firmware, and then with the real one *)
  assert (after_transfer lt ct (set_bcp_irq_advertisements (sniffs (fetch ct)) (nrf lt))) as Hat.
  { pose proof (lk_inv _ _ _ Ht) as [[] Hlo Hli]. pose proof (lk_waits _ _ _ Ht) as Hpt.
    unfold after_transfer. split_and!; try done. }
  pose proof (link_ok_other id _ w2 _ _ g (unchecked_ok id lt ct _ Ht Hat) Hi2 ltac:(by rewrite Hp2)
    ltac:(intros E; apply (adv_shows _ r tx); [done|apply Htx2; congruence])) as Hu.
  rewrite Hs2, Hp2 in Hu. set (c2 := Channel _ _ _ _ _ _) in Hu.
  apply wp_bind. eapply wp_mono; [apply (wp_arrive_all id _ after (Link w2 (host l)) c2 Hu Ha Hh Hp)| |done].
  intros _ l3 (Eh3 & Hl3 & _). cbn [host] in Eh3.
  assert (l3 = Link (nrf l3) (host lt)) as -> by (cbn [lt told host]; rewrite <-Eh3; by destruct l3).
  apply (wp_callback_at id lt ct _ _ k _ _ Ht Hb Hl3); [by rewrite (proj2 (hears_sniffs after c2))|].
  intros d' high Hd' _. fold (awaited (hears after c2)) in Hd'.
  rewrite arrivals_awaited by by unfold awaited; cbn [missed waits busy]; destruct rest.
  apply link_ok_set_edge.
  assert (missed n (adv_view r) rest c = set_busy (awaited c2) c2) as ->.
  { unfold missed, c2, awaited, fetch. cbn [set_busy waits sniffs shown mailbox busy edge ct told_shown]. fold g tx.
    pose proof (lk_shown _ _ _ Hl Hw) as Hshown. rewrite He.
    assert (shown c = None \/ exists f, shown c = Some f /\
      through_spi (take (length f) (sent n tx g)) = through_spi (torn n f g)) as E.
    { destruct (shown c) as [f|]; [right|by left]. exists f. split; [done|].
      destruct Hshown as (Hf & _ & _ & Etake). by apply (through_sent n tx f g); (done || lia). }
    destruct E as [->|(f & -> & Ef)]; cbn [fmap option_fmap option_map]; [|rewrite Ef]; by destruct rest. }
  rewrite (proj1 (hears_drivers after c2 (awaited c2) false)). exact Hd'.
Qed.

(** C34: frames that arrive during a transfer for which none waited.  The first of
    them is dropped: it is put into the buffer under the transfer and raises the
    interrupt line, but the driver refuses the interrupt, and the handler of the
    completed transfer takes it for sent.  The others, and what arrives between
    the handlers, wait in order.  What the user is given, if the host had read a
    frame [f] before, is [f] again, with the bytes of the new frame in it from
    where the transfer was; otherwise nothing. *)
Theorem advertisement_lost_in_transfer n during after id l c k v rest :
  link_ok id l c -> busy c = Some k -> edge c = false -> waits c = [] ->
  Forall own_event during -> Forall own_event after ->
  waits (hears during c) = v :: rest -> (2 <= n)%nat ->
  wp (transfer_during n during after) l
    (fun _ l' => link_ok id l' (arrivals after (missed n v rest c))) host_reset.
Proof.
  intros Hl Hb He Hw Hd Ha Hv Hn. pose proof (link_pending _ _ _ _ Hl Hb) as Hp.
  pose proof (lk_host _ _ _ Hl) as Hh. destruct (first_heard during c v rest Hd Hw Hv) as (Hsn & r & Ev & Hr).
  unfold transfer_during. apply wp_bind, wp_gets, wp_bind, wp_gets, wp_bind.
  eapply wp_mono; [apply (wp_filled id (host l) during l c ltac:(by destruct l) Hd Hh Hp Hw)| |done].
  intros _ l1 (Eh1 & Hl1 & Htx1). rewrite <-Eh1 in Hl1. unfold filled in Htx1. rewrite Hv in Htx1.
  assert (link_ok id l1 (hears during c)) as Hl1' by by destruct l1. set (c1 := hears during c) in *.
  destruct (hears_sniffs during c) as [Es1 Eb1]. fold c1 in Es1, Eb1.
  apply wp_bind, wp_gets. replace (mosi l) with (mosi l1) by (unfold mosi; by rewrite Eh1).
  apply wp_bind. eapply wp_mono; [by apply (wp_slave id l1 c1 k); [|rewrite Eb1]| |done].
  intros _ l2 [(Hi2 & Hp2 & Hs2 & Htx2) Eh2]. unfold fetch in Hp2, Hs2, Htx2. rewrite Hv in Hp2, Hs2, Htx2.
  cbn [waits sniffs] in Hp2, Hs2, Htx2. rewrite Es1, Hsn in Hs2.
  assert (l2 = Link (nrf l2) (host l)) as -> by (rewrite <-Eh1, <-Eh2; by destruct l2).
  unfold miso at 2. rewrite Htx1.
  apply (wp_callback_missed id n l c k (nrf l2) v rest after r); try done.
  - pose proof (lk_fits _ _ _ Hl1') as Hf. rewrite Hv in Hf. by apply Forall_cons in Hf as [_ Hf].
  - intros E. rewrite (Htx2 E). exact Htx1.
Qed.
End torn.

(** ** Witnesses *)

(** A radio in a run of the demonstration's cape. *)
Definition adv (b : Z) : event := Ble (BLE_GAP_EVT_ADV_REPORT (demo_report b)).

Definition sniff_ops : list op := [Open 0; Ioctl 0 2; Transferring 0; Happens 0 (adv 7); Interrupt 0].
Definition asked_ops : list op := sniff_ops ++ [Transferring 0; Read 0 false; Ioctl 0 3].

Definition radio_after (os : list op) : link :=
  if cape_run (K:=GapSpi.two_pins) demo_sdk demo_output os demo_cape is Done _ g
  then default (Link boot (Driver.fresh 0 0)) (the_link <$> radios g !! 0%nat)
  else Link boot (Driver.fresh 0 0).

Lemma radio_after_ok os c :
  Forall (valid_op 2) os -> channels (spec_run os (start 2)).2 !! 0%nat = Some c ->
  (if cape_run (K:=GapSpi.two_pins) demo_sdk demo_output os demo_cape is Done _ _ then true else false) = true ->
  link_ok 1 (radio_after os) c.
Proof.
  intros Hos Hc Hdone.
  destruct (wp_run _ _ _ _ (cape_from_start (K:=GapSpi.two_pins) demo_sdk demo_output os demo_cape
    demo_accepting demo_powered Hos) Hdone) as (rs & g & E & _ & Hs & _).
  destruct (sim_radio _ _ _ 0 c Hs Hc) as [r Hr]. unfold radio_after. rewrite E, Hr. cbn.
  exact (proj1 (sim_radios _ _ _ Hs 0%nat r c Hr Hc)).
Qed.

Lemma sniff_valid : Forall (valid_op 2) sniff_ops.
Proof.
  unfold sniff_ops. repeat (apply Forall_cons; split); [..|constructor].
  all: cbn [valid_op]; first [done | lia | unfold byte; lia | split_and!; [lia|vm_decide|done]].
Qed.

Lemma asked_valid : Forall (valid_op 2) asked_ops.
Proof.
  apply Forall_app_2; [exact sniff_valid|]. repeat (apply Forall_cons; split); [..|constructor].
  all: cbn [valid_op]; first [done | lia | unfold byte; lia].
Qed.

Definition view7 : event_view := adv_view (demo_report 7).
Definition sniff_channel : channel := Channel true [view7] None None (Some 1) false.
Definition asked_channel : channel := Channel true [] (Some (frame view7)) None (Some 3) false.

Lemma sniff_ok : link_ok 1 (radio_after sniff_ops) sniff_channel.
Proof. apply radio_after_ok; [exact sniff_valid|vm_compute; reflexivity|vm_compute; reflexivity]. Qed.

Lemma asked_ok : link_ok 1 (radio_after asked_ops) asked_channel.
Proof. apply radio_after_ok; [exact asked_valid|vm_compute; reflexivity|vm_compute; reflexivity]. Qed.

Lemma adv_own b : own_event (adv b).
Proof. split; [unfold adv, demo_report; simpl; lia|done]. Qed.

(** Frame 7 is transferred while 8 arrives, and 9 between the handlers: 8 and 9
    wait, and the next transaction is under way. *)
Lemma transfer_overlaps_witness :
  exists l', transfer_during (H:=quiet_sdk) 20 [adv 8] [adv 9] (radio_after sniff_ops) = Done tt l' /\
    pending (nrf l') = [adv_view (demo_report 8); adv_view (demo_report 9)] /\
    Driver.spi_pending (host l') = true.
Proof.
  destruct (wp_run _ _ _ _ (@transfer_overlaps quiet_sdk 20 [adv 8] [adv 9] 1 (radio_after sniff_ops)
    sniff_channel 1 sniff_ok eq_refl eq_refl (Forall_cons_2 _ _ _ (adv_own 8) (Forall_nil_2 _))
    (Forall_cons_2 _ _ _ (adv_own 9) (Forall_nil_2 _)) ltac:(left; discriminate)) ltac:(vm_compute; reflexivity))
    as ([] & l' & E & Hl'). exists l'. split; [exact E|]. split.
  - rewrite (lk_waits _ _ _ Hl'). vm_compute. reflexivity.
  - pose proof (lk_busy _ _ _ Hl') as Hb. vm_compute in Hb. exact (proj1 Hb).
Defined.

(** Advertisements 9 and 8 arrive while a command is sent: 9 is lost, 8 waits, and
    the user is given 7 again. *)
Lemma advertisement_lost_in_transfer_witness :
  exists l', transfer_during (H:=quiet_sdk) 20 [adv 9; adv 8] [] (radio_after asked_ops) = Done tt l' /\
    pending (nrf l') = [adv_view (demo_report 8)] /\
    take 11 (Driver.buf_to_user (host l')) = [10; 1] ++ replicate 9 7.
Proof.
  destruct (wp_run _ _ _ _ (@advertisement_lost_in_transfer quiet_sdk 20 [adv 9; adv 8] [] 1
    (radio_after asked_ops) asked_channel 3 (adv_view (demo_report 9)) [adv_view (demo_report 8)]
    asked_ok eq_refl eq_refl eq_refl
    (Forall_cons_2 _ _ _ (adv_own 9) (Forall_cons_2 _ _ _ (adv_own 8) (Forall_nil_2 _)))
    (Forall_nil_2 _) ltac:(vm_compute; reflexivity) ltac:(lia)) ltac:(vm_compute; reflexivity))
    as ([] & l' & E & Hl').
  exists l'. split; [exact E|]. split; [exact (lk_waits _ _ _ Hl')|].
  pose proof (lk_mailbox _ _ _ Hl') as Hm. unfold arrivals in Hm. cbn [foldl missed mailbox shown asked_channel] in Hm.
  rewrite (torn_late 20 (frame view7)) in Hm by (vm_compute; lia). destruct Hm as (_ & _ & Hm).
  transitivity (through_spi (frame view7)); [exact Hm|]. vm_compute. reflexivity.
Defined.
End CapeOverlap.
