(* ===== verification/CapeBoot.v ===== *)
(** * The start of the cape

    From the device tree to a cape that runs: [gapspi_spi_probe] of [gapspi.c],
    [nrf51822_probe] of [nrf51822.c] and the setup in [main] of every
    co-processor, one after the other.  Shown: what they leave behind is what
    [Cape] starts from, so a cape that has loaded behaves as [CapeSpec] says;
    the conditions on the device tree under which that is so; and what happens
    to a radio whose interrupt comes before it is set up. *)
From S2P Require Import Prelude NrfQueue NrfBoard NrfSpiSlave NrfMain GapSpi NrfDriver NrfProbe BcpLink CapeSpec Cape.
Import Queue Board SpiSlave Main BcpLink CapeSpec.

Module CapeBoot.

(** ** The memory of a radio *)

(** [kmalloc] and [memset], and the interrupt's pin: the state in which the
    interrupt is requested. *)
Definition zeroed (pin : Z) : Driver.dev := Driver.fresh 0 pin.

(** The assignments behind [devm_request_irq] in [nrf51822_probe]. *)
Definition set_up (index : Z) (d : Driver.dev) : Driver.dev :=
  Driver.Dev index (Driver.pin_interrupt d) (Driver.spi_command_buffer d)
    (Driver.spi_data_buffer d) (Driver.spi_tsfers d) (Driver.spi_msg d) false
    (Driver.buf_to_user d) (Driver.buf_to_user_len d) (Driver.debug_print d) (Driver.klog d).

(** The device behind the fields that [NrfProbe] follows. *)
Definition device (r : Probe.radio) : Driver.dev :=
  set_up (Probe.chipselect_demux_index r) (zeroed (Probe.pin_interrupt r)).

(** ** Loading *)

Section loading.
Context (sdk : nat -> Sdk) `{K : GapSpi.Kernel, P : Probe.Kernel}.

Definition dark : Cape.cape := Cape.CapeState GapSpi.unloaded [] [] [].

(** The device of a radio, and its co-processor that has started. *)
Definition start_radio (i : nat) (p : Probe.radio) : M Cape.cape () := fun g =>
  match main_init (H:=sdk i) boot with
  | Done _ w =>
      Done tt (Cape.CapeState (Cape.bus g) (Cape.spi_queue g)
        (Cape.radios g ++ [Cape.Radio (Link w (device p)) false]) (Cape.files g))
  | Halt w =>
      Halt (Cape.CapeState (Cape.bus g) (Cape.spi_queue g)
        (Cape.radios g ++ [Cape.Radio (Link w (device p)) false]) (Cape.files g))
  | Undef => Undef
  end.

Fixpoint start_radios (i : nat) (ps : list Probe.radio) : M Cape.cape () :=
  match ps with
  | [] => mret ()
  | p :: ps => start_radio i p;; start_radios (S i) ps
  end.

(** [None]: a module could not be loaded. *)
Definition load : M Cape.cape (option ()) :=
  r ← Cape.on_bus GapSpi.gapspi_spi_probe;
  match r with
  | GapSpi.Err _ => mret None
  | GapSpi.Ret _ =>
      match Probe.nrf51822_probe Probe.unprobed with
      | Done ret c =>
          if ret =? 0 then start_radios 0 (Probe.radios c);; mret (Some ()) else mret None
      | Halt _ => halt
      | Undef => lift None
      end
  end.

(** *** The device tree *)

(** Where the tree says radio [i] is. *)
Definition output (i : nat) : Z := default 0 (u32 <$> Probe.csmux_property i).

(** The pins are distinct and not more than the module has room for, and the
    radios are at different outputs of the demultiplexer. *)
Record tree_ok : Prop := TreeOk {
  tree_pins pins : GapSpi.num_csmux_pins = Some pins ->
    0 <= GapSpi.s32 pins <= 3 /\
    NoDup (GapSpi.csmux_gpio <$> seq 0 (Z.to_nat (GapSpi.s32 pins)));
  tree_radios pins n i : GapSpi.num_csmux_pins = Some pins -> Probe.num_radios_property = Some n ->
    (i < Z.to_nat (u8 n))%nat -> 0 <= output i < 2 ^ GapSpi.s32 pins;
  tree_distinct n i j : Probe.num_radios_property = Some n ->
    (i < Z.to_nat (u8 n))%nat -> (j < Z.to_nat (u8 n))%nat -> output i = output j -> i = j;
}.

(** ** Lemmas *)

Lemma device_fresh p : device p = Driver.fresh (Probe.chipselect_demux_index p) (Probe.pin_interrupt p).
Proof. done. Qed.

Lemma bus_loaded :
  tree_ok ->
  wp GapSpi.gapspi_spi_probe GapSpi.unloaded (fun r b =>
    match r with
    | GapSpi.Ret _ => GapSpi.probed b /\
        (exists pins, GapSpi.num_csmux_pins = Some pins /\
           length (GapSpi.select_pins b) = Z.to_nat (GapSpi.s32 pins))
    | GapSpi.Err _ => True
    end) (fun _ => False).
Proof.
  intros [Hpins _ _]. unfold wp, GapSpi.gapspi_spi_probe.
  destruct GapSpi.num_csmux_pins as [prop|] eqn:Hprop; [|done].
  destruct (Hpins prop eq_refl) as [Hnum Hnd]. run_effects.
  set (b0 := GapSpi.set_num (GapSpi.s32 prop) GapSpi.unloaded).
  pose proof (GapSpi.probe_pins_spec (Z.to_nat (GapSpi.s32 prop)) 0 b0 eq_refl ltac:(lia)) as Hspec.
  destruct (GapSpi.probe_pins _ 0 b0) as [r b| |]; [|done|lia].
  destruct Hspec as (Eb & Hlen & _ & [->|(-> & Hle & Hdrop)]); [done|]. rewrite drop_0 in Hdrop.
  rewrite Eb. cbn [GapSpi.set_device GapSpi.set_master GapSpi.set_real GapSpi.num_demux_ctrl_pins
    GapSpi.demux_ctrl_pins GapSpi.klog b0 GapSpi.set_num]. split_and!.
  - split; unfold GapSpi.select_pins; cbn; by rewrite ?Hdrop.
  - exists prop. split; [done|]. unfold GapSpi.select_pins. cbn. rewrite length_take, Hlen. lia.
Qed.

(** The radios that have started so far. *)
Definition radio_ok (i : nat) (r : Cape.radio) : Prop :=
  Cape.risen r = false /\ main_init (H:=sdk i) boot = Done tt (nrf (Cape.the_link r)) /\
  exists pin, host (Cape.the_link r) = Driver.fresh (output i) pin.

Record same_bus (g g' : Cape.cape) : Prop := SameBus {
  sb_bus : Cape.bus g' = Cape.bus g;
  sb_queue : Cape.spi_queue g' = Cape.spi_queue g;
  sb_files : Cape.files g' = Cape.files g;
}.

Lemma wp_start_radios i ps g :
  length (Cape.radios g) = i ->
  (forall j r, Cape.radios g !! j = Some r -> radio_ok j r) ->
  (forall j p, ps !! j = Some p -> Probe.configured (i + j) p) ->
  wp (start_radios i ps) g (fun _ g' => same_bus g g' /\
      length (Cape.radios g') = (i + length ps)%nat /\
      forall j r, Cape.radios g' !! j = Some r -> radio_ok j r)
    (Cape.a_reset sdk).
Proof.
  revert i g. induction ps as [|p ps IH]; intros i g Hlen Hr Hp; cbn [start_radios].
  { apply wp_ret. split_and!; [done|simpl; lia|done]. }
  pose proof (wp_boot (H:=sdk i) (fun _ _ => True) (fun _ _ _ => I)) as Hboot.
  apply wp_bind. unfold wp, start_radio in Hboot |- *.
  destruct (main_init (H:=sdk i) boot) as [[] w|w|] eqn:E; [|..|done].
  - set (g1 := Cape.CapeState (Cape.bus g) _ _ _).
    assert (radio_ok i (Cape.Radio (Link w (device p)) false)) as Hnew.
    { split; [done|]. split; [done|]. exists (Probe.pin_interrupt p).
      cbn [host Cape.the_link]. rewrite device_fresh. f_equal. unfold output.
      destruct (Hp 0%nat p eq_refl) as (_ & Hcs & _). rewrite Nat.add_0_r in Hcs. by rewrite <-Hcs. }
    eapply wp_mono; [apply (IH (S i) g1)| |done].
    + unfold g1. cbn [Cape.radios]. rewrite length_app. simpl. lia.
    + intros j r [Hj|[Hj Hr']]%lookup_app_Some; [by apply Hr|].
      apply list_lookup_singleton_Some in Hr' as [Hj' <-]. by replace j with i by lia.
    + intros j q Hq. specialize (Hp (S j) q Hq). by rewrite Nat.add_succ_comm in *.
    + intros [] g2 ([] & Hlen2 & Hr2). split_and!; [done| |done]. rewrite Hlen2. simpl. lia.
  - exists i, (Cape.Radio (Link w (device p)) false). split; [|done]. cbn [Cape.radios].
    by rewrite lookup_app_r, Hlen, Nat.sub_diag by lia.
Qed.

(** The probe function of the driver: loaded, or an error. *)
Lemma driver_loaded c :
  wp Probe.nrf51822_probe c (fun r c' => r = 0 -> Probe.loaded c') (fun _ => False).
Proof.
  unfold Probe.nrf51822_probe. apply wp_bind. eapply wp_mono; [apply Probe.probe_body_ok| |done].
  intros [l|] c' Hc'; [|apply wp_ret; intros _; by destruct Hc'].
  destruct Hc' as (_ & _ & _ & Hl). apply wp_bind.
  eapply wp_mono; [by apply Probe.unwind_ok| |done]. intros _ c'' _. by apply wp_ret.
Qed.

Lemma wp_load :
  tree_ok ->
  wp load dark (fun r g =>
    match r with
    | Some _ => Cape.powered sdk output g /\
        exists n, Probe.num_radios_property = Some n /\ length (Cape.radios g) = Z.to_nat (u8 n)
    | None => True
    end) (Cape.a_reset sdk).
Proof.
  intros Htree. pose proof (bus_loaded Htree) as Hbus. unfold load. apply wp_bind.
  unfold wp at 1, Cape.on_bus. unfold wp in Hbus. cbn [Cape.bus dark].
  destruct (GapSpi.gapspi_spi_probe GapSpi.unloaded) as [[ret|e] b| |]; [|by apply wp_ret|done..].
  destruct Hbus as (Hp & (pins & Hpins & Hsel)). set (g1 := Cape.set_bus b dark).
  pose proof (driver_loaded Probe.unprobed) as Hdrv. unfold wp in Hdrv.
  destruct (Probe.nrf51822_probe Probe.unprobed) as [r c| |]; [|done..].
  destruct (Z.eqb_spec r 0) as [E|_]; [|by apply wp_ret].
  destruct (Hdrv E) as ((n & Hn & En) & Hlen & Hconf & _). apply wp_bind.
  eapply wp_mono; [apply (wp_start_radios 0 (Probe.radios c) g1)| |done]; [done..| |].
  { intros j q Hq. by destruct (Hconf j q Hq). }
  intros [] g2 ([Eb Eq Ef] & Hlen2 & Hr2). apply wp_ret. cbn [Nat.add] in Hlen2.
  split; [|exists n; by rewrite Hlen2, Hlen, En].
  split; rewrite ?Eb, ?Eq, ?Ef, ?Hlen2, ?Hlen, ?En; try done.
  cbn [g1 Cape.set_bus Cape.bus]. rewrite Hsel. destruct (tree_pins Htree pins Hpins) as [Hs _].
  split; [|intros i j; by apply (tree_distinct Htree)].
  intros i Hi. rewrite Z2Nat.id by lia. by eapply (tree_radios Htree).
Qed.

(** Loading, and then a run. *)
Definition load_and_run (os : list op) : M Cape.cape (option (list out)) :=
  r ← load;
  match r with
  | Some _ => rs ← Cape.cape_run sdk output os; mret (Some rs)
  | None => mret None
  end.
End loading.

(** ** Theorems *)

Section theorems.
Context (sdk : nat -> Sdk) `{K : GapSpi.Kernel, P : Probe.Kernel}.

(** C7: from the device tree to a working cape.  With select pins that fit and
    radios at different outputs of the demultiplexer, and if no interrupt comes
    while the modules are being loaded (see [early_interrupt_shares_buffers]), the
    modules refuse to load or they leave a cape with the number of radios the tree
    announces; and as long as the SPI core accepts every message, it then behaves
    as the specification says.  Nothing is
    undefined from the first call on, and a co-processor is reset only after a
    failed call of its SDK. *)
Theorem loaded_cape_refines_spec n os :
  tree_ok -> Cape.accepting -> Probe.num_radios_property = Some n ->
  Forall (valid_op (Z.to_nat (u8 n))) os ->
  wp (load_and_run sdk os) dark
    (fun rs g => match rs with
     | Some rs => exists s', spec_run os (Cape.start (Z.to_nat (u8 n))) = (rs, s') /\
    Cape.sim output g s'
     | None => True
     end) (Cape.a_reset sdk).
Proof.
  intros Htree Hacc Hn Hos. unfold load_and_run. apply wp_bind.
  eapply wp_mono; [by apply wp_load| |done]. intros [[]|] g; [|by intros; apply wp_ret].
  rewrite Hn. intros (Hg & n' & [= <-] & Hlen). apply wp_bind.
  eapply wp_mono; [apply Cape.cape_from_start; [done|exact Hg|by rewrite Hlen]| |done].
  intros rs g' (-> & Hs & _). apply wp_ret. rewrite <-Hlen.
  eexists. split; [apply surjective_pairing|done].
Qed.
End theorems.

(** C35: an interrupt that comes before its radio is set up.  The interrupt is
    requested while the radio is still zeroed; a rising edge then makes the
    driver send a message to output 0 of the demultiplexer, whatever the radio's
    output is; and the rest of the setup marks the buffers as free although that
    message is still under way, so the next interrupt sends a second one with
    the same buffers. *)
Theorem early_interrupt_shares_buffers index pin high :
  exists m d1 d2,
    Driver.nrf51822_interrupt_handler (H:=line_kernel high) (zeroed pin) = Done tt d1 /\
    Driver.klog d1 = [Driver.gap_spi_async m 0] /\ Driver.spi_pending d1 = true /\
    Driver.nrf51822_interrupt_handler (H:=line_kernel high) (set_up index d1) = Done tt d2 /\
    Driver.klog d2 = [Driver.gap_spi_async m index; Driver.gap_spi_async m 0].
Proof.
  set (K := line_kernel high).
  assert (Driver.submit (H:=K) Driver.BCP_COMMAND_READ_IRQ Driver.read_irq_done
    (Driver.set_spi_pending true (zeroed pin)) = Done tt (Driver.submitted
      Driver.BCP_COMMAND_READ_IRQ Driver.read_irq_done (Driver.set_spi_pending true (zeroed pin)))) as E.
  { by apply Driver.submit_ok. }
  eexists _, _, _. split_and!; [exact E|done..| |].
  - by apply Driver.read_irq_ok.
  - done.
Qed.

(** ** Witnesses *)

(** Two radios at the outputs 1 and 2, and the calls succeed. *)
Lemma demo_tree : tree_ok (K:=GapSpi.two_pins) (P:=Probe.two_radios false).
Proof.
  split.
  - intros pins [= <-]. split; [done|]. vm_decide.
  - intros pins n i [= <-] [= <-]. change (Z.to_nat (u8 2)) with 2%nat. intros Hi.
    destruct i as [|[|]]; [done..|lia].
  - intros n i j [= <-]. change (Z.to_nat (u8 2)) with 2%nat. intros Hi Hj.
    destruct i as [|[|]], j as [|[|]]; done || lia.
Qed.

Definition demo_end : Cape.cape :=
  if load_and_run (K:=GapSpi.two_pins) (P:=Probe.two_radios false) Cape.demo_sdk Cape.demo_ops dark
  is Done _ g then g else dark.

Lemma demo_load :
  load_and_run (K:=GapSpi.two_pins) (P:=Probe.two_radios false) Cape.demo_sdk Cape.demo_ops dark =
    Done (Some Cape.demo_outs) demo_end.
Proof. vm_compute. reflexivity. Qed.

Lemma demo_ops_valid : Forall (valid_op (Z.to_nat (u8 2))) Cape.demo_ops.
Proof. exact Cape.demo_valid. Qed.

Lemma loaded_cape_refines_spec_witness :
  exists s', spec_run Cape.demo_ops (Cape.start (Z.to_nat (u8 2))) = (Cape.demo_outs, s') /\
    Cape.sim (output (P:=Probe.two_radios false)) demo_end s'.
Proof.
  exact (wp_Done _ _ _ _ _ _ (loaded_cape_refines_spec (K:=GapSpi.two_pins)
    (P:=Probe.two_radios false) Cape.demo_sdk 2 Cape.demo_ops demo_tree Cape.demo_accepting
    eq_refl demo_ops_valid) demo_load).
Defined.
End CapeBoot.
