(* ===== verification/CLib.v ===== *)
(** * Strings and formatted output of the C library

    What several of the programs use of the C library: strings that end with a
    zero byte, [strncpy], and the conversions [%02x] and [%lu] of [printf].  The
    bytes of a packet that is printed with [%02x] can be read back ([unhex]). *)
From S2P Require Import Prelude.
From Stdlib Require Import Ascii.

(** ** Strings *)

(** The bytes of a string literal, without the zero. *)
Definition text (s : string) : list Z :=
  map (fun c => Z.of_nat (nat_of_ascii c)) (String.list_ascii_of_string s).

(** The string that starts at an index of a buffer. *)
Fixpoint cstring (buf : list Z) : list Z :=
  match buf with
  | [] => []
  | c :: buf => if c =? 0 then [] else c :: cstring buf
  end.
Definition string_at (line : list Z) (i : nat) : list Z := cstring (drop i line).

(** [strncpy(dst, src, n)]: [n] bytes are written, zeros behind the string. *)
Definition strncpy (dst src : list Z) (n : nat) : option (list Z) :=
  let s := take n (cstring src) in
  memcpy_at dst 0 (s ++ replicate (n - length s) 0) n.

(** [strcpy(dst, src)]: the string and its zero. *)
Definition strcpy (dst src : list Z) : option (list Z) :=
  memcpy_at dst 0 (cstring src ++ [0]) (S (length (cstring src))).

Lemma cstring_app l rest : Forall (fun c => c <> 0) l -> cstring (l ++ 0 :: rest) = l.
Proof.
  induction l as [|c l IH]; intros Hl; simpl; [done|]. apply Forall_cons in Hl as [Hc Hl].
  by rewrite (proj2 (Z.eqb_neq c 0)), IH by done.
Qed.

Lemma cstring_nonzero s : Forall (fun c => c <> 0) (cstring s).
Proof.
  induction s as [|c s IH]; simpl; [done|]. destruct (Z.eqb_spec c 0); [done|]. by constructor.
Qed.

(** A string that fits, with its zero, can be copied and is then there. *)
Lemma strcpy_ok dst src :
  (length (cstring src) < length dst)%nat ->
  exists dst', strcpy dst src = Some dst' /\ length dst' = length dst /\ cstring dst' = cstring src.
Proof.
  intros Hlen. unfold strcpy.
  destruct (memcpy_at dst 0 _ _) as [dst'|] eqn:E.
  - exists dst'. split; [done|]. split; [by eapply memcpy_at_length|].
    apply memcpy_at_Some in E as (_ & _ & ->). rewrite (take_ge (cstring src ++ [0])) by (rewrite length_app; simpl; lia).
    change (take 0 dst) with (@nil Z). cbn [app]. rewrite <-app_assoc.
    by apply cstring_app, cstring_nonzero.
  - apply memcpy_at_None in E. rewrite length_app in E. simpl in E. lia.
Qed.

Lemma strcpy_overflow dst src :
  strcpy dst src = None <-> (length dst <= length (cstring src))%nat.
Proof. unfold strcpy. rewrite memcpy_at_None, length_app. simpl. split; intros; lia. Qed.

Lemma strncpy_ok dst src n :
  (n <= length dst)%nat -> exists dst', strncpy dst src n = Some dst' /\ length dst' = length dst /\
    take n dst' = take n (cstring src) ++ replicate (n - length (take n (cstring src))) 0.
Proof.
  intros Hlen. unfold strncpy. set (s := take n (cstring src)).
  assert (length (s ++ replicate (n - length s) 0) = n) as Hs.
  { rewrite length_app, length_replicate. unfold s. rewrite length_take. lia. }
  destruct (memcpy_at dst 0 _ _) as [dst'|] eqn:E.
  - exists dst'. split; [done|]. split; [by eapply memcpy_at_length|].
    rewrite (memcpy_at_take _ _ _ _ E). apply take_ge. lia.
  - apply memcpy_at_None in E. lia.
Qed.

(** ** Numbers *)

Definition digit (d : Z) : Z := if d <? 10 then 48 + d else 87 + d.

(** The digits of a number, most significant first; [fuel] digits at most. *)
Fixpoint digits (base : Z) (fuel : nat) (x : Z) : list Z :=
  match fuel with
  | O => []
  | S fuel => (if x <? base then [] else digits base fuel (x / base)) ++ [digit (x mod base)]
  end.

(** [printf("%02x", x)]: a 32-bit number has at most 8 digits. *)
Definition format_02x (x : Z) : list Z :=
  let ds := digits 16 8 (u32 x) in replicate (2 - length ds) 48 ++ ds.

(** [printf("%lu", x)], for a [long] of at most 64 bits. *)
Definition format_lu (bits x : Z) : list Z := digits 10 20 (x mod 2 ^ bits).

Definition hexdump (bytes : list Z) : list Z := concat (format_02x <$> bytes).

(** Reading two digits per byte. *)
Definition undigit (c : Z) : Z := if c <? 58 then c - 48 else c - 87.

Fixpoint unhex (s : list Z) : list Z :=
  match s with
  | a :: b :: s => 16 * undigit a + undigit b :: unhex s
  | _ => []
  end.

Lemma undigit_digit d : 0 <= d < 16 -> undigit (digit d) = d.
Proof. intros. unfold digit, undigit. destruct (Z.ltb_spec d 10); case_match; lia. Qed.

Lemma format_02x_byte c : byte c -> format_02x c = [digit (c / 16); digit (c mod 16)].
Proof.
  intros Hc. unfold byte in Hc. unfold format_02x. rewrite u32_small by lia. cbn [digits].
  assert (c / 16 < 16) by zmod. assert (0 <= c / 16) by zmod.
  destruct (Z.ltb_spec c 16) as [Hlt|_].
  - rewrite (Z.div_small c 16) by lia. done.
  - rewrite (proj2 (Z.ltb_lt _ _)) by done. rewrite (Z.mod_small (c / 16)) by lia. done.
Qed.

(** What was dumped can be read back. *)
Lemma unhex_hexdump bytes : Forall byte bytes -> unhex (hexdump bytes) = bytes.
Proof.
  induction 1 as [|c bytes Hc Hb IH]; [done|]. unfold hexdump in *. cbn [fmap list_fmap concat].
  rewrite format_02x_byte by done. cbn [app unhex]. unfold byte in Hc.
  rewrite !undigit_digit, IH by zmod. f_equal. zmod.
Qed.

Lemma hexdump_app a b : hexdump (a ++ b) = hexdump a ++ hexdump b.
Proof. unfold hexdump. by rewrite fmap_app, concat_app. Qed.

Lemma hexdump_length bytes : Forall byte bytes -> length (hexdump bytes) = (2 * length bytes)%nat.
Proof.
  induction 1 as [|c bytes Hc Hb IH]; [done|]. unfold hexdump in *. cbn [fmap list_fmap concat].
  rewrite length_app, IH, format_02x_byte by done. simpl. lia.
Qed.
