(* ===== verification/GetAdv.v ===== *)
(** * The driver's test program

    Models [src/software/driver/nrf51822/tests/get_adv.c]: it opens the first
    radio, tells it to forward advertisements, and prints what every [read]
    returns, in hexadecimal and as text.

    Calls and output are recorded in [log], newest first.  What a [read] returns is
    an argument, and in the theorem it is what the driver returns in a run of the
    whole cape ([Cape]).  Whether [char] is signed is left to the implementation
    by C, and is a parameter. *)
From S2P Require Import Prelude CLib NrfQueue NrfBoard NrfSpiSlave NrfMain GapSpi NrfDriver BcpLink CapeSpec Cape.
Import Queue Board SpiSlave Main BcpLink CapeSpec.

Module GetAdv.

(** ** Calls and state *)

Inductive io :=
| open (path : list Z)
| ioctl_SIMPLE_COMMAND (fd : Z) (command : Z)
| read (fd : Z) (count : Z)
| printf (s : list Z).

Class Os := {
  ret : list io -> io -> Z;
  signed_char : bool;
}.

Record prog := Prog { buf : list Z; log : list io }.

Definition set_buf (b : list Z) (w : prog) : prog := Prog b (log w).
Definition add_io (c : io) (w : prog) : prog := Prog (buf w) (c :: log w).

(** A [read] that has returned: the result of the driver, and the bytes that were
    copied to the buffer. *)
Definition returned_read : Type := GapSpi.result * list Z.

(** The [char] of a byte. *)
Definition char_value `{Os} (c : Z) : Z := if signed_char && (128 <=? c) then c - 256 else c.

(** ** Operations *)

Section operations.
Context `{Os}.

Definition call (c : io) : M prog Z := fun w => Done (ret (log w) c) (add_io c w).
Definition call_void (c : io) : M prog () := modify (add_io c).

Definition char_at (i : nat) : M prog Z := b ← gets buf; c ← lift (b !! i); mret (char_value c).

(** The first loop over the result, with [n] characters to go. *)
Fixpoint print_hex (n i : nat) : M prog () :=
  match n with
  | O => mret ()
  | S n => c ← char_at i; call_void (printf (format_02x c));; print_hex n (S i)
  end.

(** The second loop: printable characters, and dots for the others. *)
Fixpoint print_text (n i : nat) : M prog () :=
  match n with
  | O => mret ()
  | S n =>
      c ← char_at i;
      (if (31 <? c) && (c <? 127) then call_void (printf [c]) else call_void (printf (text ".")));;
      print_text n (S i)
  end.

(** The body of the loop. *)
Definition round (file_desc : Z) (r : returned_read) : M prog () :=
  call_void (read file_desc 127);;
  b ← gets buf;
  b ← lift (memcpy_at b 0 r.2 (length r.2));
  modify (set_buf b);;
  let result := match r.1 with GapSpi.Ret n => n | GapSpi.Err _ => -1 end in
  print_hex (Z.to_nat result) 0;;
  call_void (printf (text "  "));;
  print_text (Z.to_nat result) 0;;
  call_void (printf [10]).

Fixpoint rounds (file_desc : Z) (rs : list returned_read) : M prog () :=
  match rs with
  | [] => mret ()
  | r :: rs => round file_desc r;; rounds file_desc rs
  end.

Definition main (rs : list returned_read) : M prog () :=
  call_void (printf (text "Testing nrf51822 driver..." ++ [10]));;
  file_desc ← call (open (text "/dev/nrf51822_0"));
  call_void (printf (text "Setting nRF51822 to send advertisements." ++ [10]));;
  _ ← call (ioctl_SIMPLE_COMMAND file_desc Driver.BCP_COMMAND_SNIFF_ADVERTISEMENTS);
  rounds file_desc rs.
End operations.

(** What was printed. *)
Fixpoint printed (log : list io) : list Z :=
  match log with
  | [] => []
  | printf s :: log => printed log ++ s
  | _ :: log => printed log
  end.

(** ** What is shown *)

Section show.
Context `{Os}.
Implicit Types w : prog.

Definition hexes (m : list Z) : list Z := hexdump (char_value <$> m).

Definition printable (c : Z) : Z := if (31 <? char_value c) && (char_value c <? 127) then char_value c else 46.

(** A line, for the bytes of a frame. *)
Definition line (m : list Z) : list Z := hexes m ++ text "  " ++ (printable <$> m) ++ [10].

Definition greeting : list Z :=
  text "Testing nrf51822 driver..." ++ [10] ++ text "Setting nRF51822 to send advertisements." ++ [10].

Definition shows (s : list Z) w w' : Prop :=
  buf w' = buf w /\ printed (log w') = printed (log w) ++ s.

Lemma print_seq (m k : M prog ()) s1 s2 w :
  wp m w (fun _ => shows s1 w) (fun _ => False) ->
  (forall w1, buf w1 = buf w -> wp k w1 (fun _ => shows s2 w1) (fun _ => False)) ->
  wp (m;; k) w (fun _ => shows (s1 ++ s2) w) (fun _ => False).
Proof.
  intros Hm Hk. apply wp_bind. eapply wp_mono; [exact Hm| |done]. intros [] w1 [Eb1 E1].
  eapply wp_mono; [by apply Hk| |done]. intros [] w2 [Eb2 E2].
  split; [congruence|]. by rewrite E2, E1, app_assoc.
Qed.

Lemma wp_printf s w : wp (call_void (printf s)) w (fun _ => shows s w) (fun _ => False).
Proof. done. Qed.

Lemma char_at_Done i c w : buf w !! i = Some c -> char_at i w = Done (char_value c) w.
Proof. intros Hc. unfold char_at. run_effects. by rewrite Hc. Qed.

(** A loop that prints a string per character of the buffer. *)
Lemma wp_print_loop (loop : nat -> nat -> M prog ()) (f : Z -> list Z) m pre post w :
  (forall i w, loop O i w = Done () w) ->
  (forall n i c w Q, buf w !! i = Some c ->
    (forall w1, shows (f c) w w1 -> wp (loop n (S i)) w1 Q (fun _ => False)) ->
    wp (loop (S n) i) w Q (fun _ => False)) ->
  buf w = pre ++ m ++ post ->
  wp (loop (length m) (length pre)) w (fun _ => shows (concat (f <$> m)) w) (fun _ => False).
Proof.
  intros H0 HS. revert pre w. induction m as [|c m IH]; intros pre w Hb; cbn [length fmap list_fmap concat].
  - unfold wp. rewrite H0. split; [done|]. by rewrite app_nil_r.
  - apply (HS _ _ c).
    { rewrite Hb, lookup_app_r by lia. by rewrite Nat.sub_diag. }
    intros w1 [Eb1 E1]. replace (S (length pre)) with (length (pre ++ [c])) by (rewrite length_app; simpl; lia).
    eapply wp_mono; [apply IH; rewrite Eb1, Hb, <-app_assoc; done| |done].
    intros [] w2 [Eb2 E2]. split; [congruence|]. by rewrite E2, E1, app_assoc.
Qed.

Lemma wp_print_hex m post w :
  buf w = m ++ post ->
  wp (print_hex (length m) 0) w (fun _ => shows (hexes m) w) (fun _ => False).
Proof.
  intros Hb. unfold hexes, hexdump. rewrite <-list_fmap_compose.
  apply (wp_print_loop print_hex (fun c => format_02x (char_value c)) m [] post); [done| |done].
  intros n i c w1 Q Hc HQ. cbn [print_hex]. apply wp_bind. unfold wp at 1.
  rewrite (char_at_Done i c) by done. apply wp_bind. by apply wp_modify, HQ.
Qed.

Lemma wp_print_text m post w :
  buf w = m ++ post ->
  wp (print_text (length m) 0) w (fun _ => shows (printable <$> m) w) (fun _ => False).
Proof.
  intros Hb. assert (printable <$> m = concat ((fun c => [printable c]) <$> m)) as ->.
  { clear. induction m as [|c m IH]; [done|]. cbn [fmap list_fmap concat app] in *. by f_equal. }
  apply (wp_print_loop print_text (fun c => [printable c]) m [] post); [done| |done].
  intros n i c w1 Q Hc HQ. cbn [print_text]. apply wp_bind. unfold wp at 1.
  rewrite (char_at_Done i c) by done. apply wp_bind. unfold printable in HQ.
  destruct (_ && _); by apply wp_modify, HQ.
Qed.

Lemma wp_round fd m w :
  length (buf w) = 256%nat -> (length m <= 256)%nat ->
  wp (round fd (GapSpi.Ret (Z.of_nat (length m)), m)) w
    (fun _ w' => length (buf w') = 256%nat /\ printed (log w') = printed (log w) ++ line m)
    (fun _ => False).
Proof.
  intros Hb Hm. unfold round. cbn [fst snd]. apply wp_bind, wp_modify, wp_bind, wp_gets, wp_bind, wp_lift.
  eexists. split; [apply memcpy_at_ok; [cbn; lia|lia]|]. apply wp_bind, wp_modify.
  set (w1 := set_buf _ _). rewrite Nat2Z.id.
  assert (buf w1 = m ++ drop (length m) (buf w)) as E1.
  { unfold w1. cbn [buf set_buf add_io]. by rewrite (take_ge m) by lia. }
  assert (printed (log w1) = printed (log w)) as El by done. clearbody w1.
  assert (length (buf w1) = 256%nat) as Hb1 by (rewrite E1, length_app, length_drop; lia).
  eapply wp_mono; [apply (print_seq _ _ (hexes m) (text "  " ++ (printable <$> m) ++ [10]))| |done].
  - by eapply wp_print_hex.
  - intros w2 E2. apply print_seq; [apply wp_printf|]. intros w3 E3.
    apply print_seq; [|intros; apply wp_printf]. eapply wp_print_text. by rewrite E3, E2, E1.
  - intros [] w2 [E2 Ep]. split; [by rewrite E2|]. by rewrite Ep, El.
Qed.

Lemma wp_rounds fd ms w :
  length (buf w) = 256%nat -> Forall (fun m => length m <= 256)%nat ms ->
  wp (rounds fd ((fun m => (GapSpi.Ret (Z.of_nat (length m)), m)) <$> ms)) w
    (fun _ w' => printed (log w') = printed (log w) ++ concat (line <$> ms)) (fun _ => False).
Proof.
  intros Hb Hms. revert w Hb. induction Hms as [|m ms Hm Hms IH]; intros w Hb; cbn [fmap list_fmap rounds].
  { apply wp_ret. by rewrite app_nil_r. }
  apply wp_bind. eapply wp_mono; [by apply wp_round| |done]. intros [] w1 (Hb1 & E1).
  eapply wp_mono; [by apply IH| |done]. intros [] w2 E2. cbn [concat]. by rewrite E2, E1, app_assoc.
Qed.

(** With unsigned characters the line begins with the frame in hexadecimal. *)
Lemma hexes_unsigned m : signed_char = false -> Forall byte m -> unhex (hexes m) = m.
Proof.
  intros Hs Hm. unfold hexes. assert (char_value <$> m = m) as ->.
  { clear -Hs. induction m as [|c m IH]; [done|]. cbn [fmap list_fmap]. f_equal; [|exact IH].
    unfold char_value. by rewrite Hs. }
  by apply unhex_hexdump.
Qed.
End show.

(** ** The program and the cape *)

(** The reads of file [f] that have returned in a run. *)
Fixpoint completed (f : nat) (os : list op) (rs : list out) : list returned_read :=
  match os, rs with
  | o :: os, r :: rs =>
      match o, r with
      | Read f' _, WasRead (Driver.Returned r m) => if decide (f' = f) then [(r, m)] else []
      | _, _ => []
      end ++ completed f os rs
  | _, _ => []
  end.

Lemma completed_reads f os rs : filter (fun m => m <> []) (completed f os rs).*2 = file_reads f os rs.
Proof.
  revert rs. induction os as [|o os IH]; intros [|r rs]; try done. cbn [completed file_reads].
  rewrite fmap_app, filter_app, IH. f_equal. destruct o as [| | | | |f' x| |]; try done.
  destruct r as [| | | |[|r m]| |]; try done. destruct (decide (f' = f)) as [->|Hne].
  - cbn [fmap list_fmap snd]. rewrite filter_cons, filter_nil. repeat case_decide; tauto.
  - rewrite decide_False; [done|]. by intros [? _].
Qed.

(** The driver's result is the number of bytes it has copied. *)
Lemma completed_lengths f os s :
  completed f os (spec_run os s).1 =
    (fun m => (GapSpi.Ret (Z.of_nat (length m)), m)) <$> (completed f os (spec_run os s).1).*2.
Proof.
  revert s. induction os as [|o os IH]; intros s; [done|]. cbn [spec_run].
  destruct (spec_step o s) as [r s1] eqn:Es. specialize (IH s1).
  destruct (spec_run os s1) as [rs s2]. cbn [fst completed] in *. rewrite !fmap_app, <-IH. f_equal.
  destruct o as [| | | | |f' interrupted| |]; try done. cbn [spec_step] in Es.
  destruct (handles s !! f') as [j|]; [|by inversion Es]. cbn [mbind option_bind] in Es.
  destruct (channels s !! j) as [c|]; [|by inversion Es]. cbn in Es.
  destruct (mailbox c); [|destruct interrupted]; inversion Es; try done; by case_decide.
Qed.

(** Frames are short: an advertisement has at most 39 bytes. *)
Definition small (c : channel) : Prop :=
  Forall (fun v => length (frame v) <= 64)%nat (waits c) /\
  Forall (fun m => length m <= 64)%nat (option_list (shown c)).

Lemma small_step n o s :
  valid_op n o -> (forall i c, channels s !! i = Some c -> small c) ->
  forall i c, channels (spec_step o s).2 !! i = Some c -> small c.
Proof.
  intros Ho Hs i c. rewrite channels_step. destruct (channels s !! i) as [d|] eqn:Hi; [|done].
  intros [= <-]. destruct (Hs i d Hi) as [Hw Hsh]. unfold acts.
  destruct o as [j e|j|k|j|f command|f interrupted|f|f bytes]; try case_decide; try by split.
  - split; [|done]. apply Forall_app. split; [done|]. unfold keeps.
    destruct Ho as (_ & He & _). destruct e as [|[r| | |]| | |]; try done.
    case_match; [|done]. apply Forall_singleton. destruct He as [? ?].
    cbn [adv_view frame length]. rewrite length_take. lia.
  - by destruct (edge d).
  - unfold fetch. destruct (waits d) as [|v rest]; [by split|]. apply Forall_cons in Hw as [Hv Hw].
    split; [done|]. by apply Forall_singleton.
Qed.

Lemma puts_small n i os s :
  Forall (valid_op n) os -> (forall i c, channels s !! i = Some c -> small c) ->
  Forall (fun m => length m <= 64)%nat (over_run (puts i) os s).
Proof.
  intros Hos. revert s. induction Hos as [|o os Ho Hos IH]; intros s Hs; cbn [over_run]; [done|].
  apply Forall_app. split; [|by eapply IH, small_step]. unfold puts, served.
  destruct o as [| |k| | | | |]; try done. case_decide; [|done].
  destruct (channels s !! i) as [c|] eqn:Hi; [|done]. destruct (Hs i c Hi) as [Hw Hsh].
  destruct (waits c) as [|v rest]; [|apply Forall_cons in Hw as [Hv _]].
  - destruct (shown c); [|done]. apply Forall_singleton. rewrite length_through_spi.
    by inversion Hsh.
  - apply Forall_singleton. by rewrite length_through_spi.
Qed.

Section composition.
Context (sdk : nat -> Sdk) `{K : GapSpi.Kernel} (output : nat -> Z) `{Os}.

(** C26: the test program shows the advertisements.  If the SPI core accepts every
    message, then run with the file of a radio in
    any run of the whole cape, it never writes or reads beyond its buffer,
    although the driver ignores the length it asks for; it prints a line for
    every [read] that has returned; and these lines are those of frames put into
    the mailbox of that radio, in order and each at most once.  Where [char] is
    unsigned, a line begins with the frame in hexadecimal. *)
Theorem test_program_shows_frames os g :
  Cape.accepting -> Cape.powered sdk output g -> Forall (valid_op (length (Cape.radios g))) os ->
  wp (Cape.cape_run sdk output os) g
    (fun rs g' => forall f i p, Cape.files g' !! f = Some (Cape.File i) -> length (buf p) = 256%nat ->
      let returned := completed f os rs in
      let s := Cape.start (length (Cape.radios g)) in
      wp (main returned) p
        (fun _ p' => printed (log p') = printed (log p) ++ greeting ++ concat (line <$> returned.*2))
        (fun _ => False) /\
      filter (fun m => m <> []) returned.*2 `sublist_of` over_run (puts i) os s /\
      (signed_char = false -> forall m, m ∈ returned.*2 -> Forall byte m -> unhex (hexes m) = m))
    (Cape.a_reset sdk).
Proof.
  intros Hacc Hg Hos. eapply wp_mono; [by apply Cape.cape_from_start| |done].
  intros rs g' (-> & Hs & Hok & Hlen) f i p Hf Hb returned s. fold s in Hs, Hok, returned.
  assert (handles (spec_run os s).2 !! f = Some i) as Hh.
  { by rewrite <-(Cape.sim_files _ _ _ Hs), list_lookup_fmap, Hf. }
  assert (channels s !! i = Some silent) as Hc.
  { apply lookup_replicate. split; [done|]. rewrite <-Hlen, (Cape.sim_length _ _ _ Hs).
    exact (proj1 (Forall_lookup _ _) (ok_handles _ Hok) f i Hh). }
  assert (filter (fun m => m <> []) returned.*2 `sublist_of` over_run (puts i) os s) as Hsub.
  { unfold returned. rewrite completed_reads. etrans; [by eapply file_reads_taken|].
    destruct (lookup_lt_is_Some_2 (channels (spec_run os s).2) i) as [c' Hc'].
    { exact (proj1 (Forall_lookup _ _) (ok_handles _ Hok) f i Hh). }
    destruct (run_frames i os s silent c' Hc Hc') as [_ H2]. etrans; [|exact H2].
    by apply sublist_inserts_r. }
  split_and!; [|done|intros; by apply hexes_unsigned].
  unfold main. apply wp_bind, wp_modify, wp_bind. unfold wp at 1.
  apply wp_bind, wp_modify, wp_bind. unfold wp at 1. unfold returned. rewrite completed_lengths.
  eapply wp_mono; [apply wp_rounds; [done|]| |done].
  - apply Forall_forall. intros [|x m] Hm; [simpl; lia|].
    assert (length (x :: m) <= 64)%nat; [|lia].
    assert (Forall (fun m => length m <= 64)%nat (over_run (puts i) os s)) as Hsmall.
    { eapply puts_small; [exact Hos|]. by intros j c [-> _]%lookup_replicate. }
    rewrite Forall_forall in Hsmall. apply Hsmall. eapply elem_of_sublist; [|exact Hsub].
    apply list_elem_of_filter. split; [done|exact Hm].
  - intros [] p' ->. unfold returned. rewrite <-completed_lengths.
    cbn [log add_io printed]. unfold greeting. by rewrite <-!app_assoc.
Qed.
End composition.

(** ** Witnesses *)

Definition demo_os : Os := {| ret l c := 3; signed_char := false |}.

Definition demo_prog : prog := Prog (replicate 256 0) [].

(** In the run of [Cape] the second file is read once. *)
Lemma demo_file : Cape.files Cape.demo_end !! 1%nat = Some (Cape.File 1).
Proof. vm_compute. reflexivity. Qed.

Lemma demo_completed :
  completed 1 Cape.demo_ops Cape.demo_outs = [(GapSpi.Ret 11, 10 :: 1 :: replicate 9 8)].
Proof. vm_compute. reflexivity. Qed.

Lemma test_program_shows_frames_witness :
  exists p', main (H:=demo_os) [(GapSpi.Ret 11, 10 :: 1 :: replicate 9 8)] demo_prog = Done () p' /\
    printed (log p') = greeting ++ line (H:=demo_os) (10 :: 1 :: replicate 9 8) /\
    unhex (hexes (H:=demo_os) (10 :: 1 :: replicate 9 8)) = 10 :: 1 :: replicate 9 8.
Proof.
  destruct (wp_Done _ _ _ _ _ _ (test_program_shows_frames (K:=GapSpi.two_pins) (H:=demo_os)
    Cape.demo_sdk Cape.demo_output Cape.demo_ops Cape.demo_cape Cape.demo_accepting Cape.demo_powered
    Cape.demo_valid) Cape.demo_run 1%nat 1%nat demo_prog demo_file eq_refl) as (Hwp & _ & Hhex).
  rewrite demo_completed in Hwp, Hhex.
  destruct (wp_run _ _ _ _ Hwp ltac:(vm_compute; reflexivity)) as ([] & p' & E & Hp).
  exists p'. split; [exact E|]. split.
  - rewrite Hp. cbn [fmap list_fmap concat snd log demo_prog printed app]. by rewrite app_nil_r.
  - apply Hhex; [reflexivity|left|vm_decide].
Defined.
End GetAdv.
