(* ===== verification/RawRecv.v ===== *)
(** * The raw 802.15.4 receivers

    Models [src/linux/recvRawEth.c] (Module [Eth]) and
    [src/linux/recv_raw_802154.c] (Module [Wpan]): two programs that open a raw
    socket on an interface and print every frame in hexadecimal; the first also
    prints the addresses and the transport byte at their places in the frame.

    System calls and output are recorded in [log], newest first, and the results
    of the calls are a parameter ([Os]).  What a call of [recvfrom] receives is an
    argument.  The variables start with whatever the stack holds. *)
From S2P Require Import Prelude CLib.

Module RawRecv.

(** ** System calls *)

Inductive io :=
| socket
| ioctl_SIOCGIFFLAGS (fd : Z) (name : list Z)
| ioctl_SIOCSIFFLAGS (fd : Z) (name : list Z) (flags : Z)
| setsockopt_REUSEADDR (fd : Z)
| setsockopt_BINDTODEVICE (fd : Z) (name : list Z)
| close (fd : Z)
| perror (s : list Z)
| recvfrom (fd : Z)
| printf (s : list Z).

Class Os := {
  (** what the calls return; -1 on a failure *)
  ret : list io -> io -> Z;
  (** the flags that [SIOCGIFFLAGS] stores when it succeeds *)
  if_flags : list io -> Z;
  IFF_PROMISC : Z;
  (** the bits of [unsigned long] *)
  long_bits : Z;
}.

(** What a call of [recvfrom] receives. *)
Inductive received := Got (data : list Z) | Failed.

(** ** State *)

Definition IFNAMSIZ : nat := 16.
Definition BUF_SIZ : nat := 1024.

Record receiver := Receiver {
  ifName : list Z;
  ifr_name : list Z; ifr_flags : Z;      (* of [ifopts] *)
  buf : list Z;
  log : list io;
}.

Definition set_ifName (s : list Z) (w : receiver) : receiver :=
  Receiver s (ifr_name w) (ifr_flags w) (buf w) (log w).
Definition set_ifr_name (s : list Z) (w : receiver) : receiver :=
  Receiver (ifName w) s (ifr_flags w) (buf w) (log w).
Definition set_ifr_flags (f : Z) (w : receiver) : receiver :=
  Receiver (ifName w) (ifr_name w) f (buf w) (log w).
Definition set_buf (b : list Z) (w : receiver) : receiver :=
  Receiver (ifName w) (ifr_name w) (ifr_flags w) b (log w).
Definition add_io (c : io) (w : receiver) : receiver :=
  Receiver (ifName w) (ifr_name w) (ifr_flags w) (buf w) (c :: log w).

(** The variables have their sizes. *)
Definition sized (w : receiver) : Prop :=
  length (ifName w) = IFNAMSIZ /\ length (ifr_name w) = IFNAMSIZ /\ length (buf w) = BUF_SIZ.

(** What was printed. *)
Fixpoint printed (log : list io) : list Z :=
  match log with
  | [] => []
  | printf s :: log => printed log ++ s
  | _ :: log => printed log
  end.

(** ** Operations *)

Section operations.
Context `{Os}.

Definition call (c : io) : M receiver Z := fun w => Done (ret (log w) c) (add_io c w).
Definition call_void (c : io) : M receiver () := modify (add_io c).

(** The name of the interface: the argument, or the default. *)
Definition get_name (argv1 : option (list Z)) (default_if : list Z) : M receiver () :=
  old ← gets ifName;
  new ← lift (strcpy old (default default_if argv1));
  modify (set_ifName new).

(** A [setsockopt] that must succeed. *)
Definition setsockopt (c : io) (what : list Z) (fd : Z) : M receiver () :=
  r ← call c;
  if r =? -1 then call_void (perror what);; call_void (close fd);; halt else mret ().

(** The socket: promiscuous, reusable, and bound to the interface. *)
Definition open_socket : M receiver Z :=
  sockfd ← call socket;
  if sockfd =? -1 then call_void (perror (text "listener: socket"));; halt else
  name ← gets ifName;
  old ← gets ifr_name;
  new ← lift (strncpy old name (IFNAMSIZ - 1));
  modify (set_ifr_name new);;
  l ← gets log;
  r ← call (ioctl_SIOCGIFFLAGS sockfd new);
  (if 0 <=? r then modify (set_ifr_flags (u16 (if_flags l))) else mret ());;
  flags ← gets ifr_flags;
  modify (set_ifr_flags (u16 (Z.lor flags IFF_PROMISC)));;
  flags ← gets ifr_flags;
  _ ← call (ioctl_SIOCSIFFLAGS sockfd new flags);
  setsockopt (setsockopt_REUSEADDR sockfd) (text "setsockopt") sockfd;;
  setsockopt (setsockopt_BINDTODEVICE sockfd (take (IFNAMSIZ - 1) name)) (text "SO_BINDTODEVICE") sockfd;;
  mret sockfd.

(** [recvfrom]; [numbytes]. *)
Definition receive (sockfd : Z) (r : received) : M receiver Z :=
  call_void (printf (text "listener: Waiting to recvfrom..." ++ [10]));;
  call_void (recvfrom sockfd);;
  numbytes ← match r with
             | Failed => mret (-1)
             | Got data =>
                 b ← gets buf;
                 b ← lift (memcpy_at b 0 data (length data));
                 modify (set_buf b);;
                 mret (Z.of_nat (length data))
             end;
  call_void (printf (text "listener: got packet " ++ format_lu long_bits numbytes ++ text " bytes" ++ [10]));;
  mret numbytes.

Definition byte_at (i : nat) : M receiver Z := b ← gets buf; lift (b !! i).

(** [printf("%02x", buf[i])] *)
Definition print_byte (i : nat) : M receiver () :=
  c ← byte_at i;
  call_void (printf (format_02x c)).

(** A loop that prints the bytes at these places. *)
Fixpoint print_bytes (places : list nat) : M receiver () :=
  match places with
  | [] => mret ()
  | i :: places => print_byte i;; print_bytes places
  end.
End operations.

(** ** The two programs *)

Module Eth.
Section operations.
Context `{Os}.

(** [buf[i-2] == 0xe5 && buf[i-1] == 0x98 && buf[i] == 0xc0] *)
Definition has_prefix (i : nat) : M receiver bool :=
  if (1 <? i)%nat then
    a ← byte_at (i - 2);
    if negb (a =? 0xe5) then mret false else
    b ← byte_at (i - 1);
    if negb (b =? 0x98) then mret false else
    c ← byte_at i;
    mret (c =? 0xc0)
  else mret false.

(** The loop over the frame, with [n] bytes to go; [d]. *)
Fixpoint dump (n i : nat) (d : bool) : M receiver bool :=
  match n with
  | O => mret d
  | S n =>
      print_byte i;;
      found ← has_prefix i;
      dump n (S i) (if (found : bool) then true else d)
  end.

(** From the label [repeat] to the [goto] that leads back to it. *)
Definition round (sockfd : Z) (r : received) : M receiver () :=
  numbytes ← receive sockfd r;
  _ ← dump (Z.to_nat numbytes) 0 false;
  call_void (printf [10]);;
  call_void (printf (text "addr: "));;
  print_bytes [14; 13; 12; 11; 10; 9; 8; 7]%nat;;
  call_void (printf [10]);;
  call_void (printf (text "destination: "));;
  print_bytes (seq 18 16);;
  call_void (printf [10]);;
  c ← byte_at 34;
  call_void (printf (text "transport: " ++ format_02x c ++ [10])).

Fixpoint repeat (sockfd : Z) (rs : list received) : M receiver () :=
  match rs with
  | [] => mret ()
  | r :: rs => round sockfd r;; repeat sockfd rs
  end.

Definition main (argv1 : option (list Z)) (rs : list received) : M receiver () :=
  get_name argv1 (text "eth0");;
  name ← gets ifName;
  call_void (printf (text "Interface: " ++ cstring name ++ [10]));;
  sockfd ← open_socket;
  repeat sockfd rs.
End operations.
End Eth.

Module Wpan.
Section operations.
Context `{Os}.

(** The body of the loop. *)
Definition round (sockfd : Z) (r : received) : M receiver () :=
  numbytes ← receive sockfd r;
  print_bytes (seq 0 (Z.to_nat numbytes));;
  call_void (printf [10]).

Fixpoint repeat (sockfd : Z) (rs : list received) : M receiver () :=
  match rs with
  | [] => mret ()
  | r :: rs => round sockfd r;; repeat sockfd rs
  end.

Definition main (argv1 : option (list Z)) (rs : list received) : M receiver () :=
  get_name argv1 (text "wpan0");;
  sockfd ← open_socket;
  repeat sockfd rs.
End operations.
End Wpan.

(** ** What is shown *)

Definition frame (r : received) : list Z := match r with Got data => data | Failed => [] end.
Definition size (r : received) : Z := match r with Got data => Z.of_nat (length data) | Failed => -1 end.

(** The buffer after a call of [recvfrom]: behind a frame there is still what was
    there before. *)
Definition overlay (b : list Z) (r : received) : list Z := frame r ++ drop (length (frame r)) b.

Definition fits (r : received) : Prop := (length (frame r) <= BUF_SIZ)%nat.

#[export] Instance fits_dec r : Decision (fits r).
Proof. unfold fits. apply _. Defined.
#[export] Instance sized_dec w : Decision (sized w).
Proof. unfold sized. apply _. Defined.

(** The bytes at these places. *)
Definition bytes_at (places : list nat) (b : list Z) : list Z := (fun i => b !!! i) <$> places.

Section show.
Context `{Os}.

Definition announced (r : received) : list Z :=
  text "listener: Waiting to recvfrom..." ++ [10] ++
  text "listener: got packet " ++ format_lu long_bits (size r) ++ text " bytes" ++ [10].

Definition wpan_shows (r : received) : list Z := announced r ++ hexdump (frame r) ++ [10].

(** The lines behind the frame, for a buffer. *)
Definition eth_fields (b : list Z) : list Z :=
  text "addr: " ++ hexdump (bytes_at [14; 13; 12; 11; 10; 9; 8; 7]%nat b) ++ [10] ++
  text "destination: " ++ hexdump (bytes_at (seq 18 16) b) ++ [10] ++
  text "transport: " ++ hexdump (bytes_at [34%nat] b) ++ [10].

Fixpoint eth_shows (b : list Z) (rs : list received) : list Z :=
  match rs with
  | [] => []
  | r :: rs =>
      announced r ++ hexdump (frame r) ++ [10] ++ eth_fields (overlay b r) ++
      eth_shows (overlay b r) rs
  end.

Implicit Types w : receiver.

(** More was printed; nothing else has changed. *)
Definition shows (s : list Z) w w' : Prop :=
  sized w' /\ buf w' = buf w /\ printed (log w') = printed (log w) ++ s.

Lemma shows_trans s1 s2 w1 w2 w3 : shows s1 w1 w2 -> shows s2 w2 w3 -> shows (s1 ++ s2) w1 w3.
Proof. intros (_ & E1 & E2) (? & E3 & E4). split; [done|]. split; [congruence|]. by rewrite E4, E2, app_assoc. Qed.

(** One output after the other. *)
Lemma shows_seq (m k : M receiver ()) s1 s2 w :
  wp m w (fun _ => shows s1 w) (fun _ => False) ->
  (forall w1, sized w1 -> buf w1 = buf w -> wp k w1 (fun _ => shows s2 w1) (fun _ => False)) ->
  wp (m;; k) w (fun _ => shows (s1 ++ s2) w) (fun _ => False).
Proof.
  intros Hm Hk. apply wp_bind. eapply wp_mono; [exact Hm| |done]. intros [] w1 H1.
  eapply wp_mono; [apply Hk; apply H1| |done]. intros [] w2 H2. by eapply shows_trans.
Qed.

Lemma shows_printf s w : sized w -> wp (call_void (printf s)) w (fun _ => shows s w) (fun _ => False).
Proof. done. Qed.

Lemma wp_print_byte i w :
  sized w -> (i < BUF_SIZ)%nat ->
  wp (print_byte i) w (fun _ => shows (format_02x (buf w !!! i)) w) (fun _ => False).
Proof.
  intros Hw Hi. unfold print_byte, byte_at. destruct Hw as (? & ? & Hb).
  apply wp_bind, wp_bind, wp_gets, wp_lift. exists (buf w !!! i). split; [|done].
  apply list_lookup_lookup_total_lt. lia.
Qed.

Lemma wp_print_bytes places w :
  sized w -> Forall (fun i => i < BUF_SIZ)%nat places ->
  wp (print_bytes places) w (fun _ => shows (hexdump (bytes_at places (buf w))) w) (fun _ => False).
Proof.
  intros Hw Hp. revert w Hw. induction Hp as [|i places Hi Hp IH]; intros w Hw; cbn [print_bytes].
  { apply wp_ret. split_and!; try apply Hw; [done|]. by rewrite app_nil_r. }
  apply wp_bind. eapply wp_mono; [by apply wp_print_byte| |done]. intros [] w1 H1.
  eapply wp_mono; [apply IH, H1| |done]. intros [] w2 H2.
  pose proof (shows_trans _ _ _ _ _ H1 H2) as H3. destruct H1 as (_ & Eb & _). by rewrite Eb in H3.
Qed.

(** *** Receiving *)

(** The frame is in the buffer, and the second line says how long it is. *)
Lemma wp_receive fd r w :
  sized w -> fits r ->
  wp (receive fd r) w (fun n w' => n = size r /\ sized w' /\ buf w' = overlay (buf w) r /\
    printed (log w') = printed (log w) ++ announced r) (fun _ => False).
Proof.
  intros (Hn & Hi & Hb) Hr. unfold receive, announced, overlay.
  do 2 apply wp_bind, wp_modify. apply wp_bind. destruct r as [data|]; cbn [frame size].
  - apply wp_bind, wp_gets, wp_bind, wp_lift. eexists.
    split; [apply memcpy_at_ok; [cbn; rewrite Hb; exact Hr|lia]|].
    apply wp_bind, wp_modify, wp_ret, wp_bind, wp_modify, wp_ret. split; [done|].
    cbn [buf set_buf add_io log printed ifName ifr_name]. rewrite (take_ge data) by lia.
    split_and!; [|done|by rewrite <-!app_assoc].
    split_and!; [done..|]. cbn [fits frame] in Hr. unfold fits in Hr. cbn [frame] in Hr.
    cbn [buf add_io set_buf]. rewrite !length_app, length_take, length_drop, Hb. lia.
  - apply wp_ret, wp_bind, wp_modify, wp_ret. cbn [app length]. rewrite drop_0.
    split_and!; try done. cbn [buf set_buf add_io log printed]. by rewrite <-!app_assoc.
Qed.

(** The places [0] to [n-1] of the overlaid buffer are the frame. *)
Lemma bytes_at_frame b r :
  bytes_at (seq 0 (length (frame r))) (overlay b r) = frame r.
Proof.
  unfold bytes_at, overlay. apply list_eq. intros i. rewrite list_lookup_fmap.
  destruct (decide (i < length (frame r))%nat) as [Hi|Hi].
  - rewrite lookup_seq_lt by done. cbn [fmap option_fmap option_map].
    rewrite lookup_total_app_l by done. by rewrite list_lookup_lookup_total_lt.
  - rewrite lookup_seq_ge, lookup_ge_None_2 by lia. done.
Qed.

Lemma size_frame r : Z.to_nat (size r) = length (frame r).
Proof. destruct r; cbn [size frame]; [by rewrite Nat2Z.id|done]. Qed.

Lemma wp_wpan_round fd r w :
  sized w -> fits r ->
  wp (Wpan.round fd r) w (fun _ w' => sized w' /\ buf w' = overlay (buf w) r /\
    printed (log w') = printed (log w) ++ wpan_shows r) (fun _ => False).
Proof.
  intros Hw Hr. unfold Wpan.round. apply wp_bind. eapply wp_mono; [by apply wp_receive| |done].
  intros n w1 (-> & Hw1 & Eb & E1). rewrite size_frame. apply wp_bind.
  eapply wp_mono; [apply wp_print_bytes; [done|]| |done].
  { apply Forall_seq. unfold fits in Hr. lia. }
  intros [] w2 (Hw2 & Eb2 & E2). apply wp_modify. rewrite Eb, bytes_at_frame in E2.
  split_and!; [apply Hw2..|by cbn [buf add_io]; congruence|].
  cbn [log add_io printed]. rewrite E2, E1. unfold wpan_shows. by rewrite <-!app_assoc.
Qed.

(** The loop over the frame prints the frame, and finds the address prefix. *)
Definition found (i : nat) (b : list Z) : bool :=
  (1 <? i)%nat && (b !!! (i - 2)%nat =? 0xe5) && (b !!! (i - 1)%nat =? 0x98) && (b !!! i =? 0xc0).

Lemma byte_at_Done i w : sized w -> (i < BUF_SIZ)%nat -> byte_at i w = Done (buf w !!! i) w.
Proof.
  intros (_ & _ & Hb) Hi. unfold byte_at. run_effects.
  by rewrite (list_lookup_lookup_total_lt (buf w) i) by lia.
Qed.

Lemma has_prefix_Done i w :
  sized w -> (i < BUF_SIZ)%nat -> Eth.has_prefix i w = Done (found i (buf w)) w.
Proof.
  intros Hw Hi. unfold Eth.has_prefix, found. destruct (Nat.ltb_spec 1 i); [|done]. cbn [andb].
  rewrite (bind_Done _ _ _ _ _ (byte_at_Done (i - 2) w Hw ltac:(lia))).
  destruct (_ =? 0xe5); [|done]. cbn [negb andb].
  rewrite (bind_Done _ _ _ _ _ (byte_at_Done (i - 1) w Hw ltac:(lia))).
  destruct (_ =? 0x98); [|done]. cbn [negb andb].
  by rewrite (bind_Done _ _ _ _ _ (byte_at_Done i w Hw Hi)).
Qed.

Lemma wp_dump n i d w :
  sized w -> (i + n <= BUF_SIZ)%nat ->
  wp (Eth.dump n i d) w
    (fun d' w' => d' = d || existsb (fun j => found j (buf w)) (seq i n) /\
      shows (hexdump (bytes_at (seq i n) (buf w))) w w') (fun _ => False).
Proof.
  revert i d w. induction n as [|n IH]; intros i d w Hw Hi; cbn [Eth.dump].
  { apply wp_ret. split; [by rewrite orb_false_r|]. split_and!; try apply Hw; [done|]. by rewrite app_nil_r. }
  apply wp_bind. eapply wp_mono; [apply wp_print_byte; [done|lia]| |done]. intros [] w1 H1.
  apply wp_bind. unfold wp at 1. rewrite has_prefix_Done by (apply H1 || lia).
  eapply wp_mono; [apply IH; [apply H1|lia]| |done]. intros d' w2 [-> H2].
  pose proof (shows_trans _ _ _ _ _ H1 H2) as H3. destruct H1 as (_ & Eb & _). rewrite Eb in H3 |- *.
  split; [|exact H3]. cbn [seq existsb]. by destruct (found i (buf w)), d.
Qed.

(** The lines behind the frame. *)
Lemma wp_eth_fields w :
  sized w ->
  wp (call_void (printf [10]);;
      call_void (printf (text "addr: "));;
      print_bytes [14; 13; 12; 11; 10; 9; 8; 7]%nat;;
      call_void (printf [10]);;
      call_void (printf (text "destination: "));;
      print_bytes (seq 18 16);;
      call_void (printf [10]);;
      c ← byte_at 34;
      call_void (printf (text "transport: " ++ format_02x c ++ [10])))
    w (fun _ => shows ([10] ++ eth_fields (buf w)) w) (fun _ => False).
Proof.
  intros Hw. unfold eth_fields.
  apply shows_seq; [by apply shows_printf|intros w1 Hw1 <-].
  apply shows_seq; [by apply shows_printf|intros w2 Hw2 <-].
  apply shows_seq; [apply wp_print_bytes; [done|vm_decide]|intros w3 Hw3 <-].
  apply shows_seq; [by apply shows_printf|intros w4 Hw4 <-].
  apply shows_seq; [by apply shows_printf|intros w5 Hw5 <-].
  apply shows_seq; [apply wp_print_bytes; [done|vm_decide]|intros w6 Hw6 <-].
  apply shows_seq; [by apply shows_printf|intros w7 Hw7 <-].
  apply wp_bind. unfold wp at 1. rewrite byte_at_Done by (done || vm_decide).
  unfold hexdump, bytes_at. cbn [fmap list_fmap concat]. rewrite app_nil_r. by apply shows_printf.
Qed.

Lemma wp_eth_round fd r w :
  sized w -> fits r ->
  wp (Eth.round fd r) w (fun _ w' => sized w' /\ buf w' = overlay (buf w) r /\
    printed (log w') = printed (log w) ++
      announced r ++ hexdump (frame r) ++ [10] ++ eth_fields (overlay (buf w) r)) (fun _ => False).
Proof.
  intros Hw Hr. unfold Eth.round. apply wp_bind. eapply wp_mono; [by apply wp_receive| |done].
  intros n w1 (-> & Hw1 & Eb & E1). rewrite size_frame. apply wp_bind.
  eapply wp_mono; [apply wp_dump; [done|unfold fits in Hr; lia]| |done].
  intros d w2 [_ H2]. rewrite Eb, bytes_at_frame in H2.
  eapply wp_mono; [by apply (wp_eth_fields w2), H2| |done]. intros [] w3 H3.
  destruct (shows_trans _ _ _ _ _ H2 H3) as (Hw3 & Eb3 & E3). rewrite Eb in Eb3.
  split; [done|]. split; [done|]. rewrite E3, E1, <-!app_assoc. do 3 f_equal.
  destruct H2 as (_ & Eb2 & _). by rewrite Eb2, Eb.
Qed.

Lemma wp_wpan_repeat fd rs w :
  sized w -> Forall fits rs ->
  wp (Wpan.repeat fd rs) w (fun _ w' =>
    printed (log w') = printed (log w) ++ concat (wpan_shows <$> rs)) (fun _ => False).
Proof.
  intros Hw Hrs. revert w Hw. induction Hrs as [|r rs Hr Hrs IH]; intros w Hw; cbn [Wpan.repeat].
  { apply wp_ret. by rewrite app_nil_r. }
  apply wp_bind. eapply wp_mono; [by apply wp_wpan_round| |done]. intros [] w1 (Hw1 & _ & E1).
  eapply wp_mono; [by apply IH| |done]. intros [] w2 E2. cbn [fmap list_fmap concat].
  by rewrite E2, E1, app_assoc.
Qed.

Lemma wp_eth_repeat fd rs w :
  sized w -> Forall fits rs ->
  wp (Eth.repeat fd rs) w (fun _ w' =>
    printed (log w') = printed (log w) ++ eth_shows (buf w) rs) (fun _ => False).
Proof.
  intros Hw Hrs. revert w Hw. induction Hrs as [|r rs Hr Hrs IH]; intros w Hw; cbn [Eth.repeat].
  { apply wp_ret. by rewrite app_nil_r. }
  apply wp_bind. eapply wp_mono; [by apply wp_eth_round| |done]. intros [] w1 (Hw1 & Eb & E1).
  eapply wp_mono; [by apply IH| |done]. intros [] w2 E2. cbn [eth_shows].
  by rewrite E2, E1, Eb, <-!app_assoc.
Qed.

(** *** The setup *)

Lemma get_name_Undef argv1 d w :
  sized w -> (IFNAMSIZ <= length (cstring (default d argv1)))%nat -> get_name argv1 d w = Undef.
Proof.
  intros (Hn & _) Hlong. unfold get_name. run_effects.
  by rewrite (proj2 (strcpy_overflow _ _)) by lia.
Qed.

Lemma wp_get_name argv1 d w :
  sized w -> (length (cstring (default d argv1)) < IFNAMSIZ)%nat ->
  wp (get_name argv1 d) w (fun _ w' => sized w' /\ cstring (ifName w') = cstring (default d argv1) /\
    ifr_flags w' = ifr_flags w /\ buf w' = buf w /\ log w' = log w) (fun _ => False).
Proof.
  intros (Hn & Hi & Hb) Hshort. unfold get_name. apply wp_bind, wp_gets, wp_bind, wp_lift.
  destruct (strcpy_ok (ifName w) (default d argv1)) as (new & E & Hl & Hc); [lia|].
  exists new. split; [done|]. apply wp_modify. split_and!; try done. by split_and!; [rewrite <-Hn|..].
Qed.

Lemma wp_setsockopt c what fd w :
  wp (setsockopt c what fd) w (fun _ w' => w' = add_io c w /\ ret (log w) c <> -1)
    (fun w' => w' = add_io (close fd) (add_io (perror what) (add_io c w)) /\ ret (log w) c = -1).
Proof.
  unfold setsockopt, call. run_effects. unfold wp. destruct (Z.eqb_spec (ret (log w) c) (-1)); done.
Qed.

(** The calls that open a socket: the flags that are set are those of the
    interface, or what the variable held if they could not be read, with
    [IFF_PROMISC]; [nm] and [dev] begin with the name of the interface. *)
Definition set_flags (fd : Z) (nm : list Z) w : list io :=
  let asked := ioctl_SIOCGIFFLAGS fd nm in
  let flags := if 0 <=? ret (socket :: log w) asked then u16 (if_flags (socket :: log w)) else ifr_flags w in
  [ioctl_SIOCSIFFLAGS fd nm (u16 (Z.lor flags IFF_PROMISC)); asked; socket].

Definition names_start (name nm dev : list Z) : Prop := name `prefix_of` nm /\ name `prefix_of` dev.

Lemma cstring_prefix n s : (length (cstring s) <= n)%nat -> cstring s `prefix_of` take n s.
Proof.
  revert n. induction s as [|c s IH]; intros n Hn; cbn [cstring] in *; [by exists (take n [])|].
  destruct (c =? 0); [by eexists|]. destruct n as [|n]; [simpl in Hn; lia|].
  cbn [take]. apply prefix_cons, IH. simpl in Hn. lia.
Qed.

(** The socket is open, by these calls since [w]. *)
Definition opened (name : list Z) w (fd : Z) w' : Prop :=
  fd = ret (log w) socket /\ exists nm dev, names_start name nm dev /\
    log w' = setsockopt_BINDTODEVICE fd dev :: setsockopt_REUSEADDR fd :: set_flags fd nm w ++ log w.

(** A call has failed: there is a message, and no open socket. *)
Definition given_up (name : list Z) w w' : Prop :=
  let fd := ret (log w) socket in
  fd = -1 /\ log w' = perror (text "listener: socket") :: socket :: log w \/
  fd <> -1 /\ exists nm dev, names_start name nm dev /\
    (log w' = close fd :: perror (text "setsockopt") :: setsockopt_REUSEADDR fd ::
       set_flags fd nm w ++ log w \/
     log w' = close fd :: perror (text "SO_BINDTODEVICE") :: setsockopt_BINDTODEVICE fd dev ::
       setsockopt_REUSEADDR fd :: set_flags fd nm w ++ log w).

Lemma wp_open_socket w :
  sized w -> (length (cstring (ifName w)) < IFNAMSIZ)%nat ->
  wp open_socket w
    (fun fd w' => sized w' /\ buf w' = buf w /\ opened (cstring (ifName w)) w fd w')
    (given_up (cstring (ifName w)) w).
Proof.
  intros (Hn & Hi & Hb) Hlen. unfold open_socket, call. apply wp_bind. unfold wp at 1.
  set (fd := ret (log w) socket). destruct (Z.eqb_spec fd (-1)) as [E|Hfd]; [by left|].
  apply wp_bind, wp_gets, wp_bind, wp_gets, wp_bind, wp_lift. cbn [ifName ifr_name add_io].
  destruct (strncpy_ok (ifr_name w) (ifName w) (IFNAMSIZ - 1)) as (nm & Enm & Hnm & Htake); [rewrite Hi; vm_decide|].
  set (dev := take (IFNAMSIZ - 1) (ifName w)).
  assert (names_start (cstring (ifName w)) nm dev) as Hnames.
  { unfold names_start, dev. split; [|apply cstring_prefix; lia].
    etrans; [|exists (drop (IFNAMSIZ - 1) nm); by rewrite take_drop].
    rewrite Htake, (take_ge (cstring (ifName w))) by lia. by eexists. }
  exists nm. split; [done|]. apply wp_bind, wp_modify, wp_bind, wp_gets, wp_bind. unfold wp at 1.
  cbn [log set_ifr_name add_io].
  set (flags := if 0 <=? ret (socket :: log w) (ioctl_SIOCGIFFLAGS fd nm)
    then u16 (if_flags (socket :: log w)) else ifr_flags w).
  set (w1 := add_io (ioctl_SIOCGIFFLAGS fd nm) _).
  apply wp_bind, (wp_mono _ _ (fun _ w2 => w2 = set_ifr_flags flags w1) _ (fun _ => False)); [| |done].
  { unfold flags. by destruct (0 <=? _). }
  intros _ w2 ->. apply wp_bind, wp_gets, wp_bind, wp_modify, wp_bind, wp_gets, wp_bind. unfold wp at 1.
  apply wp_bind. eapply wp_mono; [apply wp_setsockopt| |].
  2:{ intros w3 (-> & _). right. split; [done|]. exists nm, dev. split; [done|]. by left. }
  intros _ w3 (-> & _). apply wp_bind. eapply wp_mono; [apply wp_setsockopt| |].
  2:{ intros w3 (-> & _). right. split; [done|]. exists nm, dev. split; [done|]. by right. }
  intros _ w3 (-> & _). apply wp_ret. split_and!; try done.
  - split_and!; try done. cbn. congruence.
  - split; [done|]. exists nm, dev. by split.
Qed.

Lemma printed_opened name w fd w' : opened name w fd w' -> printed (log w') = printed (log w).
Proof. intros (_ & nm & dev & _ & ->). done. Qed.

Lemma printed_given_up name w w' : given_up name w w' -> printed (log w') = printed (log w).
Proof. by intros [[_ ->]|(_ & nm & dev & _ & [-> | ->])]. Qed.

(** Opening the socket.  A name of 16 characters or more overruns the variable.
    Otherwise the calls are made in this order with that name: the flags of the
    interface are read and set again with [IFF_PROMISC], whether or not they could
    be read, then the address may be reused and the socket is bound to the
    interface.  Only when [socket] or one of the last two calls fails does the
    program end, with a message, and with the socket closed if it was open. *)
Theorem raw_setup_spec argv1 d w :
  sized w ->
  let name := cstring (default d argv1) in
  let setup := get_name argv1 d;; open_socket in
  ((IFNAMSIZ <= length name)%nat <-> setup w = Undef) /\
  ((length name < IFNAMSIZ)%nat -> wp setup w (opened name w) (given_up name w)).
Proof.
  intros Hw name setup.
  assert ((length name < IFNAMSIZ)%nat -> wp setup w (opened name w) (given_up name w)) as Hshort.
  { intros Hlen. unfold setup. apply wp_bind. eapply wp_mono; [by apply wp_get_name| |done].
    intros [] w1 (Hw1 & Ename & Eflags & Ebuf & Elog). unfold name in *. rewrite <-Ename in *.
    eapply wp_mono; [by apply wp_open_socket| |]; unfold opened, given_up, set_flags;
      rewrite Elog, Eflags; [by intros fd w2 (_ & _ & ?)|done]. }
  split; [|done]. split.
  - intros Hlong. unfold setup. cbv [mbind M_bind]. by rewrite get_name_Undef.
  - intros E. apply Nat.nlt_ge. intros Hlen. specialize (Hshort Hlen). unfold wp in Hshort. by rewrite E in Hshort.
Qed.

(** C29: every frame is shown.  Started with an interface whose name has less than
    16 characters, and through any sequence of frames and failed calls, both programs print for each the number of bytes
    and the bytes of the frame in hexadecimal, from which the frame can be read
    back, and nothing else; [recvRawEth] also the bytes at the places of the
    addresses and the transport header, which for a frame of at least 35 bytes
    are its own.  When the socket cannot be opened no frame is shown. *)
Theorem frames_are_shown argv1 rs w :
  sized w -> Forall fits rs -> (length (cstring (default [] argv1)) < IFNAMSIZ)%nat ->
  let interface := text "Interface: " ++ cstring (default (text "eth0") argv1) ++ [10] in
  wp (Wpan.main argv1 rs) w
    (fun _ w' => printed (log w') = printed (log w) ++ concat (wpan_shows <$> rs))
    (fun w' => printed (log w') = printed (log w)) /\
  wp (Eth.main argv1 rs) w
    (fun _ w' => printed (log w') = printed (log w) ++ interface ++ eth_shows (buf w) rs)
    (fun w' => printed (log w') = printed (log w) ++ interface) /\
  (forall r, r ∈ rs -> Forall byte (frame r) -> unhex (hexdump (frame r)) = frame r) /\
  (forall r b, (35 <= length (frame r))%nat -> eth_fields (overlay b r) = eth_fields (frame r)).
Proof.
  intros Hw Hrs Hlen interface.
  assert (forall d, (length (cstring d) < IFNAMSIZ)%nat ->
    (length (cstring (default d argv1)) < IFNAMSIZ)%nat) as Hd by (intros; by destruct argv1).
  split_and!.
  - unfold Wpan.main. apply wp_bind. eapply wp_mono; [apply wp_get_name; [done|apply Hd; vm_decide]| |done].
    intros [] w1 (Hw1 & Ename & _ & _ & Elog). apply wp_bind.
    eapply wp_mono; [apply wp_open_socket; [done|rewrite Ename; apply Hd; vm_decide]| |].
    + intros fd w2 (Hw2 & _ & E2%printed_opened). eapply wp_mono; [by apply wp_wpan_repeat| |done].
      intros [] w3 ->. by rewrite E2, Elog.
    + intros w2 ->%printed_given_up. by rewrite Elog.
  - unfold Eth.main. apply wp_bind. eapply wp_mono; [apply wp_get_name; [done|apply Hd; vm_decide]| |done].
    intros [] w1 (Hw1 & Ename & _ & Eb & Elog). apply wp_bind, wp_gets, wp_bind, wp_modify, wp_bind.
    eapply wp_mono; [apply wp_open_socket; [done|cbn; rewrite Ename; apply Hd; vm_decide]| |].
    + intros fd w2 (Hw2 & Eb2 & E2%printed_opened). eapply wp_mono; [by apply wp_eth_repeat| |done].
      intros [] w3 ->. rewrite E2, Eb2. cbn [log add_io printed buf]. by rewrite Ename, Elog, Eb, <-app_assoc.
    + intros w2 ->%printed_given_up. cbn [log add_io printed]. by rewrite Ename, Elog.
  - intros r _. apply unhex_hexdump.
  - intros r b Hr. assert (forall places, Forall (fun i => i < 35)%nat places ->
      bytes_at places (overlay b r) = bytes_at places (frame r)) as Hp.
    { intros places. unfold bytes_at, overlay. induction 1 as [|i places Hi _ IH]; [done|].
      cbn [fmap list_fmap]. f_equal; [by rewrite lookup_total_app_l by lia|exact IH]. }
    unfold eth_fields. by rewrite !Hp by vm_decide.
Qed.

(** Behind a shorter frame the transport byte of an earlier one is shown. *)
Theorem transport_of_earlier_frame b r :
  (length (frame r) <= 34)%nat -> bytes_at [34%nat] (overlay b r) = bytes_at [34%nat] b.
Proof.
  intros Hr. unfold bytes_at, overlay. cbn [fmap list_fmap]. f_equal.
  rewrite lookup_total_app_r by done. rewrite lookup_total_drop. f_equal. lia.
Qed.
End show.

(** ** Witnesses *)

(** A system with the interface "wpan0" only; [ioctl] fails for any other. *)
Definition demo_os : Os := {|
  ret l c := match c with
             | socket => 3
             | ioctl_SIOCGIFFLAGS _ name => if bool_decide (take 5 name = text "wpan0") then 0 else -1
             | setsockopt_BINDTODEVICE _ name => if bool_decide (take 5 name = text "wpan0") then 0 else -1
             | _ => 0
             end;
  if_flags _ := 0x43;
  IFF_PROMISC := 0x100;
  long_bits := 32;
|}.

Definition demo_receiver : receiver :=
  Receiver (replicate 16 7) (replicate 16 7) 0 (replicate 1024 0) [].

Lemma raw_setup_spec_witness :
  exists fd w', (get_name None (text "wpan0");; open_socket (H:=demo_os)) demo_receiver = Done fd w' /\
    @opened demo_os (text "wpan0") demo_receiver fd w'.
Proof.
  destruct (raw_setup_spec (H:=demo_os) None (text "wpan0") demo_receiver ltac:(vm_decide)) as [_ H].
  exact (wp_run _ _ _ _ (H ltac:(vm_decide)) ltac:(vm_compute; reflexivity)).
Defined.

(** A frame, a failed call, and a short frame. *)
Definition demo_frames : list received := [Got (Z.of_nat <$> seq 100 40); Failed; Got [0x41; 0xc8]].

Lemma frames_are_shown_witness :
  exists w', Wpan.main (H:=demo_os) None demo_frames demo_receiver = Done () w' /\
    printed (log w') = concat ((wpan_shows (H:=demo_os)) <$> demo_frames) /\
    unhex (hexdump [0x41; 0xc8]) = [0x41; 0xc8].
Proof.
  destruct (frames_are_shown (H:=demo_os) None demo_frames demo_receiver ltac:(vm_decide) ltac:(vm_decide)
    ltac:(vm_decide)) as (Hwpan & _ & Hhex & _).
  destruct (wp_run _ _ _ _ Hwpan ltac:(vm_compute; reflexivity)) as ([] & w' & E & Hp).
  exists w'. split; [exact E|]. split; [exact Hp|].
  apply (Hhex (Got [0x41; 0xc8])); [|vm_decide]. do 2 right. left.
Defined.
End RawRecv.
