(* ===== verification/TunnelRoutes.v ===== *)
(** * The routing table of the tunnel server

    Models the data of [src/gateway/tunnel/tunnel-server.c] and what it computes
    with it: the table of clients, indexed by file descriptor, the fields of an
    IPv6 header in the packet buffer, the searches of the table, and
    [parse_prefixes], which reads the assignments of the DHCP server from a file.

    [inet_pton] and the file are not part of the repository: the first is a
    parameter of the model, the second an argument. *)
From S2P Require Import Prelude CLib.

Module Routes.

(** ** Data *)

(** [struct in6_addr]: 16 bytes. *)
Abbreviation in6_addr := (list Z) (only parsing).

Record socket_prefix := SocketPrefix {
  addr_pd : in6_addr; plen_pd : Z; addr_ll : in6_addr; plen_ll : Z;
}.

Definition zero_addr : in6_addr := replicate 16 0.
Definition zero_prefix : socket_prefix := SocketPrefix zero_addr 0 zero_addr 0.

(** The table [prefixes] of [main]. *)
Abbreviation table := (list socket_prefix) (only parsing).
Definition no_clients : table := replicate 512 zero_prefix.

(** ** IPv6 headers *)

(** [iph->version], [iph->saddr] and [iph->daddr] of [struct ipv6hdr]. *)
Definition version (buf : list Z) : Z := Z.shiftr (buf !!! 0%nat) 4.
Definition saddr (buf : list Z) : in6_addr := take 16 (drop 8 buf).
Definition daddr (buf : list Z) : in6_addr := take 16 (drop 24 buf).

(** [memcmp(a, b, n) == 0] *)
Definition memcmp_eq (a b : list Z) (n : nat) : bool := bool_decide (take n a = take n b).

(** ** The tests on addresses *)

Definition in_slash_52 (d p : in6_addr) : bool :=
  memcmp_eq d p 6 && (Z.land (d !!! 6%nat) 0xf0 =? Z.land (p !!! 6%nat) 0xf0).

Definition in_slash_62 (d p : in6_addr) : bool :=
  memcmp_eq d p 7 && (Z.land (d !!! 7%nat) 0xfc =? Z.land (p !!! 7%nat) 0xfc).

Definition in_slash_64 (d p : in6_addr) : bool := memcmp_eq d p 8.

Definition link_local (d : in6_addr) : bool :=
  (d !!! 0%nat =? 0xfe) && (d !!! 1%nat =? 0x80).

Definition same_interface (d p : in6_addr) : bool := memcmp_eq (drop 8 d) (drop 8 p) 8.

(** ** The searches of the table

    [for (j=0; j<512; j++)] with [break] at the first match. *)

Fixpoint find_from (test : socket_prefix -> bool) (prefixes : table) (j : nat) : option nat :=
  match prefixes with
  | [] => None
  | p :: prefixes => if test p then Some j else find_from test prefixes (S j)
  end.

Definition find_pd (d : in6_addr) (prefixes : table) : option nat :=
  find_from (fun p => negb (plen_pd p =? 0) && in_slash_62 d (addr_pd p)) prefixes 0.

Definition find_ll (d : in6_addr) (prefixes : table) : option nat :=
  find_from (fun p => negb (plen_ll p =? 0) && same_interface d (addr_ll p)) prefixes 0.

(** What happens to the table when a packet comes from a client, and when its
    connection ends. *)
Definition learn (buf : list Z) (p : socket_prefix) : socket_prefix :=
  if plen_ll p =? 0 then
    if version buf =? 6 then
      if link_local (saddr buf) then SocketPrefix (addr_pd p) (plen_pd p) (saddr buf) 128
      else p
    else p
  else p.

Definition forget (p : socket_prefix) : socket_prefix :=
  SocketPrefix (addr_pd p) 0 (addr_ll p) 0.

(** ** The assignments file *)

Definition NL : Z := 10.
Definition SP : Z := 32.
Definition ZERO : Z := 48.

(** [fgets(line, 512, file)] at what is left of the file: the characters read,
    what is left then, and whether the end was met ([feof]). *)
Fixpoint fgets (n : nat) (file : list Z) : list Z * list Z * bool :=
  match n with
  | O => ([], file, false)
  | S n =>
      match file with
      | [] => ([], [], true)
      | c :: file =>
          if c =? NL then ([c], file, false) else
          let '(line, rest, eof) := fgets n file in (c :: line, rest, eof)
      end
  end.

Class Libc := {
  (** [inet_pton(AF_INET6, s, &a)]: the address, if it could be converted *)
  inet_pton : list Z -> option in6_addr;
  inet_pton_length s a : inet_pton s = Some a -> length a = 16%nat;
}.

Section operations.
Context `{Libc}.

(** [inet_pton] leaves the destination alone when it cannot convert. *)
Definition convert (s : list Z) (a : in6_addr) : in6_addr := default a (inet_pton s).

(** The inner loop over the characters of a line.  [ptr2] is set once a space
    was seen ([passes]).  [Some (local, block, match)], or [None] for an access
    outside of the line. *)
Fixpoint scan_line (fuel : nat) (line : list Z) (ptr : nat) (ptr2 : option nat)
    (local block : in6_addr) : option (in6_addr * in6_addr * bool) :=
  match fuel with
  | O => None
  | S fuel =>
      c ← line !! ptr;
      if c =? 0 then Some (local, block, false) else
      match ptr2 with
      | None =>
          if c =? SP then
            line ← store_at line ptr 0;
            scan_line fuel line (S ptr) (Some (S ptr)) (convert (string_at line 0) local) block
          else scan_line fuel line (S ptr) None local block
      | Some start =>
          if c =? NL then
            line ← store_at line ptr 0;
            if decide (ptr < 3)%nat then None else
            line ← store_at line (ptr - 1) ZERO;
            line ← store_at line (ptr - 2) ZERO;
            line ← store_at line (ptr - 3) ZERO;
            Some (local, convert (string_at line start) block, true)
          else scan_line fuel line (S ptr) (Some start) local block
      end
  end.

(** The loop over the table: the first client with this link-local address gets
    the block. *)
Fixpoint assign (local block : in6_addr) (prefixes : table) : table :=
  match prefixes with
  | [] => []
  | p :: prefixes =>
      if negb (plen_ll p =? 0) && memcmp_eq (addr_ll p) local 16
      then SocketPrefix block 62 (addr_ll p) (plen_ll p) :: prefixes
      else p :: assign local block prefixes
  end.

(** The loop over the lines.  [line] is the buffer of 512 characters, [local]
    and [block] the variables of the last iteration: they are not initialised
    in the next. *)
Fixpoint parse_lines (fuel : nat) (file line : list Z) (local block : in6_addr)
    (prefixes : table) : option table :=
  match fuel with
  | O => None
  | S fuel =>
      let '(read, rest, eof) := fgets 511 file in
      if (eof : bool) then Some prefixes else
      let line := read ++ [0] ++ drop (length read + 1) line in
      '(local, block, matched) ← scan_line 513 line 0 None local block;
      parse_lines fuel rest line local block
        (if (matched : bool) then assign local block prefixes else prefixes)
  end.

(** [parse_prefixes(prefixes)] on the contents of the file; the variables start
    with whatever the stack holds. *)
Definition parse_prefixes (file stack : list Z) (local block : in6_addr) (prefixes : table) :
    option table :=
  parse_lines (S (length file)) file stack local block prefixes.
End operations.

(** ** Addresses as numbers *)

(** The value of a string of bytes, most significant first. *)
Definition be (l : list Z) : Z := foldl (fun n b => n * 256 + b) 0 l.

Definition address (a : in6_addr) : Prop := length a = 16%nat /\ Forall byte a.

#[export] Instance address_dec a : Decision (address a).
Proof. unfold address. apply _. Defined.

(** The number of the network of [n] bits an address is in. *)
Definition network (n : Z) (a : in6_addr) : Z := Z.shiftr (be a) (128 - n).

(** ** Lemmas on addresses *)

Lemma foldl_be l n :
  foldl (fun n b => n * 256 + b) n l = n * 256 ^ Z.of_nat (length l) + be l.
Proof.
  unfold be. revert n. induction l as [|b l IH]; intros n; [simpl; lia|].
  cbn [foldl length]. rewrite IH, (IH (0 * 256 + b)), Nat2Z.inj_succ, Z.pow_succ_r by lia. lia.
Qed.

Lemma be_app l1 l2 : be (l1 ++ l2) = be l1 * 256 ^ Z.of_nat (length l2) + be l2.
Proof. unfold be at 1. rewrite foldl_app. apply foldl_be. Qed.

Lemma be_bounds l : Forall byte l -> 0 <= be l < 256 ^ Z.of_nat (length l).
Proof.
  induction l as [|b l IH] using rev_ind; [done|]. rewrite Forall_app, Forall_singleton.
  intros [Hl Hb]. rewrite be_app, length_app. simpl length. specialize (IH Hl). unfold byte in Hb.
  replace (Z.of_nat (length l + 1)) with (Z.succ (Z.of_nat (length l))) by lia.
  rewrite Z.pow_succ_r by lia. change (be [b]) with b. change (Z.of_nat 1) with 1. lia.
Qed.

Lemma be_inj l1 l2 :
  Forall byte l1 -> Forall byte l2 -> length l1 = length l2 -> be l1 = be l2 -> l1 = l2.
Proof.
  revert l2. induction l1 as [|b1 l1 IH] using rev_ind; intros l2 H1 H2 Hlen Hbe.
  { by destruct l2. }
  destruct l2 as [|b2 l2 _] using rev_ind; [rewrite length_app in Hlen; simpl in Hlen; lia|].
  rewrite !length_app in Hlen. simpl in Hlen.
  rewrite !Forall_app, !Forall_singleton in *. destruct H1 as [H1 Hb1], H2 as [H2 Hb2].
  rewrite !be_app in Hbe. change (be [b1]) with b1 in Hbe. change (be [b2]) with b2 in Hbe.
  simpl in Hbe. unfold byte in *. change (256 ^ 1) with 256 in Hbe.
  assert (be l1 = be l2 /\ b1 = b2) as [E ->] by lia. f_equal. apply IH; [done..|lia|done].
Qed.

(** Dropping whole bytes, and dropping [e] more bits of the next one. *)
Lemma be_shiftr_bytes a r : Forall byte r ->
  Z.shiftr (be (a ++ r)) (8 * Z.of_nat (length r)) = be a.
Proof.
  intros Hr. pose proof (be_bounds r Hr). rewrite be_app, Z.shiftr_div_pow2 by lia.
  rewrite Z.pow_mul_r by lia. change (2 ^ 8) with 256.
  rewrite Z.div_add_l, Z.div_small by lia. lia.
Qed.

Lemma be_shiftr_bits a x r e :
  Forall byte r -> byte x -> 0 <= e <= 8 ->
  Z.shiftr (be (a ++ x :: r)) (8 * Z.of_nat (length r) + e) = be a * 2 ^ (8 - e) + Z.shiftr x e.
Proof.
  intros Hr Hx He. rewrite <-Z.shiftr_shiftr by lia.
  replace (a ++ x :: r) with ((a ++ [x]) ++ r) by by rewrite <-app_assoc.
  rewrite be_shiftr_bytes, be_app by done. change (be [x]) with x. simpl length.
  rewrite !Z.shiftr_div_pow2 by lia. change (256 ^ Z.of_nat 1) with (2 ^ 8).
  replace 8 with ((8 - e) + e) at 1 by lia. rewrite Z.pow_add_r, Z.mul_assoc by lia.
  rewrite Z.div_add_l by lia. done.
Qed.

(** The masks keep the high bits of a byte. *)
Lemma mask_high (m e : Z) x y :
  (m, e) ∈ [(0xf0, 4); (0xfc, 2)] -> byte x -> byte y ->
  Z.land x m = Z.land y m <-> Z.shiftr x e = Z.shiftr y e.
Proof.
  intros Hm Hx Hy.
  assert (forall x, byte x -> Z.land x m = Z.shiftr x e * 2 ^ e /\ 0 < 2 ^ e) as Hmask.
  { clear x y Hx Hy. intros x Hx.
    assert (Forall (fun x => Forall (fun me => Z.land x (me.1) = Z.shiftr x me.2 * 2 ^ me.2 /\
      0 < 2 ^ me.2) [(0xf0, 4); (0xfc, 2)]) (seqZ 0 256)) as Hall by vm_decide.
    rewrite Forall_forall in Hall. unfold byte in Hx.
    specialize (Hall x ltac:(apply elem_of_seqZ; lia)). rewrite Forall_forall in Hall.
    exact (Hall (m, e) Hm). }
  destruct (Hmask x Hx) as [-> ?], (Hmask y Hy) as [-> _]. split; [nia|by intros ->].
Qed.

Lemma memcmp_eq_true a b n : memcmp_eq a b n = true <-> take n a = take n b.
Proof. unfold memcmp_eq. by rewrite bool_decide_eq_true. Qed.

(** [n] whole bytes and the high bits of the next one, against the network. *)
Lemma network_test (n : nat) m e d p :
  (m, e) ∈ [(0xf0, 4); (0xfc, 2)] -> (n < 16)%nat -> address d -> address p ->
  memcmp_eq d p n && (Z.land (d !!! n) m =? Z.land (p !!! n) m) = true <->
  network (8 * Z.of_nat n + 8 - e) d = network (8 * Z.of_nat n + 8 - e) p.
Proof.
  intros Hm Hn [Hld Hbd] [Hlp Hbp].
  assert (forall a, length a = 16%nat -> Forall byte a -> exists a1 x a2,
    a = a1 ++ x :: a2 /\ take n a = a1 /\ a !!! n = x /\ length a1 = n /\ length a2 = (15 - n)%nat /\
    Forall byte a1 /\ byte x /\ Forall byte a2) as Hsplit.
  { intros a Hla Hba. destruct (lookup_lt_is_Some_2 a n) as [x Hx]; [lia|].
    exists (take n a), x, (drop (S n) a). split_and!.
    - symmetry. by apply take_drop_middle.
    - done.
    - by apply list_lookup_total_correct.
    - rewrite length_take. lia.
    - rewrite length_drop. lia.
    - by apply Forall_take.
    - by eapply Forall_lookup_byte.
    - by apply Forall_drop. }
  destruct (Hsplit d Hld Hbd) as (d1 & x & d2 & -> & Hd & -> & Hl1 & Hl2 & Hb1 & Hx & Hb2).
  destruct (Hsplit p Hlp Hbp) as (p1 & y & p2 & -> & Hp & -> & Hl3 & Hl4 & Hb3 & Hy & Hb4).
  assert (0 <= e <= 8) as He by (rewrite !elem_of_cons in Hm; destruct Hm as [[= _ ->]|[[= _ ->]|[]%elem_of_nil]]; lia).
  unfold network. replace (128 - (8 * Z.of_nat n + 8 - e)) with (8 * Z.of_nat (15 - n) + e) by lia.
  rewrite <-Hl2 at 1. rewrite <-Hl4, !be_shiftr_bits by done.
  rewrite andb_true_iff, memcmp_eq_true, Hd, Hp, Z.eqb_eq, (mask_high m e) by done.
  split; [by intros [-> ->]|]. intros E.
  assert (forall x, byte x -> 0 <= Z.shiftr x e < 2 ^ (8 - e)) as Hrange.
  { intros z Hz. unfold byte in Hz. rewrite Z.shiftr_div_pow2 by lia. split; [apply Z.div_pos; lia|].
    apply Z.div_lt_upper_bound; [lia|]. rewrite <-Z.pow_add_r by lia.
    replace (e + (8 - e)) with 8 by lia. lia. }
  pose proof (Hrange x Hx). pose proof (Hrange y Hy).
  assert (be d1 = be p1 /\ Z.shiftr x e = Z.shiftr y e) as [E1 E2]
    by (apply (Z.div_mod_unique (2 ^ (8 - e))); lia).
  split; [|done]. apply be_inj; [done..|lia|done].
Qed.

Lemma in_slash_62_network d p :
  address d -> address p -> in_slash_62 d p = true <-> network 62 d = network 62 p.
Proof. apply (network_test 7 0xfc 2); [by vm_decide|lia]. Qed.

Lemma in_slash_52_network d p :
  address d -> address p -> in_slash_52 d p = true <-> network 52 d = network 52 p.
Proof. apply (network_test 6 0xf0 4); [by vm_decide|lia]. Qed.

(** An address is its network of 64 bits and its interface. *)
Lemma halves a : address a ->
  network 64 a = be (take 8 a) /\ be a mod 2 ^ 64 = be (drop 8 a).
Proof.
  intros [Hl Hb]. pose proof (be_bounds (drop 8 a) ltac:(by apply Forall_drop)) as Hd.
  assert (length (drop 8 a) = 8%nat) as H8 by (rewrite length_drop; lia). rewrite H8 in Hd.
  split.
  - unfold network. rewrite <-(take_drop 8 a) at 1.
    replace (128 - 64) with (8 * Z.of_nat (length (drop 8 a))) by by rewrite H8.
    apply be_shiftr_bytes. by apply Forall_drop.
  - rewrite <-(take_drop 8 a) at 1. rewrite be_app, H8.
    change (256 ^ Z.of_nat 8) with (2 ^ 64) in *. rewrite Z.add_comm, Z_mod_plus_full.
    by apply Z.mod_small.
Qed.

(** ** Lemmas on the searches *)

Lemma find_from_Some test l j k :
  find_from test l j = Some k <->
  exists i p, k = (j + i)%nat /\ l !! i = Some p /\ test p = true /\
    forall i' q, (i' < i)%nat -> l !! i' = Some q -> test q = false.
Proof.
  revert j. induction l as [|p l IH]; intros j; simpl.
  { split; [done|]. by intros (i & p & _ & Hp & _). }
  destruct (test p) eqn:Et.
  - split.
    + intros [= <-]. exists 0%nat, p. split_and!; [lia|done|done|lia].
    + intros ([|i] & q & -> & Hq & _ & Hfirst); [f_equal; lia|].
      by rewrite (Hfirst 0%nat p) in Et by (lia || done).
  - rewrite IH. split.
    + intros (i & q & -> & Hq & Htq & Hfirst). exists (S i), q. split_and!; [lia|done|done|].
      intros [|i'] r Hi' Hr; [by injection Hr as <-|]. apply (Hfirst i'); [lia|done].
    + intros ([|i] & q & -> & Hq & Htq & Hfirst); [injection Hq as <-; by rewrite Et in Htq|].
      exists i, q. split_and!; [lia|done|done|]. intros i' r Hi' Hr. apply (Hfirst (S i')); [lia|done].
Qed.

Lemma find_from_None test l j :
  find_from test l j = None <-> forall i p, l !! i = Some p -> test p = false.
Proof.
  revert j. induction l as [|p l IH]; intros j; simpl; [done|].
  destruct (test p) eqn:Et.
  - split; [done|]. intros Hall. by rewrite (Hall 0%nat p) in Et.
  - rewrite IH. split; [|intros Hall i; apply (Hall (S i))].
    intros Hall [|i] q Hq; [by injection Hq as <-|by apply (Hall i)].
Qed.

Lemma assign_length a b t : length (assign a b t) = length t.
Proof. induction t as [|p t IH]; simpl; [done|]. destruct (_ && _); simpl; by rewrite ?IH. Qed.

(** The entry of a client after an assignment: the first one with the address. *)
Lemma assign_lookup a b t j :
  assign a b t !! j =
    match find_from (fun p => negb (plen_ll p =? 0) && memcmp_eq (addr_ll p) a 16) t 0 with
    | Some i => if decide (j = i) then (fun p => SocketPrefix b 62 (addr_ll p) (plen_ll p)) <$> t !! j
                else t !! j
    | None => t !! j
    end.
Proof.
  assert (forall i0, assign a b t !! j =
    match find_from (fun p => negb (plen_ll p =? 0) && memcmp_eq (addr_ll p) a 16) t i0 with
    | Some i => if decide ((i0 + j)%nat = i)
                then (fun p => SocketPrefix b 62 (addr_ll p) (plen_ll p)) <$> t !! j else t !! j
    | None => t !! j
    end) as H; [|exact (H 0%nat)].
  revert j. induction t as [|p t IH]; intros j i0; simpl; [done|].
  destruct (_ && _).
  - destruct j as [|j]; simpl; [by rewrite decide_True by lia|by rewrite decide_False by lia].
  - destruct j as [|j]; simpl.
    + destruct (find_from _ t (S i0)) as [i|] eqn:E; [|done].
      apply find_from_Some in E as (k & q & -> & _). by rewrite decide_False by lia.
    + rewrite (IH j (S i0)). by replace (i0 + S j)%nat with (S i0 + j)%nat by lia.
Qed.

(** ** Lemmas on the file *)

Lemma fgets_line n l rest :
  Forall (fun c => c <> NL) l -> (length l < n)%nat ->
  fgets n (l ++ NL :: rest) = (l ++ [NL], rest, false).
Proof.
  revert n. induction l as [|c l IH]; intros n Hl Hn; destruct n as [|n]; simpl in *; try lia; [done|].
  apply Forall_cons in Hl as [Hc Hl]. rewrite (proj2 (Z.eqb_neq c NL)) by done.
  by rewrite IH by (done || lia).
Qed.

Lemma fgets_end n l :
  Forall (fun c => c <> NL) l -> (length l < n)%nat -> fgets n l = (l, [], true).
Proof.
  revert n. induction l as [|c l IH]; intros n Hl Hn; destruct n as [|n]; simpl in *; try lia; [done|].
  apply Forall_cons in Hl as [Hc Hl]. rewrite (proj2 (Z.eqb_neq c NL)) by done.
  by rewrite IH by (done || lia).
Qed.

(** An entry after an assignment: as before, or given the block. *)
Lemma assign_entry a b t j p' :
  length a = 16%nat -> Forall (fun p => length (addr_ll p) = 16%nat) t ->
  assign a b t !! j = Some p' -> exists p, t !! j = Some p /\
    (p' = p \/ plen_ll p <> 0 /\ a = addr_ll p /\ p' = SocketPrefix b 62 (addr_ll p) (plen_ll p)).
Proof.
  intros Ha Ht. rewrite assign_lookup.
  destruct (find_from _ t 0) as [i|] eqn:E; [|intros ->; eauto].
  case_decide as Hij; [subst i|intros ->; eauto].
  apply find_from_Some in E as (i & p & -> & Hp & Htest & _). simpl. rewrite Hp. intros [= <-].
  exists p. split; [done|right]. apply andb_true_iff in Htest as [Hne Hcmp].
  apply negb_true_iff, Z.eqb_neq in Hne. apply memcmp_eq_true in Hcmp.
  rewrite Forall_lookup in Ht. rewrite !take_ge in Hcmp by (rewrite ?(Ht _ _ Hp); lia). done.
Qed.

Lemma assign_addr_ll a b t j p' :
  Forall (fun p => length (addr_ll p) = 16%nat) t -> assign a b t !! j = Some p' ->
  length (addr_ll p') = 16%nat.
Proof.
  rewrite Forall_lookup, assign_lookup. intros Ht.
  destruct (find_from _ t 0); [case_decide|]; [|apply Ht..].
  destruct (t !! j) as [p|] eqn:Hp; [|done]. intros [= <-]. exact (Ht j p Hp).
Qed.

(** Entries keep their link-local address, and only known clients get a block. *)
Definition kept (p p' : socket_prefix) : Prop :=
  addr_ll p' = addr_ll p /\ plen_ll p' = plen_ll p /\ (p' = p \/ plen_ll p <> 0).

#[export] Instance kept_trans : Transitive kept.
Proof.
  intros p q r (E1 & E2 & H1) (E3 & E4 & H2). split_and!; [congruence..|].
  destruct H1 as [->|H1]; [done|by right].
Qed.

#[export] Instance kept_refl : Reflexive kept.
Proof. intros p. split_and!; [done..|by left]. Qed.

Lemma assign_kept a b t : Forall2 kept t (assign a b t).
Proof.
  induction t as [|p t IH]; simpl; [done|]. destruct (_ && _) eqn:E; constructor; try done.
  - apply andb_true_iff in E as [E%negb_true_iff%Z.eqb_neq _]. split_and!; [done..|by right].
Qed.

(** A line of the file: the client's link-local address, and the block with its
    prefix length as the last three characters. *)
Record assignment := Assignment { a_local : list Z; a_block : list Z; a_plen : list Z }.

Definition line_of (e : assignment) : list Z :=
  a_local e ++ [SP] ++ a_block e ++ a_plen e ++ [NL].

(** The block as it is converted: the last three characters are zeros. *)
Definition block_string (e : assignment) : list Z := a_block e ++ [ZERO; ZERO; ZERO].

Record well_formed (e : assignment) : Prop := WellFormed {
  wf_local : Forall (fun c => c <> 0 /\ c <> SP /\ c <> NL) (a_local e);
  wf_block : Forall (fun c => c <> 0 /\ c <> NL) (a_block e);
  wf_plen : Forall (fun c => c <> 0 /\ c <> NL) (a_plen e);
  wf_plen_length : length (a_plen e) = 3%nat;
  wf_length : (length (line_of e) <= 511)%nat;
}.

Section lemmas.
Context `{Libc}.

(** Walking over characters that mean nothing. *)
Lemma scan_skip (ptr2 : option nat) l pre rest fuel line local block :
  line = pre ++ l ++ rest ->
  Forall (fun c => c <> 0 /\ (ptr2 = None -> c <> SP) /\ (ptr2 <> None -> c <> NL)) l ->
  scan_line (length l + fuel) line (length pre) ptr2 local block =
  scan_line fuel line (length pre + length l) ptr2 local block.
Proof.
  revert pre. induction l as [|c l IH]; intros pre -> Hl.
  { simpl. by rewrite Nat.add_0_r. }
  apply Forall_cons in Hl as [(Hc & Hsp & Hnl) Hl]. cbn [length Nat.add scan_line].
  rewrite lookup_app_r, Nat.sub_diag by lia. cbn [app lookup list_lookup mbind option_bind].
  rewrite (proj2 (Z.eqb_neq c 0)) by done.
  specialize (IH (pre ++ [c]) ltac:(by rewrite <-app_assoc) Hl).
  rewrite length_app in IH. simpl length in IH. rewrite Nat.add_1_r in IH.
  replace (length pre + S (length l))%nat with (S (length pre) + length l)%nat by lia.
  destruct ptr2 as [start|].
  - rewrite (proj2 (Z.eqb_neq c NL)) by by apply Hnl. exact IH.
  - rewrite (proj2 (Z.eqb_neq c SP)) by by apply Hsp. exact IH.
Qed.

Lemma scan_space ll tail fuel local block :
  Forall (fun c => c <> 0 /\ c <> SP /\ c <> NL) ll ->
  scan_line (length ll + S fuel) (ll ++ SP :: tail) 0 None local block =
  scan_line fuel (ll ++ 0 :: tail) (S (length ll)) (Some (S (length ll))) (convert ll local) block.
Proof.
  intros Hll. rewrite (scan_skip None ll [] (SP :: tail)); [|done|].
  2:{ eapply Forall_impl; [exact Hll|]. intros c (? & ? & ?). done. }
  cbn [scan_line length Nat.add]. rewrite lookup_app_r, Nat.sub_diag by lia.
  cbn [lookup list_lookup mbind option_bind].
  change (SP =? 0) with false. change (SP =? SP) with true. cbn iota.
  rewrite store_middle by done. cbn [mbind option_bind]. unfold string_at. rewrite drop_0.
  by rewrite cstring_app by (eapply Forall_impl; [exact Hll|]; by intros c []).
Qed.

Lemma scan_newline pre bl q1 q2 q3 post fuel local block :
  Forall (fun c => c <> 0 /\ c <> NL) (bl ++ [q1; q2; q3]) ->
  scan_line (length (bl ++ [q1; q2; q3]) + S fuel) (pre ++ (bl ++ [q1; q2; q3]) ++ NL :: post)
    (length pre) (Some (length pre)) local block =
  Some (local, convert (bl ++ [ZERO; ZERO; ZERO]) block, true).
Proof.
  intros Hl. rewrite (scan_skip (Some _) (bl ++ [q1; q2; q3]) pre (NL :: post)); [|done|].
  2:{ eapply Forall_impl; [exact Hl|]. intros c []. done. }
  rewrite app_assoc. cbn [scan_line].
  rewrite list_lookup_middle by by rewrite (length_app pre). cbn [mbind option_bind].
  change (NL =? 0) with false. change (NL =? NL) with true. cbn iota.
  rewrite store_middle by by rewrite (length_app pre). cbn [mbind option_bind].
  rewrite length_app. cbn [length]. rewrite decide_False by lia.
  replace ((pre ++ bl ++ [q1; q2; q3]) ++ 0 :: post)
    with ((pre ++ bl ++ [q1; q2]) ++ q3 :: 0 :: post) by by rewrite <-!app_assoc.
  rewrite store_middle by (rewrite !length_app; simpl; lia). cbn [mbind option_bind].
  replace ((pre ++ bl ++ [q1; q2]) ++ ZERO :: 0 :: post)
    with ((pre ++ bl ++ [q1]) ++ q2 :: ZERO :: 0 :: post) by by rewrite <-!app_assoc.
  rewrite store_middle by (rewrite !length_app; simpl; lia). cbn [mbind option_bind].
  replace ((pre ++ bl ++ [q1]) ++ ZERO :: ZERO :: 0 :: post)
    with ((pre ++ bl) ++ q1 :: ZERO :: ZERO :: 0 :: post) by by rewrite <-!app_assoc.
  rewrite store_middle by (rewrite !length_app; simpl; lia). cbn [mbind option_bind].
  unfold string_at. rewrite <-!app_assoc, drop_app_length.
  change (ZERO :: ZERO :: ZERO :: 0 :: post) with ([ZERO; ZERO; ZERO] ++ 0 :: post).
  rewrite app_assoc, cstring_app; [done|]. apply Forall_app in Hl as [Hbl _].
  apply Forall_app. split; [|by repeat constructor]. eapply Forall_impl; [exact Hbl|]. by intros c [].
Qed.

Lemma scan_line_ok e rest local block :
  well_formed e ->
  scan_line 513 (line_of e ++ 0 :: rest) 0 None local block =
    Some (convert (a_local e) local, convert (block_string e) block, true).
Proof.
  destruct e as [ll bl pl]. intros [Hll Hbl Hpl Hpl3 Hlen].
  unfold line_of, block_string in *. cbn [a_local a_block a_plen] in *.
  destruct pl as [|q1 [|q2 [|q3 [|]]]]; try discriminate Hpl3. clear Hpl3.
  rewrite !length_app in Hlen. cbn [length] in Hlen.
  pose (k := (508 - length ll - length bl)%nat).
  replace 513%nat with (length ll + S (length (bl ++ [q1; q2; q3]) + S k))%nat
    by (rewrite length_app; cbn [length]; lia).
  replace ((ll ++ [SP] ++ bl ++ [q1; q2; q3] ++ [NL]) ++ 0 :: rest)
    with (ll ++ SP :: (bl ++ [q1; q2; q3]) ++ NL :: 0 :: rest)
    by (rewrite <-!app_assoc; cbn [app]; by rewrite <-?app_assoc).
  rewrite scan_space by done.
  replace (S (length ll)) with (length (ll ++ [0])) by (rewrite length_app; cbn [length]; lia).
  replace (ll ++ 0 :: (bl ++ [q1; q2; q3]) ++ NL :: 0 :: rest)
    with ((ll ++ [0]) ++ (bl ++ [q1; q2; q3]) ++ NL :: 0 :: rest) by by rewrite <-app_assoc.
  apply scan_newline. by apply Forall_app.
Qed.

Lemma parse_lines_line fuel e file line local block t :
  well_formed e ->
  exists line' local' block',
    parse_lines (S fuel) (line_of e ++ file) line local block t =
    parse_lines fuel file line' local' block'
      (assign (convert (a_local e) local) (convert (block_string e) block) t).
Proof.
  intros He. cbn [parse_lines].
  replace (line_of e ++ file) with ((a_local e ++ [SP] ++ a_block e ++ a_plen e) ++ NL :: file)
    by (unfold line_of; rewrite <-?app_assoc; cbn [app]; by rewrite <-?app_assoc).
  pose proof (wf_length e He) as Hlen. unfold line_of in Hlen. rewrite !length_app in Hlen.
  cbn [length] in Hlen. rewrite fgets_line.
  - cbn [app] in *. replace ((a_local e ++ SP :: a_block e ++ a_plen e) ++ [NL]) with (line_of e)
      by (unfold line_of; rewrite <-?app_assoc; cbn [app]; by rewrite <-?app_assoc).
    rewrite scan_line_ok by done. cbn [mbind option_bind]. eauto.
  - destruct He as [Hl Hb Hp _ _]. rewrite !Forall_app, Forall_singleton.
    split_and!; [|done|..]; (eapply Forall_impl; [eassumption|]); intros c; cbn beta; tauto.
  - rewrite !length_app. cbn [length]. lia.
Qed.

(** Fuel beyond the length of the file is not used. *)
Lemma fgets_shorter n l line rest :
  fgets (S n) l = (line, rest, false) -> (length rest < length l)%nat.
Proof.
  assert (forall n l line rest eof, fgets n l = (line, rest, eof) -> (length rest <= length l)%nat) as Hle.
  { clear. induction n as [|n IH]; intros [|c l] line rest eof; simpl; intros E;
      [injection E as _ <- _; simpl; lia..|].
    destruct (c =? NL); [injection E as _ <- _; lia|].
    destruct (fgets n l) as [[line' rest'] eof'] eqn:El. injection E as _ <- _.
    specialize (IH _ _ _ _ El). lia. }
  destruct l as [|c l]; simpl; [done|].
  destruct (c =? NL); [intros [= _ <-]; lia|].
  destruct (fgets n l) as [[line' rest'] eof'] eqn:El. intros [= _ <- _].
  specialize (Hle _ _ _ _ _ El). lia.
Qed.

Lemma parse_lines_fuel fuel1 fuel2 file line local block t :
  (length file < fuel1)%nat -> (length file < fuel2)%nat ->
  parse_lines fuel1 file line local block t = parse_lines fuel2 file line local block t.
Proof.
  revert fuel2 file line local block t.
  induction fuel1 as [|fuel1 IH]; intros [|fuel2] file line local block t H1 H2; [lia..|].
  cbn [parse_lines]. destruct (fgets 511 file) as [[read rest] eof] eqn:Ef.
  destruct eof; [done|]. apply fgets_shorter in Ef.
  destruct (scan_line _ _ _ _ _ _) as [[[local' block'] matched]|]; [|done].
  cbn [mbind option_bind]. apply IH; lia.
Qed.

Lemma parse_lines_kept fuel file line local block t t' :
  parse_lines fuel file line local block t = Some t' -> Forall2 kept t t'.
Proof.
  revert file line local block t. induction fuel as [|fuel IH]; intros file line local block t; [done|].
  cbn [parse_lines]. destruct (fgets 511 file) as [[read rest] eof].
  destruct eof; [by intros [= <-]|].
  destruct (scan_line _ _ _ _ _ _) as [[[local' block'] matched]|]; [|done].
  cbn [mbind option_bind]. intros E%IH. destruct matched; [|done].
  by etrans; [apply assign_kept|].
Qed.

(** A file on which [parse_prefixes] stays in bounds. *)
Definition readable (file : list Z) : Prop :=
  forall line local block t, is_Some (parse_prefixes file line local block t).

(** A line that [fgets] reads as a whole, and that has room for the three zeros
    before its end if it has two words. *)
Definition fitting (l : list Z) : Prop :=
  (NL ∉ l) /\ (length l <= 510)%nat /\ ((SP ∈ l) -> 3 <= length l)%nat.

(** Files of such lines, and perhaps the beginning of a last one. *)
Definition assignment_file (file : list Z) : Prop := exists ls tail,
  file = concat ((fun l => l ++ [NL]) <$> ls) ++ tail /\
  Forall fitting ls /\ (NL ∉ tail) /\ (length tail < 511)%nat.

(** From any place in such a line the scan stays inside it. *)
Lemma scan_line_fits fuel l rest ptr ptr2 local block line :
  fitting l -> length line = length (l ++ NL :: 0 :: rest) ->
  drop ptr line = drop ptr (l ++ NL :: 0 :: rest) -> (ptr <= length l + 1)%nat ->
  (length l + 1 < fuel + ptr)%nat -> (ptr2 <> None -> ptr <= length l /\ 3 <= length l)%nat ->
  is_Some (scan_line fuel line ptr ptr2 local block).
Proof.
  intros (Hnl & _ & Hsp). revert ptr ptr2 local block line.
  induction fuel as [|fuel IH]; intros ptr ptr2 local block line Hlen Hdrop Hptr Hfuel H2; [lia|].
  rewrite length_app in Hlen. cbn [length] in Hlen.
  cbn [scan_line]. destruct (lookup_lt_is_Some_2 line ptr) as [c Hc]; [lia|].
  assert ((l ++ NL :: 0 :: rest) !! ptr = Some c) as Hc'.
  { rewrite <-(Nat.add_0_r ptr), <-lookup_drop, <-Hdrop, lookup_drop, Nat.add_0_r. exact Hc. }
  assert (forall x, length (<[ptr := x]> line) = length (l ++ NL :: 0 :: rest) /\
    drop (S ptr) (<[ptr := x]> line) = drop (S ptr) (l ++ NL :: 0 :: rest)) as Hstore.
  { intros x. rewrite length_insert, drop_insert_lt by lia. rewrite length_app. cbn [length].
    split; [lia|]. rewrite <-!(Nat.add_1_r ptr), <-!drop_drop. by rewrite Hdrop. }
  assert (length line = length (l ++ NL :: 0 :: rest) /\ drop (S ptr) line = drop (S ptr) (l ++ NL :: 0 :: rest)) as [Hlen0 Hdrop0].
  { destruct (Hstore c). by rewrite list_insert_id in *. }
  rewrite Hc. cbn [mbind option_bind]. destruct (Z.eqb_spec c 0) as [->|Hc0]; [by eexists|].
  apply lookup_app_Some in Hc' as [Hin|[Hge Hin]].
  - pose proof (lookup_lt_Some _ _ _ Hin) as Hlt. pose proof (list_elem_of_lookup_2 _ _ _ Hin) as Hel.
    destruct ptr2 as [start|].
    + rewrite (proj2 (Z.eqb_neq c NL)) by (by intros ->). apply IH; try done; try lia. intros _. split; [lia|by apply H2].
    + destruct (Z.eqb_spec c SP) as [->|]; [|apply IH; try done; lia].
      rewrite store_at_ok by (by eapply lookup_lt_Some). cbn [mbind option_bind]. destruct (Hstore 0).
      apply IH; try done; try lia. intros _. split; [lia|by apply Hsp].
  - destruct (ptr - length l)%nat as [|[|k]] eqn:Ek; [|cbn in Hin; congruence|lia].
    cbn in Hin. injection Hin as <-. destruct ptr2 as [start|]; [|cbn -[scan_line]; apply IH; try done; lia].
    destruct (H2 ltac:(done)) as [_ H3]. cbn [Z.eqb Pos.eqb NL].
    rewrite store_at_ok by lia. cbn [mbind option_bind]. rewrite decide_False by lia.
    do 3 (rewrite store_at_ok by (rewrite ?length_insert; lia); cbn [mbind option_bind]). by eexists.
Qed.

Lemma parse_lines_fitting ls tail fuel line local block t :
  Forall fitting ls -> (NL ∉ tail) -> (length tail < 511)%nat ->
  (length (concat ((fun l => l ++ [NL]) <$> ls) ++ tail) < fuel)%nat ->
  is_Some (parse_lines fuel (concat ((fun l => l ++ [NL]) <$> ls) ++ tail) line local block t).
Proof.
  intros Hls Htail Hlen. revert fuel line local block t.
  induction Hls as [|l ls Hl Hls IH]; intros [|fuel] line local block t Hfuel; try lia; cbn [parse_lines].
  { cbn [fmap list_fmap concat app]. rewrite fgets_end; [by eexists| |done].
    apply Forall_forall. by intros x Hx ->. }
  cbn [fmap list_fmap concat] in *. rewrite <-!app_assoc in *. cbn [app] in *.
  rewrite length_app in Hfuel. cbn [length] in Hfuel. pose proof Hl as (Hnl & H510 & _).
  rewrite fgets_line by (try lia; apply Forall_forall; by intros x Hx ->). cbv iota zeta.
  set (rest := drop (length (l ++ [NL]) + 1) line).
  destruct (scan_line_fits 513 l rest 0 None local block ((l ++ [NL]) ++ [0] ++ rest)) as [[[local' block'] m] E];
    try done; try lia.
  { by rewrite <-app_assoc. }
  { by rewrite <-app_assoc. }
  cbn [app] in E |- *. rewrite E. cbn [mbind option_bind]. apply IH. lia.
Qed.

Lemma assignment_file_readable file : assignment_file file -> readable file.
Proof.
  intros (ls & tail & -> & Hls & Htail & Hlen) line local block t. apply parse_lines_fitting; [done..|lia].
Qed.

(** *** What the assignments of a file do to the table *)

(** The client at [j] is the first that is known with the address [a]. *)
Definition knows (a : in6_addr) (p : socket_prefix) : Prop := plen_ll p <> 0 /\ addr_ll p = a.
Definition first_known (t : table) (a : in6_addr) (j : nat) : Prop :=
  (exists p, t !! j = Some p /\ knows a p) /\
  forall i p, (i < j)%nat -> t !! i = Some p -> ~ knows a p.

(** Line [e] is for the client at [j]. *)
Definition served_by (t : table) (j : nat) (e : assignment) : Prop :=
  exists a, inet_pton (a_local e) = Some a /\ first_known t a j.

Definition with_block (b : in6_addr) (p : socket_prefix) : socket_prefix :=
  SocketPrefix b 62 (addr_ll p) (plen_ll p).

Definition convertible (e : assignment) : Prop :=
  is_Some (inet_pton (a_local e)) /\ is_Some (inet_pton (block_string e)).

Lemma knows_test a p :
  length (addr_ll p) = 16%nat -> length a = 16%nat ->
  negb (plen_ll p =? 0) && memcmp_eq (addr_ll p) a 16 = true <-> knows a p.
Proof.
  intros Hp Ha. rewrite andb_true_iff, negb_true_iff, Z.eqb_neq, memcmp_eq_true, !take_ge by lia. done.
Qed.

Definition addresses (t : table) : Prop := Forall (fun p => length (addr_ll p) = 16%nat) t.

(** One assignment: the first client with the address gets the block. *)
Lemma assign_spec a b t j p :
  addresses t -> length a = 16%nat -> t !! j = Some p ->
  (first_known t a j -> assign a b t !! j = Some (with_block b p)) /\
  (~ first_known t a j -> assign a b t !! j = Some p).
Proof.
  intros Ht Ha Hp. unfold addresses in Ht. rewrite Forall_lookup in Ht. rewrite assign_lookup.
  destruct (find_from _ t 0) as [i|] eqn:E.
  - apply find_from_Some in E as (k & q & -> & Hq & Htest & Hfirst). cbn [Nat.add].
    apply knows_test in Htest; [|by apply (Ht k)|done].
    assert (first_known t a k) as Hk.
    { split; [by exists q|]. intros i r Hi Hr Hknows. apply knows_test in Hknows; [|by apply (Ht i)|done].
      by rewrite (Hfirst i r Hi Hr) in Hknows. }
    case_decide as Hjk; [subst j; split; [by rewrite Hp|done]|]. split; [|done]. intros [(r & Hr & Hknows) Hmin].
    exfalso. destruct (Nat.lt_total j k) as [Hlt|[|Hlt]]; [|done|by apply (Hmin k q)].
    apply (proj2 Hk j r); done.
  - pose proof (proj1 (find_from_None _ _ _) E) as Hnone. split; [|done]. intros [(r & Hr & Hknows) _].
    apply knows_test in Hknows; [|by apply (Ht j)|done]. by rewrite (Hnone j r) in Hknows.
Qed.

Lemma assign_addresses a b t : addresses t -> addresses (assign a b t).
Proof. intros Ht. apply Forall_lookup. intros j p Hp. by eapply (assign_addr_ll a b t j). Qed.

(** Who is first does not depend on the blocks. *)
Lemma first_known_kept t t' a j : Forall2 kept t t' -> first_known t a j <-> first_known t' a j.
Proof.
  intros Hk. assert (forall t t', Forall2 kept t t' \/ Forall2 (flip kept) t t' -> first_known t a j -> first_known t' a j) as H0.
  { clear t t' Hk. intros t t' Hk.
    assert (forall i, (forall p, t !! i = Some p -> exists p', t' !! i = Some p' /\ (knows a p <-> knows a p')) /\
      (forall p', t' !! i = Some p' -> exists p, t !! i = Some p /\ (knows a p <-> knows a p'))) as Hi.
    { intros i. unfold knows. destruct Hk as [Hk|Hk]; (split; intros p Hp).
      - destruct (Forall2_lookup_l _ _ _ _ _ Hk Hp) as (p' & Hp' & E1 & E2 & _). exists p'. by rewrite E1, E2.
      - destruct (Forall2_lookup_r _ _ _ _ _ Hk Hp) as (p' & Hp' & E1 & E2 & _). exists p'. by rewrite E1, E2.
      - destruct (Forall2_lookup_l _ _ _ _ _ Hk Hp) as (p' & Hp' & E1 & E2 & _). exists p'. by rewrite E1, E2.
      - destruct (Forall2_lookup_r _ _ _ _ _ Hk Hp) as (p' & Hp' & E1 & E2 & _). exists p'. by rewrite E1, E2. }
    intros [(p & Hp & Hknows) Hmin]. split.
    - destruct (proj1 (Hi j) p Hp) as (p' & Hp' & E). exists p'. tauto.
    - intros i p' Hlt Hp'. destruct (proj2 (Hi i) p' Hp') as (q & Hq & E). pose proof (Hmin i q Hlt Hq). tauto. }
  split; apply H0; [by left|right]. by apply Forall2_flip.
Qed.

Lemma served_by_kept t t' j e : Forall2 kept t t' -> served_by t j e <-> served_by t' j e.
Proof.
  intros Hk. unfold served_by. split; intros (a & Ha & Hf); exists a; (split; [done|]);
    [by apply (first_known_kept t t')|by apply (first_known_kept t t')].
Qed.

(** The table after all lines. *)
Record assigned (es : list assignment) (t t' : table) : Prop := Assigned {
  as_length : length t' = length t;
  as_none j p : t !! j = Some p -> Forall (fun e => ~ served_by t j e) es -> t' !! j = Some p;
  as_last j p es1 e es2 b : t !! j = Some p -> es = es1 ++ e :: es2 -> served_by t j e ->
    Forall (fun e => ~ served_by t j e) es2 -> inet_pton (block_string e) = Some b ->
    t' !! j = Some (with_block b p);
}.

Lemma assigned_nil t : assigned [] t t.
Proof. split; [done|by intros|]. by intros j p [|? ?] e es2 b _ [=]. Qed.

Lemma assigned_cons e a b es t t' :
  addresses t -> inet_pton (a_local e) = Some a -> inet_pton (block_string e) = Some b ->
  assigned es (assign a b t) t' -> assigned (e :: es) t t'.
Proof.
  intros Ht Ha Hb [Hlen Hnone Hlast]. pose proof (inet_pton_length _ _ Ha) as H16.
  assert (forall j, served_by t j e <-> first_known t a j) as He.
  { intros j. split; [|intros Hf; by exists a]. intros (a' & Ha' & Hf). by rewrite Ha in Ha'; injection Ha' as <-. }
  assert (forall j es', Forall (fun e => ~ served_by t j e) es' <-> Forall (fun e => ~ served_by (assign a b t) j e) es') as Hothers.
  { intros j es'. split; intros Hall; (eapply Forall_impl; [exact Hall|]); intros e'; cbv beta;
      by rewrite (served_by_kept t (assign a b t) j e') by apply assign_kept. }
  split.
  - by rewrite Hlen, assign_length.
  - intros j p Hp [H1 H2]%Forall_cons. apply Hnone; [|by apply Hothers].
    apply (proj2 (assign_spec a b t j p Ht H16 Hp)). by rewrite <-He.
  - intros j p [|e0 es1] e1 es2 b1 Hp Ees Hs Hafter Hb1; injection Ees as <- ->.
    + assert (b1 = b) as -> by congruence. apply Hnone; [|by apply Hothers].
      apply (proj1 (assign_spec a b t j p Ht H16 Hp)). by apply He.
    + assert (exists p1, assign a b t !! j = Some p1 /\ addr_ll p1 = addr_ll p /\ plen_ll p1 = plen_ll p) as (p1 & Hp1 & E1 & E2).
      { destruct (Forall2_lookup_l _ _ _ _ _ (assign_kept a b t) Hp) as (p1 & Hp1 & E1 & E2 & _). by exists p1. }
      unfold with_block. rewrite <-E1, <-E2. eapply Hlast; [exact Hp1|reflexivity| |by apply Hothers|exact Hb1].
      by apply (served_by_kept t); [apply assign_kept|].
Qed.

Lemma parse_lines_ok es tail fuel line local block t :
  Forall well_formed es -> Forall convertible es -> addresses t ->
  Forall (fun c => c <> NL) tail -> (length tail < 511)%nat ->
  (length (concat (line_of <$> es) ++ tail) < fuel)%nat ->
  exists t', parse_lines fuel (concat (line_of <$> es) ++ tail) line local block t = Some t' /\ assigned es t t'.
Proof.
  intros Hes Hconv Ht Htail Hlen. revert fuel line local block t Ht.
  induction es as [|e es IH]; intros fuel line local block t Ht Hfuel.
  { simpl in *. destruct fuel as [|fuel]; [lia|]. cbn [parse_lines]. rewrite fgets_end by done.
    exists t. split; [done|apply assigned_nil]. }
  apply Forall_cons in Hes as [He Hes], Hconv as [[[a Ha] [b Hb]] Hconv].
  change (concat (line_of <$> e :: es)) with (line_of e ++ concat (line_of <$> es)) in *.
  rewrite <-app_assoc in *. rewrite length_app in Hfuel.
  assert (1 <= length (line_of e))%nat as Hone.
  { unfold line_of. rewrite !length_app. cbn [length]. lia. }
  destruct fuel as [|fuel]; [lia|].
  destruct (parse_lines_line fuel e (concat (line_of <$> es) ++ tail) line local block t He)
    as (line' & local' & block' & ->). unfold convert. rewrite Ha, Hb. cbn [default from_option id].
  destruct (IH Hes Hconv fuel line' local' block' (assign a b t)) as (t' & E & Hass);
    [by apply assign_addresses|lia|]. exists t'. split; [done|]. by eapply assigned_cons.
Qed.
End lemmas.

(** ** Theorems *)

(** C31: the byte comparisons and masks of the server are the comparisons of the
    first 52, 62 and 64 bits of the addresses, and of their last 64 bits. *)
Theorem prefix_tests d p :
  address d -> address p ->
  (in_slash_52 d p = true <-> network 52 d = network 52 p) /\
  (in_slash_62 d p = true <-> network 62 d = network 62 p) /\
  (in_slash_64 d p = true <-> network 64 d = network 64 p) /\
  (same_interface d p = true <-> be d mod 2 ^ 64 = be p mod 2 ^ 64).
Proof.
  intros Hd Hp. split; [by apply in_slash_52_network|]. split; [by apply in_slash_62_network|].
  destruct (halves d Hd) as [-> ->], (halves p Hp) as [-> ->].
  destruct Hd as [Hld Hbd], Hp as [Hlp Hbp].
  unfold in_slash_64, same_interface. rewrite !memcmp_eq_true.
  rewrite !(take_ge (drop 8 _)) by (rewrite length_drop; lia).
  split; (split; [by intros ->|]); intros E; (apply be_inj; [..|exact E]);
    rewrite ?length_take, ?length_drop; auto using Forall_take, Forall_drop; lia.
Qed.

(** C27: reading the assignments file.  On a file of well-formed lines (a
    link-local address, a space, a block and a prefix length of three
    characters such as "/60", all of which can be converted) [parse_prefixes]
    stays in bounds.  A line is for the first client of the table that is known
    with the line's address ([served_by]); a client gets the block of the last
    line that is for it, its prefix length taken for zeros, and an entry for
    which there is no line stays as it was.  A last line without its newline is
    dropped, whatever it holds. *)
Theorem parse_prefixes_spec `{Libc} es tail stack local block t :
  Forall well_formed es -> Forall convertible es -> addresses t ->
  Forall (fun c => c <> NL) tail -> (length tail < 511)%nat ->
  exists t', parse_prefixes (concat (line_of <$> es) ++ tail) stack local block t = Some t' /\
    length t' = length t /\
    forall j p, t !! j = Some p ->
      (Forall (fun e => ~ served_by t j e) es -> t' !! j = Some p) /\
      (forall es1 e es2 b, es = es1 ++ e :: es2 -> served_by t j e ->
        Forall (fun e => ~ served_by t j e) es2 -> inet_pton (block_string e) = Some b ->
        t' !! j = Some (SocketPrefix b 62 (addr_ll p) (plen_ll p))).
Proof.
  intros Hes Hconv Ht Htail Hlen.
  destruct (parse_lines_ok es tail (S (length (concat (line_of <$> es) ++ tail))) stack local block t)
    as (t' & E & [Hl Hnone Hlast]); [done..|lia|].
  exists t'. split; [exact E|]. split; [done|]. intros j p Hp. split; [by apply Hnone|].
  intros es1 e es2 b. by apply Hlast.
Qed.

(** ** Witnesses *)

(** A library that knows one link-local address and one block. *)
Definition demo_ll : in6_addr := [0xfe; 0x80; 0; 0; 0; 0; 0; 0; 0; 0; 0; 0; 0x99; 0x99; 0; 1].
Definition demo_pd : in6_addr := [0x26; 7; 0xf0; 0x17; 9; 0x99; 0; 0x10; 0; 0; 0; 0; 0; 0; 0; 0].

Definition demo_libc : Libc.
Proof.
  refine {| inet_pton s := if decide (s = [65]) then Some demo_ll
                           else if decide (s = [66; 48; 48; 48]) then Some demo_pd else None |}.
  intros s a. repeat case_decide; by intros [= <-].
Defined.

(** The line "A B/60". *)
Definition demo_line : assignment := Assignment [65] [66] [47; 54; 48].

Lemma demo_line_ok : well_formed demo_line.
Proof. split; [vm_decide..|reflexivity|unfold line_of; simpl; lia]. Qed.

(** Two clients with that address. *)
Definition demo_table : table :=
  <[9%nat := SocketPrefix zero_addr 0 demo_ll 128]> (<[7%nat := SocketPrefix zero_addr 0 demo_ll 128]> no_clients).

Lemma demo_served : @served_by demo_libc demo_table 7 demo_line.
Proof.
  exists demo_ll. split; [reflexivity|]. split.
  - exists (SocketPrefix zero_addr 0 demo_ll 128). split; [reflexivity|]. by split.
  - intros i p Hi. unfold demo_table. rewrite !list_lookup_insert_ne by lia.
    intros [-> _]%lookup_replicate [Hne _]. by apply Hne.
Qed.

Lemma demo_not_served : ~ @served_by demo_libc demo_table 9 demo_line.
Proof.
  intros (a & [= <-] & _ & Hmin).
  apply (Hmin 7%nat (SocketPrefix zero_addr 0 demo_ll 128)); [lia|reflexivity|by split].
Qed.

(** The first of them gets the block, the other does not. *)
Lemma parse_prefixes_spec_witness :
  exists t', @parse_prefixes demo_libc (line_of demo_line ++ [65]) [] [] [] demo_table = Some t' /\
    t' !! 7%nat = Some (SocketPrefix demo_pd 62 demo_ll 128) /\
    t' !! 9%nat = Some (SocketPrefix zero_addr 0 demo_ll 128).
Proof.
  destruct (@parse_prefixes_spec demo_libc [demo_line] [65] [] [] [] demo_table) as (t' & E & _ & Ht').
  - constructor; [exact demo_line_ok|constructor].
  - constructor; [split; eexists; reflexivity|constructor].
  - unfold addresses. vm_decide.
  - constructor; [discriminate|constructor].
  - simpl. lia.
  - exists t'. split; [exact E|]. split.
    + destruct (Ht' 7%nat (SocketPrefix zero_addr 0 demo_ll 128) eq_refl) as [_ Hs].
      exact (Hs [] demo_line [] demo_pd eq_refl demo_served (Forall_nil_2 _) eq_refl).
    + destruct (Ht' 9%nat (SocketPrefix zero_addr 0 demo_ll 128) eq_refl) as [Hn _].
      apply Hn. constructor; [exact demo_not_served|constructor].
Defined.

Lemma prefix_tests_witness :
  in_slash_62 demo_pd (<[7%nat := 0x13]> demo_pd) = true /\
  in_slash_62 demo_pd (<[7%nat := 0x14]> demo_pd) <> true.
Proof.
  split.
  - apply (prefix_tests demo_pd (<[7%nat := 0x13]> demo_pd)); [vm_decide|vm_decide|].
    vm_compute. reflexivity.
  - intros E. apply (prefix_tests demo_pd (<[7%nat := 0x14]> demo_pd)) in E; [|vm_decide|vm_decide].
    vm_compute in E. discriminate E.
Defined.

(** A line that is too short: the zeros go before the start of the buffer. *)
Example short_line_out_of_bounds line local block t :
  @parse_prefixes demo_libc [SP; NL] line local block t = None.
Proof. reflexivity. Qed.

(** A prefix length of one digit: the zeros spoil the block's last digits. *)
Example one_digit_length_changes_block :
  block_string (Assignment [65] [50; 48; 48; 49; 58] [58; 47; 56]) =
    [50; 48; 48; 49; 58; 48; 48; 48].
Proof. reflexivity. Qed.
End Routes.
