(* ===== verification/TunnelServer.v ===== *)
(** * The tunnel server

    Models [src/gateway/tunnel/tunnel-server.c]: the setup of the TUN device and
    the listening socket, and the event loop that carries packets between the
    TUN device and the TCP connections of the clients.

    The operating system is a parameter ([Os]); every system call is recorded
    in [log], newest first.  What an event of [epoll_wait] lets the program
    accept or read is part of the event: the loops that accept and read until
    the system has no more end with it.

    A write to a connection that the client has reset raises SIGPIPE.  The program
    neither handles nor ignores it, so it ends the program ([write_client]). *)
From S2P Require Import Prelude TunnelRoutes.
Import Routes.

Module Server.

(** ** System calls *)

Inductive ioctl_request :=
| TUNSETIFF | TUNSETPERSIST | SIOCGIFFLAGS | SIOCSIFFLAGS | SIOCSIFMTU (mtu : Z)
| SIOCGIFINDEX | SIOCSIFADDR.

#[export] Instance ioctl_request_dec : EqDecision ioctl_request.
Proof. solve_decision. Defined.

Inductive socket_kind := inet6_dgram | inet_stream (addr : Z).

Inductive keepalive := tcp_keepalive_time | tcp_keepalive_intvl | tcp_keepalive_probes.

Inductive io :=
| open_tun
| open_keepalive (k : keepalive)
| write_keepalive (fd : Z) (value : Z)
| ioctl (fd : Z) (r : ioctl_request)
| fcntl_getfl (fd : Z)
| fcntl_setfl (fd flags : Z)
| socket (k : socket_kind)
| bind (fd : Z)
| freeaddrinfo
| listen (fd : Z)
| epoll_create
| epoll_add (efd fd : Z)
| close (fd : Z)
| accepted (fd : Z)              (* [accept] returned a descriptor *)
| accept_failed
| read (fd : Z)
| write (fd : Z) (bytes : list Z)
| open_assignments
| close_file_pointer.            (* [close] of a [FILE *] *)

(** What ends a sequence of reads: the end of the file, an error, or no more
    data for now ([EAGAIN]). *)
Inductive read_end := Eof | Failed | Drained.

#[export] Instance socket_kind_dec : EqDecision socket_kind.
Proof. solve_decision. Defined.
#[export] Instance keepalive_dec : EqDecision keepalive.
Proof. solve_decision. Defined.
#[export] Instance io_dec : EqDecision io.
Proof. solve_decision. Defined.
#[export] Instance read_end_dec : EqDecision read_end.
Proof. solve_decision. Defined.

Class Os := {
  libc :: Libc;
  (** what the calls return; -1 (or any negative number) on a failure *)
  ret : list io -> io -> Z;
  O_NONBLOCK : Z;
  (** whether a write to a connection raises SIGPIPE *)
  sigpipe : list io -> Z -> list Z -> bool;
  (** the list of [getaddrinfo], if it succeeds *)
  addrinfos : option (list Z);
  (** the contents of "/etc/dibbler/client_assignments", if it can be opened *)
  client_assignments : list io -> option (list Z);
  (** what the stack holds where [parse_prefixes] has its variables *)
  stack : list io -> list Z * in6_addr * in6_addr;
}.

(** ** State *)

(** The variables of [main]; [buf] is the memory of the read buffer. *)
Record server := ServerState {
  prefixes : table;
  prefix_slash_52 : in6_addr;
  prefix_slash_64 : in6_addr;
  tun_file : Z;
  sfd : Z;
  buf : list Z;
  log : list io;
}.

Definition set_prefixes (t : table) (s : server) : server :=
  ServerState t (prefix_slash_52 s) (prefix_slash_64 s) (tun_file s) (sfd s) (buf s) (log s).
Definition set_buf (b : list Z) (s : server) : server :=
  ServerState (prefixes s) (prefix_slash_52 s) (prefix_slash_64 s) (tun_file s) (sfd s) b (log s).
Definition set_tun_file (fd : Z) (s : server) : server :=
  ServerState (prefixes s) (prefix_slash_52 s) (prefix_slash_64 s) fd (sfd s) (buf s) (log s).
Definition set_sfd (fd : Z) (s : server) : server :=
  ServerState (prefixes s) (prefix_slash_52 s) (prefix_slash_64 s) (tun_file s) fd (buf s) (log s).
Definition set_slash (p52 p64 : in6_addr) (s : server) : server :=
  ServerState (prefixes s) p52 p64 (tun_file s) (sfd s) (buf s) (log s).
Definition add_io (c : io) (s : server) : server :=
  ServerState (prefixes s) (prefix_slash_52 s) (prefix_slash_64 s) (tun_file s) (sfd s) (buf s)
    (c :: log s).

(** [struct epoll_event], and what the system has for the program. *)
Record epoll_event := EpollEvent {
  epollerr : bool; epollhup : bool; epollin : bool;
  data_fd : Z;
  accepts : list Z;
  reads : list (list Z);
  reads_end : read_end;
}.

(** ** Operations *)

Section operations.
Context `{Os}.

Definition call (c : io) : M server Z := fun s => Done (ret (log s) c) (add_io c s).
Definition call_void (c : io) : M server () := modify (add_io c).

(** [make_nonblocking(fd)] *)
Definition make_nonblocking (fd : Z) : M server Z :=
  flags ← call (fcntl_getfl fd);
  if flags =? -1 then mret (-1) else
  let flags := Z.lor flags O_NONBLOCK in
  r ← call (fcntl_setfl fd flags);
  if r =? -1 then mret (-1) else mret 0.

(** The loop of [create_and_bind] over the addresses. *)
Fixpoint bind_first (rps : list Z) : M server (option Z) :=
  match rps with
  | [] => mret None
  | rp :: rps =>
      fd ← call (socket (inet_stream rp));
      if fd =? -1 then bind_first rps else
      r ← call (bind fd);
      if r =? 0 then mret (Some fd) else
      call_void (close fd);;
      bind_first rps
  end.

(** [create_and_bind()] *)
Definition create_and_bind : M server Z :=
  match addrinfos with
  | None => mret (-1)
  | Some result =>
      found ← bind_first result;
      match found with
      | None => mret (-1)
      | Some fd => call_void freeaddrinfo;; mret fd
      end
  end.

(** A call that must not fail: [exit(1)] otherwise. *)
Definition must (c : io) : M server Z :=
  r ← call c;
  if r <? 0 then halt else mret r.

(** The same, closing the TUN device before the exit. *)
Definition must_or_close (c : io) (fd : Z) : M server () :=
  r ← call c;
  if r <? 0 then call_void (close fd);; halt else mret ().

Definition set_keepalive (k : keepalive) (value : Z) : M server () :=
  fd ← must (open_keepalive k);
  r ← call (write_keepalive fd value);
  if r =? -1 then halt else
  call_void (close fd).

(** The TUN device: the first part of [main]. *)
Definition open_tun_device : M server () :=
  fd ← must open_tun;
  modify (set_tun_file fd);;
  must_or_close (ioctl fd TUNSETIFF) fd;;
  _ ← must (ioctl fd TUNSETPERSIST);
  _ ← make_nonblocking fd;
  sock ← call (socket inet6_dgram);
  must_or_close (ioctl sock SIOCGIFFLAGS) fd;;
  must_or_close (ioctl sock SIOCSIFFLAGS) fd;;
  must_or_close (ioctl sock (SIOCSIFMTU 1280)) fd;;
  must_or_close (ioctl sock SIOCGIFINDEX) fd;;
  _ ← call (ioctl sock SIOCSIFADDR);
  call_void (close sock).

(** The listening socket and [epoll]; returns [efd]. *)
Definition open_listener : M server Z :=
  fd ← create_and_bind;
  if fd =? -1 then halt else
  modify (set_sfd fd);;
  r ← make_nonblocking fd;
  if r =? -1 then halt else
  r ← call (listen fd);
  if r =? -1 then halt else
  efd ← call epoll_create;
  if efd =? -1 then halt else
  r ← call (epoll_add efd fd);
  if r =? -1 then halt else
  tun ← gets tun_file;
  r ← call (epoll_add efd tun);
  if r =? -1 then halt else
  mret efd.

(** [main(argc, argv)] up to the event loop; [argv] without the program. *)
Definition main_setup (argv : list (list Z)) : M server Z :=
  match argv with
  | [a52; a64] =>
      modify (set_prefixes no_clients);;
      modify (fun s => set_slash (convert a52 (prefix_slash_52 s))
                                 (convert a64 (prefix_slash_64 s)) s);;
      open_tun_device;;
      set_keepalive tcp_keepalive_time 60;;
      set_keepalive tcp_keepalive_intvl 20;;
      set_keepalive tcp_keepalive_probes 3;;
      open_listener
  | _ => halt
  end.

(** *** The event loop *)

(** [parse_prefixes(prefixes)]: a file that cannot be opened ends the program. *)
Definition load_prefixes : M server () :=
  l ← gets log;
  call_void open_assignments;;
  match client_assignments l with
  | None => halt
  | Some file =>
      t ← gets prefixes;
      let '(line, local, block) := stack l in
      t' ← lift (parse_prefixes file line local block t);
      modify (set_prefixes t');;
      call_void close_file_pointer
  end.

(** [write(j, buf, count)] to a connection. *)
Definition write_client (fd : Z) (bytes : list Z) : M server () :=
  l ← gets log;
  call_void (write fd bytes);;
  if sigpipe l fd bytes then halt else mret ().

(** A packet of [count] bytes from the TUN device is in [buf]. *)
Definition packet_from_tun (count : nat) : M server () :=
  b ← gets buf;
  if version b =? 6 then
    let d := daddr b in
    p52 ← gets prefix_slash_52;
    p64 ← gets prefix_slash_64;
    if in_slash_52 d p52 then
      t ← gets prefixes;
      match find_pd d t with
      | Some j => write_client (Z.of_nat j) (take count b)
      | None =>
          load_prefixes;;
          t ← gets prefixes;
          match find_pd d t with
          | Some j => write_client (Z.of_nat j) (take count b)
          | None => mret ()
          end
      end
    else if in_slash_64 d p64 || link_local d then
      t ← gets prefixes;
      match find_ll d t with
      | Some j => write_client (Z.of_nat j) (take count b)
      | None => mret ()
      end
    else mret ()
  else mret ().

(** [count] bytes from the connection [fd] are in [buf]. *)
Definition packet_from_client (fd : Z) (count : nat) : M server () :=
  b ← gets buf;
  (if fd <? 512 then
     t ← gets prefixes;
     p ← lift (t !! Z.to_nat fd);
     t' ← lift (store_at t (Z.to_nat fd) (learn b p));
     modify (set_prefixes t')
   else mret ());;
  tun ← gets tun_file;
  call_void (write tun (take count b)).

(** The loop that reads until there is no more; [done]. *)
Fixpoint read_loop (fd : Z) (chunks : list (list Z)) (last : read_end) : M server bool :=
  call_void (read fd);;
  match chunks with
  | [] => mret (match last with Drained => false | _ => true end)
  | data :: chunks =>
      b ← gets buf;
      b' ← lift (memcpy_at b 0 data (length data));
      modify (set_buf b');;
      tun ← gets tun_file;
      (if fd =? tun then packet_from_tun (length data)
       else packet_from_client fd (length data));;
      read_loop fd chunks last
  end.

(** The block [if (done)]. *)
Definition close_client (fd : Z) : M server () :=
  call_void (close fd);;
  t ← gets prefixes;
  p ← lift (t !! Z.to_nat fd);
  t' ← lift (store_at t (Z.to_nat fd) (forget p));
  modify (set_prefixes t').

(** The loop that accepts connections. *)
Fixpoint accept_loop (efd : Z) (fds : list Z) : M server () :=
  match fds with
  | [] => call_void accept_failed
  | infd :: fds =>
      call_void (accepted infd);;
      r ← make_nonblocking infd;
      if r =? -1 then halt else
      r ← call (epoll_add efd infd);
      if r =? -1 then halt else
      accept_loop efd fds
  end.

(** The body of the loop over the events. *)
Definition handle_event (efd : Z) (e : epoll_event) : M server () :=
  listener ← gets sfd;
  if epollerr e || epollhup e || negb (epollin e) then mret () else
  if data_fd e =? listener then accept_loop efd (accepts e) else
  done ← read_loop (data_fd e) (reads e) (reads_end e);
  if (done : bool) then close_client (data_fd e) else mret ().

Fixpoint event_loop (efd : Z) (es : list epoll_event) : M server () :=
  match es with
  | [] => mret ()
  | e :: es => handle_event efd e;; event_loop efd es
  end.

(** [main], for the events that arrive. *)
Definition main (argv : list (list Z)) (es : list epoll_event) : M server () :=
  efd ← main_setup argv;
  event_loop efd es.
End operations.

(** ** Invariant *)

(** Whether a connection was accepted on a descriptor and not closed since. *)
Fixpoint connected (log : list io) (fd : Z) : bool :=
  match log with
  | [] => false
  | accepted f :: log => if f =? fd then true else connected log fd
  | close f :: log => if f =? fd then false else connected log fd
  | _ :: log => connected log fd
  end.

(** Every packet went to the TUN device or to an open connection. *)
Fixpoint writes_ok (tun : Z) (log : list io) : Prop :=
  match log with
  | [] => True
  | write fd _ :: log => (fd = tun \/ connected log fd = true) /\ writes_ok tun log
  | _ :: log => writes_ok tun log
  end.

(** The entry of descriptor [j]: known clients are connected, and only known
    clients have a block. *)
Definition entry_ok (log : list io) (j : nat) (p : socket_prefix) : Prop :=
  length (addr_ll p) = 16%nat /\
  (plen_ll p <> 0 -> connected log (Z.of_nat j) = true) /\
  (plen_pd p <> 0 -> plen_ll p <> 0).

Definition table_ok (log : list io) (t : table) : Prop :=
  length t = 512%nat /\ forall j p, t !! j = Some p -> entry_ok log j p.

Record inv (s : server) : Prop := Inv {
  inv_table : table_ok (log s) (prefixes s);
  inv_buf : length (buf s) = 4096%nat;
  inv_writes : writes_ok (tun_file s) (log s);
}.

(** What the system reports: readable connections and the TUN device, with at
    most a buffer of data at a time; the TUN device does not end. *)
Definition valid_event (l : list io) (listener tun : Z) (e : epoll_event) : Prop :=
  data_fd e = listener \/
  Forall (fun c => length c <= 4096)%nat (reads e) /\
  (data_fd e = tun /\ reads_end e = Drained \/
   data_fd e <> tun /\ 0 <= data_fd e < 512 /\ connected l (data_fd e) = true).

(** The numbers of the descriptors the program starts with do not change. *)
Definition same_fds (s s' : server) : Prop :=
  sfd s' = sfd s /\ tun_file s' = tun_file s /\
  prefix_slash_52 s' = prefix_slash_52 s /\ prefix_slash_64 s' = prefix_slash_64 s.

Section lemmas.
Context `{Os}.
Implicit Types s : server.

(** Why the event loop ends: the last call failed, or raised SIGPIPE. *)
Definition gave_up (l : list io) : Prop :=
  match l with
  | [] => False
  | c :: l =>
      match c with
      | fcntl_getfl _ | fcntl_setfl _ _ | epoll_add _ _ => ret l c = -1
      | open_assignments => client_assignments l = None
      | write fd b => sigpipe l fd b = true
      | _ => False
      end
  end.

(** The end of the program in its event loop. *)
Definition exited s : Prop := inv s /\ gave_up (log s).

Lemma wp_io c s (Q : Z -> server -> Prop) R :
  Q (ret (log s) c) (add_io c s) -> wp (call c) s Q R.
Proof. done. Qed.

Lemma wp_io_void c s (Q : () -> server -> Prop) R : Q tt (add_io c s) -> wp (call_void c) s Q R.
Proof. done. Qed.

(** Calls that neither open or close a connection nor write. *)
Definition neutral (c : io) : Prop :=
  match c with accepted _ | close _ | write _ _ => False | _ => True end.

Lemma inv_neutral c s : neutral c -> inv s -> inv (add_io c s).
Proof. intros Hc [[? Hent] ? ?]. by destruct c; try done; (split; [split|..]). Qed.

Lemma inv_write fd b s :
  fd = tun_file s \/ connected (log s) fd = true -> inv s -> inv (add_io (write fd b) s).
Proof. intros Hfd [[? Hent] ? ?]. by split; [split|..]. Qed.

Lemma inv_accepted fd s : inv s -> inv (add_io (accepted fd) s).
Proof.
  intros [[? Hent] ? ?]. split; [split|..]; try done. intros j p Hp.
  destruct (Hent j p Hp) as (? & Hc & ?). split_and!; try done.
  simpl. by destruct (fd =? Z.of_nat j).
Qed.

Lemma wp_make_nonblocking fd s (Q : Z -> server -> Prop) R :
  inv s ->
  (forall r s', inv s' -> same_fds s s' -> (forall f, connected (log s') f = connected (log s) f) ->
     (r = -1 -> gave_up (log s')) -> Q r s') ->
  wp (make_nonblocking fd) s Q R.
Proof.
  intros Hs HQ. unfold make_nonblocking. apply wp_bind, wp_io.
  pose proof (inv_neutral (fcntl_getfl fd) s I Hs) as Hs1.
  destruct (Z.eqb_spec (ret (log s) (fcntl_getfl fd)) (-1)); [by apply HQ|]. apply wp_bind, wp_io.
  set (flags := Z.lor _ _). set (l := log (add_io _ s)).
  destruct (Z.eqb_spec (ret l (fcntl_setfl fd flags)) (-1)); apply HQ; done || by apply inv_neutral.
Qed.

Lemma wp_epoll_add efd fd s (m : M server ()) Q :
  inv s -> (inv (add_io (epoll_add efd fd) s) -> wp m (add_io (epoll_add efd fd) s) Q exited) ->
  wp (r ← call (epoll_add efd fd); if r =? -1 then halt else m) s Q exited.
Proof.
  intros Hs Hm. pose proof (inv_neutral (epoll_add efd fd) s I Hs) as Hs1. apply wp_bind, wp_io.
  destruct (Z.eqb_spec (ret (log s) (epoll_add efd fd)) (-1)); [by split|by apply Hm].
Qed.

Lemma wp_write_client fd b s (Q : () -> server -> Prop) (R : server -> Prop) :
  (if sigpipe (log s) fd b then R (add_io (write fd b) s) else Q tt (add_io (write fd b) s)) ->
  wp (write_client fd b) s Q R.
Proof.
  intros HQ. unfold write_client. apply wp_bind, wp_gets, wp_bind, wp_io_void. by destruct (sigpipe _ _ _).
Qed.

(** The same, in the event loop. *)
Lemma wp_write_open fd b s (Q : () -> server -> Prop) :
  inv s -> connected (log s) fd = true -> Q tt (add_io (write fd b) s) -> wp (write_client fd b) s Q exited.
Proof.
  intros Hs Hfd HQ. apply wp_write_client. destruct (sigpipe _ _ _) eqn:E; [|done].
  split; [|done]. apply inv_write; [by right|done].
Qed.

Lemma wp_accept_loop efd fds s :
  inv s -> wp (accept_loop efd fds) s (fun _ s' => inv s' /\ same_fds s s') exited.
Proof.
  revert s. induction fds as [|fd fds IH]; intros s Hs; cbn [accept_loop].
  { apply wp_io_void. split; [by apply inv_neutral|done]. }
  apply wp_bind, wp_io_void, wp_bind.
  apply wp_make_nonblocking; [by apply inv_accepted|]. intros r s1 Hs1 Hsame _ Hr.
  destruct (Z.eqb_spec r (-1)); [split; auto|]. apply wp_epoll_add; [done|]. intros Hs1'.
  eapply wp_mono; [by apply IH| |done].
  intros _ s2 (Hs2 & Hsame2). split; [done|]. unfold same_fds in *. simpl in *.
  destruct Hsame as (E1 & E2 & E3 & E4), Hsame2 as (E5 & E6 & E7 & E8). simpl in *.
  by rewrite E5, E6, E7, E8.
Qed.

(** Changing one entry, and loading the assignments. *)
Lemma inv_insert fd p s :
  entry_ok (log s) fd p -> inv s -> inv (set_prefixes (<[fd := p]> (prefixes s)) s).
Proof.
  intros Hp [[Hlen Hent] ? ?]. split; [split|..]; try done; simpl.
  - by rewrite length_insert.
  - intros j q [(<- & -> & _)|(_ & Hq)]%list_lookup_insert_Some; [done|by apply Hent].
Qed.

Lemma wp_load_prefixes s :
  (forall l file, client_assignments l = Some file -> readable file) -> inv s ->
  wp load_prefixes s (fun _ s' => inv s' /\ same_fds s s' /\ buf s' = buf s /\
    Forall2 kept (prefixes s) (prefixes s') /\
    (forall f, connected (log s') f = connected (log s) f)) exited.
Proof.
  intros Hfile Hs. unfold load_prefixes. apply wp_bind, wp_gets, wp_bind, wp_io_void.
  destruct (client_assignments (log s)) as [file|] eqn:Ef; [|split; [by apply inv_neutral|done]].
  apply wp_bind, wp_gets. destruct (stack (log s)) as [[line local] block].
  destruct (Hfile _ _ Ef line local block (prefixes s)) as [t' Et].
  apply wp_bind, wp_lift. exists t'. split; [exact Et|]. apply wp_bind, wp_modify, wp_io_void.
  pose proof (parse_lines_kept _ _ _ _ _ _ _ Et) as Hkept. split_and!; try done.
  apply inv_neutral; [done|]. destruct Hs as [[Hlen Hent] Hbuf Hw]. split; [split|..]; try done.
  - simpl. by rewrite <-(Forall2_length _ _ _ Hkept).
  - simpl. intros j p' Hp'. destruct (Forall2_lookup_r _ _ _ _ _ Hkept Hp') as (p & Hp & E1 & E2 & E3).
    destruct (Hent j p Hp) as (Hl & Hc & Hpd). split_and!; [by rewrite E1|by rewrite E2|].
    rewrite E2. by destruct E3 as [->|?].
Qed.

(** A search that succeeds finds a connected client. *)
Lemma found_connected test s j :
  inv s -> find_from test (prefixes s) 0 = Some j ->
  (forall p, test p = true -> plen_pd p <> 0 \/ plen_ll p <> 0) ->
  connected (log s) (Z.of_nat j) = true.
Proof.
  intros [[_ Hent] _ _] (i & p & -> & Hp & Ht & _)%find_from_Some Htest.
  destruct (Hent i p Hp) as (_ & Hc & Hpd). apply Hc. destruct (Htest p Ht); auto.
Qed.

Lemma found_pd s d j :
  inv s -> find_pd d (prefixes s) = Some j -> connected (log s) (Z.of_nat j) = true.
Proof.
  intros Hs Hj. eapply found_connected; [done|exact Hj|]. simpl.
  intros p [Hne%negb_true_iff%Z.eqb_neq _]%andb_true_iff. by left.
Qed.

Lemma found_ll s d j :
  inv s -> find_ll d (prefixes s) = Some j -> connected (log s) (Z.of_nat j) = true.
Proof.
  intros Hs Hj. eapply found_connected; [done|exact Hj|]. simpl.
  intros p [Hne%negb_true_iff%Z.eqb_neq _]%andb_true_iff. by right.
Qed.

(** Reading the assignments stays in bounds whenever they are read; this is so if
    the lines of the file always fit. *)
Definition assignments_readable : Prop :=
  forall l file, client_assignments l = Some file -> readable file.

Definition assignments_fit : Prop :=
  forall l file, client_assignments l = Some file -> assignment_file file.

Lemma fit_readable : assignments_fit -> assignments_readable.
Proof. intros Hfit l file Hf. by eapply assignment_file_readable, Hfit. Qed.

(** What the handling of a packet keeps. *)
Definition keeps s s' : Prop :=
  inv s' /\ same_fds s s' /\ forall f, connected (log s') f = connected (log s) f.

Lemma keeps_trans s1 s2 s3 : keeps s1 s2 -> keeps s2 s3 -> keeps s1 s3.
Proof.
  unfold keeps, same_fds. intros (_ & (<- & <- & <- & <-) & Hc1) (? & ? & Hc2).
  split; [done|split; [done|]]. intros f. by rewrite Hc2.
Qed.

Lemma wp_packet_from_tun count s :
  assignments_readable -> inv s ->
  wp (packet_from_tun count) s (fun _ s' => keeps s s') exited.
Proof.
  intros Hfile Hs. unfold packet_from_tun.
  assert (forall s1 j b, inv s1 -> keeps s s1 -> connected (log s1) (Z.of_nat j) = true ->
    keeps s (add_io (write (Z.of_nat j) b) s1)) as Hwrite.
  { intros s1 j b Hs1 Hkeep Hj. eapply keeps_trans; [exact Hkeep|]. split_and!; [|done..].
    apply inv_write; [by right|done]. }
  assert (keeps s s) as Hrefl by done.
  apply wp_bind, wp_gets. destruct (_ =? 6); [|by apply wp_ret].
  apply wp_bind, wp_gets, wp_bind, wp_gets. destruct (in_slash_52 _ _).
  - apply wp_bind, wp_gets. destruct (find_pd _ _) as [j|] eqn:Ej.
    { pose proof (found_pd _ _ _ Hs Ej). by apply wp_write_open, Hwrite. }
    apply wp_bind. eapply wp_mono; [by apply wp_load_prefixes| |done].
    intros _ s1 (Hs1 & Hsame & _ & _ & Hc). assert (keeps s s1) by done.
    apply wp_bind, wp_gets. destruct (find_pd _ (prefixes s1)) as [j|] eqn:Ej1; [|by apply wp_ret].
    pose proof (found_pd _ _ _ Hs1 Ej1). by apply wp_write_open, Hwrite.
  - destruct (_ || _); [|by apply wp_ret].
    apply wp_bind, wp_gets. destruct (find_ll _ _) as [j|] eqn:Ej; [|by apply wp_ret].
    pose proof (found_ll _ _ _ Hs Ej). by apply wp_write_open, Hwrite.
Qed.

Lemma length_saddr b : length b = 4096%nat -> length (saddr b) = 16%nat.
Proof. intros. unfold saddr. rewrite length_take, length_drop. lia. Qed.

Lemma wp_packet_from_client fd count s :
  inv s -> 0 <= fd -> connected (log s) fd = true ->
  wp (packet_from_client fd count) s (fun _ s' => keeps s s') exited.
Proof.
  intros Hs Hfd Hconn. pose proof Hs as [[Hlen Hent] Hbuf Hw]. unfold packet_from_client.
  assert (forall s1, keeps s s1 ->
    wp (tun ← gets tun_file; call_void (write tun (take count (buf s)))) s1
      (fun _ s' => keeps s s') exited) as Hend.
  { intros s1 Hk. apply wp_bind, wp_gets, wp_io_void. eapply keeps_trans; [exact Hk|].
    split_and!; [|done..]. apply inv_write; [by left|apply Hk]. }
  apply wp_bind, wp_gets, wp_bind. destruct (Z.ltb_spec fd 512); [|by apply wp_ret, Hend].
  destruct (lookup_lt_is_Some_2 (prefixes s) (Z.to_nat fd)) as [p Hp]; [lia|].
  apply wp_bind, wp_gets, wp_bind, wp_lift. exists p. split; [done|].
  apply wp_bind, wp_lift. eexists. split; [apply store_at_ok; lia|].
  apply wp_modify, Hend. split_and!; [|done..].
  apply inv_insert; [|done]. destruct (Hent _ _ Hp) as (Hl & Hc & Hpd). unfold learn.
  destruct (_ =? 0); [|done]. destruct (_ =? 6); [|done]. destruct (link_local _); [|done].
  split_and!; simpl; [by apply length_saddr|by rewrite Z2Nat.id by lia|done].
Qed.

Lemma wp_read_loop fd chunks last s :
  assignments_readable -> inv s -> Forall (fun c => length c <= 4096)%nat chunks ->
  (fd <> tun_file s -> 0 <= fd /\ connected (log s) fd = true) ->
  wp (read_loop fd chunks last) s
    (fun r s' => keeps s s' /\ r = match last with Drained => false | _ => true end) exited.
Proof.
  intros Hfile. revert s. induction chunks as [|c chunks IH]; intros s Hs Hc Hfd; cbn [read_loop].
  { apply wp_bind, wp_io_void, wp_ret. split_and!; [|done..]. split_and!; [|done..].
    by apply inv_neutral. }
  apply Forall_cons in Hc as [Hc Hcs]. apply wp_bind, wp_io_void, wp_bind, wp_gets.
  pose proof (inv_neutral (read fd) s I Hs) as Hs1. set (s1 := add_io (read fd) s) in *.
  destruct (memcpy_at (buf s1) 0 c (length c)) as [b|] eqn:Eb.
  2:{ apply memcpy_at_None in Eb. rewrite (inv_buf s1 Hs1) in Eb. lia. }
  apply wp_bind, wp_lift. exists b. split; [done|]. apply wp_bind, wp_modify.
  set (s2 := set_buf b s1). assert (inv s2) as Hs2.
  { destruct Hs1 as [Ht Hb Hw]. split; [exact Ht| |exact Hw]. simpl.
    rewrite (memcpy_at_length _ _ _ _ _ Eb). exact Hb. }
  assert (keeps s s2) as Hk2 by done.
  apply wp_bind, wp_gets, wp_bind.
  apply (wp_mono _ _ (fun _ s3 => keeps s2 s3) _ exited); [| |done].
  - change (tun_file s2) with (tun_file s). destruct (Z.eqb_spec fd (tun_file s)) as [->|Hne].
    + by apply wp_packet_from_tun.
    + destruct (Hfd Hne). by apply wp_packet_from_client.
  - intros _ s3 Hk3. pose proof (keeps_trans _ _ _ Hk2 Hk3) as Hk.
    pose proof Hk as (Hs3 & (_ & Htun & _) & Hconn).
    eapply wp_mono; [apply IH; [done|done|]| |done].
    + rewrite Htun, Hconn. exact Hfd.
    + intros r s4 [Hk4 ->]. split; [by eapply keeps_trans|done].
Qed.

Lemma wp_close_client fd s :
  inv s -> 0 <= fd < 512 -> wp (close_client fd) s (fun _ s' => inv s' /\ same_fds s s' /\
    prefixes s' !! Z.to_nat fd = forget <$> prefixes s !! Z.to_nat fd) exited.
Proof.
  intros Hs Hfd. pose proof Hs as [[Hlen Hent] Hbuf Hw]. unfold close_client.
  destruct (lookup_lt_is_Some_2 (prefixes s) (Z.to_nat fd)) as [p Hp]; [lia|].
  apply wp_bind, wp_io_void, wp_bind, wp_gets, wp_bind, wp_lift. exists p. split; [done|].
  apply wp_bind, wp_lift. eexists. split; [apply store_at_ok; simpl; lia|]. apply wp_modify.
  split; [|split; [done|]].
  2:{ simpl. rewrite list_lookup_insert_eq by lia. by rewrite Hp. }
  split; [split|..]; simpl; try done; [by rewrite length_insert|].
  intros j q [(<- & <- & _)|(Hne & Hq)]%list_lookup_insert_Some.
  - destruct (Hent _ _ Hp) as (Hl & _). by split_and!.
  - destruct (Hent _ _ Hq) as (Hl & Hc & Hpd). split_and!; try done.
    simpl. rewrite (proj2 (Z.eqb_neq fd (Z.of_nat j))) by lia. exact Hc.
Qed.

Lemma wp_handle_event efd e s :
  assignments_readable -> inv s -> valid_event (log s) (sfd s) (tun_file s) e ->
  wp (handle_event efd e) s (fun _ s' => inv s' /\ same_fds s s') exited.
Proof.
  intros Hfile Hs He. unfold handle_event. apply wp_bind, wp_gets.
  destruct (_ || negb _); [by apply wp_ret|].
  destruct (Z.eqb_spec (data_fd e) (sfd s)) as [|Hne]; [by apply wp_accept_loop|].
  destruct He as [He|[Hreads He]]; [done|]. apply wp_bind.
  eapply wp_mono; [apply wp_read_loop; try done| |done].
  { intros Hfd. destruct He as [[]|(_ & [? _] & ?)]; done. }
  intros r s1 [(Hs1 & Hsame & Hconn) ->].
  destruct He as [[_ ->]|(_ & Hrange & Hc)]; [by apply wp_ret|].
  destruct (reads_end e); [| |by apply wp_ret].
  all: eapply wp_mono; [by apply wp_close_client| |done].
  all: intros _ s2 (Hs2 & Hsame2 & _); split; [done|]; unfold same_fds in *.
  all: destruct Hsame as (<- & <- & <- & <-); exact Hsame2.
Qed.

(** The setup only adds calls that accept no connection and write no packet. *)
Definition setup_io (c : io) : Prop :=
  match c with accepted _ | write _ _ => False | _ => True end.

Definition starting s : Prop :=
  prefixes s = no_clients /\ length (buf s) = 4096%nat /\ Forall setup_io (log s).

(** The end of the program in its setup. *)
Definition aborted s : Prop := Forall setup_io (log s).

Lemma starting_connected s fd : starting s -> connected (log s) fd = false.
Proof.
  intros (_ & _ & Hl). induction Hl as [|c l Hc Hl IH]; [done|].
  destruct c; try done; simpl; by case_match.
Qed.

Lemma starting_inv s : starting s -> inv s.
Proof.
  intros (Ht & Hb & Hl). split; [|done|].
  - rewrite Ht. split; [done|]. intros j p [-> _]%lookup_replicate. done.
  - induction Hl as [|c l Hc Hl IH]; [done|]. by destruct c.
Qed.

Lemma starting_io c s :
  setup_io c -> starting s -> starting (add_io c s).
Proof. intros Hc (? & ? & ?). split_and!; [done..|by constructor]. Qed.

(** Programs of the setup: they keep [starting], or exit. *)
Definition setup_ok {A} (m : M server A) (Q : A -> server -> Prop) : Prop :=
  forall s, starting s -> wp m s (fun a s' => starting s' /\ Q a s') aborted.

Lemma setup_bind {A B} (m : M server A) (f : A -> M server B) Q :
  setup_ok m (fun _ _ => True) -> (forall a, setup_ok (f a) Q) -> setup_ok (m ≫= f) Q.
Proof.
  intros Hm Hf s Hs. apply wp_bind. eapply wp_mono; [by apply Hm| |done].
  intros a s' [Hs' _]. by apply Hf.
Qed.
Lemma setup_ret {A} (a : A) : setup_ok (mret a) (fun _ _ => True).
Proof. by intros s Hs. Qed.
Lemma setup_halt {A} (Q : A -> server -> Prop) : setup_ok halt Q.
Proof. by intros s (_ & _ & Hl). Qed.
Lemma setup_if {A} (b : bool) (m1 m2 : M server A) Q :
  setup_ok m1 Q -> setup_ok m2 Q -> setup_ok (if b then m1 else m2) Q.
Proof. by destruct b. Qed.
Lemma setup_call c :
  setup_io c -> setup_ok (call c) (fun _ _ => True).
Proof. intros Hc s Hs. split; [by apply starting_io|done]. Qed.
Lemma setup_call_void c :
  setup_io c -> setup_ok (call_void c) (fun _ _ => True).
Proof. intros Hc s Hs. split; [by apply starting_io|done]. Qed.
Lemma setup_modify f :
  (forall s, starting s -> starting (f s)) -> setup_ok (modify f) (fun _ _ => True).
Proof. intros Hf s Hs. split; [by apply Hf|done]. Qed.
Lemma setup_gets {A} (f : server -> A) : setup_ok (gets f) (fun _ _ => True).
Proof. by intros s Hs. Qed.
End lemmas.

#[export] Hint Resolve setup_ret setup_halt setup_gets : gap.

(** Follow the structure of a setup program. *)
Ltac setup :=
  repeat first
    [ solve [eauto with gap nocore]
    | apply setup_call; exact I
    | apply setup_call_void; exact I
    | apply setup_modify; by intros ? (? & ? & ?)
    | apply setup_bind; [|intros ?]
    | apply setup_if ].

Section setup.
Context `{Os}.

Lemma setup_make_nonblocking fd : setup_ok (make_nonblocking fd) (fun _ _ => True).
Proof. unfold make_nonblocking. setup. Qed.

Lemma setup_bind_first rps : setup_ok (bind_first rps) (fun _ _ => True).
Proof. induction rps; cbn [bind_first]; setup. Qed.

Lemma setup_create_and_bind : setup_ok create_and_bind (fun _ _ => True).
Proof.
  unfold create_and_bind. destruct addrinfos as [rps|]; [|setup].
  apply setup_bind; [apply setup_bind_first|]. intros [fd|]; setup.
Qed.

Lemma setup_open_tun_device : setup_ok open_tun_device (fun _ _ => True).
Proof.
  unfold open_tun_device, must, must_or_close. setup.
Qed.

Lemma setup_keepalive k v : setup_ok (set_keepalive k v) (fun _ _ => True).
Proof. unfold set_keepalive, must. setup. Qed.

(** What the event loop relies on: both descriptors are watched. *)
Definition watched (efd : Z) (s : server) : Prop :=
  epoll_add efd (sfd s) ∈ log s /\ epoll_add efd (tun_file s) ∈ log s /\
  listen (sfd s) ∈ log s.

Lemma setup_open_listener : setup_ok open_listener watched.
Proof.
  unfold open_listener. apply setup_bind; [apply setup_create_and_bind|intros fd].
  apply setup_if; [apply setup_halt|]. intros s Hs. apply wp_bind, wp_modify, wp_bind.
  assert (wp (make_nonblocking fd) (set_sfd fd s)
    (fun _ s' => starting s' /\ sfd s' = fd /\ tun_file s' = tun_file s) aborted) as Hnb.
  { unfold make_nonblocking. destruct Hs as (? & ? & ?). unfold starting.
    apply wp_bind, wp_io. destruct (_ =? -1); [apply wp_ret|apply wp_bind, wp_io; destruct (_ =? -1); apply wp_ret];
      simpl; split_and!; try done; repeat constructor; done. }
  eapply wp_mono; [exact Hnb| |done]. clear Hnb. intros r s1 (Hs1 & Hfd & Htun).
  pose proof Hs1 as (_ & _ & Hl1). destruct (r =? -1); [done|].
  apply wp_bind, wp_io. destruct (_ =? -1); [by constructor|].
  apply wp_bind, wp_io. set (s2 := add_io epoll_create _).
  generalize (ret (log (add_io (listen fd) s1)) epoll_create) as efd. intros efd.
  destruct (efd =? -1); [by repeat constructor|].
  apply wp_bind, wp_io. destruct (_ =? -1); [by repeat constructor|]. apply wp_bind, wp_gets.
  apply wp_bind, wp_io. destruct (_ =? -1); [by repeat constructor|]. apply wp_ret. split.
  - do 4 (apply starting_io; [done|]). done.
  - unfold watched. simpl. rewrite Hfd. set_solver.
Qed.

Lemma setup_main argv s :
  length (buf s) = 4096%nat -> log s = [] ->
  wp (main_setup argv) s (fun efd s' => starting s' /\ watched efd s') aborted.
Proof.
  intros Hb Hl. assert (aborted s) by (unfold aborted; by rewrite Hl).
  destruct argv as [|a52 [|a64 [|]]]; try done. cbn [main_setup].
  apply wp_bind, wp_modify. set (s1 := set_prefixes no_clients s).
  assert (starting s1) as Hs1 by (split_and!; [done..|by simpl; rewrite Hl]).
  clearbody s1. revert s1 Hs1. intros s1.
  match goal with |- starting s1 -> wp ?m s1 _ _ => assert (setup_ok m watched) as H1; [|exact (H1 s1)] end.
  apply setup_bind; [setup|intros _]. apply setup_bind; [apply setup_open_tun_device|intros _].
  do 3 (apply setup_bind; [apply setup_keepalive|intros _]). apply setup_open_listener.
Qed.
End setup.

(** ** Theorems *)

(** The events of a run, each valid when it arrives. *)
Fixpoint valid_events `{Os} (efd : Z) (s : server) (es : list epoll_event) : Prop :=
  match es with
  | [] => True
  | e :: es =>
      valid_event (log s) (sfd s) (tun_file s) e /\
      forall s', handle_event efd e s = Done () s' -> valid_events efd s' es
  end.

Section theorems.
Context `{Os}.
Implicit Types s : server.

Lemma wp_event_loop efd es s :
  assignments_readable -> inv s -> valid_events efd s es ->
  wp (event_loop efd es) s (fun _ s' => inv s') exited.
Proof.
  intros Hfile. revert s. induction es as [|e es IH]; intros s Hs Hes; [done|].
  destruct Hes as [He Hes]. cbn [event_loop]. apply wp_bind.
  pose proof (wp_handle_event efd e s Hfile Hs He) as Hwp. unfold wp at 1. unfold wp in Hwp.
  destruct (handle_event efd e s) as [[] s'|s'|] eqn:E; [|done|done].
  apply IH; [apply Hwp|by apply Hes].
Qed.

(** C4: the server is safe.  From its start, through any events in which only the
    listener, the TUN device and open connections below 512 are reported and reads
    give at most 4096 bytes ([valid_events]), and with assignments whose lines fit
    the buffer and, when they have two words, are not shorter than three
    characters ([assignments_fit]): no access is out of bounds; every
    packet is written to the TUN device or to a connection that is open at that
    moment; and in the end, as after every event, an entry of the table with a
    link-local address belongs to an open connection, and only such an entry
    has a block.  The program ends in its setup, before it has accepted or
    written anything, or right after a call that failed: to make a new connection
    non-blocking or watch it, or to open the assignments; or it is killed by
    SIGPIPE. *)
Theorem server_safe argv es s :
  length (buf s) = 4096%nat -> log s = [] -> assignments_fit ->
  (forall efd s1, main_setup argv s = Done efd s1 -> valid_events efd s1 es) ->
  wp (main argv es) s (fun _ s' => inv s')
    (fun s' => Forall setup_io (log s') \/ inv s' /\ gave_up (log s')).
Proof.
  intros Hb Hl Hfile%fit_readable Hes. unfold main. apply wp_bind.
  pose proof (setup_main argv s Hb Hl) as Hwp. unfold wp at 1. unfold wp in Hwp.
  destruct (main_setup argv s) as [efd s1|s1|] eqn:E; [|by left|done].
  eapply wp_mono; [apply wp_event_loop; [done|by apply starting_inv, Hwp|by apply Hes]|done|by right].
Qed.

(** The first client whose block, or whose interface, the destination is in. *)
Definition first_client (P : socket_prefix -> Prop) (t : table) (o : option nat) : Prop :=
  match o with
  | Some j => exists p, t !! j = Some p /\ P p /\
      forall j' p', (j' < j)%nat -> t !! j' = Some p' -> ~ P p'
  | None => forall j p, t !! j = Some p -> ~ P p
  end.

Lemma find_first test P t :
  (forall j p, t !! j = Some p -> test p = true <-> P p) ->
  first_client P t (find_from test t 0).
Proof.
  intros Hiff. destruct (find_from test t 0) as [j|] eqn:E.
  - apply find_from_Some in E as (i & p & -> & Hp & Ht & Hfirst). exists p.
    split_and!; [done|by apply (Hiff i)|]. intros j' p' Hj' Hp'. rewrite <-(Hiff j') by done.
    by rewrite (Hfirst j' p' Hj' Hp').
  - intros j p Hp. rewrite <-(Hiff j) by done.
    by rewrite (proj1 (find_from_None test t 0) E j p Hp).
Qed.

Definition in_block (d : in6_addr) (p : socket_prefix) : Prop :=
  plen_pd p <> 0 /\ in_slash_62 d (addr_pd p) = true.

Definition has_interface (d : in6_addr) (p : socket_prefix) : Prop :=
  plen_ll p <> 0 /\ same_interface d (addr_ll p) = true.

Lemma find_pd_first d t : first_client (in_block d) t (find_pd d t).
Proof.
  apply find_first. intros j p _. unfold in_block.
  by rewrite andb_true_iff, negb_true_iff, Z.eqb_neq.
Qed.

Lemma find_ll_first d t : first_client (has_interface d) t (find_ll d t).
Proof.
  apply find_first. intros j p _. unfold has_interface.
  by rewrite andb_true_iff, negb_true_iff, Z.eqb_neq.
Qed.

(** A client that has become known is found by its interface. *)
Lemma find_learned fd d b p t :
  t !! fd = Some p -> plen_ll p = 0 ->
  version b = 6 -> link_local (saddr b) = true -> same_interface d (saddr b) = true ->
  (forall j q, (j < fd)%nat -> t !! j = Some q -> ~ has_interface d q) ->
  find_ll d (<[fd := learn b p]> t) = Some fd.
Proof.
  intros Hp Hpl Hv Hlink Hsame Hfirst. apply find_from_Some. exists fd, (learn b p).
  assert (learn b p = SocketPrefix (addr_pd p) (plen_pd p) (saddr b) 128) as El.
  { unfold learn. rewrite Hpl, Hv, Hlink. done. }
  split_and!; [lia|apply list_lookup_insert_eq; by eapply lookup_lt_Some|rewrite El; exact Hsame|].
  intros j q Hj Hq. rewrite list_lookup_insert_ne in Hq by lia.
  specialize (Hfirst j q Hj Hq). unfold has_interface in Hfirst.
  apply not_true_is_false. rewrite andb_true_iff, negb_true_iff, Z.eqb_neq. done.
Qed.

(** The packet is written to the client, if there is one. *)
Definition sent (o : option nat) (packet : list Z) : list io :=
  match o with Some j => [write (Z.of_nat j) packet] | None => [] end.

(** Where a packet of [count] bytes that is in the buffer has gone: [s] is the
    state before, [s'] after. *)
Definition packet_routed (count : nat) s s' : Prop :=
  let d := daddr (buf s) in
  let packet := take count (buf s) in
  if negb (version (buf s) =? 6) then s' = s
  else if in_slash_52 d (prefix_slash_52 s) then
    exists o, first_client (in_block d) (prefixes s') o /\
      (prefixes s' = prefixes s /\ log s' = sent o packet ++ log s /\ is_Some o \/
       first_client (in_block d) (prefixes s) None /\
       Forall2 kept (prefixes s) (prefixes s') /\
       log s' = sent o packet ++ close_file_pointer :: open_assignments :: log s)
  else if in_slash_64 d (prefix_slash_64 s) || link_local d then
    exists o, first_client (has_interface d) (prefixes s) o /\
      prefixes s' = prefixes s /\ log s' = sent o packet ++ log s
  else s' = s.

(** C19: where a packet from the TUN device goes.  Packets that are not IPv6 are
    dropped.  A destination in the server's /52 goes to the first client whose
    /62 block it is in; when there is none the assignments are read again and
    the table is searched once more.  A destination in the /64, or a link-local
    one, goes to the first client with its interface identifier.  Everything
    else is dropped.  A packet is written at most once.  The program ends if the
    assignments cannot be opened, or if the write raises SIGPIPE. *)
Theorem tun_packet_routed count s :
  assignments_readable -> inv s ->
  wp (packet_from_tun count) s (fun _ s' => packet_routed count s s')
    (fun s' => gave_up (log s') /\ (log s' = open_assignments :: log s \/ packet_routed count s s')).
Proof.
  intros Hfile Hs. match goal with |- wp _ _ _ ?r => set (R := r) end.
  assert (forall fd b s1, packet_routed count s (add_io (write fd b) s1) ->
    wp (write_client fd b) s1 (fun _ s' => packet_routed count s s') R) as Hwrite.
  { intros fd b s1 Hr. apply wp_write_client. destruct (sigpipe (log s1) fd b) eqn:E; [|done]. split; [exact E|by right]. }
  unfold packet_from_tun, packet_routed in *. apply wp_bind, wp_gets. cbv zeta in *.
  destruct (version (buf s) =? 6); [|by apply wp_ret]. cbn [negb] in *.
  apply wp_bind, wp_gets, wp_bind, wp_gets. destruct (in_slash_52 _ _).
  - apply wp_bind, wp_gets. pose proof (find_pd_first (daddr (buf s)) (prefixes s)) as Hfirst.
    destruct (find_pd _ (prefixes s)) as [j|].
    { apply Hwrite. exists (Some j). split; [done|]. left. split_and!; [done..|by exists j]. }
    apply wp_bind. unfold load_prefixes. apply wp_bind, wp_gets, wp_bind, wp_io_void.
    destruct (client_assignments (log s)) as [file|] eqn:Ef; [|unfold R; split; [done|by left]].
    apply wp_bind, wp_gets. destruct (stack (log s)) as [[line local] block].
    destruct (Hfile _ _ Ef line local block (prefixes s)) as [t' Et].
    apply wp_bind, wp_lift. exists t'. split; [exact Et|]. apply wp_bind, wp_modify, wp_io_void.
    apply wp_bind, wp_gets. simpl prefixes.
    pose proof (find_pd_first (daddr (buf s)) t') as Hfirst'.
    pose proof (parse_lines_kept _ _ _ _ _ _ _ Et) as Hkept.
    destruct (find_pd _ t') as [j|].
    + apply Hwrite. exists (Some j). split; [done|]. by right.
    + apply wp_ret. exists None. split; [done|]. by right.
  - destruct (_ || _); [|by apply wp_ret]. apply wp_bind, wp_gets.
    pose proof (find_ll_first (daddr (buf s)) (prefixes s)) as Hfirst.
    destruct (find_ll _ _) as [j|]; [apply Hwrite; by exists (Some j)|apply wp_ret; by exists None].
Qed.

(** Replies find their client.  Once a connection has sent a packet from a
    link-local address, a packet from the TUN device to that address, or to the
    address with the same interface in the server's /64, is written to that
    connection, unless a client on a lower descriptor has the same interface.
    (If that write raises SIGPIPE it is the last thing the server does.) *)
Theorem reply_reaches_client fd n m b s :
  inv s -> 0 <= fd < 512 -> connected (log s) fd = true ->
  (exists p, prefixes s !! Z.to_nat fd = Some p /\ plen_ll p = 0) ->
  version (buf s) = 6 -> link_local (saddr (buf s)) = true ->
  version b = 6 -> in_slash_52 (daddr b) (prefix_slash_52 s) = false ->
  in_slash_64 (daddr b) (prefix_slash_64 s) = true \/ link_local (daddr b) = true ->
  same_interface (daddr b) (saddr (buf s)) = true ->
  (forall j p, (j < Z.to_nat fd)%nat -> prefixes s !! j = Some p -> ~ has_interface (daddr b) p) ->
  let l := write (tun_file s) (take n (buf s)) :: log s in
  exists s', (packet_from_client fd n;; modify (set_buf b);; packet_from_tun m) s =
      (if sigpipe l fd (take m b) then Halt s' else Done () s') /\
    log s' = write fd (take m b) :: l.
Proof.
  intros [[Hlen _] Hbuf _] Hfd _ (p & Hp & Hpl) Hv Hlink Hv' H52 H64 Hsame Hfirst l.
  unfold packet_from_client. run_effects. rewrite (proj2 (Z.ltb_lt _ _)) by lia. rewrite Hp.
  rewrite store_at_ok by lia.
  pose proof (find_learned (Z.to_nat fd) (daddr b) (buf s) p (prefixes s) Hp Hpl Hv Hlink Hsame Hfirst) as Hfind.
  set (t' := <[_ := _]> (prefixes s)) in *.
  unfold packet_from_tun, call_void. run_effects.
  cbn [buf set_buf set_prefixes add_io prefix_slash_52 prefix_slash_64 prefixes log tun_file].
  rewrite Hv'. change (6 =? 6) with true. cbn beta iota.
  cbn [buf set_buf set_prefixes add_io prefix_slash_52 prefix_slash_64 prefixes log tun_file].
  rewrite H52. cbn iota.
  replace (in_slash_64 (daddr b) (prefix_slash_64 s) || link_local (daddr b)) with true.
  2:{ destruct H64 as [-> | ->]; by rewrite ?orb_true_r. }
  cbn beta iota. cbn [prefixes set_buf set_prefixes add_io].
  rewrite Hfind. unfold write_client, call_void. run_effects.
  cbn [log add_io set_buf set_prefixes]. rewrite Z2Nat.id by lia. fold l.
  eexists. split; [by destruct (sigpipe l fd _)|done].
Qed.

(** The bound that is checked when a packet arrives is not checked when the
    connection ends: closing descriptor 512 or above writes behind the table. *)
Theorem close_beyond_table fd s :
  length (prefixes s) = 512%nat -> 0 <= fd ->
  close_client fd s = Undef <-> 512 <= fd.
Proof.
  intros Hlen Hfd. unfold close_client. run_effects. simpl.
  destruct (decide (fd < 512)).
  - destruct (lookup_lt_is_Some_2 (prefixes s) (Z.to_nat fd)) as [p Hp]; [lia|]. rewrite Hp.
    rewrite store_at_ok by lia. split; [done|lia].
  - rewrite (proj2 (lookup_ge_None (prefixes s) (Z.to_nat fd))) by lia. split; [lia|done].
Qed.
End theorems.

(** ** Witnesses *)

#[export] Instance valid_event_dec l listener tun e : Decision (valid_event l listener tun e).
Proof. unfold valid_event. apply _. Defined.

(** [valid_events] by running. *)
Fixpoint valid_events_run `{Os} (efd : Z) (s : server) (es : list epoll_event) : bool :=
  match es with
  | [] => true
  | e :: es =>
      bool_decide (valid_event (log s) (sfd s) (tun_file s) e) &&
      match handle_event efd e s with
      | Done _ s' => valid_events_run efd s' es
      | _ => true
      end
  end.

Lemma valid_events_run_sound `{Os} efd s es :
  valid_events_run efd s es = true -> valid_events efd s es.
Proof.
  revert s. induction es as [|e es IH]; intros s; simpl; [done|].
  intros [He%bool_decide_eq_true Hes]%andb_true_iff. split; [done|].
  intros s' E. rewrite E in Hes. by apply IH.
Qed.

(** A system on which everything works; the file assigns one block. *)
Definition demo_os : Os := {|
  libc := demo_libc;
  ret _ c := match c with
             | open_tun => 4 | socket (inet_stream _) => 6 | socket _ | open_keepalive _ => 5
             | epoll_create => 7 | _ => 0
             end;
  O_NONBLOCK := 2048;
  sigpipe _ _ _ := false;
  addrinfos := Some [1];
  client_assignments _ := Some (line_of demo_line);
  stack _ := ([], [], []);
|}.

Lemma demo_fit : @assignments_fit demo_os.
Proof.
  intros l file [= <-]. exists [[65; SP; 66; 47; 54; 48]], []. split; [reflexivity|].
  split; [constructor; [|constructor]|split; [by intros ?%not_elem_of_nil|simpl; lia]].
  split; [vm_decide|]. split; simpl; [lia|]. intros _. lia.
Qed.

Lemma demo_readable : @assignments_readable demo_os.
Proof. exact (@fit_readable demo_os demo_fit). Qed.

(** An IPv6 packet with these addresses and one byte of payload. *)
Definition packet (src dst : in6_addr) : list Z :=
  [0x60; 0; 0; 0; 0; 1; 59; 64] ++ src ++ dst ++ [7].

Definition unstarted : server := ServerState [] [] [] 0 0 (replicate 4096 0) [].

(** A client connects and sends a packet; a packet arrives for its block, and
    the client leaves. *)
Definition demo_events : list epoll_event :=
  [EpollEvent false false true 6 [8] [] Drained;
   EpollEvent false false true 8 [] [packet demo_ll demo_pd] Drained;
   EpollEvent false false true 4 [] [packet demo_ll demo_pd] Drained;
   EpollEvent false false true 8 [] [] Eof].

(** The block's addresses, as the two arguments. *)
Definition demo_argv : list (list Z) := [[66; 48; 48; 48]; [65]].

Lemma demo_events_valid efd s1 :
  @main_setup demo_os demo_argv unstarted = Done efd s1 ->
  @valid_events demo_os efd s1 demo_events.
Proof.
  intros E. apply valid_events_run_sound.
  assert ((if @main_setup demo_os demo_argv unstarted is Done efd s1
    then @valid_events_run demo_os efd s1 demo_events else false) = true) as H
    by (vm_compute; reflexivity).
  by rewrite E in H.
Qed.

Lemma server_safe_witness :
  exists s', @main demo_os demo_argv demo_events unstarted = Done () s' /\
    write 8 (packet demo_ll demo_pd) ∈ log s' /\ writes_ok (tun_file s') (log s').
Proof.
  destruct (wp_run _ _ _ _ (@server_safe demo_os demo_argv demo_events unstarted
    eq_refl eq_refl demo_fit demo_events_valid)) as ([] & s' & E & Hinv).
  { vm_compute. reflexivity. }
  exists s'. split; [exact E|]. split; [|exact (inv_writes s' Hinv)].
  assert ((if @main demo_os demo_argv demo_events unstarted is Done _ s'
    then bool_decide (write 8 (packet demo_ll demo_pd) ∈ log s') else false) = true) as H
    by (vm_compute; reflexivity).
  rewrite E in H. exact (bool_decide_eq_true_1 _ H).
Defined.

(** One client on descriptor 8, and a packet in the buffer. *)
Definition one_client (p : socket_prefix) (data : list Z) : server :=
  ServerState (<[8%nat := p]> no_clients) demo_pd demo_pd 4 6
    (data ++ replicate (4096 - length data) 0) [accepted 8].

Lemma one_client_inv p data :
  entry_ok [accepted 8] 8 p -> (length data <= 4096)%nat -> inv (one_client p data).
Proof.
  intros Hp Hlen. split; [split|..].
  - done.
  - intros j q [(<- & <- & _)|(Hne & [-> _]%lookup_replicate)]%list_lookup_insert_Some; done.
  - cbn [one_client buf]. rewrite length_app, length_replicate. lia.
  - done.
Qed.

(** The packet waits for the assignments, which give the client its block. *)
Lemma tun_packet_routed_witness :
  exists s', @packet_from_tun demo_os 41
      (one_client (SocketPrefix zero_addr 0 demo_ll 128) (packet demo_ll demo_pd)) = Done () s' /\
    exists o, first_client (in_block demo_pd) (prefixes s') o.
Proof.
  destruct (wp_run _ _ _ _ (@tun_packet_routed demo_os 41
    (one_client (SocketPrefix zero_addr 0 demo_ll 128) (packet demo_ll demo_pd))
    demo_readable ltac:(apply one_client_inv; [split_and!; [reflexivity|reflexivity|by intros []]|simpl; lia])))
    as ([] & s' & E & H); [vm_compute; reflexivity|].
  exists s'. split; [exact E|]. unfold packet_routed in H. cbv zeta in H.
  assert (Hv : (version (buf (one_client (SocketPrefix zero_addr 0 demo_ll 128)
    (packet demo_ll demo_pd))) =? 6) = true) by (vm_compute; reflexivity).
  assert (H52 : in_slash_52 (daddr (buf (one_client (SocketPrefix zero_addr 0 demo_ll 128)
    (packet demo_ll demo_pd)))) demo_pd = true) by (vm_compute; reflexivity).
  rewrite Hv in H. cbn [negb prefix_slash_52 one_client] in H, H52. rewrite H52 in H.
  destruct H as (o & Hfirst & _). exists o. exact Hfirst.
Defined.

Definition elsewhere : in6_addr := replicate 16 9.

Lemma reply_reaches_client_witness :
  exists s', (packet_from_client 8 41;; modify (set_buf (packet elsewhere demo_ll));;
      packet_from_tun (H:=demo_os) 41) (one_client zero_prefix (packet demo_ll elsewhere)) = Done () s' /\
    log s' = [write 8 (packet elsewhere demo_ll); write 4 (packet demo_ll elsewhere); accepted 8].
Proof.
  destruct (@reply_reaches_client demo_os 8 41 41 (packet elsewhere demo_ll)
    (one_client zero_prefix (packet demo_ll elsewhere))) as (s' & E & Hlog).
  - apply one_client_inv; [by split_and!|simpl; lia].
  - lia.
  - reflexivity.
  - exists zero_prefix. split; reflexivity.
  - reflexivity.
  - reflexivity.
  - reflexivity.
  - reflexivity.
  - right. reflexivity.
  - reflexivity.
  - intros j p Hj Hp. cbn [one_client prefixes] in Hp.
    rewrite list_lookup_insert_ne in Hp by (simpl in Hj; lia).
    apply lookup_replicate in Hp as [-> _]. intros [[] _]. reflexivity.
  - exists s'. split; [exact E|]. etransitivity; [exact Hlog|]. vm_compute. reflexivity.
Defined.

Lemma close_beyond_table_witness :
  @close_client 512 (one_client zero_prefix []) = Undef.
Proof. apply (close_beyond_table 512 (one_client zero_prefix [])); [reflexivity|lia|lia]. Defined.
End Server.
