(* ===== verification/TunnelClient.v ===== *)
(** * The tunnel client

    Models [src/gateway/tunnel/tunnel-client.c]: the setup of the TUN device, the
    address made from the MAC address, connecting and reconnecting to the server,
    and the loop that shuttles data between the TUN device and the connection.

    System calls are recorded in [log], newest first, a read with what it gave;
    the results of the other calls are a parameter ([Os]).  What one round of the
    main loop finds - the result of [select] and what there is to read - is an
    argument.  The two loops that retry for ever take fuel; [None] when it runs
    out.  Which descriptor is the TUN device and which the connection is read from
    the trace ([tun_device], [connection]): data counts as passed on only if it
    was written to the right one.

    [send] on a connection that the server has reset raises SIGPIPE, which the
    program neither handles nor ignores: it ends the program ([send_packet]). *)
From S2P Require Import Prelude CLib.

Module Client.

(** ** System calls *)

(** What a read gives. *)
Inductive received := Got (data : list Z) | Again | Failed.

Inductive io :=
| open_tun
| ioctl_TUNSETIFF (fd : Z)
| fcntl_getfl (fd : Z)
| fcntl_setfl (fd flags : Z)
| close (fd : Z)
| open_mac
| read_mac (fd : Z)
| system (cmd : list Z)
| getaddrinfo
| socket
| connect (fd : Z)
| freeaddrinfo
| sleep (seconds : Z)
| select (nfds : Z) (fds : list Z)
| recv (fd : Z) (r : received)
| read_tun (fd : Z) (r : received)
| write_tun (fd : Z) (bytes : list Z)
| send (fd : Z) (bytes : list Z).

Class Os := {
  (** what the calls return; negative on a failure *)
  ret : list io -> io -> Z;
  O_NONBLOCK : Z;
  (** whether a [send] raises SIGPIPE *)
  sigpipe : list io -> Z -> list Z -> bool;
  (** what reading "/sys/class/net/eth0/address" stores in the buffer *)
  mac_contents : list Z;
}.

(** ** State *)

Record client := ClientState {
  tcp_socket : Z; tun_file : Z; cmd_lladdr_buf : list Z;
  macbuf : list Z; buf : list Z; log : list io;
}.

Definition set_tcp_socket (fd : Z) (s : client) : client :=
  ClientState fd (tun_file s) (cmd_lladdr_buf s) (macbuf s) (buf s) (log s).
Definition set_tun_file (fd : Z) (s : client) : client :=
  ClientState (tcp_socket s) fd (cmd_lladdr_buf s) (macbuf s) (buf s) (log s).
Definition set_cmd (c : list Z) (s : client) : client :=
  ClientState (tcp_socket s) (tun_file s) c (macbuf s) (buf s) (log s).
Definition set_macbuf (b : list Z) (s : client) : client :=
  ClientState (tcp_socket s) (tun_file s) (cmd_lladdr_buf s) b (buf s) (log s).
Definition set_buf (b : list Z) (s : client) : client :=
  ClientState (tcp_socket s) (tun_file s) (cmd_lladdr_buf s) (macbuf s) b (log s).
Definition add_io (c : io) (s : client) : client :=
  ClientState (tcp_socket s) (tun_file s) (cmd_lladdr_buf s) (macbuf s) (buf s) (c :: log s).

(** The globals, and the variables of [main] as the stack has them. *)
Definition start (mac stack : list Z) : client :=
  ClientState (-1) (-1) (replicate 4096 0) mac stack [].

(** One round of the main loop: what [select] returns, which of the descriptors
    are ready, and what there is to read. *)
Record round := Round {
  select_ret : Z; tcp_ready : bool; tun_ready : bool;
  from_tcp : received; from_tun : received;
}.

Inductive status := Continue | Stop | OutOfFuel.

Definition NAME : list Z := text "ipv6-umich".

(** ** Operations *)

Section operations.
Context `{Os}.

Definition call (c : io) : M client Z := fun s => Done (ret (log s) c) (add_io c s).
Definition call_void (c : io) : M client () := modify (add_io c).

(** [ssystem(fmt)], for a format without directives: it has a buffer of 128
    characters. *)
Definition ssystem (fmt : list Z) : M client Z := call (system (take 127 fmt)).

(** [make_nonblocking(fd)] *)
Definition make_nonblocking (fd : Z) : M client Z :=
  flags ← call (fcntl_getfl fd);
  if flags =? -1 then mret (-1) else
  let flags := Z.lor flags O_NONBLOCK in
  r ← call (fcntl_setfl fd flags);
  if r =? -1 then mret (-1) else mret 0.

(** The loop of [connect_tcp]. *)
Fixpoint connect_loop (fuel : nat) : M client (option ()) :=
  match fuel with
  | O => mret None
  | S fuel =>
      fd ← gets tcp_socket;
      r ← call (connect fd);
      if r <? 0 then call_void (sleep 2);; connect_loop fuel else mret (Some ())
  end.

(** [connect_tcp()] *)
Definition connect_tcp (fuel : nat) : M client (option Z) :=
  old ← gets tcp_socket;
  call_void (close old);;
  r ← call getaddrinfo;
  if r <? 0 then mret (Some (-1)) else
  fd ← call socket;
  modify (set_tcp_socket fd);;
  if fd <? 0 then mret (Some (-1)) else
  connected ← connect_loop fuel;
  match connected with
  | None => mret None
  | Some _ => call_void freeaddrinfo;; mret (Some 0)
  end.

(** The loop of [reconnect]; [tries] bounds its rounds. *)
Fixpoint reconnect_loop (tries fuel : nat) : M client (option ()) :=
  match tries with
  | O => mret None
  | S tries =>
      r ← connect_tcp fuel;
      match r with
      | None => mret None
      | Some r => if r <? 0 then call_void (sleep 2);; reconnect_loop tries fuel
                  else mret (Some ())
      end
  end.

(** [reconnect()] *)
Definition reconnect (fuel : nat) : M client (option ()) :=
  r ← reconnect_loop fuel fuel;
  match r with
  | None => mret None
  | Some _ =>
      cmd ← gets cmd_lladdr_buf;
      _ ← ssystem (cstring cmd);
      mret (Some ())
  end.

(** The command for the link-local address, from the MAC address in [macbuf]. *)
Definition lladdr_command : M client () :=
  b ← gets macbuf;
  c15 ← lift (b !! 15%nat);
  b ← lift (store_at b 14 c15);
  c16 ← lift (b !! 16%nat);
  b ← lift (store_at b 15 c16);
  b ← lift (store_at b 16 0);
  modify (set_macbuf b);;
  let cmd := text "ifconfig " ++ NAME ++ text " add fe80::c298:e5ff:fe"
             ++ string_at b 9 ++ text "/64" in
  old ← gets cmd_lladdr_buf;
  new ← lift (memcpy_at old 0 (take 4095 cmd ++ [0]) (length (take 4095 cmd ++ [0])));
  modify (set_cmd new).

(** [main] up to its loop; [Some] of the value it returns early. *)
Definition main_setup (fuel : nat) : M client status :=
  fd ← call open_tun;
  modify (set_tun_file fd);;
  if fd <? 0 then mret Stop else
  r ← call (ioctl_TUNSETIFF fd);
  if r <? 0 then call_void (close fd);; mret Stop else
  _ ← make_nonblocking fd;
  _ ← ssystem (text "ifconfig " ++ NAME ++ text " up");
  _ ← ssystem (text "ip -6 route add default via fe80::1 dev " ++ NAME);
  macfile ← call open_mac;
  if macfile <? 0 then mret Stop else
  read_len ← call (read_mac macfile);
  if read_len <? 0 then mret Stop else
  b ← gets macbuf;
  b ← lift (memcpy_at b 0 mac_contents (length mac_contents));
  modify (set_macbuf b);;
  call_void (close macfile);;
  lladdr_command;;
  r ← reconnect fuel;
  mret (match r with None => OutOfFuel | Some _ => Continue end).

(** [FD_SET(fd, &rfds)] *)
Definition FD_SET (fd : Z) : M client () :=
  if decide (0 <= fd < 1024) then mret () else lift None.

(** The number of descriptors passed to [select]; [nfds] is a [uint8_t]. *)
Definition nfds (tcp tun : Z) : Z :=
  let n := u8 (tcp + 1) in
  if n <? tun + 1 then u8 (tun + 1) else n.

(** [FD_ISSET(fd, &rfds)] after [select(n, &rfds, ...)]: of the first [n]
    descriptors [select] reports those that are ready, and no others. *)
Definition FD_ISSET (n fd : Z) (ready : bool) : bool := (fd <? n) && ready.

Definition reconnected (r : option ()) : status :=
  match r with None => OutOfFuel | Some _ => Continue end.

(** Data on the connection. *)
Definition handle_tcp (fuel : nat) (r : received) : M client status :=
  fd ← gets tcp_socket;
  call_void (recv fd r);;
  match r with
  | Got [] => x ← reconnect fuel; mret (reconnected x)
  | Again => mret Continue
  | Failed => x ← reconnect fuel; mret (reconnected x)
  | Got data =>
      b ← gets buf;
      b ← lift (memcpy_at b 0 data (length data));
      modify (set_buf b);;
      tun ← gets tun_file;
      call_void (write_tun tun (take (length data) b));;
      mret Continue
  end.

(** [send(tcp_socket, buf, read_len, 0)] *)
Definition send_packet (fd : Z) (bytes : list Z) : M client Z :=
  l ← gets log;
  sent_len ← call (send fd bytes);
  if sigpipe l fd bytes then halt else mret sent_len.

(** Data on the TUN device. *)
Definition handle_tun (fuel : nat) (r : received) : M client status :=
  tun ← gets tun_file;
  call_void (read_tun tun r);;
  match r with
  | Again => mret Continue
  | Failed => mret Stop
  | Got data =>
      b ← gets buf;
      b ← lift (memcpy_at b 0 data (length data));
      modify (set_buf b);;
      fd ← gets tcp_socket;
      sent_len ← send_packet fd (take (length data) b);
      if sent_len <? 0 then x ← reconnect fuel; mret (reconnected x) else mret Continue
  end.

(** The body of the main loop. *)
Definition main_round (fuel : nat) (r : round) : M client status :=
  tcp ← gets tcp_socket;
  tun ← gets tun_file;
  FD_SET tcp;;
  FD_SET tun;;
  let n := nfds tcp tun in
  call_void (select n [tcp; tun]);;
  if select_ret r <=? 0 then mret Continue else
  st ← (if FD_ISSET n tcp (tcp_ready r) then handle_tcp fuel (from_tcp r) else mret Continue);
  match st with
  | Continue => if FD_ISSET n tun (tun_ready r) then handle_tun fuel (from_tun r) else mret Continue
  | _ => mret st
  end.

Fixpoint main_loop (fuel : nat) (rs : list round) : M client status :=
  match rs with
  | [] => mret Continue
  | r :: rs =>
      st ← main_round fuel r;
      match st with Continue => main_loop fuel rs | _ => mret st end
  end.
End operations.

(** ** Reading the trace *)

Section trace.
Context `{Os}.

(** A descriptor that is no longer in use. *)
Definition lose (fd : Z) (o : option Z) : option Z := if bool_decide (o = Some fd) then None else o.

(** The TUN device that is open. *)
Fixpoint tun_device (log : list io) : option Z :=
  match log with
  | [] => None
  | c :: log =>
      match c with
      | open_tun => if ret log c <? 0 then tun_device log else Some (ret log c)
      | close fd => lose fd (tun_device log)
      | _ => tun_device log
      end
  end.

(** The socket that is connected: until it is closed, a [send] on it fails, or a
    [recv] reports its end or an error. *)
Fixpoint connection (log : list io) : option Z :=
  match log with
  | [] => None
  | c :: log =>
      match c with
      | connect fd => if ret log c <? 0 then connection log else Some fd
      | close fd | recv fd (Got []) | recv fd Failed => lose fd (connection log)
      | send fd _ => if ret log c <? 0 then lose fd (connection log) else connection log
      | _ => connection log
      end
  end.

(** What a call did for the descriptor that [o] says is the right one. *)
Definition on_fd {A} (fd : Z) (o : option Z) (x : A) : list A := if bool_decide (o = Some fd) then [x] else [].

(** What was written to the TUN device, and given to the connection. *)
Fixpoint to_tun (log : list io) : list (list Z) :=
  match log with
  | [] => []
  | c :: log => to_tun log ++ (if c is write_tun fd b then on_fd fd (tun_device log) b else [])
  end.
Fixpoint to_tcp (log : list io) : list (list Z) :=
  match log with
  | [] => []
  | c :: log => to_tcp log ++ (if c is send fd b then on_fd fd (connection log) b else [])
  end.

(** What was read from them. *)
Fixpoint tun_reads (log : list io) : list (list Z) :=
  match log with
  | [] => []
  | c :: log => tun_reads log ++ (if c is read_tun fd (Got b) then on_fd fd (tun_device log) b else [])
  end.
Fixpoint tcp_reads (log : list io) : list (list Z) :=
  match log with
  | [] => []
  | c :: log => tcp_reads log ++ (if c is recv fd (Got (x :: b)) then on_fd fd (connection log) (x :: b) else [])
  end.
End trace.

(** ** Specification *)

Definition tcp_data (r : round) : list (list Z) :=
  if (0 <? select_ret r) && tcp_ready r then
    match from_tcp r with Got (x :: d) => [x :: d] | _ => [] end
  else [].
Definition tun_data (r : round) : list (list Z) :=
  if (0 <? select_ret r) && tun_ready r then
    match from_tun r with Got d => [d] | _ => [] end
  else [].
Definition stops (r : round) : bool :=
  (0 <? select_ret r) && tun_ready r && match from_tun r with Failed => true | _ => false end.

(** The data that flows in each direction until the TUN device fails. *)
Fixpoint flow (rs : list round) : list (list Z) * list (list Z) * status :=
  match rs with
  | [] => ([], [], Continue)
  | r :: rs =>
      if stops r then (tcp_data r, [], Stop) else
      let '(a, b, st) := flow rs in (tcp_data r ++ a, tun_data r ++ b, st)
  end.

(** A round whose data fits the buffer. *)
Definition fits (r : round) : Prop :=
  forall d, from_tcp r = Got d \/ from_tun r = Got d -> (length d <= 4096)%nat.

(** The program was killed: its last call raised SIGPIPE. *)
Definition killed `{Os} (s : client) : bool :=
  match log s with send fd b :: l => sigpipe l fd b | _ => false end.

Section theorems.
Context `{Os}.
Implicit Types s : client.

(** The number of times the client has slept since a [connect] succeeded. *)
Fixpoint waited (log : list io) : nat :=
  match log with
  | [] => 0
  | sleep _ :: log => S (waited log)
  | connect fd :: log => if ret log (connect fd) <? 0 then waited log else 0
  | _ :: log => waited log
  end.

(** A new descriptor is not that of the TUN device. *)
Definition apart : Prop := forall l,
  tun_device l <> Some (ret l socket) /\ tun_device l <> Some (ret l open_mac).

(** The server can be reached, at the latest after [n] pauses every time, and
    descriptors are small enough for an [fd_set]. *)
Definition reachable (n : nat) : Prop :=
  (apart /\ forall l, ret l socket < 1024) /\
  forall l, (n <= waited l)%nat ->
    0 <= ret l getaddrinfo /\ 0 <= ret l socket /\ forall fd, 0 <= ret l (connect fd).

(** All that flowed through the client. *)
Definition flows (l : list io) : list (list Z) * list (list Z) * list (list Z) * list (list Z) :=
  (to_tun l, to_tcp l, tun_reads l, tcp_reads l).

(** The TUN device is open, and the buffer is there. *)
Definition equipped s : Prop :=
  length (buf s) = 4096%nat /\ tun_device (log s) = Some (tun_file s) /\ tcp_socket s <> tun_file s.

(** What the main loop keeps: a connection too. *)
Definition running s : Prop :=
  equipped s /\ 0 <= tun_file s < 1024 /\ 0 <= tcp_socket s < 1024 /\
  connection (log s) = Some (tcp_socket s).

Lemma wp_client_io c s (Q : Z -> client -> Prop) R : Q (ret (log s) c) (add_io c s) -> wp (call c) s Q R.
Proof. done. Qed.
Lemma wp_client_io_void c s (Q : () -> client -> Prop) R : Q tt (add_io c s) -> wp (call_void c) s Q R.
Proof. done. Qed.

(** *** Connecting leads to a connection *)

(** A call that opens, closes and passes on nothing. *)
Definition idle (c : io) : Prop :=
  match c with
  | open_tun | close _ | connect _ | recv _ _ | read_tun _ _ | write_tun _ _ | send _ _ => False
  | _ => True
  end.

Lemma flows_cons c l :
  match c with recv _ _ | read_tun _ _ | write_tun _ _ | send _ _ => False | _ => True end ->
  flows (c :: l) = flows l.
Proof. intros Hc. destruct c; try done; unfold flows; cbn; by rewrite !app_nil_r. Qed.

Lemma idle_cons c l :
  idle c -> flows (c :: l) = flows l /\ tun_device (c :: l) = tun_device l /\ connection (c :: l) = connection l.
Proof. intros Hc. split; [apply flows_cons; by destruct c|]. by destruct c. Qed.

Lemma lose_ne fd fd' : fd <> fd' -> lose fd (Some fd') = Some fd'.
Proof. intros Hne. unfold lose. rewrite bool_decide_false; [done|]. by intros [= ->]. Qed.

(** The descriptors: the same TUN device, and the same socket or a new one. *)
Definition same_tun s s' : Prop :=
  tun_file s' = tun_file s /\ (tcp_socket s' = tcp_socket s \/ exists l, tcp_socket s' = ret l socket).

Lemma same_tun_trans s1 s2 s3 : same_tun s1 s2 -> same_tun s2 s3 -> same_tun s1 s3.
Proof.
  intros [E1 H1] [E2 H2]. split; [congruence|]. destruct H2 as [->|]; [done|by right].
Qed.

(** Connecting: what it leaves alone. *)
Definition unmoved s s' : Prop :=
  equipped s' /\ flows (log s') = flows (log s) /\ same_tun s s'.

Lemma unmoved_trans s1 s2 s3 : unmoved s1 s2 -> unmoved s2 s3 -> unmoved s1 s3.
Proof. intros (_ & E1 & F1) (He & E2 & F2). split_and!; [done|congruence|by eapply same_tun_trans]. Qed.

Lemma unmoved_io c s : equipped s -> idle c -> unmoved s (add_io c s).
Proof.
  intros (? & Hd & ?) Hc. destruct (idle_cons c (log s) Hc) as (E1 & E2 & _).
  unfold unmoved, equipped, same_tun. cbn [log add_io buf tun_file tcp_socket]. rewrite E1, E2. auto 10.
Qed.

Lemma connect_loop_connects fuel s s' :
  equipped s -> connect_loop fuel s = Done (Some ()) s' ->
  unmoved s s' /\ connection (log s') = Some (tcp_socket s').
Proof.
  revert s. induction fuel as [|fuel IH]; intros s Hs; cbn [connect_loop]; [by run_effects|].
  run_effects. unfold call, call_void. run_effects. set (s1 := add_io (connect _) s).
  assert (unmoved s s1) as H1.
  { destruct Hs as (? & ? & ?). unfold unmoved, equipped, same_tun, s1. cbn [log add_io]. rewrite flows_cons by done. auto 10. }
  destruct (ret (log s) (connect (tcp_socket s)) <? 0) eqn:Er.
  - assert (unmoved s1 (add_io (sleep 2) s1)) as H2 by (apply unmoved_io; [apply H1|done]).
    intros E. destruct (IH (add_io (sleep 2) s1)) as [H3 Hc]; [apply H2|exact E|].
    split; [|done]. eapply unmoved_trans; [exact H1|]. by eapply unmoved_trans.
  - intros [= <-]. split; [exact H1|]. cbn [s1 log add_io connection]. by rewrite Er.
Qed.

Lemma connect_tcp_connects fuel s s' r :
  apart -> equipped s -> connect_tcp fuel s = Done (Some r) s' ->
  unmoved s s' /\ (r < 0 \/ connection (log s') = Some (tcp_socket s')).
Proof.
  intros Hapart Hs. unfold connect_tcp. run_effects. unfold call, call_void. run_effects.
  set (s1 := add_io (close _) s). assert (unmoved s s1) as H1.
  { destruct Hs as (? & Hd & ?). unfold unmoved, equipped, same_tun, s1. cbn [log add_io].
    rewrite flows_cons by done. cbn [tun_device]. rewrite Hd, lose_ne by done. auto 10. }
  set (s2 := add_io getaddrinfo s1). assert (unmoved s s2) as H2.
  { eapply unmoved_trans; [exact H1|]. apply unmoved_io; [apply H1|done]. }
  destruct (_ <? 0); [intros [= <- <-]; split; [exact H2|by left]|].
  set (s3 := set_tcp_socket _ _). assert (unmoved s s3) as H3.
  { eapply unmoved_trans; [exact H2|]. destruct H2 as ((Hb & Hd & _) & _ & _).
    unfold unmoved, equipped, same_tun. cbn [s3 set_tcp_socket add_io buf tun_file log tcp_socket].
    rewrite flows_cons by done. cbn [tun_device]. split_and!; try done; [|right; by eexists].
    intros E. apply (proj1 (Hapart (log s2))). by rewrite E. }
  destruct (_ <? 0); [intros [= <- <-]; split; [exact H3|by left]|].
  destruct (connect_loop fuel s3) as [[[]|] s4| |] eqn:E; [|by intros [= ]..].
  intros [= <- <-]. destruct (connect_loop_connects _ _ _ (proj1 H3) E) as [H4 Hc].
  split; [|by right]. eapply unmoved_trans; [exact H3|]. eapply unmoved_trans; [exact H4|].
  apply unmoved_io; [apply H4|done].
Qed.

Lemma reconnect_connects fuel s s' :
  apart -> equipped s -> reconnect fuel s = Done (Some ()) s' ->
  unmoved s s' /\ connection (log s') = Some (tcp_socket s').
Proof.
  intros Hapart Hs. unfold reconnect, ssystem. intros ([[]|] & s1 & E1 & E2)%bind_Done_inv; [|done].
  assert (unmoved s s1 /\ connection (log s1) = Some (tcp_socket s1)) as [H1 Hc].
  { revert E1. generalize fuel at 1. intros tries. clear E2. revert s Hs.
    induction tries as [|tries IH]; intros s Hs; cbn [reconnect_loop]; [done|].
    intros ([r|] & s2 & E2 & E3)%bind_Done_inv; [|done].
    destruct (connect_tcp_connects _ _ _ _ Hapart Hs E2) as [H2 Hc2].
    destruct (Z.ltb_spec r 0); [|injection E3 as <-; split; [done|]; by destruct Hc2; [lia|]].
    destruct (IH (add_io (sleep 2) s2)) as [H3 Hc].
    { apply (unmoved_io (sleep 2) s2); [apply H2|done]. }
    { exact E3. }
    split; [|exact Hc]. eapply unmoved_trans; [exact H2|]. eapply unmoved_trans; [|exact H3].
    apply unmoved_io; [apply H2|done]. }
  revert E2. run_effects. unfold call. intros [= <-]. split; [|exact Hc].
  eapply unmoved_trans; [exact H1|]. apply unmoved_io; [apply H1|done].
Qed.

(** Programs that leave the TUN device alone. *)
Definition keeping {A} (m : M client A) : Prop :=
  forall s a s', equipped s -> m s = Done a s' -> equipped s'.

Lemma keeping_bind {A B} (m : M client A) (f : A -> M client B) :
  keeping m -> (forall a, keeping (f a)) -> keeping (m ≫= f).
Proof. intros Hm Hf s b s' Hs (a & s1 & E1 & E2)%bind_Done_inv. by eapply Hf; [eapply Hm|]. Qed.
Lemma keeping_ret {A} (a : A) : keeping (mret a).
Proof. by intros s a' s' Hs [= <- <-]. Qed.
Lemma keeping_gets {A} (f : client -> A) : keeping (gets f).
Proof. by intros s a' s' Hs [= <- <-]. Qed.
Lemma keeping_lift {A} (o : option A) : keeping (lift o).
Proof. intros s a s' Hs. unfold lift. destruct o; [|done]. by intros [= <- <-]. Qed.
Lemma keeping_modify f : (forall s, equipped s -> equipped (f s)) -> keeping (modify f).
Proof. intros Hf s a s' Hs [= <- <-]. by apply Hf. Qed.
Lemma keeping_call c : idle c -> keeping (call c).
Proof. intros Hc s a s' Hs [= <- <-]. by apply unmoved_io. Qed.
Lemma keeping_if {A} (c : bool) (m1 m2 : M client A) : keeping m1 -> keeping m2 -> keeping (if c then m1 else m2).
Proof. by destruct c. Qed.

Ltac keep :=
  repeat first
    [ apply keeping_ret | apply keeping_gets | apply keeping_lift | apply keeping_call; exact I
    | apply keeping_modify; by intros ? ? | apply keeping_bind; [|intros ?] | apply keeping_if ].

(** Past the first call of [E], which keeps [Hold]. *)
Ltac keep_step E Hold Hnew :=
  let E1 := fresh "E1" in let a := fresh "a" in let s := fresh "s" in
  apply bind_Done_inv in E as (a & s & E1 & E);
  assert (equipped s) as Hnew by
    (refine ((_ : keeping _) _ _ _ Hold E1); unfold ssystem, make_nonblocking, lladdr_command; cbv zeta; keep);
  clear E1.

(** The setup of [main] ends with a connection. *)
Lemma main_setup_running fuel mac stack s' :
  apart -> length stack = 4096%nat -> main_setup fuel (start mac stack) = Done Continue s' ->
  0 <= tcp_socket s' < 1024 -> 0 <= tun_file s' < 1024 -> running s'.
Proof.
  intros Hapart Hstack E Htcp Htun.
  enough (equipped s' /\ connection (log s') = Some (tcp_socket s')) as [He Hc] by (split; [exact He|auto]).
  revert E. unfold main_setup. set (s0 := start mac stack).
  intros (fd & s1 & [= <- <-] & E)%bind_Done_inv. set (fd := ret _ open_tun) in *.
  apply bind_Done_inv in E as ([] & s2 & [= <-] & E). destruct (Z.ltb_spec fd 0); [discriminate E|].
  set (s2 := set_tun_file fd (add_io open_tun s0)) in *.
  assert (equipped s2) as H2.
  { split; [done|]. unfold s2. cbn [set_tun_file add_io log tun_device tcp_socket tun_file]. fold fd.
    change (ret (log s0) open_tun) with fd.
    rewrite (proj2 (Z.ltb_ge fd 0)) by done. split; [done|]. unfold s0. cbn [tcp_socket start]. lia. }
  clearbody s2. apply bind_Done_inv in E as (r1 & s3 & E3 & E).
  apply (keeping_call (ioctl_TUNSETIFF fd) I _ _ _ H2) in E3.
  destruct (r1 <? 0); [apply bind_Done_inv in E as (? & ? & _ & E); discriminate E|].
  keep_step E E3 H4. keep_step E H4 H5. keep_step E H5 H6.
  apply bind_Done_inv in E as (macfile & s7 & [= <- <-] & E).
  set (s7 := add_io open_mac _) in *. set (macfile := ret _ open_mac) in *.
  assert (equipped s7) as H7 by by apply unmoved_io.
  assert (tun_device (log s7) <> Some macfile) as Hmac.
  { exact (proj2 (Hapart (tail (log s7)))). }
  destruct (macfile <? 0); [discriminate E|].
  apply bind_Done_inv in E as (len & s8 & [= <- <-] & E). destruct (ret _ _ <? 0); [discriminate E|].
  apply bind_Done_inv in E as (b & s9 & [= <- <-] & E).
  apply bind_Done_inv in E as (b & s9 & E9 & E). unfold lift in E9.
  destruct (memcpy_at _ _ _ _); [|discriminate E9]. injection E9 as <- <-.
  apply bind_Done_inv in E as ([] & s9 & [= <-] & E). apply bind_Done_inv in E as ([] & s10 & [= <-] & E).
  set (s10 := add_io (close macfile) _) in *.
  assert (equipped s10) as H10.
  { destruct H7 as (Hb & Hd & Hne). split; [exact Hb|]. split; [|exact Hne].
    change (lose macfile (tun_device (log s7)) = Some (tun_file s7)). rewrite Hd in Hmac |- *.
    apply lose_ne. congruence. }
  clearbody s10. keep_step E H10 H11.
  apply bind_Done_inv in E as ([[]|] & s12 & E12 & E); [|discriminate E]. injection E as <-.
  destruct (reconnect_connects _ _ _ Hapart H11 E12) as [(He & _) Hc]. by split.
Qed.

(** *** Connecting comes to an end *)

Lemma wp_connect_loop n fuel s :
  reachable n -> (0 < fuel)%nat -> (n < fuel + waited (log s))%nat ->
  wp (connect_loop fuel) s (fun r s' => r = Some tt /\ tcp_socket s' = tcp_socket s) (fun _ => False).
Proof.
  intros Hn. revert s. induction fuel as [|fuel IH]; intros s Hpos Hs; [lia|]. cbn [connect_loop].
  apply wp_bind, wp_gets, wp_bind, wp_client_io.
  destruct (Z.ltb_spec (ret (log s) (connect (tcp_socket s))) 0) as [Hneg|Hok]; [|by apply wp_ret].
  assert (waited (log s) < n)%nat as Hless.
  { apply Nat.nle_gt. intros Hle. destruct (proj2 Hn (log s) Hle) as (_ & _ & Hc).
    specialize (Hc (tcp_socket s)). lia. }
  apply wp_bind, wp_client_io_void. eapply wp_mono; [apply IH| |done]; [lia| |by intros r s' ?].
  cbn [log add_io waited]. rewrite (proj2 (Z.ltb_lt _ _)) by done. lia.
Qed.

Lemma wp_connect_tcp n fuel s :
  reachable n -> (n < fuel)%nat ->
  wp (connect_tcp fuel) s (fun r s' =>
      match r with
      | None => False
      | Some r => r = 0 /\ 0 <= tcp_socket s' < 1024 \/
                  r = -1 /\ (waited (log s') = waited (log s) /\ waited (log s) < n)%nat
      end) (fun _ => False).
Proof.
  intros Hn Hfuel. unfold connect_tcp. apply wp_bind, wp_gets, wp_bind, wp_client_io_void, wp_bind, wp_client_io.
  set (l := log (add_io _ s)).
  assert (waited l = waited (log s)) as Hl by done.
  destruct (Z.ltb_spec (ret l getaddrinfo) 0) as [Hneg|_].
  { apply wp_ret. right. split_and!; [done..|]. rewrite <-Hl. apply Nat.nle_gt.
    intros Hle. destruct (proj2 Hn l Hle) as (? & _). lia. }
  apply wp_bind, wp_client_io, wp_bind, wp_modify. set (l2 := log (add_io getaddrinfo _)).
  destruct (Z.ltb_spec (ret l2 socket) 0) as [Hneg|Hpos].
  { apply wp_ret. right. split_and!; [done..|]. rewrite <-Hl. apply Nat.nle_gt.
    intros Hle. assert (0 <= ret l2 socket) by by apply (proj2 Hn l2). lia. }
  apply wp_bind. eapply wp_mono; [apply (wp_connect_loop n); [done|lia|simpl; lia]| |done].
  intros r s' (-> & Hfd). apply wp_bind, wp_client_io_void, wp_ret. left. split; [done|]. simpl in *. rewrite Hfd.
  split; [done|]. apply (proj2 (proj1 Hn)).
Qed.

Lemma wp_reconnect n fuel s :
  reachable n -> (n < fuel)%nat ->
  wp (reconnect fuel) s (fun r s' => r = Some tt /\ 0 <= tcp_socket s' < 1024) (fun _ => False).
Proof.
  intros Hn Hfuel. unfold reconnect. apply wp_bind.
  apply (wp_mono _ _ (fun r s' => r = Some tt /\ 0 <= tcp_socket s' < 1024) _ (fun _ => False)); [| |done].
  2:{ intros r s1 (-> & Hfd). by apply wp_bind, wp_gets, wp_bind, wp_client_io, wp_ret. }
  assert (forall tries s, (0 < tries)%nat -> (n < tries + waited (log s))%nat ->
    wp (reconnect_loop tries fuel) s (fun r s' => r = Some tt /\ 0 <= tcp_socket s' < 1024) (fun _ => False)) as Hloop.
  2:{ apply Hloop; lia. }
  clear s. induction tries as [|tries IH]; intros s Hpos Hs; [lia|].
  cbn [reconnect_loop]. apply wp_bind. eapply wp_mono; [by apply (wp_connect_tcp n)| |done].
  intros [r|] s1 Hr; [|done]. destruct Hr as [[-> Hfd]|[-> [Hsl Hless]]]; [by apply wp_ret|].
  apply wp_bind, wp_client_io_void. apply IH; simpl; lia.
Qed.

(** What flowed through the client: [a] from the connection to the TUN device, and
    [b] from the TUN device to the connection. *)
Definition flowed (a b : list (list Z)) s s' : Prop :=
  same_tun s s' /\
  let '(u, c, ru, rc) := flows (log s) in flows (log s') = (u ++ a, c ++ b, ru ++ b, rc ++ a).

Lemma same_tun_refl s s' : tun_file s' = tun_file s -> tcp_socket s' = tcp_socket s -> same_tun s s'.
Proof. split; [done|by left]. Qed.

Lemma flowed_nil s s' : same_tun s s' -> flows (log s') = flows (log s) -> flowed [] [] s s'.
Proof. intros E1 E2. split; [done|]. rewrite E2. unfold flows. by rewrite !app_nil_r. Qed.

Lemma flowed_trans a1 b1 a2 b2 s1 s2 s3 :
  flowed a1 b1 s1 s2 -> flowed a2 b2 s2 s3 -> flowed (a1 ++ a2) (b1 ++ b2) s1 s3.
Proof.
  unfold flowed, flows. intros (F1 & [= E1 E2 E3 E4]) (F2 & [= E5 E6 E7 E8]). split; [by eapply same_tun_trans|].
  by rewrite E5, E6, E7, E8, E1, E2, E3, E4, <-!app_assoc.
Qed.

Lemma wp_reconnected n fuel s a b s0 :
  reachable n -> (n < fuel)%nat -> equipped s -> 0 <= tun_file s < 1024 -> flowed a b s0 s ->
  wp (x ← reconnect fuel; mret (reconnected x)) s
    (fun st s' => st = Continue /\ running s' /\ flowed a b s0 s') (fun _ => False).
Proof.
  intros Hn Hfuel Hs Ht (F1 & F2). apply wp_bind.
  pose proof (wp_reconnect n fuel s Hn Hfuel) as Hwp. pose proof (reconnect_connects fuel s) as Hc.
  unfold wp in *. destruct (reconnect fuel s) as [r s'| |]; [|done..]. destruct Hwp as [-> Hfd].
  destruct (Hc s' (proj1 (proj1 Hn)) Hs eq_refl) as ((He & E1 & E2) & Hconn).
  split; [done|]. split; [split; [done|]; by rewrite (proj1 E2)|]. split; [by eapply same_tun_trans|]. by rewrite E1.
Qed.

(** The data that was read is at the start of the buffer. *)
Lemma received_prefix (d : list Z) (b : list Z) :
  take (length d) (take 0 b ++ take (length d) d ++ drop (0 + length d) b) = d.
Proof. change (take 0 b) with (@nil Z). cbn [app]. by rewrite (take_ge d), take_app_length by lia. Qed.

Lemma on_fd_eq {A} fd o (x : A) : o = Some fd -> on_fd fd o x = [x].
Proof. intros ->. unfold on_fd. by rewrite bool_decide_true. Qed.

Lemma equipped_buf s d :
  equipped s -> (length d <= 4096)%nat ->
  equipped (set_buf (take 0 (buf s) ++ take (length d) d ++ drop (0 + length d) (buf s)) s).
Proof.
  intros (Hb & Hs) Hd. split; [|exact Hs]. cbn [buf set_buf]. rewrite !length_app, !length_take, length_drop. lia.
Qed.

Lemma wp_handle_tcp n fuel r s :
  reachable n -> (n < fuel)%nat -> running s -> (forall d, r = Got d -> (length d <= 4096)%nat) ->
  wp (handle_tcp fuel r) s (fun st s' => st = Continue /\ running s' /\
    flowed (match r with Got (x :: d) => [x :: d] | _ => [] end) [] s s') (fun _ => False).
Proof.
  intros Hn Hfuel Hs Hr. pose proof Hs as (He & Ht & Hfd & Hc). unfold handle_tcp.
  apply wp_bind, wp_gets, wp_bind, wp_client_io_void. set (s1 := add_io _ s).
  assert (equipped s1) as He1 by done. destruct r as [[|x d]| |].
  - eapply wp_reconnected; [done..|]. apply flowed_nil; [by apply same_tun_refl|]. unfold flows. cbn. by rewrite !app_nil_r.
  - specialize (Hr _ eq_refl). apply wp_bind, wp_gets, wp_bind, wp_lift. eexists.
    split; [apply memcpy_at_ok; [rewrite (proj1 He1); lia|lia]|].
    apply wp_bind, wp_modify, wp_bind, wp_gets, wp_bind, wp_client_io_void, wp_ret. split; [done|].
    split; [by split; [apply (equipped_buf s1)|]|]. split; [by apply same_tun_refl|]. unfold flows. rewrite received_prefix.
    cbn [s1 log add_io set_buf to_tun to_tcp tun_reads tcp_reads tun_file tun_device].
    rewrite (on_fd_eq _ (tun_device _)) by apply He. rewrite (on_fd_eq _ (connection _)) by done.
    by rewrite !app_nil_r.
  - apply wp_ret. split; [done|]. split; [done|]. apply flowed_nil; [by apply same_tun_refl|]. unfold flows. cbn. by rewrite !app_nil_r.
  - eapply wp_reconnected; [done..|]. apply flowed_nil; [by apply same_tun_refl|]. unfold flows. cbn. by rewrite !app_nil_r.
Qed.

Lemma wp_send_packet fd b s (Q : Z -> client -> Prop) (R : client -> Prop) :
  let s' := add_io (send fd b) s in
  (if sigpipe (log s) fd b then R s' else Q (ret (log s) (send fd b)) s') -> wp (send_packet fd b) s Q R.
Proof.
  intros s' HQ. unfold send_packet. apply wp_bind, wp_gets, wp_bind, wp_client_io. by destruct (sigpipe _ _ _).
Qed.

Lemma wp_handle_tun n fuel r s :
  reachable n -> (n < fuel)%nat -> running s -> (forall d, r = Got d -> (length d <= 4096)%nat) ->
  let d := match r with Got d => [d] | _ => [] end in
  wp (handle_tun fuel r) s (fun st s' => st = (match r with Failed => Stop | _ => Continue end) /\
    running s' /\ flowed [] d s s') (fun s' => killed s' = true /\ r <> Failed /\ flowed [] d s s').
Proof.
  intros Hn Hfuel Hs Hr dd. subst dd. pose proof Hs as (He & Ht & Hfd & Hc). unfold handle_tun.
  apply wp_bind, wp_gets, wp_bind, wp_client_io_void. set (s1 := add_io _ s).
  assert (running s1) as Hs1 by done. pose proof (proj1 Hs1) as He1.
  destruct r as [d| |]; [|apply wp_ret; split; [done|]; split; [done|];
    apply flowed_nil; [by apply same_tun_refl|]; unfold flows; cbn; by rewrite !app_nil_r..].
  specialize (Hr _ eq_refl). apply wp_bind, wp_gets, wp_bind, wp_lift. eexists.
  split; [apply memcpy_at_ok; [rewrite (proj1 He1); lia|lia]|].
  apply wp_bind, wp_modify, wp_bind, wp_gets, wp_bind, wp_send_packet.
  cbn [tcp_socket add_io set_buf s1]. set (s2 := add_io (send _ _) _).
  assert (equipped s2) as He2 by apply (equipped_buf s1 d He1 Hr).
  assert (flowed [] [d] s s2) as Hflow2.
  { split; [by apply same_tun_refl|]. unfold flows, s2. cbn [log add_io set_buf]. rewrite received_prefix.
    cbn [s1 log add_io to_tun to_tcp tun_reads tcp_reads connection].
    rewrite (on_fd_eq _ (tun_device _)) by apply He. rewrite (on_fd_eq _ (connection _)) by done.
    by rewrite !app_nil_r. }
  destruct (sigpipe _ _ _) eqn:Ep; [by split|].
  destruct (ret _ _ <? 0) eqn:Er; [eapply wp_mono; [by eapply wp_reconnected|done..]|].
  apply wp_ret. split; [done|]. split; [|done]. split; [done|]. split; [done|]. split; [done|].
  change (connection (log s2) = Some (tcp_socket s)). unfold s2. cbn [log add_io connection]. by rewrite Er.
Qed.

(** [select] reports descriptors of which it was told. *)
Definition reported s (r : round) : Prop :=
  (tcp_ready r = true -> tcp_socket s < nfds (tcp_socket s) (tun_file s)) /\
  (tun_ready r = true -> tun_file s < nfds (tcp_socket s) (tun_file s)).

Lemma isset_reported n fd b : (b = true -> fd < n) -> FD_ISSET n fd b = b.
Proof. intros Hb. unfold FD_ISSET. destruct b; [|apply andb_false_r]. by rewrite (proj2 (Z.ltb_lt fd n) (Hb eq_refl)). Qed.

Lemma wp_main_round n fuel r s :
  reachable n -> (n < fuel)%nat -> running s -> fits r -> reported s r ->
  wp (main_round fuel r) s (fun st s' => st = (if stops r then Stop else Continue) /\
    running s' /\ flowed (tcp_data r) (tun_data r) s s')
    (fun s' => killed s' = true /\ stops r = false /\ flowed (tcp_data r) (tun_data r) s s').
Proof.
  intros Hn Hfuel Hs Hr [Hrep1 Hrep2]. pose proof Hs as (_ & Htun & Htcp & _). unfold main_round, FD_SET.
  apply wp_bind, wp_gets, wp_bind, wp_gets, wp_bind. rewrite decide_True by done.
  apply wp_ret, wp_bind. rewrite decide_True by done. apply wp_ret. cbv zeta. apply wp_bind, wp_client_io_void.
  rewrite !isset_reported by done.
  set (s1 := add_io _ s). assert (running s1) as Hs1 by done.
  assert (flowed [] [] s s1) as Hflow by (apply flowed_nil; [by apply same_tun_refl|by apply flows_cons]).
  unfold tcp_data, tun_data, stops.
  destruct (Z.leb_spec (select_ret r) 0) as [Hle|Hgt].
  { rewrite (proj2 (Z.ltb_ge 0 _)) by lia. by apply wp_ret. }
  rewrite (proj2 (Z.ltb_lt 0 _)) by lia. cbn [andb]. apply wp_bind.
  assert (wp (if tcp_ready r then handle_tcp fuel (from_tcp r) else mret Continue) s1
    (fun st s2 => st = Continue /\ running s2 /\ flowed (if tcp_ready r then
       match from_tcp r with Got (x :: d) => [x :: d] | _ => [] end else []) [] s1 s2)
    (fun _ => False)) as H1.
  { destruct (tcp_ready r); [|apply wp_ret; split; [done|]; split; [done|by apply flowed_nil; [apply same_tun_refl|]]].
    eapply wp_handle_tcp; try done. intros d Hd. apply Hr. by left. }
  eapply wp_mono; [exact H1| |by intros ?]. clear H1. intros st s2 [-> [Hs2 H2]].
  pose proof (flowed_trans _ _ _ _ _ _ _ Hflow H2) as H3. cbn [app] in H3.
  destruct (tun_ready r).
  - assert (forall b s3, flowed [] b s2 s3 -> flowed (if tcp_ready r then
      match from_tcp r with Got (x :: d) => [x :: d] | _ => [] end else []) b s s3) as H5.
    { intros b s3 H4. pose proof (flowed_trans _ _ _ _ _ _ _ H3 H4) as H5. by rewrite app_nil_r in H5. }
    eapply wp_mono; [eapply wp_handle_tun; try done; intros d Hd; apply Hr; by right|..].
    + intros st s3 (-> & Hs3 & H4%H5). split; [by destruct (from_tun r)|done].
    + intros s3 (Hk & Hr' & H4%H5). split; [done|]. by destruct (from_tun r).
  - apply wp_ret. split; [done|]. split; [done|exact H3].
Qed.

Lemma stops_no_data r : stops r = true -> tun_data r = [].
Proof. unfold stops, tun_data. by destruct (_ <? _), (tun_ready r), (from_tun r). Qed.

(** The descriptors are small enough for [nfds], which is a byte. *)
Definition small s : Prop := tcp_socket s < 255 /\ tun_file s < 255.

Lemma nfds_covers tcp tun :
  0 <= tcp < 1024 -> 0 <= tun < 1024 ->
  (tcp < nfds tcp tun /\ tun < nfds tcp tun) <-> tcp < 255 /\ tun < 255.
Proof.
  intros Htcp Htun. unfold nfds, u8. destruct (Z.ltb_spec ((tcp + 1) mod 256) (tun + 1)); zmod.
Qed.

Lemma small_reported s r : running s -> small s -> reported s r.
Proof.
  intros (_ & Htun & Htcp & _) Hs. destruct (proj2 (nfds_covers _ _ Htcp Htun) Hs). by split; intros _.
Qed.

Lemma small_flowed a b s s' : (forall l, ret l socket < 255) -> small s -> flowed a b s s' -> small s'.
Proof. unfold small. intros Hl [Ht Hf] [[-> [->|[l ->]]] _]; auto. Qed.

(** The whole loop; [killed] in the round that follows some of the rounds. *)
Lemma wp_main_loop n fuel rs s :
  reachable n -> (forall l, ret l socket < 255) -> (n < fuel)%nat -> running s -> small s -> Forall fits rs ->
  wp (main_loop fuel rs) s
    (fun st s' => st = (flow rs).2 /\ running s' /\ flowed ((flow rs).1.1) ((flow rs).1.2) s s')
    (fun s' => killed s' = true /\ exists rs1 r rs2, rs = rs1 ++ r :: rs2 /\ (flow (rs1 ++ [r])).2 = Continue /\
      flowed ((flow (rs1 ++ [r])).1.1) ((flow (rs1 ++ [r])).1.2) s s').
Proof.
  intros Hn Hsmall Hfuel Hs Hsm Hrs. revert s Hs Hsm. induction Hrs as [|r rs Hr Hrs IH]; intros s Hs Hsm; cbn [main_loop flow].
  { apply wp_ret. split; [done|]. split; [done|]. by apply flowed_nil; [apply same_tun_refl|]. }
  apply wp_bind. eapply wp_mono; [apply (wp_main_round n); auto using small_reported|..].
  - intros st s1 (-> & Hs1 & H1). destruct (stops r) eqn:Estop.
    + apply wp_ret. split; [done|]. by rewrite (stops_no_data r Estop) in H1.
    + eapply wp_mono; [apply IH; [exact Hs1|by eapply small_flowed]|..].
      * intros st s2 (-> & Hs2 & H2). destruct (flow rs) as [[a b] st]. split; [done|]. split; [done|].
        by eapply flowed_trans.
      * intros s2 [Hk (rs1 & r1 & rs2 & -> & Hc & H2)]. split; [done|]. exists (r :: rs1), r1, rs2. split; [done|].
        cbn [app flow]. rewrite Estop. destruct (flow (rs1 ++ [r1])) as [[a b] st]. split; [done|].
        by eapply flowed_trans.
  - intros s1 (Hk & Estop & H1). split; [done|]. exists [], r, rs. split; [done|]. cbn [app flow].
    rewrite Estop. by rewrite !app_nil_r.
Qed.

(** C22: the client's loop.  It is connected, its descriptors and those its system
    gives to its sockets are below 255 and never that of its open TUN device, the
    server can be reached again after a while, and no read gives more than 4096
    bytes.  Then the loop never hangs: what it reads from its connection it writes
    to its TUN device, and what it reads from its TUN device it gives to [send] on
    the socket that is connected at that time, each packet once, in order, whatever
    reconnects happen in between (a packet whose [send] fails is not sent again).
    It ends only when the TUN device fails, and is connected when it goes on.  If
    a [send] raises SIGPIPE it is killed there, and both are complete up to that
    packet. *)
Theorem client_shuttles n fuel rs s :
  reachable n -> (forall l, ret l socket < 255) -> (n < fuel)%nat -> running s -> small s -> Forall fits rs ->
  let passed s' a b :=
    to_tun (log s') = to_tun (log s) ++ a /\ to_tcp (log s') = to_tcp (log s) ++ b /\
    tun_reads (log s') = tun_reads (log s) ++ b /\ tcp_reads (log s') = tcp_reads (log s) ++ a in
  wp (main_loop fuel rs) s
    (fun st s' => let '(a, b, st') := flow rs in
      st = st' /\ passed s' a b /\ connection (log s') = Some (tcp_socket s'))
    (fun s' => killed s' = true /\ exists rs1 r rs2, rs = rs1 ++ r :: rs2 /\
      let '(a, b, st') := flow (rs1 ++ [r]) in st' = Continue /\ passed s' a b).
Proof.
  intros Hn Hsmall Hfuel Hs Hsm Hrs passed. eapply wp_mono; [by apply (wp_main_loop n)|..].
  - intros st s' (-> & (_ & _ & _ & Hc) & _ & [= H1 H2 H3 H4]). by destruct (flow rs) as [[a b] st].
  - intros s' [Hk (rs1 & r & rs2 & -> & Hc & _ & [= H1 H2 H3 H4])]. split; [done|]. exists rs1, r, rs2. split; [done|].
    by destruct (flow (rs1 ++ [r])) as [[a b] st].
Qed.

(** The bounds of a round of the main loop.  A descriptor that does not fit an
    [fd_set] is undefined behaviour; otherwise the round begins with a call of
    [select] on the two descriptors, which, [nfds] being a byte, watches both
    exactly when they are below 255; when [select] fails or returns 0 that is
    all the round does; and a packet from the TUN device of more than 4096
    bytes, which the [read] of 4906 allows, overruns the buffer. *)
Theorem main_round_bounds fuel r s :
  length (buf s) = 4096%nat ->
  let fits_fd_set fd := 0 <= fd < 1024 in
  let n := nfds (tcp_socket s) (tun_file s) in
  (~ fits_fd_set (tcp_socket s) \/ ~ fits_fd_set (tun_file s) -> main_round fuel r s = Undef) /\
  (fits_fd_set (tcp_socket s) -> fits_fd_set (tun_file s) ->
    (tcp_socket s < n /\ tun_file s < n <-> tcp_socket s < 255 /\ tun_file s < 255) /\
    (select_ret r <= 0 ->
      main_round fuel r s = Done Continue (add_io (select n [tcp_socket s; tun_file s]) s)) /\
    (forall d, 0 < select_ret r -> tcp_ready r = false -> tun_ready r = true -> tun_file s < n ->
      from_tun r = Got d -> (4096 < length d)%nat -> main_round fuel r s = Undef)).
Proof.
  intros Hb fits_fd_set n. subst fits_fd_set n. cbv beta. unfold main_round, FD_SET. split.
  - intros Hbad. run_effects. destruct (decide (0 <= tcp_socket s < 1024)); [|done].
    destruct (decide (0 <= tun_file s < 1024)); [|done]. tauto.
  - intros Htcp Htun. split; [by apply nfds_covers|split].
    + intros Hle. run_effects. rewrite !decide_True by done. by rewrite (proj2 (Z.leb_le _ _)).
    + intros d Hpos H1 H2 Hn Hd Hlen. run_effects. rewrite !decide_True by done.
      rewrite (proj2 (Z.leb_gt _ _)) by done. rewrite H1, H2, Hd. unfold FD_ISSET.
      rewrite andb_false_r, (proj2 (Z.ltb_lt _ _)) by done. cbn [andb].
      unfold handle_tun, call_void. run_effects. cbn [buf add_io].
      by rewrite (proj2 (memcpy_at_None _ _ _ _)) by lia.
Qed.

(** The interface identifier that is made of the last three bytes of a MAC
    address in the form "xx:xx:xx:dd:ee:ff". *)
Definition lladdr (d1 d2 e1 e2 f1 f2 : Z) : list Z :=
  text "ifconfig ipv6-umich add fe80::c298:e5ff:fe" ++ [d1; d2; 58; e1; e2; f1; f2] ++ text "/64".

(** The address of the client: from the seventeen characters of the MAC
    address [main] makes the command that adds fe80::c298:e5ff:feDD:EEFF/64,
    DD, EE and FF being the last three bytes; it fits the buffer of [ssystem]. *)
Theorem lladdr_command_spec prefix d1 d2 e1 e2 f1 f2 rest s :
  macbuf s = prefix ++ [d1; d2; 58; e1; e2; 58; f1; f2] ++ rest -> length prefix = 9%nat ->
  Forall (fun c => c <> 0) [d1; d2; e1; e2; f1; f2] ->
  length (cmd_lladdr_buf s) = 4096%nat ->
  exists s', lladdr_command s = Done tt s' /\
    cstring (cmd_lladdr_buf s') = lladdr d1 d2 e1 e2 f1 f2 /\
    (length (lladdr d1 d2 e1 e2 f1 f2) <= 127)%nat /\ log s' = log s.
Proof.
  intros Hm Hp Hne Hbuf. rewrite !Forall_cons in Hne. destruct Hne as (? & ? & ? & ? & ? & ? & _).
  assert (string_at (prefix ++ [d1; d2; 58; e1; e2; f1; f2; 0] ++ rest) 9 =
    [d1; d2; 58; e1; e2; f1; f2]) as Hstring.
  { unfold string_at. rewrite <-Hp, drop_app_length.
    apply (cstring_app [d1; d2; 58; e1; e2; f1; f2] rest).
    rewrite !Forall_cons. by split_and!. }
  assert (Forall (fun c => c <> 0) (lladdr d1 d2 e1 e2 f1 f2)) as Hcmd.
  { unfold lladdr. rewrite !Forall_app. split_and!; [vm_decide| |vm_decide].
    rewrite !Forall_cons. by split_and!. }
  assert (length (lladdr d1 d2 e1 e2 f1 f2) = 52%nat) as Hlen by reflexivity.
  unfold lladdr_command. run_effects. rewrite Hm.
  rewrite !lookup_app_r by (rewrite ?Hp; lia). rewrite Hp. cbn [Nat.sub app lookup list_lookup].
  do 9 (destruct prefix as [|? prefix]; [discriminate Hp|]).
  destruct prefix; [|discriminate Hp]. cbn [app] in *. unfold store_at. cbn [length].
  rewrite decide_True by lia. cbn [insert list_insert lookup list_lookup length].
  rewrite decide_True by lia. cbn [insert list_insert length].
  rewrite decide_True by lia. cbn [insert list_insert set_macbuf cmd_lladdr_buf].
  rewrite Hstring.
  change (text "ifconfig " ++ NAME ++ text " add fe80::c298:e5ff:fe" ++
    [d1; d2; 58; e1; e2; f1; f2] ++ text "/64") with (lladdr d1 d2 e1 e2 f1 f2).
  set (cmd := lladdr d1 d2 e1 e2 f1 f2) in *. clearbody cmd.
  rewrite (take_ge cmd) by lia. rewrite memcpy_at_ok by (rewrite ?Hbuf, ?length_app; simpl; lia).
  eexists. split; [reflexivity|]. cbn [cmd_lladdr_buf set_cmd log set_macbuf].
  split_and!; [|lia|done]. rewrite (take_ge (cmd ++ [0])) by lia.
  change (take 0 (cmd_lladdr_buf s)) with (@nil Z). cbn [app]. rewrite <-app_assoc.
  by apply cstring_app.
Qed.
End theorems.

(** ** Witnesses *)

(** A system on which the server comes back after one pause every time, and sends
    fail until the second. *)
Fixpoint outage (log : list io) : nat :=
  match log with
  | [] => 0
  | sleep _ :: log => S (outage log)
  | connect _ :: log => if (1 <=? outage log)%nat then 0 else outage log
  | _ :: log => outage log
  end.

Definition demo_os : Os := {|
  ret l c := match c with
             | open_tun => 3
             | socket => 5
             | connect _ => if (1 <=? outage l)%nat then 0 else -1
             | send _ _ => if (2 <=? length (List.filter (fun c => if c is sleep _ then true else false) l))%nat then 0 else -1
             | _ => 0
             end;
  O_NONBLOCK := 2048;
  sigpipe _ _ _ := false;
  mac_contents := text "c8:a0:30:b2:4f:1d";
|}.

Lemma demo_waited l : @waited demo_os l = outage l.
Proof.
  induction l as [|c l IH]; [done|]. destruct c; cbn [waited outage]; rewrite ?IH; try done.
  cbn [ret demo_os]. by destruct (1 <=? outage l)%nat.
Qed.

Lemma demo_device l : @tun_device demo_os l = None \/ @tun_device demo_os l = Some 3.
Proof.
  induction l as [|c l IH]; [by left|]. destruct c; cbn [tun_device]; try done; [by right|].
  unfold lose. case_bool_decide; [by left|done].
Qed.

Lemma demo_reachable : @reachable demo_os 1.
Proof.
  split; [split; [|done]; intros l; by destruct (demo_device l) as [->| ->]; split|]. intros l Hl. rewrite demo_waited in Hl. split_and!; [done..|]. intros fd.
  cbn [ret demo_os]. by rewrite (proj2 (Nat.leb_le _ _)).
Qed.

(** The same, but the second packet that is sent raises SIGPIPE. *)
Definition reset_os : Os := {|
  ret := @ret demo_os;
  O_NONBLOCK := 2048;
  sigpipe l _ _ := existsb (fun c => if c is send _ _ then true else false) l;
  mac_contents := text "c8:a0:30:b2:4f:1d";
|}.

(** A packet each way, the second of which makes the client reconnect, one more,
    and the failure of the TUN device. *)
Definition demo_rounds : list round :=
  [Round 1 true false (Got [1; 2]) Again; Round 1 false true Again (Got [3]);
   Round 2 true true (Got [4]) (Got [5]); Round 1 false true Again Failed;
   Round 1 true false (Got [6]) Again].

(** The client with its TUN device 3 and its connection 4. *)
Definition demo_client : client := ClientState 4 3 (replicate 4096 0) [] (replicate 4096 0) [connect 4; sleep 2; open_tun].

Lemma demo_running : @running demo_os demo_client.
Proof. split; [by split_and!|]. split; [simpl; lia|]. split; [simpl; lia|reflexivity]. Qed.

Lemma demo_fits : Forall fits demo_rounds.
Proof.
  unfold demo_rounds.
  do 5 (apply Forall_cons; split; [intros d [Hd|Hd]; inversion Hd; simpl; lia|]). constructor.
Qed.

Lemma demo_small : small demo_client.
Proof. by split. Qed.

Lemma demo_sockets l : @ret demo_os l socket < 255.
Proof. done. Qed.

Lemma reset_reachable : @reachable reset_os 1.
Proof. exact demo_reachable. Qed.

Lemma reset_running : @running reset_os demo_client.
Proof. exact demo_running. Qed.

(** With the other system the client is killed when it sends packet 5. *)
Lemma client_shuttles_witness :
  (exists s', @main_loop demo_os 2 demo_rounds demo_client = Done Stop s' /\
    @to_tun demo_os (log s') = [[1; 2]; [4]] /\ @to_tcp demo_os (log s') = [[3]; [5]]) /\
  exists s', @main_loop reset_os 2 demo_rounds demo_client = Halt s' /\ @killed reset_os s' = true.
Proof.
  split.
  2:{ destruct (wp_stop _ _ _ _ (@client_shuttles reset_os 1 2 demo_rounds demo_client reset_reachable demo_sockets
        ltac:(lia) reset_running demo_small demo_fits) ltac:(vm_compute; reflexivity)) as (s' & E & Hk & _).
      exists s'. split; [exact E|exact Hk]. }
  destruct (wp_run _ _ _ _ (@client_shuttles demo_os 1 2 demo_rounds demo_client demo_reachable demo_sockets
    ltac:(lia) demo_running demo_small demo_fits) ltac:(vm_compute; reflexivity)) as (st & s' & E & H).
  simpl in H. destruct H as (-> & (Hto & Hfrom & _) & _). exists s'. split_and!; [exact E|exact Hto|exact Hfrom].
Defined.

(** With descriptor 255 for the connection [select] is not told of it. *)
Lemma main_round_bounds_witness :
  let s := ClientState 255 3 (replicate 4096 0) [] (replicate 4096 0) [] in
  ~ 255 < nfds 255 3 /\
  @main_round demo_os 2 (Round 0 false false Again Again) s =
    Done Continue (add_io (select 4 [255; 3]) s).
Proof.
  intros s.
  destruct (@main_round_bounds demo_os 2 (Round 0 false false Again Again) s) as [_ H].
  - apply length_replicate.
  - destruct H as (Hn & Hs & _); [by vm_compute|by vm_compute|]. split.
    + intros Hlt. destruct (proj1 Hn (conj Hlt eq_refl)) as [Hx _]. discriminate Hx.
    + apply Hs. simpl. lia.
Defined.

Lemma lladdr_command_spec_witness :
  exists s', lladdr_command (ClientState 4 3 (replicate 4096 0)
      (text "c8:a0:30:b2:4f:1d" ++ [10]) [] []) = Done tt s' /\
    cstring (cmd_lladdr_buf s') =
      text "ifconfig ipv6-umich add fe80::c298:e5ff:feb2:4f1d/64".
Proof.
  destruct (lladdr_command_spec (text "c8:a0:30:") 98 50 52 102 49 100 [10]
    (ClientState 4 3 (replicate 4096 0) (text "c8:a0:30:b2:4f:1d" ++ [10]) [] []))
    as (s' & E & Hcmd & _).
  - reflexivity.
  - reflexivity.
  - vm_decide.
  - reflexivity.
  - exists s'. split; [exact E|]. exact Hcmd.
Defined.
End Client.
