(* ===== verification/TunnelLink.v ===== *)
(** * The tunnel from end to end

    Puts the two programs of [src/gateway/tunnel/] together: any number of
    gateways, each with a running client ([TunnelClient]), and the server
    ([TunnelServer]) they are connected to.  A TCP connection is a stream of
    bytes in each direction: what a program gives to its descriptor and the
    system takes over travels in order, and the other end reads it in pieces of
    any size.  Bytes travel only if they were given to the descriptor of the
    connection, of a write only those that the system reports as taken (the
    programs do not look at that number), and a client is offered data only if it
    passed the descriptor to [select].

    A connection exists from the start of its client, and the server accepts it
    at any later time.  Connections that break are the subject of
    [TunnelBreaks]. *)
From S2P Require Import Prelude CLib TunnelRoutes TunnelServer TunnelClient.
Import Routes Server.

Module TunnelLink.

(** ** State *)

Record gateway := Gateway {
  box : Client.client;
  conn : option Z;       (* the server's descriptor, once it has accepted *)
  up : list Z;           (* bytes on their way to the server *)
  down : list Z;         (* bytes on their way to the client *)
}.

Record net := Net { srv : server; gateways : list gateway }.

Definition set_box (b : Client.client) (g : gateway) : gateway := Gateway b (conn g) (up g) (down g).
Definition set_conn (fd : Z) (g : gateway) : gateway := Gateway (box g) (Some fd) (up g) (down g).
Definition set_up (u : list Z) (g : gateway) : gateway := Gateway (box g) (conn g) u (down g).
Definition set_down (d : list Z) (g : gateway) : gateway := Gateway (box g) (conn g) (up g) d.
Definition set_gateway (i : nat) (g : gateway) (n : net) : net :=
  Net (srv n) (<[i := g]> (gateways n)).

(** ** The streams, as the traces have them *)

(** The bytes that the client's system has taken over for the connection. *)
Fixpoint uploaded `{Client.Os} (log : list Client.io) : list Z :=
  match log with
  | [] => []
  | c :: log =>
      uploaded log ++
      match c with
      | Client.send fd b => concat (Client.on_fd fd (Client.connection log) (take (Z.to_nat (Client.ret log c)) b))
      | _ => []
      end
  end.

(** The bytes that the server's system has taken over for descriptor [fd]. *)
Fixpoint downloaded `{Os} (fd : Z) (log : list io) : list Z :=
  match log with
  | [] => []
  | c :: log =>
      downloaded fd log ++
      match c with
      | write f b => if f =? fd then take (Z.to_nat (ret log c)) b else []
      | _ => []
      end
  end.

(** What the server has written to its TUN device after reading from [fd]. *)
Fixpoint heard (tun fd : Z) (log : list io) : list (list Z) :=
  match log with
  | write f b :: read g :: log =>
      heard tun fd log ++ if (f =? tun) && (g =? fd) then [b] else []
  | _ :: log => heard tun fd log
  | [] => []
  end.

(** ** Operations *)

(** The pieces in which the server reads what has arrived, and what is left. *)
Fixpoint cut (sizes : list nat) (bytes : list Z) : list (list Z) * list Z :=
  match sizes, bytes with
  | n :: sizes, _ :: _ =>
      let k := Nat.min 4096 (Nat.max 1 n) in
      let '(chunks, rest) := cut sizes (drop k bytes) in
      (take k bytes :: chunks, rest)
  | _, _ => ([], bytes)
  end.

Inductive op :=
| Accept (i : nat) (fd : Z)                          (* the server gets descriptor [fd] *)
| ToServer (i : nat) (sizes : list nat)              (* it reads from gateway [i] *)
| FromInternet (packets : list (list Z))             (* packets at its TUN device *)
| Shuttle (i : nat) (n : nat) (p : option (list Z)). (* a round of the client's loop *)

Definition readable_event (fd : Z) (chunks : list (list Z)) : epoll_event :=
  EpollEvent false false true fd [] chunks Drained.

(** [select] is told of descriptor [fd]. *)
Definition told (fd : Z) (b : Client.client) : bool :=
  fd <? Client.nfds (Client.tcp_socket b) (Client.tun_file b).

(** A round that finds these bytes on the connection, and this packet. *)
Definition shuttle_round (chunk : list Z) (p : option (list Z)) : Client.round :=
  let tcp := bool_decide (chunk <> []) in
  let tun := bool_decide (is_Some p) in
  Client.Round (Z.b2z tcp + Z.b2z tun) tcp tun
    (if tcp then Client.Got chunk else Client.Again)
    (match p with Some d => Client.Got d | None => Client.Again end).

Section operations.
Context (cos : nat -> Client.Os) `{Os} (efd : Z) (fuel : nat).

Definition gateway_at (i : nat) : M net gateway := gs ← gets gateways; lift (gs !! i).

(** The client of gateway [i] runs; the bytes it sends are on their way. *)
Definition on_box {A} (i : nat) (m : M Client.client A) : M net A :=
  g ← gateway_at i;
  match m (box g) with
  | Done a b =>
      let before := uploaded (H:=cos i) (Client.log (box g)) in
      let after := uploaded (H:=cos i) (Client.log b) in
      modify (set_gateway i (set_up (up g ++ drop (length before) after) (set_box b g)));;
      mret a
  | Halt b => modify (set_gateway i (set_box b g));; halt
  | Undef => lift None
  end.

(** What the server has written to the connection in the meantime. *)
Definition carry (l l' : list io) (g : gateway) : gateway :=
  match conn g with
  | Some fd => set_down (down g ++ drop (length (downloaded fd l)) (downloaded fd l')) g
  | None => g
  end.

Definition on_server {A} (m : M server A) : M net A := fun n =>
  match m (srv n) with
  | Done a s => Done a (Net s (carry (log (srv n)) (log s) <$> gateways n))
  | Halt s => Halt (Net s (gateways n))
  | Undef => Undef
  end.

(** A number the system may give to a new descriptor. *)
Definition unused (fd : Z) (s : server) : bool :=
  bool_decide (0 <= fd < 512 /\ fd <> tun_file s /\ fd <> sfd s) && negb (connected (log s) fd).

Definition net_step (o : op) : M net Client.status :=
  match o with
  | Accept i fd =>
      g ← gateway_at i;
      s ← gets srv;
      match conn g with
      | None =>
          if unused fd s then
            on_server (handle_event efd (EpollEvent false false true (sfd s) [fd] [] Drained));;
            modify (set_gateway i (set_conn fd g));;
            mret Client.Continue
          else mret Client.Continue
      | Some _ => mret Client.Continue
      end
  | ToServer i sizes =>
      g ← gateway_at i;
      match conn g with
      | Some fd =>
          let '(chunks, rest) := cut sizes (up g) in
          modify (set_gateway i (set_up rest g));;
          on_server (handle_event efd (readable_event fd chunks));;
          mret Client.Continue
      | None => mret Client.Continue
      end
  | FromInternet packets =>
      s ← gets srv;
      on_server (handle_event efd (readable_event (tun_file s) packets));;
      mret Client.Continue
  | Shuttle i n p =>
      g ← gateway_at i;
      let k := if told (Client.tcp_socket (box g)) (box g) then Nat.min 4096 n else O in
      let p := if told (Client.tun_file (box g)) (box g) then p else None in
      modify (set_gateway i (set_down (drop k (down g)) g));;
      on_box i (Client.main_round (H:=cos i) fuel (shuttle_round (take k (down g)) p))
  end.

Fixpoint net_run (os : list op) : M net (list Client.status) :=
  match os with
  | [] => mret []
  | o :: os => r ← net_step o; rs ← net_run os; mret (r :: rs)
  end.
End operations.

Definition valid_op (n : nat) (o : op) : Prop :=
  match o with
  | Accept i _ | ToServer i _ => (i < n)%nat
  | FromInternet packets => Forall (fun p => length p <= 4096)%nat packets
  | Shuttle i _ p => (i < n)%nat /\ (length (default [] p) <= 4096)%nat
  end.

#[export] Instance valid_op_dec n o : Decision (valid_op n o).
Proof. destruct o; simpl; apply _. Defined.

(** ** The server's half *)

(** A call that does not touch the TUN device or the set of connections. *)
Definition quiet (tun : Z) (c : io) : Prop :=
  match c with accepted _ | close _ => False | write f _ => f <> tun | _ => True end.

(** The log has grown by such calls. *)
Definition extends (P : io -> Prop) (l l' : list io) : Prop :=
  exists new, l' = new ++ l /\ Forall P new.

#[export] Instance extends_refl P : Reflexive (extends P).
Proof. intros l. by exists []. Qed.
#[export] Instance extends_trans P : Transitive (extends P).
Proof.
  intros l1 l2 l3 (n1 & -> & H1) (n2 & -> & H2). exists (n2 ++ n1).
  split; [by rewrite app_assoc|by apply Forall_app].
Qed.

Lemma extends_cons (P : io -> Prop) c l l' : P c -> extends P l l' -> extends P l (c :: l').
Proof. intros Hc (new & -> & Hn). exists (c :: new). split; [done|by constructor]. Qed.

Lemma extends_impl (P Q : io -> Prop) l l' : (forall c, P c -> Q c) -> extends P l l' -> extends Q l l'.
Proof. intros HPQ (new & -> & Hn). exists new. split; [done|]. by eapply Forall_impl. Qed.

Lemma neutral_quiet tun c : neutral c -> quiet tun c.
Proof. by destruct c. Qed.

#[export] Hint Resolve extends_cons neutral_quiet : gap.

Lemma heard_cons tun fd c l : quiet tun c -> heard tun fd (c :: l) = heard tun fd l.
Proof.
  intros Hc. destruct c; try done. destruct l as [|c l]; [done|]. destruct c; try done.
  simpl in *. rewrite (proj2 (Z.eqb_neq _ _)) by done. simpl. by rewrite app_nil_r.
Qed.

Lemma heard_extends tun fd l l' : extends (quiet tun) l l' -> heard tun fd l' = heard tun fd l.
Proof.
  intros (new & -> & Hn). induction Hn as [|c new Hc Hn IH]; [done|]. cbn [app].
  by rewrite heard_cons.
Qed.

Lemma connected_extends tun l l' fd :
  extends (quiet tun) l l' -> connected l' fd = connected l fd.
Proof. intros (new & -> & Hn). induction Hn as [|c new Hc Hn IH]; [done|]. by destruct c. Qed.

Section server.
Context `{Os}.
Implicit Types s : server.

Lemma downloaded_grows P fd l l' :
  extends P l l' ->
  downloaded fd l' = downloaded fd l ++ drop (length (downloaded fd l)) (downloaded fd l').
Proof.
  intros (new & -> & _). induction new as [|c new IH].
  - cbn [app]. by rewrite drop_all, app_nil_r.
  - cbn [app downloaded]. rewrite drop_app_le by (rewrite IH, length_app; lia).
    rewrite app_assoc. by rewrite <-IH.
Qed.

(** Nothing is written to a descriptor that is not open. *)
Lemma downloaded_closed tun fd l l' :
  extends (quiet tun) l l' -> writes_ok tun l' -> fd <> tun -> connected l fd = false ->
  downloaded fd l' = downloaded fd l.
Proof.
  intros (new & -> & Hn) Hw Hne Hc. induction Hn as [|c new Hq Hn IH]; [done|].
  cbn [app downloaded]. rewrite IH by (destruct c; try done; apply Hw).
  destruct c as [| | | | | | | | | | | | | | | |f b| |]; try by rewrite app_nil_r.
  destruct (Z.eqb_spec f fd) as [->|]; [|by rewrite app_nil_r].
  destruct Hw as [[|Hw] _]; [done|]. rewrite (connected_extends tun l) in Hw by by exists new.
  by rewrite Hc in Hw.
Qed.

Lemma downloaded_neutral fd l l' : extends neutral l l' -> downloaded fd l' = downloaded fd l.
Proof.
  intros (new & -> & Hn). induction Hn as [|c new Hc Hn IH]; [done|]. cbn [app downloaded].
  rewrite IH. by destruct c; rewrite ?app_nil_r.
Qed.

(** *** Accepting *)

Lemma wp_accept efd fd s :
  wp (handle_event efd (EpollEvent false false true (sfd s) [fd] [] Drained)) s
    (fun _ s' => extends neutral (accepted fd :: log s) (log s')) (fun _ => True).
Proof.
  unfold handle_event. apply wp_bind, wp_gets. cbn [epollerr epollhup epollin data_fd orb negb accepts].
  rewrite Z.eqb_refl. cbn [accept_loop]. apply wp_bind, wp_io_void, wp_bind. unfold make_nonblocking.
  set (s1 := add_io (accepted fd) s).
  assert (extends neutral (accepted fd :: log s) (log s1)) as H1 by done.
  clearbody s1. apply wp_bind, wp_io. destruct (_ =? -1); [done|]. apply wp_bind, wp_io.
  destruct (_ =? -1); [done|]. apply wp_ret. cbn [Z.eqb]. apply wp_bind, wp_io.
  destruct (_ =? -1); [done|]. apply wp_io_void.
  repeat (apply extends_cons; [exact I|]). exact H1.
Qed.

(** *** Packets from the TUN device *)

Lemma wp_packet_from_tun_quiet count s :
  assignments_readable -> inv s -> connected (log s) (tun_file s) = false ->
  wp (packet_from_tun count) s
    (fun _ s' => extends (quiet (tun_file s)) (log s) (log s')) (fun _ => True).
Proof.
  intros Hfile Hs Htun.
  assert (forall s1 j b, connected (log s1) (Z.of_nat j) = true ->
    connected (log s1) (tun_file s) = false -> extends (quiet (tun_file s)) (log s) (log s1) ->
    wp (write_client (Z.of_nat j) b) s1 (fun _ s' => extends (quiet (tun_file s)) (log s) (log s'))
      (fun _ => True)) as Hwrite.
  { intros s1 j b Hj Ht Hk. apply wp_write_client. case_match; [done|]. apply extends_cons; [|done].
    simpl. congruence. }
  unfold packet_from_tun.
  apply wp_bind, wp_gets. destruct (_ =? 6); [|by apply wp_ret].
  apply wp_bind, wp_gets, wp_bind, wp_gets. destruct (in_slash_52 _ _).
  - apply wp_bind, wp_gets. destruct (find_pd _ _) as [j|] eqn:Ej.
    { apply Hwrite; [by eapply found_pd|done..]. }
    apply wp_bind. assert (wp load_prefixes s
      (fun _ s' => extends (quiet (tun_file s)) (log s) (log s')) (fun _ => True)) as Hlog.
    { unfold load_prefixes. apply wp_bind, wp_gets, wp_bind, wp_io_void.
      destruct (client_assignments (log s)) as [file|] eqn:Ef; [|done]. apply wp_bind, wp_gets.
      destruct (stack (log s)) as [[line local] block].
      destruct (Hfile _ _ Ef line local block (prefixes s)) as [t' Et].
      apply wp_bind, wp_lift. exists t'. split; [exact Et|]. apply wp_bind, wp_modify, wp_io_void.
      by do 2 (apply extends_cons; [exact I|]). }
    eapply wp_mono; [exact (wp_and _ _ _ _ _ _ (wp_load_prefixes s Hfile Hs) Hlog)| |done].
    intros _ s1 [(Hs1 & Hsame & _ & _ & Hc) Hk].
    apply wp_bind, wp_gets. destruct (find_pd _ (prefixes s1)) as [j|] eqn:Ej1; [|by apply wp_ret].
    apply Hwrite; [by eapply found_pd|by rewrite Hc|done].
  - destruct (_ || _); [|by apply wp_ret].
    apply wp_bind, wp_gets. destruct (find_ll _ _) as [j|] eqn:Ej; [|by apply wp_ret].
    apply Hwrite; [by eapply found_ll|done..].
Qed.

(** *** Reading *)

Lemma wp_readable efd fd chunks s (Q R : server -> Prop) :
  fd <> sfd s -> wp (read_loop fd chunks Drained) s (fun r s' => r = false /\ Q s') R ->
  wp (handle_event efd (readable_event fd chunks)) s (fun _ => Q) R.
Proof.
  intros Hfd Hread. unfold handle_event. apply wp_bind, wp_gets.
  cbn [readable_event epollerr epollhup epollin data_fd reads reads_end orb negb].
  rewrite (proj2 (Z.eqb_neq _ _)) by done. apply wp_bind.
  eapply wp_mono; [exact Hread| |done]. by intros r s' [-> ?].
Qed.

(** One piece that is read is at the start of the buffer. *)
Lemma inv_received b c s :
  inv s -> memcpy_at (buf s) 0 c (length c) = Some b ->
  inv (set_buf b s) /\ take (length c) b = c.
Proof.
  intros [Ht Hb Hw] Eb. split.
  - split; [exact Ht| |exact Hw]. simpl. by rewrite (memcpy_at_length _ _ _ _ _ Eb).
  - rewrite (memcpy_at_take _ _ _ _ Eb). by apply take_ge.
Qed.

Lemma wp_read_tun chunks s :
  assignments_readable -> inv s -> Forall (fun c => length c <= 4096)%nat chunks ->
  connected (log s) (tun_file s) = false ->
  wp (read_loop (tun_file s) chunks Drained) s
    (fun _ s' => extends (quiet (tun_file s)) (log s) (log s')) (fun _ => True).
Proof.
  intros Hfile Hs Hc. revert s Hs. induction Hc as [|c chunks Hc Hcs IH]; intros s Hs Htun;
    cbn [read_loop]; apply wp_bind, wp_io_void; [by apply wp_ret, extends_cons|].
  apply wp_bind, wp_gets. pose proof (inv_neutral (read (tun_file s)) s I Hs) as Hs1.
  set (s1 := add_io (read (tun_file s)) s) in *.
  destruct (memcpy_at (buf s1) 0 c (length c)) as [b|] eqn:Eb.
  2:{ apply memcpy_at_None in Eb. rewrite (inv_buf s1 Hs1) in Eb. lia. }
  destruct (inv_received b c s1 Hs1 Eb) as [Hs2 _]. set (s2 := set_buf b s1) in *.
  apply wp_bind, wp_lift. exists b. split; [done|]. apply wp_bind, wp_modify, wp_bind, wp_gets, wp_bind.
  change (tun_file (set_buf b s1)) with (tun_file s). rewrite Z.eqb_refl.
  eapply wp_mono; [exact (wp_and _ _ _ _ _ _ (wp_packet_from_tun (length c) s2 Hfile Hs2)
    (wp_packet_from_tun_quiet (length c) s2 Hfile Hs2 Htun))| |done].
  intros _ s3 [(Hs3 & (_ & Ht3 & _) & Hc3) Hlog]. change (tun_file s2) with (tun_file s) in Ht3.
  rewrite <-Ht3 at 1.
  eapply wp_mono; [apply IH; [done|by rewrite Ht3, Hc3]| |done].
  rewrite Ht3. intros _ s4 H4. etrans; [|exact H4]. etrans; [|exact Hlog].
  by apply extends_cons.
Qed.

(** The log of reading pieces from a client and passing them on. *)
Definition relayed (tun fd : Z) (chunks : list (list Z)) (l : list io) : list io :=
  foldl (fun l c => write tun c :: read fd :: l) l chunks.

Lemma wp_read_client fd chunks last s :
  inv s -> Forall (fun c => length c <= 4096)%nat chunks ->
  fd <> tun_file s -> 0 <= fd -> connected (log s) fd = true ->
  wp (read_loop fd chunks last) s
    (fun _ s' => log s' = read fd :: relayed (tun_file s) fd chunks (log s)) (fun _ => False).
Proof.
  intros Hs Hc Hfd Hpos. revert s Hs Hfd. induction Hc as [|c chunks Hc Hcs IH]; intros s Hs Hfd Hconn;
    cbn [read_loop]; apply wp_bind, wp_io_void; [by apply wp_ret|].
  apply wp_bind, wp_gets. pose proof (inv_neutral (read fd) s I Hs) as Hs1.
  set (s1 := add_io (read fd) s) in *.
  destruct (memcpy_at (buf s1) 0 c (length c)) as [b|] eqn:Eb.
  2:{ apply memcpy_at_None in Eb. rewrite (inv_buf s1 Hs1) in Eb. lia. }
  destruct (inv_received b c s1 Hs1 Eb) as [Hs2 Hb]. set (s2 := set_buf b s1) in *.
  apply wp_bind, wp_lift. exists b. split; [done|]. apply wp_bind, wp_modify, wp_bind, wp_gets, wp_bind.
  change (tun_file (set_buf b s1)) with (tun_file s). rewrite (proj2 (Z.eqb_neq _ _)) by done.
  assert (wp (packet_from_client fd (length c)) s2
    (fun _ s' => log s' = write (tun_file s) c :: log s2) (fun _ => False)) as Hlog.
  { unfold packet_from_client. apply wp_bind, wp_gets, wp_bind.
    assert (wp (tun ← gets tun_file; call_void (write tun (take (length c) (buf s2)))) s2
      (fun _ s' => log s' = write (tun_file s) c :: log s2) (fun _ => False)) as Hend.
    { apply wp_bind, wp_gets, wp_io_void. cbn [log add_io]. f_equal. cbn [buf s2 set_buf]. by rewrite Hb. }
    destruct (Z.ltb_spec fd 512); [|by apply wp_ret].
    destruct (lookup_lt_is_Some_2 (prefixes s2) (Z.to_nat fd)) as [p Hp].
    { rewrite (proj1 (inv_table s2 Hs2)). lia. }
    apply wp_bind, wp_gets, wp_bind, wp_lift. exists p. split; [done|].
    apply wp_bind, wp_lift. eexists. split; [apply store_at_ok; by eapply lookup_lt_Some|].
    by apply wp_modify. }
  eapply wp_mono; [exact (wp_and _ _ _ _ _ _ (wp_packet_from_client fd (length c) s2 Hs2 Hpos Hconn) Hlog)| |by intros ? [_ ?]].
  intros _ s3 [(Hs3 & (_ & Ht3 & _) & Hc3) E3]. change (tun_file s2) with (tun_file s) in Ht3.
  eapply wp_mono; [apply IH; [done|by rewrite Ht3|by rewrite Hc3]| |done].
  intros _ s4 ->. by rewrite Ht3, E3.
Qed.

Lemma relayed_extends tun fd chunks l : extends (fun _ => True) l (read fd :: relayed tun fd chunks l).
Proof.
  unfold relayed. induction chunks as [|c chunks IH] using rev_ind; [by apply extends_cons|].
  rewrite foldl_app. do 2 (apply extends_cons; [done|]). exact IH.
Qed.

Lemma heard_relayed tun fd g chunks l :
  heard tun g (read fd :: relayed tun fd chunks l) =
    heard tun g l ++ (if fd =? g then chunks else []).
Proof.
  change (heard tun g (relayed tun fd chunks l) = heard tun g l ++ (if fd =? g then chunks else [])).
  unfold relayed. revert l. induction chunks as [|c chunks IH]; intros l; cbn [foldl].
  - destruct (fd =? g); by rewrite app_nil_r.
  - rewrite IH. cbn [heard]. rewrite Z.eqb_refl. cbn [andb]. rewrite <-app_assoc.
    by destruct (fd =? g).
Qed.

Lemma downloaded_relayed tun fd g chunks l :
  g <> tun -> downloaded g (read fd :: relayed tun fd chunks l) = downloaded g l.
Proof.
  intros Hg. cbn [downloaded]. rewrite app_nil_r. unfold relayed. revert l.
  induction chunks as [|c chunks IH]; intros l; cbn [foldl]; [done|].
  rewrite IH. cbn [downloaded]. rewrite (proj2 (Z.eqb_neq _ _)) by done. by rewrite !app_nil_r.
Qed.
End server.

(** ** The client's half *)

Section client.
Context `{Client.Os}.
Implicit Types b : Client.client.

(** The connection works: [send] takes some bytes, or none. *)
Definition steady : Prop := forall l fd d,
  0 <= Client.ret l (Client.send fd d) /\ Client.sigpipe l fd d = false.

Lemma uploaded_grows new l :
  uploaded (new ++ l) = uploaded l ++ drop (length (uploaded l)) (uploaded (new ++ l)).
Proof.
  induction new as [|c new IH].
  - cbn [app]. by rewrite drop_all, app_nil_r.
  - cbn [app uploaded]. rewrite drop_app_le by (rewrite IH, length_app; lia).
    rewrite app_assoc. by rewrite <-IH.
Qed.

(** The client after a read of [d]; [new] is what it has done since. *)
Definition after_read (d : list Z) (new : list Client.io) b b' : Prop :=
  Client.running b' /\ Client.log b' = new ++ Client.log b /\
  Client.tun_file b' = Client.tun_file b /\ Client.tcp_socket b' = Client.tcp_socket b.

Lemma running_received d b buf' :
  Client.running b -> memcpy_at (Client.buf b) 0 d (length d) = Some buf' ->
  Client.running (Client.set_buf buf' b).
Proof.
  intros ((Hb & ?) & ?) E. split; [split; [|done]|done]. cbn [Client.buf Client.set_buf].
  by rewrite (memcpy_at_length _ _ _ _ _ E).
Qed.

Lemma wp_handle_tcp_got fuel d b :
  Client.running b -> d <> [] -> (length d <= 4096)%nat ->
  wp (Client.handle_tcp fuel (Client.Got d)) b
    (fun st b' => st = Client.Continue /\
      after_read d [Client.write_tun (Client.tun_file b) d; Client.recv (Client.tcp_socket b) (Client.Got d)] b b')
    (fun _ => False).
Proof.
  intros Hb Hne Hlen. unfold Client.handle_tcp. apply wp_bind, wp_gets, wp_bind, Client.wp_client_io_void.
  destruct d as [|x d]; [done|]. set (b1 := Client.add_io _ b).
  assert (Client.running b1) as Hb1 by done. apply wp_bind, wp_gets, wp_bind.
  destruct (memcpy_at (Client.buf b1) 0 (x :: d) (length (x :: d))) as [b'|] eqn:E.
  2:{ apply memcpy_at_None in E. rewrite (proj1 (proj1 Hb1)) in E. lia. }
  apply wp_lift. exists b'. split; [done|]. apply wp_bind, wp_modify, wp_bind, wp_gets, wp_bind.
  apply Client.wp_client_io_void, wp_ret. split; [done|]. split_and!; try done.
  - by eapply (running_received (x :: d) b1).
  - cbn [Client.log Client.add_io Client.set_buf]. rewrite (memcpy_at_take _ _ _ _ E).
    by rewrite take_ge.
Qed.

Lemma wp_handle_tun_got fuel d b :
  steady -> Client.running b -> (length d <= 4096)%nat ->
  wp (Client.handle_tun fuel (Client.Got d)) b
    (fun st b' => st = Client.Continue /\
      after_read d [Client.send (Client.tcp_socket b) d; Client.read_tun (Client.tun_file b) (Client.Got d)] b b')
    (fun _ => False).
Proof.
  intros Hsteady Hb Hlen. unfold Client.handle_tun. apply wp_bind, wp_gets, wp_bind, Client.wp_client_io_void.
  set (b1 := Client.add_io _ b). assert (Client.running b1) as Hb1 by done.
  apply wp_bind, wp_gets, wp_bind.
  destruct (memcpy_at (Client.buf b1) 0 d (length d)) as [b'|] eqn:E.
  2:{ apply memcpy_at_None in E. rewrite (proj1 (proj1 Hb1)) in E. lia. }
  apply wp_lift. exists b'. split; [done|]. apply wp_bind, wp_modify, wp_bind, wp_gets, wp_bind.
  apply Client.wp_send_packet. rewrite (proj2 (Hsteady _ _ _)).
  rewrite (proj2 (Z.ltb_ge _ _)) by apply (Hsteady _ _ _).
  pose proof (running_received d b1 b' Hb1 E) as (He & Ht & Hfd & Hc).
  apply wp_ret. split; [done|]. split_and!; try done.
  - split; [exact He|]. split; [done|]. split; [done|]. cbn [Client.add_io Client.log Client.connection].
    by rewrite (proj2 (Z.ltb_ge _ _)) by apply (Hsteady _ _ _).
  - cbn [Client.log Client.add_io Client.set_buf]. rewrite (memcpy_at_take _ _ _ _ E).
    by rewrite take_ge.
Qed.

(** What a round does with the bytes and the packet it finds. *)
Definition shuttled (chunk : list Z) (p : option (list Z)) b : list Client.io :=
  (match p with
   | Some d => [Client.send (Client.tcp_socket b) d; Client.read_tun (Client.tun_file b) (Client.Got d)]
   | None => [] end) ++
  (match chunk with
   | [] => []
   | _ => [Client.write_tun (Client.tun_file b) chunk; Client.recv (Client.tcp_socket b) (Client.Got chunk)] end) ++
  [Client.select (Client.nfds (Client.tcp_socket b) (Client.tun_file b))
     [Client.tcp_socket b; Client.tun_file b]].

Lemma wp_shuttle fuel chunk p b :
  steady -> Client.running b -> Client.small b -> (length chunk <= 4096)%nat ->
  (forall d, p = Some d -> (length d <= 4096)%nat) ->
  wp (Client.main_round fuel (shuttle_round chunk p)) b
    (fun st b' => st = Client.Continue /\ Client.running b' /\ Client.small b' /\
      Client.log b' = shuttled chunk p b ++ Client.log b) (fun _ => False).
Proof.
  intros Hsteady Hb Hsm Hchunk Hp. pose proof Hb as (_ & Htun & Htcp & _).
  destruct (Client.small_reported b (shuttle_round chunk p) Hb Hsm) as [Hrep1 Hrep2].
  unfold Client.main_round, Client.FD_SET.
  apply wp_bind, wp_gets, wp_bind, wp_gets, wp_bind. rewrite decide_True by done.
  apply wp_ret, wp_bind. rewrite decide_True by done. apply wp_ret. cbv zeta.
  apply wp_bind, Client.wp_client_io_void. rewrite !Client.isset_reported by done.
  set (b1 := Client.add_io _ b). assert (Client.running b1) as Hb1 by done.
  cbn [shuttle_round Client.select_ret Client.tcp_ready Client.tun_ready Client.from_tcp Client.from_tun].
  destruct (Z.leb_spec (Z.b2z (bool_decide (chunk <> [])) + Z.b2z (bool_decide (is_Some p))) 0) as [Hle|_].
  { apply wp_ret. split; [done|]. split; [done|]. split; [done|]. unfold shuttled.
    destruct chunk, p; done || (exfalso; by apply Hle). }
  apply wp_bind. apply (wp_mono _ _ (fun st b2 => st = Client.Continue /\ after_read chunk
    (match chunk with [] => []
     | _ => [Client.write_tun (Client.tun_file b) chunk; Client.recv (Client.tcp_socket b) (Client.Got chunk)] end) b1 b2)
    _ (fun _ => False)); [| |done].
  { destruct chunk as [|x chunk]; [by apply wp_ret|]. rewrite bool_decide_true by done.
    by apply (wp_handle_tcp_got fuel (x :: chunk) b1). }
  intros st b2 [-> (Hb2 & Elog & Et & Ec)].
  assert (Client.small b2) as Hsm2 by (destruct Hsm; split; [by rewrite Ec|by rewrite Et]). destruct p as [d|].
  - rewrite bool_decide_true by done. eapply wp_mono; [by apply wp_handle_tun_got; auto| |done].
    intros st b3 [-> (Hb3 & Elog3 & Et3 & Ec3)]. split; [done|]. split; [done|].
    split; [destruct Hsm2; split; [by rewrite Ec3|by rewrite Et3]|].
    rewrite Elog3, Elog, Et, Ec. unfold shuttled. by rewrite <-!app_assoc.
  - rewrite bool_decide_false by (by intros []). apply wp_ret. split; [done|]. split; [done|]. split; [done|].
    rewrite Elog. unfold shuttled. by rewrite <-!app_assoc.
Qed.

(** What was received, if anything was. *)
Definition piece (d : list Z) : list (list Z) := match d with [] => [] | _ => [d] end.

Lemma concat_piece d : concat (piece d) = d.
Proof. destruct d; cbn [piece concat]; by rewrite ?app_nil_r. Qed.

(** What the packet of a round is. *)
Definition offer (p : option (list Z)) : list (list Z) := match p with Some d => [d] | None => [] end.

(** A round passes on what it finds, on the right descriptors. *)
Lemma flows_shuttled chunk p b :
  Client.running b ->
  Client.flows (shuttled chunk p b ++ Client.log b) =
    let '(u, c, ru, rc) := Client.flows (Client.log b) in
    (u ++ piece chunk, c ++ offer p, ru ++ offer p, rc ++ piece chunk).
Proof.
  intros ((_ & Ht & _) & _ & _ & Hc). unfold Client.flows, shuttled. destruct p as [d|], chunk as [|x chunk];
    cbn [app piece offer Client.to_tun Client.to_tcp Client.tun_reads Client.tcp_reads Client.tun_device
         Client.connection];
    by rewrite ?(Client.on_fd_eq _ _ _ Ht), ?(Client.on_fd_eq _ _ _ Hc), ?app_nil_r.
Qed.

Lemma uploaded_shuttled chunk p b :
  Client.running b -> exists m, uploaded (shuttled chunk p b ++ Client.log b) = uploaded (Client.log b) ++
    match p with
    | Some d => take (Z.to_nat (Client.ret m (Client.send (Client.tcp_socket b) d))) d
    | None => []
    end.
Proof.
  intros (_ & _ & _ & Hc). unfold shuttled. destruct p as [d|].
  - destruct chunk; eexists; cbn [app uploaded Client.connection]; rewrite (Client.on_fd_eq _ _ _ Hc);
      cbn [concat]; rewrite !app_nil_r; reflexivity.
  - exists []. destruct chunk; cbn [app uploaded]; by rewrite ?app_nil_r.
Qed.
End client.

(** ** The invariant *)

Section net.
Context (cos : nat -> Client.Os) `{Os} (efd : Z) (fuel : nat).

(** The two ends of the connection of a gateway at the server. *)
Definition arrived (g : gateway) (s : server) : list (list Z) :=
  match conn g with Some fd => heard (tun_file s) fd (log s) | None => [] end.
Definition replied (g : gateway) (s : server) : list Z :=
  match conn g with Some fd => downloaded fd (log s) | None => [] end.

(** Nothing is lost or reordered between the two programs. *)
Record gateway_ok (i : nat) (g : gateway) (s : server) : Prop := GatewayOk {
  go_running : Client.running (H:=cos i) (box g);
  go_small : Client.small (box g);
  go_conn fd : conn g = Some fd -> 0 <= fd < 512 /\ fd <> tun_file s /\ fd <> sfd s /\
    connected (log s) fd = true;
  go_up : concat (arrived g s) ++ up g = uploaded (H:=cos i) (Client.log (box g));
  go_down : concat (Client.to_tun (H:=cos i) (Client.log (box g))) ++ down g = replied g s;
  go_read : Client.to_tcp (H:=cos i) (Client.log (box g)) = Client.tun_reads (H:=cos i) (Client.log (box g)) /\
    Client.to_tun (H:=cos i) (Client.log (box g)) = Client.tcp_reads (H:=cos i) (Client.log (box g));
}.

Definition distinct (gs : list gateway) : Prop :=
  forall i j g g' fd, gs !! i = Some g -> gs !! j = Some g' ->
    conn g = Some fd -> conn g' = Some fd -> i = j.

Lemma distinct_same gs gs' :
  (forall j g', gs' !! j = Some g' -> exists g, gs !! j = Some g /\ conn g = conn g') ->
  distinct gs -> distinct gs'.
Proof.
  intros Hold Hd i j g1 g2 fd H1 H2 E1 E2.
  destruct (Hold _ _ H1) as (h1 & ? & ?), (Hold _ _ H2) as (h2 & ? & ?).
  apply (Hd i j h1 h2 fd); congruence.
Qed.

Lemma distinct_insert gs i fd g :
  distinct gs -> (forall j h, gs !! j = Some h -> conn h <> Some fd) ->
  distinct (<[i := set_conn fd g]> gs).
Proof.
  intros Hd Hnew j k g1 g2 f [(<- & <- & _)|(Hj & H1)]%list_lookup_insert_Some
    [(<- & <- & _)|(Hk & H2)]%list_lookup_insert_Some; [done|..|by apply (Hd j k g1 g2 f)].
  - intros [= <-] E. by destruct (Hnew _ _ H2).
  - intros E [= <-]. by destruct (Hnew _ _ H1).
Qed.

Record net_ok (n : net) : Prop := NetOk {
  ok_inv : inv (srv n);
  ok_listener : tun_file (srv n) <> sfd (srv n);
  ok_tun : connected (log (srv n)) (tun_file (srv n)) = false;
  ok_gateways i g : gateways n !! i = Some g -> gateway_ok i g (srv n);
  ok_distinct : distinct (gateways n);
  ok_closed fd : fd <> tun_file (srv n) -> connected (log (srv n)) fd = false ->
    downloaded fd (log (srv n)) = [] /\ heard (tun_file (srv n)) fd (log (srv n)) = [];
}.

Lemma wp_gateway_at i n g (Q : gateway -> net -> Prop) R :
  gateways n !! i = Some g -> Q g n -> wp (gateway_at i) n Q R.
Proof. intros Hg HQ. apply wp_bind, wp_gets, wp_lift. by exists g. Qed.

Lemma wp_on_server {A} (m : M server A) n (Q : A -> net -> Prop) R :
  wp m (srv n) (fun a s' => Q a (Net s' (carry (log (srv n)) (log s') <$> gateways n)))
    (fun s' => R (Net s' (gateways n))) ->
  wp (on_server m) n Q R.
Proof. unfold wp, on_server. by destruct (m (srv n)). Qed.

Lemma conn_carry l l' g : conn (carry l l' g) = conn g.
Proof. unfold carry. by destruct (conn g) eqn:E. Qed.

(** A step of the server, for one gateway of which [g] is left to send [u]. *)
Lemma gateway_ok_carry P i g s s' u :
  gateway_ok i g s -> same_fds s s' -> extends P (log s) (log s') ->
  (forall fd, connected (log s) fd = true -> connected (log s') fd = true) ->
  concat (arrived g s') ++ u = concat (arrived g s) ++ up g ->
  gateway_ok i (carry (log s) (log s') (set_up u g)) s'.
Proof.
  intros [Hrun Hsm Hconn Hup Hdown Hread] (Esfd & Etun & _) Hext Hc Hu.
  unfold arrived, replied, carry in *. cbn [set_up conn down] in *.
  destruct (conn g) as [fd|] eqn:Ec; split; unfold arrived, replied;
    cbn [set_down set_up box conn up down]; rewrite ?Ec; try done.
  - intros fd' [= <-]. destruct (Hconn fd eq_refl) as (? & ? & ? & ?).
    rewrite Etun, Esfd. split_and!; try done; try lia. by apply Hc.
  - by rewrite <-Hup.
  - rewrite app_assoc, Hdown. by rewrite <-(downloaded_grows P fd (log s)).
  - by rewrite <-Hup.
Qed.

Lemma set_up_same g : set_up (up g) g = g.
Proof. by destruct g. Qed.

(** A step of the server that concerns no connection in particular. *)
Lemma gateway_ok_quiet i g s s' :
  gateway_ok i g s -> same_fds s s' -> extends (quiet (tun_file s)) (log s) (log s') ->
  gateway_ok i (carry (log s) (log s') g) s'.
Proof.
  intros Hg Hsame Hext. rewrite <-(set_up_same g) at 1. eapply gateway_ok_carry; try done.
  - intros fd. by rewrite (connected_extends _ _ _ _ Hext).
  - unfold arrived. destruct (conn g); [|done]. destruct Hsame as (_ & -> & _).
    by rewrite (heard_extends _ _ _ _ Hext).
Qed.

Lemma lookup_carry n l l' i g' :
  (carry l l' <$> gateways n) !! i = Some g' ->
  exists g, g' = carry l l' g /\ gateways n !! i = Some g.
Proof. rewrite list_lookup_fmap. destruct (gateways n !! i) as [g|]; [|done]. intros [= <-]. by exists g. Qed.

(** Packets at the server's TUN device. *)
Lemma net_ok_internet n packets :
  assignments_readable -> net_ok n -> Forall (fun p => length p <= 4096)%nat packets ->
  wp (net_step cos efd fuel (FromInternet packets)) n
    (fun st n' => st = Client.Continue /\ net_ok n' /\ length (gateways n') = length (gateways n))
    (fun n' => exited (srv n')).
Proof.
  intros Hfile [Hinv Hl Htun Hg Hd Hc] Hp. cbn [net_step]. apply wp_bind, wp_gets, wp_bind, wp_on_server.
  apply (wp_readable _ _ _ _ _ _ ltac:(done)). eapply wp_mono; [exact (wp_and _ _ _ _ _ _
    (wp_read_loop (tun_file (srv n)) packets Drained _ Hfile Hinv Hp ltac:(done))
    (wp_read_tun packets _ Hfile Hinv Hp Htun))| |by intros ? [? _]].
  intros r s' [[(Hinv' & Hsame & Hconn) ->] Hext]. split; [done|]. apply wp_ret.
  pose proof Hsame as (Esfd & Etun & _). split; [done|]. split; [split|]; cbn [srv gateways].
  - done.
  - by rewrite Esfd, Etun.
  - by rewrite Etun, Hconn.
  - intros i g' (g & -> & Hi)%lookup_carry. by apply gateway_ok_quiet; [apply Hg| |].
  - apply (distinct_same (gateways n)); [|done]. intros j g' (g & -> & Hj)%lookup_carry.
    exists g. by rewrite conn_carry.
  - intros fd. rewrite Etun, Hconn. intros Hne Hfd. destruct (Hc fd Hne Hfd) as [E1 E2].
    rewrite (heard_extends _ _ _ _ Hext), E2. split; [|done]. rewrite <-E1.
    eapply downloaded_closed; try done. rewrite <-Etun. apply Hinv'.
  - by rewrite length_fmap.
Qed.

Lemma cut_spec sizes bytes :
  concat (cut sizes bytes).1 ++ (cut sizes bytes).2 = bytes /\
  Forall (fun c => c <> [] /\ length c <= 4096)%nat (cut sizes bytes).1.
Proof.
  revert bytes. induction sizes as [|m sizes IH]; intros [|x bytes]; cbn [cut]; try by split.
  set (k := Nat.min 4096 (Nat.max 1 m)). specialize (IH (drop k (x :: bytes))).
  destruct (cut sizes (drop k (x :: bytes))) as [chunks rest]. cbn [fst snd] in *.
  destruct IH as [E IH]. split.
  - cbn [concat]. by rewrite <-app_assoc, E, take_drop.
  - constructor; [|done]. assert (1 <= k <= 4096)%nat by lia. split; [|rewrite length_take; lia].
    destruct k; [lia|done].
Qed.

(** The server reads from a gateway. *)
Record read_from (sizes : list nat) (n n' : net) (g g' : gateway) : Prop := ReadFrom {
  rd_conn : conn g' = conn g;
  rd_box : box g' = box g;
  rd_up : up g' = (cut sizes (up g)).2;
  rd_arrived : arrived g' (srv n') = arrived g (srv n) ++ (cut sizes (up g)).1;
  rd_down : down g' = down g;
}.

Lemma net_ok_to_server n i sizes g fd :
  assignments_readable -> net_ok n -> gateways n !! i = Some g -> conn g = Some fd ->
  wp (net_step cos efd fuel (ToServer i sizes)) n
    (fun st n' => st = Client.Continue /\ net_ok n' /\ length (gateways n') = length (gateways n) /\
      exists g', gateways n' !! i = Some g' /\ read_from sizes n n' g g')
    (fun _ => False).
Proof.
  intros Hfile Hn Hi Ec. pose proof Hn as [Hinv Hl Htun Hg Hd Hc]. cbn [net_step].
  apply wp_bind, (wp_gateway_at i n g); [done|]. rewrite Ec.
  pose proof (cut_spec sizes (up g)) as [Ecut Hcut]. destruct (cut sizes (up g)) as [chunks rest] eqn:Ecs.
  cbn [fst snd] in *. assert (Forall (fun c => length c <= 4096)%nat chunks) as Hlen.
  { eapply Forall_impl; [exact Hcut|]. by intros c [? ?]. }
  destruct (go_conn _ _ _ (Hg i g Hi) fd Ec) as (Hfd & Hft & Hfs & Hfc).
  apply wp_bind, wp_modify, wp_bind, wp_on_server. cbn [srv set_gateway gateways].
  apply (wp_readable _ _ _ _ _ _ ltac:(done)). eapply wp_mono; [exact (wp_and _ _ _ _ _ _
    (wp_read_loop fd chunks Drained _ Hfile Hinv Hlen ltac:(intros _; split; [lia|done]))
    (wp_read_client fd chunks Drained _ Hinv Hlen Hft ltac:(lia) Hfc))| |by intros ? [_ ?]].
  intros r s' [[(Hinv' & Hsame & Hconn) ->] Elog]. split; [done|]. apply wp_ret.
  pose proof Hsame as (Esfd & Etun & _). split; [done|].
  assert (extends (fun _ => True) (log (srv n)) (log s')) as Hext by (rewrite Elog; apply relayed_extends).
  split; [split|split]; cbn [srv gateways].
  - done.
  - by rewrite Esfd, Etun.
  - by rewrite Etun, Hconn.
  - intros j g'. rewrite list_lookup_fmap, fmap_Some. intros (h & Hj & ->).
    apply list_lookup_insert_Some in Hj as [(<- & <- & _)|(Hne & Hj)].
    + eapply gateway_ok_carry; try done; [by apply Hg|by intros f; rewrite Hconn|].
      unfold arrived. rewrite Ec, Etun, Elog, heard_relayed, Z.eqb_refl, concat_app, <-app_assoc.
      by rewrite Ecut.
    + rewrite <-(set_up_same h). eapply gateway_ok_carry; try done; [by apply Hg|by intros f; rewrite Hconn|].
      unfold arrived. destruct (conn h) as [f|] eqn:Eh; [|done].
      rewrite Etun, Elog, heard_relayed, (proj2 (Z.eqb_neq fd f)), app_nil_r; [done|].
      intros ->. by apply Hne, (Hd i j g h f).
  - apply (distinct_same (gateways n)); [|done]. intros j g'. rewrite list_lookup_fmap, fmap_Some.
    intros (h & Hj & ->). rewrite conn_carry.
    apply list_lookup_insert_Some in Hj as [(<- & <- & _)|(_ & ?)]; [by exists g|by exists h].
  - intros f. rewrite Etun, Hconn. intros Hne Hf. destruct (Hc f Hne Hf) as [E1 E2].
    rewrite Elog, downloaded_relayed, heard_relayed by done.
    rewrite (proj2 (Z.eqb_neq fd f)), app_nil_r by (intros ->; congruence). done.
  - by rewrite length_fmap, length_insert.
  - eexists. rewrite list_lookup_fmap, list_lookup_insert_eq by by eapply lookup_lt_Some.
    split; [reflexivity|]. unfold carry. cbn [conn set_up]. rewrite Ec.
    split; unfold arrived; rewrite ?Ecs; cbn [set_down set_up conn box up down srv]; rewrite ?Ec; try done.
    + by rewrite Etun, Elog, heard_relayed, Z.eqb_refl.
    + rewrite Elog, downloaded_relayed by done. by rewrite drop_all, app_nil_r.
Qed.

(** A round of the client's loop: [k] bytes and the packet [p]. *)
Record shuttled_to (k : nat) (p : option (list Z)) (n : net) (i : nat) (g g' : gateway) : Prop := ShuttledTo {
  sh_conn : conn g' = conn g;
  sh_down : down g' = drop (Nat.min 4096 k) (down g);
  sh_up : exists m, up g' = up g ++
    match p with Some d => take (Z.to_nat (Client.ret (Os:=cos i) m (Client.send (Client.tcp_socket (box g)) d))) d | None => [] end;
  sh_tun : Client.to_tun (H:=cos i) (Client.log (box g')) = Client.to_tun (H:=cos i) (Client.log (box g)) ++
    piece (take (Nat.min 4096 k) (down g));
  sh_tcp : Client.to_tcp (H:=cos i) (Client.log (box g')) = Client.to_tcp (H:=cos i) (Client.log (box g)) ++ offer p;
}.

(** Of small descriptors [select] is told. *)
Lemma told_small i b :
  Client.running (H:=cos i) b -> Client.small b ->
  told (Client.tcp_socket b) b = true /\ told (Client.tun_file b) b = true.
Proof.
  intros (_ & Htun & Htcp & _) Hs. destruct (proj2 (Client.nfds_covers _ _ Htcp Htun) Hs) as [H1 H2].
  unfold told. by rewrite (proj2 (Z.ltb_lt _ _) H1), (proj2 (Z.ltb_lt _ _) H2).
Qed.

Lemma net_ok_shuttle n i k p g :
  steady (H:=cos i) -> net_ok n -> gateways n !! i = Some g ->
  (forall d, p = Some d -> (length d <= 4096)%nat) ->
  wp (net_step cos efd fuel (Shuttle i k p)) n
    (fun st n' => st = Client.Continue /\ net_ok n' /\ exists g',
      n' = set_gateway i g' n /\ shuttled_to k p n i g g')
    (fun _ => False).
Proof.
  intros Hsteady Hn Hi Hp. pose proof Hn as [Hinv Hl Htun Hg Hd Hc].
  destruct (Hg i g Hi) as [Hrun Hsm Hconn Hup Hdown [Hread1 Hread2]].
  cbn [net_step]. apply wp_bind, (wp_gateway_at i n g); [done|]. cbv zeta.
  destruct (told_small i (box g) Hrun Hsm) as [-> ->].
  apply wp_bind, wp_modify. set (chunk := take _ (down g)). unfold on_box.
  set (n1 := set_gateway i (set_down (drop (Nat.min 4096 k) (down g)) g) n).
  assert (gateways n1 !! i = Some (set_down (drop (Nat.min 4096 k) (down g)) g)) as Hi1.
  { apply list_lookup_insert_eq. by eapply lookup_lt_Some. }
  apply wp_bind, (wp_gateway_at i n1 _ _ _ Hi1). cbn [box set_down].
  pose proof (wp_shuttle (H:=cos i) fuel chunk p (box g) Hsteady Hrun Hsm
    ltac:(unfold chunk; rewrite length_take; lia) Hp) as Hwp. unfold wp in Hwp.
  destruct (Client.main_round fuel _ (box g)) as [st b'|b'|]; [|done|done].
  destruct Hwp as (-> & Hrun' & Hsm' & Elog). apply wp_bind, wp_modify, wp_ret. split; [done|].
  unfold n1, set_gateway. cbn [gateways srv]. rewrite list_insert_insert_eq.
  pose proof (flows_shuttled (H:=cos i) chunk p (box g) Hrun) as Hflows. rewrite <-Elog in Hflows.
  unfold Client.flows in Hflows. injection Hflows as F1 F2 F3 F4.
  set (g' := set_up _ _). split; [split|]; cbn [srv gateways]; try done.
  - intros j h [(<- & <- & _)|(_ & Hj)]%list_lookup_insert_Some; [|by apply Hg].
    split; unfold arrived, replied in *; cbn [g' set_up set_box set_down box conn up down]; try done.
    + rewrite app_assoc, Hup, Elog. by rewrite <-uploaded_grows.
    + rewrite F1, concat_app, concat_piece, <-app_assoc. unfold chunk. by rewrite take_drop.
    + by rewrite F1, F2, F3, F4, Hread1, Hread2.
  - apply (distinct_same (gateways n)); [|done].
    intros j h [(<- & <- & _)|(_ & Hj)]%list_lookup_insert_Some; [by exists g|by exists h].
  - exists g'. split; [done|]. split; try done; cbn [g' set_up set_box set_down box conn up down].
    rewrite Elog. destruct (uploaded_shuttled (H:=cos i) chunk p (box g) Hrun) as [m ->].
    exists m. by rewrite drop_app_length.
Qed.

(** The server accepts the connection of a gateway. *)
Lemma net_ok_accept n i fd :
  net_ok n -> (i < length (gateways n))%nat ->
  wp (net_step cos efd fuel (Accept i fd)) n
    (fun st n' => st = Client.Continue /\ net_ok n' /\ length (gateways n') = length (gateways n))
    (fun n' => exited (srv n')).
Proof.
  intros Hn [g Hi]%lookup_lt_is_Some. pose proof Hn as [Hinv Hl Htun Hg Hd Hc]. cbn [net_step].
  apply wp_bind, (wp_gateway_at i n g); [done|]. apply wp_bind, wp_gets.
  destruct (conn g) as [|] eqn:Ec; [by apply wp_ret|]. unfold unused.
  case_bool_decide as Hfd; [|by apply wp_ret]. destruct Hfd as (Hfd & Hft & Hfs).
  destruct (connected (log (srv n)) fd) eqn:Hfc; [by apply wp_ret|]. cbn [andb negb].
  apply wp_bind, wp_on_server.
  assert (wp (handle_event efd (EpollEvent false false true (sfd (srv n)) [fd] [] Drained)) (srv n)
    (fun _ s' => inv s' /\ same_fds (srv n) s') exited) as Hkeep.
  { unfold handle_event. apply wp_bind, wp_gets. cbn [epollerr epollhup epollin data_fd orb negb].
    rewrite Z.eqb_refl. by apply wp_accept_loop. }
  eapply wp_mono; [exact (wp_and _ _ _ _ _ _ Hkeep (wp_accept efd fd (srv n)))| |by intros ? [? _]].
  intros _ s' [[Hinv' Hsame] Hneutral]. pose proof Hsame as (Esfd & Etun & _).
  pose proof (extends_impl _ (quiet (tun_file (srv n))) _ _ (neutral_quiet _) Hneutral) as Hext.
  assert (extends (fun _ => True) (log (srv n)) (log s')) as Hext'.
  { etrans; [|by eapply extends_impl, Hneutral]. by apply extends_cons. }
  assert (forall f, connected (log s') f = if fd =? f then true else connected (log (srv n)) f) as Hconn.
  { intros f. by rewrite (connected_extends _ _ _ _ Hext). }
  assert (forall f, heard (tun_file s') f (log s') = heard (tun_file (srv n)) f (log (srv n))) as Hh.
  { intros f. by rewrite Etun, (heard_extends _ _ _ _ Hext). }
  assert (forall f, downloaded f (log s') = downloaded f (log (srv n))) as Hdl.
  { intros f. rewrite (downloaded_neutral _ _ _ Hneutral). cbn [downloaded]. by rewrite app_nil_r. }
  destruct (Hc fd Hft Hfc) as [E1 E2].
  apply wp_bind, wp_modify, wp_ret. split; [done|]. unfold set_gateway. cbn [srv gateways].
  split; [split|]; cbn [srv gateways].
  - done.
  - by rewrite Esfd, Etun.
  - rewrite Etun, Hconn. by rewrite (proj2 (Z.eqb_neq _ _)).
  - intros j h [(<- & <- & _)|(_ & Hj)]%list_lookup_insert_Some.
    + destruct (Hg i g Hi) as [Hrun Hsm Hgc Hup Hdown Hread]. unfold arrived, replied in *. rewrite Ec in *.
      split; unfold arrived, replied; cbn [set_conn box conn up down]; try done.
      * intros f [= <-]. rewrite Etun, Esfd, Hconn, Z.eqb_refl. done.
      * by rewrite Hh, E2.
      * by rewrite Hdl, E1.
    + apply lookup_carry in Hj as (h' & -> & Hj). rewrite <-(set_up_same h') at 1.
      eapply gateway_ok_carry; try done; [by apply Hg|intros f Hf; rewrite Hconn, Hf; by case_match|].
      unfold arrived. destruct (conn h'); [|done]. by rewrite Hh.
  - apply distinct_insert; [|intros j h (h' & -> & Hj)%lookup_carry].
    + apply (distinct_same (gateways n)); [|done]. intros j h (h' & -> & Hj)%lookup_carry.
      exists h'. by rewrite conn_carry.
    + rewrite conn_carry. intros Ef. destruct (go_conn _ _ _ (Hg j h' Hj) fd Ef) as (_ & _ & _ & Hf).
      congruence.
  - intros f. rewrite Etun, Hconn, Hdl. intros Hne. rewrite <-Etun, Hh. by case_match; [|apply Hc].
  - by rewrite length_insert, length_fmap.
Qed.

Lemma net_step_ok o n :
  assignments_readable -> (forall i, steady (H:=cos i)) -> net_ok n -> valid_op (length (gateways n)) o ->
  wp (net_step cos efd fuel o) n
    (fun st n' => st = Client.Continue /\ net_ok n' /\ length (gateways n') = length (gateways n))
    (fun n' => exited (srv n')).
Proof.
  intros Hfile Hsteady Hn Ho. destruct o as [i fd|i sizes|packets|i k p].
  - by apply net_ok_accept.
  - destruct (lookup_lt_is_Some_2 _ _ Ho) as [g Hi]. destruct (conn g) as [fd|] eqn:Ec.
    + eapply wp_mono; [by eapply net_ok_to_server|by intros st n' (? & ? & ? & _)|done].
    + cbn [net_step]. apply wp_bind, (wp_gateway_at i n g); [done|]. by rewrite Ec.
  - by apply net_ok_internet.
  - destruct Ho as [[g Hi]%lookup_lt_is_Some Hp]. eapply wp_mono; [eapply net_ok_shuttle; try done; by intros d ->| |done].
    intros st n' (? & ? & g' & -> & _). split_and!; [done..|]. apply length_insert.
Qed.

(** The packets that the client of gateway [i] finds at its TUN device. *)
Fixpoint offered (i : nat) (os : list op) : list (list Z) :=
  match os with
  | [] => []
  | Shuttle j _ p :: os => (if decide (j = i) then offer p else []) ++ offered i os
  | _ :: os => offered i os
  end.

Lemma box_carry l l' (gs : list gateway) : box <$> (carry l l' <$> gs) = box <$> gs.
Proof. rewrite <-list_fmap_compose. apply list_fmap_ext. intros j g _. cbn. unfold carry. by destruct (conn g). Qed.

Lemma box_insert i (g g' : gateway) (gs : list gateway) : gs !! i = Some g -> box g' = box g -> box <$> <[i := g']> gs = box <$> gs.
Proof.
  intros Hi E. rewrite list_fmap_insert, E. apply list_insert_id. by rewrite list_lookup_fmap, Hi.
Qed.

Lemma on_server_boxes {A} (m : M server A) n a n' :
  on_server m n = Done a n' -> box <$> gateways n' = box <$> gateways n.
Proof. unfold on_server. destruct (m (srv n)); [|done..]. intros [= _ <-]. apply box_carry. Qed.

(** Only a client's own rounds change it. *)
Lemma net_step_boxes o n st n' :
  net_step cos efd fuel o n = Done st n' -> match o with Shuttle _ _ _ => False | _ => True end ->
  box <$> gateways n' = box <$> gateways n.
Proof.
  destruct o as [i fd|i sizes|packets|]; [..|done]; cbn [net_step]; intros E _.
  - apply bind_Done_inv in E as (g & n1 & E1 & E). unfold gateway_at, gets, lift in E1. run_effects.
    cbv [mbind M_bind] in E1. destruct (gateways n !! i) as [g'|] eqn:Hi; [|done]. injection E1 as -> <-.
    apply bind_Done_inv in E as (s & n1 & [= <- <-] & E). destruct (conn g); [by injection E as _ <-|].
    destruct (unused _ _); [|by injection E as _ <-].
    apply bind_Done_inv in E as (a & n1 & E1%on_server_boxes & E). injection E as _ <-.
    cbn [set_gateway gateways]. rewrite list_fmap_insert, E1. apply list_insert_id. by rewrite list_lookup_fmap, Hi.
  - apply bind_Done_inv in E as (g & n1 & E1 & E). unfold gateway_at, gets, lift in E1.
    cbv [mbind M_bind] in E1. destruct (gateways n !! i) as [g'|] eqn:Hi; [|done]. injection E1 as -> <-.
    destruct (conn g); [|by injection E as _ <-]. destruct (cut sizes (up g)) as [chunks rest].
    apply bind_Done_inv in E as (u & n1 & [= <- <-] & E).
    apply bind_Done_inv in E as (a & n1 & E1%on_server_boxes & E). injection E as _ <-. rewrite E1.
    by apply (box_insert i g).
  - apply bind_Done_inv in E as (s & n1 & [= <- <-] & E).
    apply bind_Done_inv in E as (a & n1 & E1%on_server_boxes & E). by injection E as _ <-.
Qed.

(** What [os] makes the clients pass on. *)
Definition offers (os : list op) (n n' : net) : Prop := forall i g', gateways n' !! i = Some g' ->
  exists g, gateways n !! i = Some g /\
    Client.to_tcp (H:=cos i) (Client.log (box g')) =
      Client.to_tcp (H:=cos i) (Client.log (box g)) ++ offered i os.

Lemma net_step_offers o n :
  assignments_readable -> (forall i, steady (H:=cos i)) -> net_ok n -> valid_op (length (gateways n)) o ->
  wp (net_step cos efd fuel o) n
    (fun st n' => (st = Client.Continue /\ net_ok n' /\ length (gateways n') = length (gateways n)) /\
      offers [o] n n')
    (fun n' => exited (srv n')).
Proof.
  intros Hfile Hsteady Hn Ho. pose proof (net_step_ok o n Hfile Hsteady Hn Ho) as Hwp.
  destruct o as [i fd|i sizes|packets|i k p].
  4:{ destruct Ho as [[g Hi]%lookup_lt_is_Some Hp].
      eapply wp_mono; [apply (wp_and _ _ _ _ _ _ Hwp (net_ok_shuttle n i k p g (Hsteady i) Hn Hi ltac:(by intros d ->)))| |by intros ? []].
      intros st n' [Hok (_ & _ & g' & -> & Hsh)]. split; [done|]. intros j h. cbn [gateways set_gateway offered].
      intros [(<- & <- & _)|(Hne & Hj)]%list_lookup_insert_Some.
      - exists g. split; [done|]. rewrite decide_True, app_nil_r by done. apply Hsh.
      - exists h. split; [done|]. by rewrite decide_False, app_nil_r by done. }
  all: unfold wp in *; destruct (net_step _ _ _ _ _) as [st n'| |] eqn:E; [|done..]; split; [done|];
    intros j g' Hj; apply net_step_boxes in E as Eb; [|done];
    apply (f_equal (fun l => l !! j)) in Eb; rewrite !list_lookup_fmap, Hj in Eb;
    destruct (gateways n !! j) as [g|] eqn:Hg; [|done]; injection Eb as ->; exists g;
    split; [done|]; cbn [offered]; by rewrite app_nil_r.
Qed.

Lemma net_run_offers os n :
  assignments_readable -> (forall i, steady (H:=cos i)) -> net_ok n ->
  Forall (valid_op (length (gateways n))) os ->
  wp (net_run cos efd fuel os) n
    (fun sts n' => (sts = replicate (length os) Client.Continue /\ net_ok n' /\
      length (gateways n') = length (gateways n)) /\ offers os n n')
    (fun n' => exited (srv n')).
Proof.
  intros Hfile Hsteady Hn Hos. revert n Hn Hos. induction os as [|o os IH]; intros n Hn Hos.
  { split; [done|]. intros i g Hi. exists g. split; [done|]. by rewrite app_nil_r. }
  apply Forall_cons in Hos as [Ho Hos]. cbn [net_run]. apply wp_bind.
  eapply wp_mono; [by apply net_step_offers| |done]. intros st n1 ((-> & Hn1 & Hlen) & Hoff1). apply wp_bind.
  eapply wp_mono; [apply IH; [done|by rewrite Hlen]| |done].
  intros sts n2 ((-> & Hn2 & Hlen2) & Hoff2). apply wp_ret. split; [by rewrite Hlen2|].
  intros i g2 Hi2. destruct (Hoff2 i g2 Hi2) as (g1 & Hi1 & E2). destruct (Hoff1 i g1 Hi1) as (g & Hi & E1).
  exists g. split; [done|]. rewrite E2, E1, <-app_assoc. f_equal.
  destruct o; cbn [offered]; by rewrite ?app_nil_r.
Qed.

Lemma net_run_ok os n :
  assignments_readable -> (forall i, steady (H:=cos i)) -> net_ok n ->
  Forall (valid_op (length (gateways n))) os ->
  wp (net_run cos efd fuel os) n
    (fun sts n' => sts = replicate (length os) Client.Continue /\ net_ok n' /\
      length (gateways n') = length (gateways n))
    (fun n' => exited (srv n')).
Proof. intros ????. eapply wp_mono; [by apply net_run_offers|by intros ? ? [? _]|done]. Qed.
End net.

(** ** The start *)

(** A client's setup neither sends nor delivers. *)
Definition silent_io (c : Client.io) : Prop :=
  match c with
  | Client.send _ _ | Client.write_tun _ _ | Client.recv _ _ | Client.read_tun _ _ => False
  | _ => True
  end.

Definition silent (b : Client.client) : Prop :=
  Forall silent_io (Client.log b) /\ length (Client.buf b) = 4096%nat.

Definition boots {A} (m : M Client.client A) : Prop :=
  forall b a b', silent b -> m b = Done a b' -> silent b'.

Section boots.
Context `{Client.Os}.

Lemma boots_bind {A B} (m : M Client.client A) (f : A -> M Client.client B) :
  boots m -> (forall a, boots (f a)) -> boots (m ≫= f).
Proof.
  intros Hm Hf b a b' Hb (a1 & b1 & E1 & E2)%bind_Done_inv. by eapply Hf; [eapply Hm|].
Qed.
Lemma boots_ret {A} (a : A) : boots (mret a).
Proof. by intros b a' b' Hb [= <- <-]. Qed.
Lemma boots_gets {A} (f : Client.client -> A) : boots (gets f).
Proof. by intros b a b' Hb [= <- <-]. Qed.
Lemma boots_lift {A} (o : option A) : boots (lift o).
Proof. intros b a b' Hb. unfold lift. destruct o; [|done]. by intros [= <- <-]. Qed.
Lemma boots_modify f : (forall b, silent b -> silent (f b)) -> boots (modify f).
Proof. intros Hf b a b' Hb [= <- <-]. by apply Hf. Qed.
Lemma boots_call c : silent_io c -> boots (Client.call c).
Proof. intros Hc b a b' [Hl Hb] [= <- <-]. by split; [constructor|]. Qed.
Lemma boots_call_void c : silent_io c -> boots (Client.call_void c).
Proof. intros Hc b a b' [Hl Hb] [= <- <-]. by split; [constructor|]. Qed.
Lemma boots_if {A} (c : bool) (m1 m2 : M Client.client A) :
  boots m1 -> boots m2 -> boots (if c then m1 else m2).
Proof. by destruct c. Qed.
End boots.

#[export] Hint Resolve boots_ret boots_gets boots_lift : gap.

(** Follow the structure of a client's setup. *)
Ltac boot :=
  repeat first
    [ solve [eauto with gap nocore]
    | apply boots_call; exact I
    | apply boots_call_void; exact I
    | apply boots_modify; by intros ? []
    | apply boots_bind; [|intros ?]
    | apply boots_if ].

Section start.
Context `{Client.Os}.

Lemma boots_connect_loop fuel : boots (Client.connect_loop fuel).
Proof. induction fuel; cbn [Client.connect_loop]; boot. Qed.

Lemma boots_connect_tcp fuel : boots (Client.connect_tcp fuel).
Proof.
  unfold Client.connect_tcp. pose proof (boots_connect_loop fuel). boot. case_match; boot.
Qed.

Lemma boots_reconnect fuel : boots (Client.reconnect fuel).
Proof.
  unfold Client.reconnect, Client.ssystem. apply boots_bind; [|intros []; boot].
  generalize fuel at 1. intros tries. induction tries as [|tries IH]; cbn [Client.reconnect_loop]; [boot|].
  apply boots_bind; [apply boots_connect_tcp|]. intros []; boot.
Qed.

Lemma boots_main_setup fuel : boots (Client.main_setup fuel).
Proof.
  unfold Client.main_setup, Client.make_nonblocking, Client.lladdr_command, Client.ssystem.
  pose proof (boots_reconnect fuel). boot.
Qed.

Lemma uploaded_silent l : Forall silent_io l -> uploaded l = [].
Proof.
  induction 1 as [|c l Hc Hl IH]; [done|]. cbn [uploaded]. rewrite IH. by destruct c.
Qed.

Lemma flows_silent l : Forall silent_io l -> Client.flows l = ([], [], [], []).
Proof.
  induction 1 as [|c l Hc Hl IH]; [done|]. rewrite <-IH. apply Client.flows_cons. by destruct c.
Qed.
End start.

Lemma heard_setup tun fd l : Forall setup_io l -> heard tun fd l = [].
Proof.
  induction 1 as [|c l Hc Hl IH]; [done|]. destruct c; try done.
Qed.

Lemma downloaded_setup `{Os} fd l : Forall setup_io l -> downloaded fd l = [].
Proof.
  induction 1 as [|c l Hc Hl IH]; [done|]. cbn [downloaded]. rewrite IH. by destruct c.
Qed.

(** Every program has run its setup, and no connection is accepted yet.  The
    system gives different descriptors to the server's listener and its TUN
    device; those it gives to a client are below 255, and a new one is not that of
    the open TUN device. *)
Record booted (cos : nat -> Client.Os) `{Os} (efd : Z) (fuel : nat) (n : net) : Prop := Booted {
  bt_server : exists argv s, length (buf s) = 4096%nat /\ log s = [] /\
    main_setup argv s = Done efd (srv n);
  bt_listener : tun_file (srv n) <> sfd (srv n);
  bt_apart i : Client.apart (H:=cos i);
  bt_gateways i g : gateways n !! i = Some g ->
    conn g = None /\ up g = [] /\ down g = [] /\
    0 <= Client.tcp_socket (box g) < 255 /\ 0 <= Client.tun_file (box g) < 255 /\
    exists mac stack, length stack = 4096%nat /\
      Client.main_setup (H:=cos i) fuel (Client.start mac stack) = Done Client.Continue (box g);
}.

(** A client that has booted runs, and nothing has passed through it. *)
Lemma booted_client cos `{Os} efd fuel n i g :
  booted cos efd fuel n -> gateways n !! i = Some g ->
  Client.running (H:=cos i) (box g) /\ Client.small (box g) /\
  uploaded (H:=cos i) (Client.log (box g)) = [] /\
  Client.flows (H:=cos i) (Client.log (box g)) = ([], [], [], []).
Proof.
  intros [_ _ Hapart Hg] Hi. destruct (Hg i g Hi) as (_ & _ & _ & Htcp & Htun & mac & stack & Hstack & Eg).
  assert (silent (box g)) as [Hsl _] by by eapply (boots_main_setup (H:=cos i) fuel (Client.start mac stack)).
  split; [eapply (Client.main_setup_running (H:=cos i)); try done; lia|]. split; [split; lia|].
  split; [by apply (uploaded_silent (H:=cos i))|by apply (flows_silent (H:=cos i))].
Qed.

Lemma booted_ok cos `{Os} efd fuel n : booted cos efd fuel n -> net_ok cos n.
Proof.
  intros Hbooted. pose proof Hbooted as [(argv & s & Hb & Hl & E) Hne _ Hg].
  assert (starting (srv n)) as Hs.
  { pose proof (setup_main argv s Hb Hl) as Hwp. unfold wp in Hwp. rewrite E in Hwp. apply Hwp. }
  pose proof Hs as (_ & _ & Hlog). split; [by apply starting_inv|done|by apply starting_connected|..].
  - intros i g Hi. destruct (Hg i g Hi) as (Ec & Eu & Ed & _).
    destruct (booted_client cos efd fuel n i g Hbooted Hi) as (Hrun & Hsm & Hup & [= F1 F2 F3 F4]).
    split; unfold arrived, replied; rewrite ?Ec, ?Eu, ?Ed; try done.
    + by rewrite F1.
    + by rewrite F1, F2, F3, F4.
  - intros i j g g' fd Hi _ Ec. destruct (Hg i g Hi) as (Ec' & _). congruence.
  - intros fd _ _. by rewrite downloaded_setup, heard_setup.
Qed.

(** ** Theorems *)

(** The packets that the server has written to descriptor [fd]. *)
Fixpoint forwarded (fd : Z) (log : list io) : list (list Z) :=
  match log with
  | [] => []
  | c :: log => forwarded fd log ++ match c with write f b => if f =? fd then [b] else [] | _ => [] end
  end.

(** The systems take every packet as a whole. *)
Definition whole_sends `{Client.Os} : Prop := forall l fd d,
  Client.ret l (Client.send fd d) = Z.of_nat (length d) /\ Client.sigpipe l fd d = false.
Definition whole_writes `{Os} : Prop := forall l fd d,
  ret l (write fd d) = Z.of_nat (length d) /\ sigpipe l fd d = false.

Lemma uploaded_whole `{Client.Os} l : whole_sends -> uploaded l = concat (Client.to_tcp l).
Proof.
  intros Hw. induction l as [|c l IH]; [done|]. cbn [uploaded]. rewrite IH.
  destruct c; cbn [Client.to_tcp]; rewrite ?app_nil_r; try done.
  by rewrite (proj1 (Hw _ _ _)), Nat2Z.id, firstn_all, concat_app.
Qed.

Lemma downloaded_whole `{Os} fd l : whole_writes -> downloaded fd l = concat (forwarded fd l).
Proof.
  intros Hw. induction l as [|c l IH]; [done|]. cbn [downloaded forwarded].
  rewrite IH, concat_app. f_equal. destruct c; try done. case_match; [|done].
  rewrite (proj1 (Hw _ _ _)), Nat2Z.id, firstn_all. cbn [concat]. by rewrite app_nil_r.
Qed.

Lemma whole_steady `{Client.Os} : whole_sends -> steady.
Proof. intros Hw l fd d. destruct (Hw l fd d) as [-> ->]. split; [lia|done]. Qed.

(** Pieces of a stream that have the lengths of its packets are the packets. *)
Lemma aligned_pieces (xs ys : list (list Z)) r :
  concat xs ++ r = concat ys -> (length <$> xs) `prefix_of` (length <$> ys) -> xs `prefix_of` ys.
Proof.
  revert ys. induction xs as [|x xs IH]; intros [|y ys] E; [by exists []|by eexists| |].
  - by intros [z ?].
  - intros Hlen. cbn [fmap list_fmap] in Hlen. pose proof (prefix_cons_inv_1 _ _ _ _ Hlen) as Exy.
    apply prefix_cons_inv_2 in Hlen. cbn [concat] in E. rewrite <-app_assoc in E.
    apply app_inj_1 in E as [-> E]; [|done]. by apply prefix_cons, IH.
Qed.

(** Enough reads take everything that has arrived. *)
Lemma cut_all m k bytes : (length bytes <= m)%nat -> (cut (replicate m k) bytes).2 = [].
Proof.
  revert bytes. induction m as [|m IH]; intros [|x bytes] Hlen; try done; [simpl in Hlen; lia|].
  cbn [replicate cut]. set (d := Nat.min 4096 (Nat.max 1 k)).
  specialize (IH (drop d (x :: bytes))). destruct (cut _ _) as [chunks rest]. apply IH.
  assert (1 <= d)%nat by lia. rewrite length_drop. cbn [length] in *. lia.
Qed.

Lemma cut_one bytes : bytes <> [] -> (length bytes <= 4096)%nat -> cut [4096%nat] bytes = ([bytes], []).
Proof.
  destruct bytes as [|x bytes]; [done|]. intros _ Hlen. cbn [cut].
  rewrite take_ge, drop_ge by lia. done.
Qed.

Section theorems.
Context (cos : nat -> Client.Os) `{Os} (efd : Z) (fuel : nat).

(** The client reads until nothing is left. *)
Lemma wp_drain m i n g :
  steady (H:=cos i) -> net_ok cos n -> gateways n !! i = Some g -> (length (down g) <= 4096 * m)%nat ->
  wp (net_run cos efd fuel (replicate m (Shuttle i 4096 None))) n
    (fun _ n' => net_ok cos n' /\ srv n' = srv n /\ exists g', gateways n' !! i = Some g' /\
      conn g' = conn g /\ up g' = up g /\ down g' = [])
    (fun _ => False).
Proof.
  intros Hsteady. revert n g. induction m as [|m IH]; intros n g Hn Hi Hlen; cbn [replicate net_run].
  { apply wp_ret. split_and!; [done..|]. exists g. split_and!; try done.
    destruct (down g); [done|simpl in Hlen; lia]. }
  apply wp_bind. eapply wp_mono; [by eapply net_ok_shuttle| |done].
  intros st n1 (_ & Hn1 & g1 & -> & [Ec Ed [l Eu] _ _]). apply wp_bind.
  eapply wp_mono; [apply (IH _ g1); [done| |]| |done].
  - apply list_lookup_insert_eq. by eapply lookup_lt_Some.
  - rewrite Ed, length_drop. lia.
  - intros sts n2 (Hn2 & Es & g2 & Hi2 & Ec2 & Eu2 & Ed2). apply wp_ret. split_and!; try done.
    exists g2. rewrite app_nil_r in Eu. split_and!; congruence.
Qed.

(** C6: the tunnel loses and reorders nothing.  All programs have run their setup
    ([booted]); connections do not break and no [send] raises SIGPIPE ([steady]);
    the descriptors of the clients are below 255, and their systems never give a
    socket the descriptor of the open TUN device; the packets have at most 4096
    bytes ([valid_op]), and every assignments file is one the server's parser can
    read ([assignments_fit]).  Then through any sequence of accepted connections,
    reads in pieces of any size, packets at the server's TUN device and rounds of
    the clients' loops, and however much of a packet the systems take: what a
    client has given to its connection are the packets read from its TUN device,
    one [send] each and in order; what the server wrote to its TUN device on
    behalf of that gateway, followed by the bytes on their way, is what the
    gateway's system took of them; what a client wrote to its TUN device is what
    it received, piece by piece, and that, followed by the bytes on their way, is
    what the server's system took for its connection.  No client stops, nothing is
    undefined, and the run ends early only with the server ([exited]). *)
Theorem tunnel_streams os n :
  assignments_fit -> (forall i, steady (H:=cos i)) -> booted cos efd fuel n ->
  Forall (valid_op (length (gateways n))) os ->
  wp (net_run cos efd fuel os) n
    (fun sts n' => sts = replicate (length os) Client.Continue /\
      forall i g, gateways n' !! i = Some g ->
        Client.to_tcp (H:=cos i) (Client.log (box g)) = offered i os /\
        concat (arrived g (srv n')) ++ up g = uploaded (H:=cos i) (Client.log (box g)) /\
        Client.to_tun (H:=cos i) (Client.log (box g)) = Client.tcp_reads (H:=cos i) (Client.log (box g)) /\
        concat (Client.to_tun (H:=cos i) (Client.log (box g))) ++ down g = replied g (srv n'))
    (fun n' => exited (srv n')).
Proof.
  intros Hfile%fit_readable Hsteady Hn Hos.
  eapply wp_mono; [apply (net_run_offers cos efd fuel os n); eauto using booted_ok| |done].
  intros sts n' ((-> & Hn' & _) & Hoff). split; [done|]. intros i g Hi.
  destruct (ok_gateways _ _ Hn' i g Hi) as [_ _ _ Hup Hdown [_ Hread]].
  destruct (Hoff i g Hi) as (g0 & Hi0 & E). destruct (booted_client cos efd fuel n i g0 Hn Hi0) as (_ & _ & _ & [= _ F _ _]).
  rewrite E, F. auto.
Qed.

(** Packets stay packets if the reads respect them.  When the systems take
    every packet as a whole, and the pieces that were read have the lengths of
    the packets that were sent, one for one, then the pieces are the packets, in
    both directions.  Nothing in the programs ensures that condition: see
    [packets_merge]. *)
Theorem packets_intact os n :
  assignments_fit -> (forall i, whole_sends (H:=cos i)) -> whole_writes -> booted cos efd fuel n ->
  Forall (valid_op (length (gateways n))) os ->
  wp (net_run cos efd fuel os) n
    (fun _ n' => forall i g fd, gateways n' !! i = Some g -> conn g = Some fd ->
      let packets := Client.to_tcp (H:=cos i) (Client.log (box g)) in
      let replies := forwarded fd (log (srv n')) in
      let received := Client.to_tun (H:=cos i) (Client.log (box g)) in
      ((length <$> arrived g (srv n')) `prefix_of` (length <$> packets) ->
        arrived g (srv n') `prefix_of` packets) /\
      ((length <$> received) `prefix_of` (length <$> replies) -> received `prefix_of` replies))
    (fun n' => exited (srv n')).
Proof.
  intros Hfile%fit_readable Hsends Hwrites Hn Hos. assert (forall i, steady (H:=cos i)) as Hsteady by (intros; by apply whole_steady).
  eapply wp_mono; [apply net_run_ok; eauto using booted_ok| |done].
  intros sts n' (_ & Hn' & _) i g fd Hi Ec packets replies received.
  destruct (ok_gateways _ _ Hn' i g Hi) as [_ _ _ Hup Hdown _]. split.
  - apply (aligned_pieces _ _ (up g)). by rewrite Hup, (uploaded_whole (H:=cos i)).
  - apply (aligned_pieces _ _ (down g)). unfold received. rewrite Hdown. unfold replied.
    by rewrite Ec, downloaded_whole.
Qed.

(** C37: the stream has no framing.  From every state the tunnel reaches under
    the conditions of [tunnel_streams], with systems that take every packet as a
    whole and no SIGPIPE ([whole_sends]): if nothing is on its way from a
    gateway, two packets that its client finds at its TUN device, of at most 4096
    bytes together, are both given to its connection; if the server then reads,
    they reach the server's TUN device as one packet, the first with the second
    behind it. *)
Theorem packets_merge os n p q :
  assignments_fit -> (forall i, whole_sends (H:=cos i)) -> booted cos efd fuel n ->
  Forall (valid_op (length (gateways n))) os -> p <> [] -> (length p + length q <= 4096)%nat ->
  wp (net_run cos efd fuel os) n
    (fun _ n' => forall i g fd, gateways n' !! i = Some g -> conn g = Some fd -> up g = [] ->
      wp (net_run cos efd fuel [Shuttle i 0 (Some p); Shuttle i 0 (Some q); ToServer i [4096%nat]]) n'
        (fun _ n'' => exists g'', gateways n'' !! i = Some g'' /\
          Client.to_tcp (H:=cos i) (Client.log (box g'')) =
            Client.to_tcp (H:=cos i) (Client.log (box g)) ++ [p; q] /\
          arrived g'' (srv n'') = arrived g (srv n') ++ [p ++ q])
        (fun _ => False))
    (fun n' => exited (srv n')).
Proof.
  intros Hfile%fit_readable Hsends Hn Hos Hp Hlen. assert (forall i, steady (H:=cos i)) as Hsteady by (intros; by apply whole_steady).
  eapply wp_mono; [apply net_run_ok; eauto using booted_ok| |done].
  intros sts n' (_ & Hn' & _) i g fd Hi Ec Eu. cbn [net_run].
  apply wp_bind. eapply wp_mono; [apply (net_ok_shuttle cos efd fuel n' i 0 (Some p) g); try done; by intros d [= <-]; lia| |done].
  intros st1 n1 (_ & Hn1 & g1 & -> & [Ec1 _ [l1 Eu1] _ Et1]). rewrite (proj1 (Hsends _ _ _ _)), Nat2Z.id, firstn_all, Eu in Eu1.
  assert (gateways (set_gateway i g1 n') !! i = Some g1) as Hi1 by (apply list_lookup_insert_eq; by eapply lookup_lt_Some).
  apply wp_bind, wp_bind. eapply wp_mono; [apply (net_ok_shuttle cos efd fuel _ i 0 (Some q) g1); try done; by intros d [= <-]; lia| |done].
  intros st2 n2 (_ & Hn2 & g2 & -> & [Ec2 _ [l2 Eu2] _ Et2]). rewrite (proj1 (Hsends _ _ _ _)), Nat2Z.id, firstn_all, Eu1 in Eu2.
  assert (gateways (set_gateway i g2 (set_gateway i g1 n')) !! i = Some g2) as Hi2 by (apply list_lookup_insert_eq; by eapply lookup_lt_Some).
  apply wp_bind, wp_bind. eapply wp_mono; [apply (net_ok_to_server cos efd fuel _ i [4096%nat] g2 fd); try done; congruence| |done].
  intros st3 n3 (_ & Hn3 & _ & g3 & Hi3 & [_ Eb _ Ea _]). exists g3. split; [done|].
  split; [by rewrite Eb, Et2, Et1, <-app_assoc|].
  rewrite Ea. cbn [app] in Eu2. rewrite Eu2. f_equal.
  - unfold arrived. by rewrite Ec2, Ec1.
  - rewrite cut_one; [done|by destruct p|]. rewrite length_app. lia.
Qed.

(** C17: everything that was sent can be received.  From every state the tunnel
    reaches under the conditions of [tunnel_streams], one reading of the server
    and a round of the client's loop per 4096 bytes empty the connection of a
    gateway that was accepted: then the server has written everything that the
    client's system took to its TUN device, and the client everything that the
    server's system took for it. *)
Theorem tunnel_drains os n :
  assignments_fit -> (forall i, steady (H:=cos i)) -> booted cos efd fuel n ->
  Forall (valid_op (length (gateways n))) os ->
  wp (net_run cos efd fuel os) n
    (fun _ n' => forall i g fd, gateways n' !! i = Some g -> conn g = Some fd ->
      exists os', (length os' <= 2 + length (down g) / 4096)%nat /\
        wp (net_run cos efd fuel os') n' (fun _ n'' => exists g'', gateways n'' !! i = Some g'' /\
            concat (arrived g'' (srv n'')) = uploaded (H:=cos i) (Client.log (box g)) /\
            concat (Client.to_tun (H:=cos i) (Client.log (box g''))) = replied g (srv n'))
          (fun _ => False))
    (fun n' => exited (srv n')).
Proof.
  intros Hfile%fit_readable Hsteady Hn Hos. eapply wp_mono; [apply net_run_ok; eauto using booted_ok| |done].
  intros sts n' (_ & Hn' & _) i g fd Hi Ec.
  set (m := S (length (down g) / 4096)).
  exists (ToServer i (replicate (length (up g)) 4096%nat) :: replicate m (Shuttle i 4096 None)).
  split; [cbn [length]; rewrite length_replicate; lia|]. cbn [net_run]. apply wp_bind.
  eapply wp_mono; [by eapply net_ok_to_server| |done].
  intros st1 n1 (_ & Hn1 & _ & g1 & Hi1 & [Ec1 Eb1 Eu1 Ea1 Ed1]). rewrite cut_all in Eu1 by done.
  apply wp_bind. eapply wp_mono; [apply (wp_drain m i n1 g1); try done| |done].
  { rewrite Ed1. pose proof (Nat.mul_succ_div_gt (length (down g)) 4096). unfold m. lia. }
  intros sts' n2 (Hn2 & Es & g2 & Hi2 & Ec2 & Eu2 & Ed2). apply wp_ret. exists g2. split; [done|].
  destruct (ok_gateways _ _ Hn2 i g2 Hi2) as [_ _ _ Hup2 Hdown2 _].
  destruct (ok_gateways _ _ Hn1 i g1 Hi1) as [_ _ _ Hup1 Hdown1 _].
  destruct (ok_gateways _ _ Hn' i g Hi) as [_ _ _ Hup Hdown _].
  rewrite Ed2, app_nil_r in Hdown2. rewrite Eu1, app_nil_r in Hup1.
  unfold arrived, replied in *. rewrite Ec2, Es in *. split.
  - by rewrite Hup1, Eb1.
  - by rewrite Hdown2, <-Hdown1, Eb1, Ed1, Hdown.
Qed.
End theorems.

(** ** A packet and its reply *)

(** The addresses of a whole packet do not depend on what is behind it. *)
Lemma version_app p rest : (40 <= length p)%nat -> version (p ++ rest) = version p.
Proof. intros Hp. unfold version. by destruct p; [simpl in Hp; lia|]. Qed.
Lemma saddr_app p rest : (40 <= length p)%nat -> saddr (p ++ rest) = saddr p.
Proof.
  intros Hp. unfold saddr. rewrite drop_app_le by lia. rewrite take_app_le; [done|].
  rewrite length_drop. lia.
Qed.
Lemma daddr_app p rest : (40 <= length p)%nat -> daddr (p ++ rest) = daddr p.
Proof.
  intros Hp. unfold daddr. rewrite drop_app_le by lia. rewrite take_app_le; [done|].
  rewrite length_drop. lia.
Qed.

Section reply.
Context `{Os}.
Implicit Types s : server.

(** One packet is read: the buffer starts with it. *)
Lemma wp_read_one fd p s (Q R : server -> Prop) :
  inv s -> (length p <= 4096)%nat ->
  (forall rest, wp (tun ← gets tun_file; if fd =? tun then packet_from_tun (length p)
       else packet_from_client fd (length p))
     (set_buf (p ++ rest) (add_io (read fd) s)) (fun _ s' => Q (add_io (read fd) s')) R) ->
  wp (read_loop fd [p] Drained) s (fun r s' => r = false /\ Q s') R.
Proof.
  intros Hs Hlen Hp. cbn [read_loop]. apply wp_bind, wp_io_void, wp_bind, wp_gets, wp_bind, wp_lift.
  eexists. split; [apply memcpy_at_ok; [simpl; rewrite (inv_buf s Hs); lia|lia]|].
  apply wp_bind, wp_modify. rewrite firstn_all. change (take 0 _ ++ ?l) with l.
  specialize (Hp (drop (0 + length p) (buf (add_io (read fd) s)))).
  apply wp_bind. unfold wp in *. cbv [mbind M_bind gets] in *.
  destruct (fd =? tun_file _).
  - by destruct (packet_from_tun _ _) as [[] s'|s'|].
  - by destruct (packet_from_client _ _ _) as [[] s'|s'|].
Qed.

(** The first packet of a client makes it known. *)
Lemma wp_client_known fd p e s :
  inv s -> 0 <= fd < 512 -> fd <> tun_file s -> prefixes s !! Z.to_nat fd = Some e ->
  (40 <= length p <= 4096)%nat ->
  wp (read_loop fd [p] Drained) s (fun r s' => r = false /\
    prefixes s' = <[Z.to_nat fd := learn p e]> (prefixes s) /\ same_fds s s') (fun _ => False).
Proof.
  intros Hs Hfd Hne He Hlen. apply (wp_read_one fd p s (fun s' => prefixes s' = _ /\ _)); [done|lia|].
  intros rest. apply wp_bind, wp_gets. rewrite (proj2 (Z.eqb_neq _ _)) by done.
  unfold packet_from_client. apply wp_bind, wp_gets, wp_bind. rewrite (proj2 (Z.ltb_lt _ _)) by lia.
  apply wp_bind, wp_gets, wp_bind, wp_lift. exists e. split; [done|]. apply wp_bind, wp_lift.
  eexists. split; [apply store_at_ok; by eapply lookup_lt_Some|]. apply wp_modify, wp_bind, wp_gets, wp_io_void.
  split; [|done]. change (<[Z.to_nat fd := learn (p ++ rest) e]> (prefixes s) =
    <[Z.to_nat fd := learn p e]> (prefixes s)).
  f_equal. unfold learn. by rewrite version_app, saddr_app by lia.
Qed.

(** A packet for a client that is known by its interface, whose write may raise
    SIGPIPE. *)
Lemma wp_packet_forwarded fd q s :
  inv s -> 0 <= fd -> (40 <= length q <= 4096)%nat -> version q = 6 ->
  in_slash_52 (daddr q) (prefix_slash_52 s) = false ->
  in_slash_64 (daddr q) (prefix_slash_64 s) || link_local (daddr q) = true ->
  find_ll (daddr q) (prefixes s) = Some (Z.to_nat fd) ->
  let l := read (tun_file s) :: log s in
  wp (read_loop (tun_file s) [q] Drained) s (fun r s' => r = false /\ tun_file s' = tun_file s /\
      sigpipe l fd q = false /\ log s' = read (tun_file s) :: write fd q :: l)
    (fun s' => sigpipe l fd q = true /\ log s' = write fd q :: l).
Proof.
  intros Hs Hfd Hlen Hv H52 H64 Hfind l.
  apply (wp_read_one _ _ _ (fun s' => tun_file s' = tun_file s /\ _ /\ log s' = _)); [done|lia|]. intros rest.
  apply wp_bind, wp_gets. cbn [tun_file set_buf add_io]. rewrite Z.eqb_refl.
  unfold packet_from_tun. apply wp_bind, wp_gets. cbn [buf set_buf add_io].
  rewrite version_app, daddr_app, Hv by lia. cbn [Z.eqb Pos.eqb].
  apply wp_bind, wp_gets, wp_bind, wp_gets. cbn [prefix_slash_52 prefix_slash_64 set_buf add_io].
  rewrite H52, H64. apply wp_bind, wp_gets. cbn [prefixes set_buf add_io]. rewrite Hfind.
  apply wp_write_client. rewrite Z2Nat.id, take_app_length by done. cbn [log set_buf add_io].
  by destruct (sigpipe _ fd q).
Qed.
End reply.

(** [p] is the first packet that comes from descriptor [fd]; [q] goes to the
    interface it came from, in the server's /64 or link-local, and no client
    with a lower descriptor has the same interface. *)
Record exchange (fd : Z) (p q : list Z) (s : server) : Prop := Exchange {
  ex_first : exists e, prefixes s !! Z.to_nat fd = Some e /\ plen_ll e = 0;
  ex_lengths : (40 <= length p <= 4096 /\ 40 <= length q <= 4096)%nat;
  ex_versions : version p = 6 /\ version q = 6;
  ex_source : link_local (saddr p) = true;
  ex_destination : in_slash_52 (daddr q) (prefix_slash_52 s) = false /\
    in_slash_64 (daddr q) (prefix_slash_64 s) || link_local (daddr q) = true;
  ex_interface : same_interface (daddr q) (saddr p) = true;
  ex_others j e : (j < Z.to_nat fd)%nat -> prefixes s !! j = Some e -> ~ has_interface (daddr q) e;
}.

Section round_trip.
Context (cos : nat -> Client.Os) `{Os} (efd : Z) (fuel : nat).

Lemma carry_same l l' g :
  (forall fd, conn g = Some fd -> downloaded fd l' = downloaded fd l) -> carry l l' g = g.
Proof.
  intros Hl. unfold carry. destruct (conn g) as [fd|] eqn:Ec; [|done].
  rewrite (Hl fd eq_refl), drop_all, app_nil_r. by destruct g; simpl in *; subst.
Qed.

(** The server's part of a step, for the other gateways. *)
Lemma wp_to_server n i sizes g fd (Q R : server -> Prop) :
  gateways n !! i = Some g -> conn g = Some fd -> fd <> sfd (srv n) ->
  wp (read_loop fd (cut sizes (up g)).1 Drained) (srv n) (fun r s' => r = false /\ Q s') R ->
  wp (net_step cos efd fuel (ToServer i sizes)) n
    (fun _ n' => Q (srv n') /\ gateways n' =
      carry (log (srv n)) (log (srv n')) <$> <[i := set_up (cut sizes (up g)).2 g]> (gateways n))
    (fun n' => R (srv n')).
Proof.
  intros Hi Ec Hfd Hread. cbn [net_step]. apply wp_bind, (wp_gateway_at i n g); [done|]. rewrite Ec.
  destruct (cut sizes (up g)) as [chunks rest]. apply wp_bind, wp_modify, wp_bind, wp_on_server.
  cbn [srv set_gateway gateways]. eapply wp_mono; [by apply (wp_readable _ _ _ _ Q R)| |done].
  intros [] s' HQ. by apply wp_ret.
Qed.

Lemma wp_from_internet n packets (Q R : server -> Prop) :
  tun_file (srv n) <> sfd (srv n) ->
  wp (read_loop (tun_file (srv n)) packets Drained) (srv n) (fun r s' => r = false /\ Q s') R ->
  wp (net_step cos efd fuel (FromInternet packets)) n
    (fun _ n' => Q (srv n') /\
      gateways n' = carry (log (srv n)) (log (srv n')) <$> gateways n)
    (fun n' => R (srv n')).
Proof.
  intros Hfd Hread. cbn [net_step]. apply wp_bind, wp_gets, wp_bind, wp_on_server.
  eapply wp_mono; [by apply (wp_readable _ _ _ _ Q R)| |done]. intros [] s' HQ. by apply wp_ret.
Qed.

(** A packet from the TUN device for gateway [i] concerns no other. *)
Lemma forwarded_others n i g fd q l :
  net_ok cos n -> gateways n !! i = Some g -> conn g = Some fd ->
  l = read (tun_file (srv n)) :: write fd q :: read (tun_file (srv n)) :: log (srv n) ->
  forall j h, j <> i -> gateways n !! j = Some h ->
    (carry (log (srv n)) l <$> gateways n) !! j = Some h.
Proof.
  intros Hn Hi Ec -> j h Hj Hh. rewrite list_lookup_fmap, Hh. cbn [fmap option_fmap option_map]. f_equal.
  apply carry_same. intros f Ef. cbn [downloaded]. rewrite !app_nil_r, (proj2 (Z.eqb_neq _ _)).
  - by rewrite app_nil_r.
  - intros ->. by apply Hj, (ok_distinct _ _ Hn j i h g f).
Qed.

(** The state of gateway [i] after a step; the others have not changed. *)
Definition becomes (i : nat) (g' : gateway) (n n' : net) : Prop :=
  net_ok cos n' /\ gateways n' !! i = Some g' /\
  forall j h, j <> i -> gateways n !! j = Some h -> gateways n' !! j = Some h.

Lemma wp_first_packet n i g fd p e :
  assignments_readable -> net_ok cos n -> gateways n !! i = Some g -> conn g = Some fd -> up g = p ->
  (40 <= length p <= 4096)%nat -> prefixes (srv n) !! Z.to_nat fd = Some e ->
  wp (net_step cos efd fuel (ToServer i [4096%nat])) n
    (fun _ n' => becomes i (set_up [] g) n n' /\
      arrived (set_up [] g) (srv n') = arrived g (srv n) ++ [p] /\
      prefixes (srv n') = <[Z.to_nat fd := learn p e]> (prefixes (srv n)) /\
      same_fds (srv n) (srv n'))
    (fun _ => False).
Proof.
  intros Hfile Hn Hi Ec Eu Hlen He. pose proof (ok_inv _ _ Hn) as Hinv.
  destruct (go_conn _ _ _ _ (ok_gateways _ _ Hn i g Hi) fd Ec) as (Hfd & Hft & Hfs & Hfc).
  assert (cut [4096%nat] (up g) = ([p], [])) as Ecut.
  { rewrite Eu. apply cut_one; [|lia]. intros ->. simpl in Hlen. lia. }
  assert (wp (read_loop fd (cut [4096%nat] (up g)).1 Drained) (srv n) (fun r s' => r = false /\
    (prefixes s' = <[Z.to_nat fd := learn p e]> (prefixes (srv n)) /\ same_fds (srv n) s') /\
    log s' = read fd :: relayed (tun_file (srv n)) fd [p] (log (srv n))) (fun _ => False)) as Hread.
  { rewrite Ecut. eapply wp_mono; [exact (wp_and _ _ _ _ _ _
      (wp_client_known fd p e (srv n) Hinv Hfd Hft He Hlen)
      (wp_read_client fd [p] Drained (srv n) Hinv ltac:(apply Forall_singleton; lia) Hft ltac:(lia) Hfc))
      | |by intros ? [_ ?]]. by intros r s' [(-> & Hk) Hl]. }
  eapply wp_mono; [exact (wp_and _ _ _ _ _ _
    (net_ok_to_server cos efd fuel n i [4096%nat] g fd Hfile Hn Hi Ec)
    (wp_to_server n i [4096%nat] g fd _ _ Hi Ec Hfs Hread))| |by intros ? [_ ?]].
  intros st n' [(_ & Hn' & _ & g' & Hi' & [Ec' Eb' Eu' Ea' Ed']) (([Hpre Hsame] & Elog) & Eg)].
  rewrite Ecut in *. assert (g' = set_up [] g) as ->.
  { destruct g, g'; simpl in *; by subst. }
  split; [|done]. split; [done|]. split; [done|]. intros j h Hj Hh.
  rewrite Eg, list_lookup_fmap, list_lookup_insert_ne, Hh by done. cbn [fmap option_fmap option_map]. f_equal.
  apply carry_same. intros f Ef. rewrite Elog. apply downloaded_relayed.
  by apply (go_conn _ _ _ _ (ok_gateways _ _ Hn j h Hh)).
Qed.

Lemma wp_reply n i g fd q :
  assignments_readable -> whole_writes -> net_ok cos n -> gateways n !! i = Some g -> conn g = Some fd ->
  (40 <= length q <= 4096)%nat -> version q = 6 ->
  in_slash_52 (daddr q) (prefix_slash_52 (srv n)) = false ->
  in_slash_64 (daddr q) (prefix_slash_64 (srv n)) || link_local (daddr q) = true ->
  find_ll (daddr q) (prefixes (srv n)) = Some (Z.to_nat fd) ->
  wp (net_step cos efd fuel (FromInternet [q])) n
    (fun _ n' => becomes i (set_down (down g ++ q) g) n n' /\
      arrived (set_down (down g ++ q) g) (srv n') = arrived g (srv n))
    (fun _ => False).
Proof.
  intros Hfile Hwrites Hn Hi Ec Hlen Hv H52 H64 Hfind. pose proof (ok_inv _ _ Hn) as Hinv.
  destruct (go_conn _ _ _ _ (ok_gateways _ _ Hn i g Hi) fd Ec) as (Hfd & Hft & Hfs & Hfc).
  eapply wp_mono; [exact (wp_and _ _ _ _ _ _
    (net_ok_internet cos efd fuel n [q] Hfile Hn ltac:(apply Forall_singleton; lia))
    (wp_from_internet n [q] _ _ (ok_listener _ _ Hn)
      (wp_packet_forwarded fd q (srv n) Hinv ltac:(lia) Hlen Hv H52 H64 Hfind)))|..].
  2:{ intros ? [_ [Hp _]]. by rewrite (proj2 (Hwrites _ _ _)) in Hp. }
  intros st n' [(_ & Hn' & _) ((Etun & _ & Elog) & Eg)].
  assert (carry (log (srv n)) (log (srv n')) g = set_down (down g ++ q) g) as Eg'.
  { unfold carry. rewrite Ec, Elog. cbn [downloaded]. rewrite !app_nil_r, Z.eqb_refl, (proj1 (Hwrites _ _ _)), Nat2Z.id, firstn_all.
    by rewrite drop_app_length. }
  assert (gateways n' !! i = Some (set_down (down g ++ q) g)) as Hi'.
  { by rewrite Eg, list_lookup_fmap, Hi, <-Eg'. }
  split.
  - split; [done|]. split; [done|]. rewrite Eg. by eapply forwarded_others.
  - unfold arrived. cbn [conn set_down]. rewrite Ec, Etun. apply heard_extends. rewrite Elog.
    by do 3 (apply extends_cons; [done|]).
Qed.

(** C16: there and back again.  From every state the tunnel reaches under the
    conditions of [tunnel_streams], with systems that take every packet as a whole
    and no SIGPIPE on either side: the connection of a gateway is empty, [p] is
    the first packet of its client, and [q] is for the interface [p] came from and
    no client with a lower descriptor has ([exchange]).  If the client finds [p]
    at its TUN device, the server reads, [q] arrives at the server's TUN device
    and the client reads, then the client has given [p] to its connection and the
    server has written it to its TUN device; the client has received [q] on its
    connection and written it to its TUN device, each as it was; the connection is
    empty again, and nothing was sent to any other gateway. *)
Theorem round_trip os n p q :
  assignments_fit -> (forall i, whole_sends (H:=cos i)) -> whole_writes -> booted cos efd fuel n ->
  Forall (valid_op (length (gateways n))) os ->
  wp (net_run cos efd fuel os) n
    (fun _ n' => forall i g fd, gateways n' !! i = Some g -> conn g = Some fd ->
      up g = [] -> down g = [] -> exchange fd p q (srv n') ->
      wp (net_run cos efd fuel
           [Shuttle i 0 (Some p); ToServer i [4096%nat]; FromInternet [q]; Shuttle i 4096 None]) n'
        (fun _ n'' => exists g'', gateways n'' !! i = Some g'' /\
          Client.to_tcp (H:=cos i) (Client.log (box g'')) = Client.to_tcp (H:=cos i) (Client.log (box g)) ++ [p] /\
          arrived g'' (srv n'') = arrived g (srv n') ++ [p] /\
          Client.tcp_reads (H:=cos i) (Client.log (box g'')) = Client.tcp_reads (H:=cos i) (Client.log (box g)) ++ [q] /\
          Client.to_tun (H:=cos i) (Client.log (box g'')) = Client.to_tun (H:=cos i) (Client.log (box g)) ++ [q] /\
          up g'' = [] /\ down g'' = [] /\
          forall j h, j <> i -> gateways n' !! j = Some h -> gateways n'' !! j = Some h)
        (fun _ => False))
    (fun n' => exited (srv n')).
Proof.
  intros Hfile%fit_readable Hsends Hwrites Hn Hos. assert (forall i, steady (H:=cos i)) as Hsteady by (intros; by apply whole_steady).
  eapply wp_mono; [apply net_run_ok; eauto using booted_ok| |done].
  intros sts n0 (_ & Hn0 & _) i g fd Hi Ec Eu Ed [(e & He & Hpl) Hlen (Hvp & Hvq) Hsrc (H52 & H64) Hsame Hothers].
  destruct (go_conn _ _ _ _ (ok_gateways _ _ Hn0 i g Hi) fd Ec) as (Hfd & Hft & Hfs & Hfc).
  cbn [net_run]. apply wp_bind.
  eapply wp_mono; [apply (net_ok_shuttle cos efd fuel n0 i 0 (Some p) g); try done; by intros d [= <-]; lia| |done].
  intros st1 n1 (_ & Hn1 & g1 & E1 & [Ec1 Ed1 [l1 Eu1] Et1 Ep1]).
  rewrite (proj1 (Hsends _ _ _ _)), Nat2Z.id, firstn_all, Eu in Eu1. cbn [app] in Eu1. rewrite Ed in Ed1, Et1.
  change (take _ []) with (@nil Z) in Et1. change (drop _ []) with (@nil Z) in Ed1.
  assert (srv n1 = srv n0) as Es1 by by rewrite E1.
  assert (becomes i g1 n0 n1) as (_ & Hi1 & Ho1).
  { split; [done|]. rewrite E1. cbn [gateways set_gateway]. split.
    - apply list_lookup_insert_eq. by eapply lookup_lt_Some.
    - intros j h Hj Hh. by rewrite list_lookup_insert_ne. }
  apply wp_bind, wp_bind. rewrite <-Es1 in *.
  eapply wp_mono; [apply (wp_first_packet n1 i g1 fd p e); congruence || tauto || done| |done].
  intros st2 n2 ((Hn2 & Hi2 & Ho2) & Ea2 & Ep2 & (_ & _ & E52 & E64)).
  apply wp_bind, wp_bind.
  eapply wp_mono; [apply (wp_reply n2 i (set_up [] g1) fd q); rewrite ?E52, ?E64; try done; try tauto| |done].
  { cbn [conn set_up]. congruence. }
  { rewrite Ep2. by apply find_learned. }
  intros st3 n3 ((Hn3 & Hi3 & Ho3) & Ea3). cbn [down set_up] in *. rewrite Ed1 in *. cbn [app] in *.
  apply wp_bind, wp_bind.
  eapply wp_mono; [apply (net_ok_shuttle cos efd fuel n3 i 4096 None _ (Hsteady i) Hn3 Hi3); done| |done].
  intros st4 n4 (_ & Hn4 & g4 & E4 & [Ec4 Ed4 [l4 Eu4] Et4 Ep4]). cbn [conn down up set_down set_up box] in *.
  assert (Client.to_tun (H:=cos i) (Client.log (box g4)) = Client.to_tun (H:=cos i) (Client.log (box g)) ++ [q]) as Eq.
  { rewrite Et4, Et1, app_nil_r. f_equal. rewrite take_ge by (unfold Nat.min in *; lia).
    destruct q; [simpl in Hlen; lia|done]. }
  assert (gateways n4 !! i = Some g4) as Hi4.
  { rewrite E4. apply list_lookup_insert_eq. by eapply lookup_lt_Some. }
  exists g4. split; [done|]. rewrite E4. cbn [gateways set_gateway srv]. split_and!.
  - by rewrite Ep4, Ep1, app_nil_r.
  - unfold arrived in *. cbn [conn set_down set_up] in *. rewrite Ec4, Ea3, Ea2. by rewrite Ec1.
  - destruct (go_read _ _ _ _ (ok_gateways _ _ Hn4 i g4 Hi4)) as [_ <-].
    by destruct (go_read _ _ _ _ (ok_gateways _ _ Hn0 i g Hi)) as [_ <-].
  - exact Eq.
  - by rewrite Eu4, app_nil_r.
  - rewrite Ed4. by apply drop_ge; lia.
  - intros j h Hj Hh. rewrite list_lookup_insert_ne by done. auto.
Qed.
End round_trip.

(** ** Witnesses *)

(** Systems on which everything works and writes are taken whole. *)
Definition gateway_os : Client.Os := {|
  Client.ret l c := match c with
                    | Client.open_tun => 3 | Client.socket => 5 | Client.open_mac => 6
                    | Client.send _ d => Z.of_nat (length d) | _ => 0
                    end;
  Client.O_NONBLOCK := 2048;
  Client.sigpipe _ _ _ := false;
  Client.mac_contents := text "c8:a0:30:b2:4f:1d";
|}.

Definition server_os : Os := {|
  libc := demo_libc;
  ret _ c := match c with
             | open_tun => 4 | socket (inet_stream _) => 6 | socket _ | open_keepalive _ => 5
             | epoll_create => 7 | write _ b => Z.of_nat (length b) | _ => 0
             end;
  O_NONBLOCK := 2048;
  sigpipe _ _ _ := false;
  addrinfos := Some [1];
  client_assignments _ := None;
  stack _ := ([], [], []);
|}.

Definition demo_box : Client.client :=
  let b := Client.start (replicate 18 0) (replicate 4096 0) in
  if Client.main_setup (H:=gateway_os) 1 b is Done _ b' then b' else b.

Definition demo_srv : server :=
  if main_setup (H:=server_os) demo_argv unstarted is Done _ s then s else unstarted.

Definition demo_net : net := Net demo_srv (replicate 2 (Gateway demo_box None [] [])).

Lemma demo_box_boots :
  Client.main_setup (H:=gateway_os) 1 (Client.start (replicate 18 0) (replicate 4096 0)) =
    Done Client.Continue demo_box.
Proof. vm_compute. reflexivity. Qed.

Lemma demo_tcp : Client.tcp_socket demo_box = 5.
Proof. vm_compute. reflexivity. Qed.

Lemma demo_tun : Client.tun_file demo_box = 3.
Proof. vm_compute. reflexivity. Qed.

Lemma demo_flows :
  Client.to_tun (H:=gateway_os) (Client.log demo_box) = [] /\
  Client.to_tcp (H:=gateway_os) (Client.log demo_box) = [].
Proof. vm_compute. split; reflexivity. Qed.

Lemma demo_srv_boots : main_setup (H:=server_os) demo_argv unstarted = Done 7 demo_srv.
Proof. vm_compute. reflexivity. Qed.

Lemma gateway_os_apart : Client.apart (H:=gateway_os).
Proof.
  intros l. assert (forall l, Client.tun_device (H:=gateway_os) l = None \/
    Client.tun_device (H:=gateway_os) l = Some 3) as Hl; [|by destruct (Hl l) as [->| ->]].
  clear l. induction l as [|c l IH]; [by left|]. destruct c; cbn [Client.tun_device]; try done; [by right|].
  unfold Client.lose. case_bool_decide; [by left|done].
Qed.

Lemma demo_booted : booted (fun _ => gateway_os) (H:=server_os) 7 1 demo_net.
Proof.
  split.
  - exists demo_argv, unstarted. split_and!; [reflexivity|reflexivity|exact demo_srv_boots].
  - by vm_compute.
  - intros _. exact gateway_os_apart.
  - intros i g [-> _]%lookup_replicate. do 3 (split; [reflexivity|]). cbn [box]. rewrite demo_tcp, demo_tun.
    do 2 (split; [lia|]).
    exists (replicate 18 0), (replicate 4096 0). split; [reflexivity|exact demo_box_boots].
Qed.

Lemma server_os_fit : assignments_fit (H:=server_os).
Proof. by intros l file. Qed.

Lemma gateway_os_whole : whole_sends (H:=gateway_os).
Proof. by intros l fd d. Qed.

Lemma server_os_whole : whole_writes (H:=server_os).
Proof. by intros l fd d. Qed.

(** The first packet of a gateway and the answer to it. *)
Definition hello : list Z := packet demo_ll elsewhere.
Definition welcome : list Z := packet elsewhere demo_ll.

(** Both gateways are accepted; one sends a packet, which arrives in two pieces,
    with the answer on its way. *)
Definition demo_ops : list op :=
  [Shuttle 0 0 (Some hello); Accept 0 8; Accept 1 9; ToServer 0 [40%nat; 4%nat]; FromInternet [welcome]].

Lemma tunnel_streams_witness :
  exists n', net_run (fun _ => gateway_os) (H:=server_os) 7 1 demo_ops demo_net =
      Done (replicate 5 Client.Continue) n' /\
    exists g, gateways n' !! 0%nat = Some g /\ length (arrived g (srv n')) = 2%nat /\
      concat (arrived g (srv n')) ++ up g = hello /\ Client.to_tcp (H:=gateway_os) (Client.log (box g)) = [hello].
Proof.
  destruct (wp_run _ _ _ _ (tunnel_streams (fun _ => gateway_os) (H:=server_os) 7 1 demo_ops demo_net
    server_os_fit (fun _ => whole_steady (H:=gateway_os) gateway_os_whole) demo_booted ltac:(vm_decide)))
    as (sts & n' & E & -> & Hn').
  { vm_compute. reflexivity. }
  exists n'. split; [exact E|].
  assert (match net_run (fun _ => gateway_os) (H:=server_os) 7 1 demo_ops demo_net with
    | Done _ n => exists g, gateways n !! 0%nat = Some g /\ length (arrived g (srv n)) = 2%nat /\
        uploaded (H:=gateway_os) (Client.log (box g)) = hello
    | _ => False end) as H by (vm_compute; eexists; split; [reflexivity|split; reflexivity]).
  rewrite E in H. destruct H as (g & Hg & Hlen & Hup). exists g. split; [exact Hg|]. split; [exact Hlen|].
  destruct (Hn' 0%nat g Hg) as (Hp & Hs & _). cbv beta in Hs, Hp. split; [rewrite Hs; exact Hup|exact Hp].
Defined.

(** Gateway 0 is accepted, and its connection is empty. *)
Abbreviation demo_run := (net_run (fun _ => gateway_os) (H:=server_os) 7 1).

Definition accepted_net : net := if demo_run [Accept 0 8] demo_net is Done _ n then n else demo_net.
Definition accepted_gateway : gateway := set_conn 8 (Gateway demo_box None [] []).

Lemma accepted_run : demo_run [Accept 0 8] demo_net = Done [Client.Continue] accepted_net.
Proof. vm_compute. reflexivity. Qed.

Lemma accepted_lookup : gateways accepted_net !! 0%nat = Some accepted_gateway.
Proof. vm_compute. reflexivity. Qed.

Lemma accepted_valid : Forall (valid_op 2) [Accept 0 8].
Proof. vm_decide. Qed.

Lemma accepted_exchange : exchange 8 hello welcome (srv accepted_net).
Proof.
  assert (prefixes (srv accepted_net) = no_clients) as E by (vm_compute; reflexivity).
  split; try vm_decide.
  - exists zero_prefix. rewrite E. by split.
  - intros j e _. rewrite E. intros [-> _]%lookup_replicate [Hne _]. by apply Hne.
Qed.

Lemma packets_intact_witness :
  exists n' g, demo_run demo_ops demo_net = Done (replicate 5 Client.Continue) n' /\
    gateways n' !! 0%nat = Some g /\
    ((length <$> Client.to_tun (H:=gateway_os) (Client.log (box g))) `prefix_of` (length <$> forwarded 8 (log (srv n'))) ->
      Client.to_tun (H:=gateway_os) (Client.log (box g)) `prefix_of` forwarded 8 (log (srv n'))).
Proof.
  destruct (wp_run _ _ _ _ (packets_intact (fun _ => gateway_os) (H:=server_os) 7 1 demo_ops demo_net
    server_os_fit (fun _ => gateway_os_whole) server_os_whole demo_booted ltac:(vm_decide)))
    as (sts & n' & E & Hn').
  { vm_compute. reflexivity. }
  assert (match demo_run demo_ops demo_net with
    | Done sts n => sts = replicate 5 Client.Continue /\
        exists g, gateways n !! 0%nat = Some g /\ conn g = Some 8
    | _ => False end) as H by (vm_compute; split; [reflexivity|eexists; split; reflexivity]).
  rewrite E in H. destruct H as (-> & g & Hg & Hc). exists n', g. split; [exact E|].
  split; [exact Hg|]. exact (proj2 (Hn' 0%nat g 8 Hg Hc)).
Defined.

(** The greeting is sent twice before the server reads. *)
Lemma packets_merge_witness :
  exists n'' g'', gateways n'' !! 0%nat = Some g'' /\
    demo_run [Shuttle 0 0 (Some hello); Shuttle 0 0 (Some hello); ToServer 0 [4096%nat]] accepted_net =
      Done [Client.Continue; Client.Continue; Client.Continue] n'' /\
    arrived g'' (srv n'') = arrived accepted_gateway (srv accepted_net) ++ [hello ++ hello].
Proof.
  pose proof (wp_Done _ _ _ _ _ _ (packets_merge (fun _ => gateway_os) (H:=server_os) 7 1 [Accept 0 8] demo_net
    hello hello server_os_fit (fun _ => gateway_os_whole) demo_booted accepted_valid
    ltac:(discriminate) ltac:(vm_decide)) accepted_run) as H.
  destruct (wp_run _ _ _ _ (H 0%nat accepted_gateway 8 accepted_lookup eq_refl eq_refl))
    as (sts & n'' & E & g'' & Hg & _ & Ha); [vm_compute; reflexivity|].
  assert (match demo_run [Shuttle 0 0 (Some hello); Shuttle 0 0 (Some hello); ToServer 0 [4096%nat]]
      accepted_net with Done sts _ => sts = [Client.Continue; Client.Continue; Client.Continue]
    | _ => False end) as Hsts by (vm_compute; reflexivity).
  rewrite E in Hsts. subst sts. exists n'', g''. split; [exact Hg|]. split; [exact E|exact Ha].
Defined.

Lemma tunnel_drains_witness :
  exists os' sts n'', (length os' <= 2)%nat /\ demo_run os' accepted_net = Done sts n''.
Proof.
  pose proof (wp_Done _ _ _ _ _ _ (tunnel_drains (fun _ => gateway_os) (H:=server_os) 7 1 [Accept 0 8] demo_net
    server_os_fit (fun _ => whole_steady (H:=gateway_os) gateway_os_whole) demo_booted accepted_valid)
    accepted_run) as H.
  destruct (H 0%nat accepted_gateway 8 accepted_lookup eq_refl) as (os' & Hlen & Hwp).
  exists os'. unfold wp in Hwp. destruct (demo_run os' accepted_net) as [sts n''|?|].
  - exists sts, n''. split; [exact Hlen|reflexivity].
  - destruct Hwp.
  - destruct Hwp.
Defined.

Lemma round_trip_witness :
  exists n'' g'', gateways n'' !! 0%nat = Some g'' /\
    demo_run [Shuttle 0 0 (Some hello); ToServer 0 [4096%nat]; FromInternet [welcome]; Shuttle 0 4096 None]
      accepted_net = Done (replicate 4 Client.Continue) n'' /\
    Client.to_tcp (H:=gateway_os) (Client.log (box g'')) = [hello] /\
    Client.to_tun (H:=gateway_os) (Client.log (box g'')) = [welcome].
Proof.
  pose proof (wp_Done _ _ _ _ _ _ (round_trip (fun _ => gateway_os) (H:=server_os) 7 1 [Accept 0 8] demo_net
    hello welcome server_os_fit (fun _ => gateway_os_whole) server_os_whole demo_booted accepted_valid)
    accepted_run) as H.
  destruct (wp_run _ _ _ _ (H 0%nat accepted_gateway 8 accepted_lookup eq_refl eq_refl eq_refl accepted_exchange))
    as (sts & n'' & E & g'' & Hg & Hs & _ & _ & Ht & _); [vm_compute; reflexivity|].
  assert (match demo_run [Shuttle 0 0 (Some hello); ToServer 0 [4096%nat]; FromInternet [welcome];
      Shuttle 0 4096 None] accepted_net with Done sts _ => sts = replicate 4 Client.Continue
    | _ => False end) as Hsts by (vm_compute; reflexivity).
  rewrite E in Hsts. subst sts. exists n'', g''. split; [exact Hg|]. split; [exact E|].
  rewrite Ht, Hs. unfold accepted_gateway. cbn [box set_conn].
  destruct demo_flows as [-> ->]. split; reflexivity.
Defined.
End TunnelLink.
