(* ===== verification/TunnelBreaks.v ===== *)
(** * The tunnel when connections break

    [TunnelLink] again, for connections that end.  A gateway has a list of
    sessions, one for every [connect] of its client that succeeded; the last one
    is its current connection.  A connection can break at any time: bytes on
    their way are lost, and nothing further travels.  The client notices when it
    reads or when [send] fails, and reconnects; the server notices only when a
    read reports the end, and may do so much later, or never.

    The client's systems may let any [send] fail, whether the connection is
    broken or not, and may refuse connections for a while; [reachable] bounds
    that while.  Any [send] may also raise SIGPIPE, and so may the server's
    writes: the client is killed, and stays so while the others go on; or the
    server is, and with it the run ends.

    Bytes travel only if the client gives them to the descriptor of its
    connection; a client is offered data, and told of the end of its connection,
    only if it passed the descriptor to [select]. *)
From S2P Require Import Prelude CLib TunnelRoutes TunnelServer TunnelClient TunnelLink.
Import Routes Server.
Import TunnelLink(downloaded, heard, cut, unused, silent_io, quiet, extends, piece).

Module TunnelBreaks.

(** ** State *)

(** At the server: not accepted yet, open with a descriptor, or closed. *)
Inductive peer_state := Pending | Served (fd : Z) | Closed.

Record session := Session {
  peer : peer_state;
  alive : bool;             (* the network carries bytes, and the client uses it *)
  up : list Z;              (* bytes on their way to the server *)
  down : list Z;            (* bytes on their way to the client *)
  got : list (list Z);      (* what the server wrote to its TUN device for it *)
  replied : list Z;         (* bytes the server's system took over for it *)
}.

Record gateway := Gateway { box : Client.client; sessions : list session }.
Record net := Net { srv : server; gateways : list gateway }.

Definition fresh (live : bool) (bytes : list Z) : session := Session Pending live bytes [] [] [].

Definition set_peer (p : peer_state) (s : session) : session :=
  Session p (alive s) (up s) (down s) (got s) (replied s).
Definition set_alive (a : bool) (s : session) : session :=
  Session (peer s) a (up s) (down s) (got s) (replied s).
Definition set_up (u : list Z) (s : session) : session :=
  Session (peer s) (alive s) u (down s) (got s) (replied s).
Definition set_down (d : list Z) (s : session) : session :=
  Session (peer s) (alive s) (up s) d (got s) (replied s).

Definition alter_session (i k : nat) (f : session -> session) (n : net) : net :=
  Net (srv n) (alter (fun g => Gateway (box g) (alter f k (sessions g))) i (gateways n)).

Definition session_of (n : net) (i k : nat) : option session :=
  g ← gateways n !! i; sessions g !! k.

(** ** The sessions of a client, as its trace has them *)

Fixpoint add_last {A} (x : list A) (ls : list (list A)) : list (list A) :=
  match ls with [] => [] | [l] => [l ++ x] | l :: ls => l :: add_last x ls end.

Section traces.
Context `{Client.Os}.

(** What the calls contribute, in lists that begin with a successful [connect]. *)
Fixpoint by_session {A} (f : list Client.io -> Client.io -> list A) (log : list Client.io) :
    list (list A) :=
  match log with
  | [] => []
  | c :: log =>
      match c with
      | Client.connect _ =>
          if Client.ret log c <? 0 then by_session f log else by_session f log ++ [[]]
      | _ => add_last (f log c) (by_session f log)
      end
  end.

(** The bytes the client's system took over for the connection, and what the
    client wrote to its TUN device. *)
Definition sent_in : list Client.io -> list (list Z) :=
  by_session (fun log c =>
    match c with
    | Client.send fd b => concat (Client.on_fd fd (Client.connection log) (take (Z.to_nat (Client.ret log c)) b))
    | _ => []
    end).
Definition shown_in : list Client.io -> list (list (list Z)) :=
  by_session (fun log c =>
    match c with Client.write_tun fd b => Client.on_fd fd (Client.tun_device log) b | _ => [] end).
End traces.

(** ** Operations *)

Inductive op :=
| Accept (i k : nat) (fd : Z)                                (* the server gets descriptor [fd] *)
| ToServer (i k : nat) (sizes : list nat) (last : read_end)  (* it reads from session [k] of gateway [i] *)
| ErrorEvent (i k : nat) (err hup : bool)                    (* epoll reports an error for it *)
| FromInternet (packets : list (list Z))                     (* packets at the server's TUN device *)
| Shuttle (i : nat) (n : nat) (over : option bool) (p : option (list Z))
    (* a round of the client's loop; [over]: what a read of a broken connection reports *)
| Break (i k : nat) (m n : nat).                             (* all but these bytes are lost *)

(** A round that finds these bytes, or the end of the connection: an end of file
    ([Some true]) or an error. *)
Definition round_of (chunk : list Z) (over : option bool) (p : option (list Z)) : Client.round :=
  let tcp := bool_decide (chunk <> []) || bool_decide (is_Some over) in
  let tun := bool_decide (is_Some p) in
  Client.Round (Z.b2z tcp + Z.b2z tun) tcp tun
    (match chunk, over with
     | _ :: _, _ => Client.Got chunk
     | [], Some true => Client.Got []
     | [], Some false => Client.Failed
     | [], None => Client.Again
     end)
    (match p with Some d => Client.Got d | None => Client.Again end).

(** The end of a connection is reported when it has broken and nothing is left. *)
Definition ended (x : session) (over : option bool) : option bool :=
  if alive x || bool_decide (down x <> []) then None else over.

(** New bytes of a client: they travel if the connection still carries them.
    Of the sessions only the last is in use. *)
Definition extend (before after : list (list Z)) (ss : list session) : list session :=
  imap (fun k bytes =>
    let current := (S k =? length after)%nat in
    match ss !! k with
    | Some s =>
        let new := drop (length (default [] (before !! k))) bytes in
        set_alive (alive s && current) (if alive s then set_up (up s ++ new) s else s)
    | None => fresh current bytes
    end) after.

Section operations.
Context (cos : nat -> Client.Os) `{Os} (efd : Z) (fuel : nat).

Definition gateway_at (i : nat) : M net gateway := gs ← gets gateways; lift (gs !! i).

(** Session [k] of gateway [i], if there is one. *)
Definition with_session (i k : nat) (m : session -> M net Client.status) : M net Client.status :=
  x ← gets (fun n => session_of n i k);
  match x with Some x => m x | None => mret Client.Continue end.

(** The client of gateway [i] runs, and answers [st] in state [b], or is killed. *)
Definition leave_box (i : nat) (g : gateway) (b : Client.client) (st : Client.status) : M net Client.status :=
  let before := sent_in (H:=cos i) (Client.log (box g)) in
  let after := sent_in (H:=cos i) (Client.log b) in
  modify (fun n => Net (srv n) (<[i := Gateway b (extend before after (sessions g))]> (gateways n)));;
  mret st.

Definition on_box (i : nat) (m : M Client.client Client.status) : M net Client.status :=
  g ← gateway_at i;
  match m (box g) with
  | Done st b => leave_box i g b st
  | Halt b => leave_box i g b Client.Stop
  | Undef => lift None
  end.

(** What the server has done with a session that it serves. *)
Definition carry_session (tun : Z) (l l' : list io) (s : session) : session :=
  match peer s with
  | Served fd =>
      let new := drop (length (downloaded fd l)) (downloaded fd l') in
      Session (Served fd) (alive s) (up s) (if alive s then down s ++ new else down s)
        (got s ++ drop (length (heard tun fd l)) (heard tun fd l')) (replied s ++ new)
  | _ => s
  end.

Definition carry (tun : Z) (l l' : list io) (g : gateway) : gateway :=
  Gateway (box g) (carry_session tun l l' <$> sessions g).

Definition on_server {A} (m : M server A) : M net A := fun n =>
  match m (srv n) with
  | Done a s => Done a (Net s (carry (tun_file s) (log (srv n)) (log s) <$> gateways n))
  | Halt s => Halt (Net s (gateways n))
  | Undef => Undef
  end.

Definition net_step (o : op) : M net Client.status :=
  match o with
  | Accept i k fd =>
      with_session i k (fun x =>
      s ← gets srv;
      match peer x with
      | Pending =>
          if unused fd s then
            on_server (handle_event efd (EpollEvent false false true (sfd s) [fd] [] Drained));;
            modify (alter_session i k (set_peer (Served fd)));;
            mret Client.Continue
          else mret Client.Continue
      | _ => mret Client.Continue
      end)
  | ToServer i k sizes last =>
      with_session i k (fun x =>
      match peer x with
      | Served fd =>
          let '(chunks, rest) := cut sizes (up x) in
          let last := if alive x || bool_decide (rest <> []) then Drained else last in
          modify (alter_session i k (set_up rest));;
          on_server (handle_event efd (EpollEvent false false true fd [] chunks last));;
          (match last with
           | Drained => mret ()
           | _ => modify (alter_session i k (set_peer Closed))
           end);;
          mret Client.Continue
      | _ => mret Client.Continue
      end)
  | ErrorEvent i k err hup =>
      with_session i k (fun x =>
      match peer x with
      | Served fd =>
          if err || hup then
            on_server (handle_event efd (EpollEvent err hup true fd [] [] Failed));;
            mret Client.Continue
          else mret Client.Continue
      | _ => mret Client.Continue
      end)
  | FromInternet packets =>
      s ← gets srv;
      on_server (handle_event efd (EpollEvent false false true (tun_file s) [] packets Drained));;
      mret Client.Continue
  | Shuttle i n over p =>
      g ← gateway_at i;
      if Client.killed (H:=cos i) (box g) then mret Client.Stop else
      let k := pred (length (sessions g)) in
      let heeds_tcp := TunnelLink.told (Client.tcp_socket (box g)) (box g) in
      let heeds_tun := TunnelLink.told (Client.tun_file (box g)) (box g) in
      let n := if heeds_tcp then Nat.min 4096 n else O in
      with_session i k (fun x =>
      modify (alter_session i k (set_down (drop n (down x))));;
      on_box i (Client.main_round (H:=cos i) fuel
        (round_of (take n (down x)) (if heeds_tcp then ended x over else None) (if heeds_tun then p else None))))
  | Break i k m n =>
      modify (alter_session i k (fun x => Session (peer x) false (take m (up x)) (take n (down x))
        (got x) (replied x)));;
      mret Client.Continue
  end.

Fixpoint net_run (os : list op) : M net (list Client.status) :=
  match os with
  | [] => mret []
  | o :: os => r ← net_step o; rs ← net_run os; mret (r :: rs)
  end.
End operations.

Definition valid_op (n : nat) (o : op) : Prop :=
  match o with
  | FromInternet packets => Forall (fun p => length p <= 4096)%nat packets
  | Shuttle i _ _ p => (i < n)%nat /\ (length (default [] p) <= 4096)%nat
  | _ => True
  end.

#[export] Instance valid_op_dec n o : Decision (valid_op n o).
Proof. destruct o; simpl; apply _. Defined.

(** ** Lists of sessions *)

Lemma add_last_snoc {A} (x : list A) ls l : add_last x (ls ++ [l]) = ls ++ [l ++ x].
Proof.
  induction ls as [|l' ls IH]; [done|]. cbn [app add_last]. rewrite IH. by destruct ls.
Qed.

Lemma add_last_nil {A} (ls : list (list A)) : add_last [] ls = ls.
Proof. induction ls as [|l [|l' ls] IH]; cbn; [done|by rewrite app_nil_r|by f_equal]. Qed.

Lemma add_last_add_last {A} (x y : list A) ls : add_last y (add_last x ls) = add_last (x ++ y) ls.
Proof.
  destruct ls as [|l ls _] using rev_ind; [done|]. rewrite !add_last_snoc. by rewrite app_assoc.
Qed.

Lemma length_add_last {A} (x : list A) ls : length (add_last x ls) = length ls.
Proof. induction ls as [|l [|l' ls] IH]; cbn; [done..|]. by f_equal. Qed.

Lemma lookup_add_last {A} (x : list A) ls k :
  add_last x ls !! k = (fun l => if (S k =? length ls)%nat then l ++ x else l) <$> ls !! k.
Proof.
  destruct ls as [|l ls _] using rev_ind; [done|]. rewrite add_last_snoc, length_app. cbn [length].
  destruct (Nat.eqb_spec (S k) (length ls + 1)) as [E|E].
  - replace k with (length ls) by lia. by rewrite !list_lookup_middle.
  - destruct (decide (k < length ls)%nat).
    + rewrite !lookup_app_l by done. by destruct (ls !! k).
    + by rewrite !lookup_ge_None_2 by (rewrite length_app; simpl; lia).
Qed.

(** ** The client's half *)

Section client.
Context `{Client.Os}.
Implicit Types b : Client.client.

(** [n] sessions were started, and nothing was sent or shown. *)
Definition opened (n : nat) (l l' : list Client.io) : Prop :=
  sent_in l' = sent_in l ++ replicate n [] /\ shown_in l' = shown_in l ++ replicate n [].

Lemma opened_refl l : opened 0 l l.
Proof. split; by rewrite app_nil_r. Qed.

Lemma opened_trans n m l1 l2 l3 : opened n l1 l2 -> opened m l2 l3 -> opened (n + m) l1 l3.
Proof. intros [E1 E2] [E3 E4]. split; by rewrite ?E3, ?E4, ?E1, ?E2, <-app_assoc, replicate_add. Qed.

Definition is_connect (c : Client.io) : bool := if c is Client.connect _ then true else false.

Lemma opened_io c l : silent_io c -> is_connect c = false -> opened 0 l (c :: l).
Proof.
  intros Hc Hn. unfold opened, sent_in, shown_in. rewrite !app_nil_r.
  destruct c; try done; cbn [by_session]; by rewrite !add_last_nil.
Qed.

Lemma opened_connect fd l :
  opened (if Client.ret l (Client.connect fd) <? 0 then 0 else 1) l (Client.connect fd :: l).
Proof.
  unfold opened, sent_in, shown_in. cbn [by_session].
  destruct (_ <? 0); cbn [replicate]; by rewrite ?app_nil_r.
Qed.

(** Programs that start [g] sessions, depending on their result. *)
Definition opens {A} (g : A -> nat) (m : M Client.client A) : Prop :=
  forall b a b', m b = Done a b' -> opened (g a) (Client.log b) (Client.log b').

Lemma opens_bind {A B} (m : M Client.client A) (f : A -> M Client.client B) g h :
  opens g m -> (forall a, exists h', opens h' (f a) /\ forall c b b', f a b = Done c b' -> (g a + h' c)%nat = h c) ->
  opens h (m ≫= f).
Proof.
  intros Hm Hf b c b' (a & b1 & E1 & E2)%bind_Done_inv. destruct (Hf a) as (h' & Hh & Eh).
  rewrite <-(Eh _ _ _ E2). eapply opened_trans; [by apply Hm|by apply Hh].
Qed.

Lemma opens_bind_0 {A B} (m : M Client.client A) (f : A -> M Client.client B) h :
  opens (fun _ => 0%nat) m -> (forall a, opens h (f a)) -> opens h (m ≫= f).
Proof. intros Hm Hf. eapply opens_bind; [exact Hm|]. intros a. by exists h. Qed.

Lemma opens_ret {A} g (a : A) : g a = 0%nat -> opens g (mret a).
Proof. intros Hg b a' b' [= <- <-]. rewrite Hg. apply opened_refl. Qed.
Lemma opens_gets {A} (f : Client.client -> A) : opens (fun _ => 0%nat) (gets f).
Proof. intros b a b' [= <- <-]. apply opened_refl. Qed.
Lemma opens_lift {A} (o : option A) : opens (fun _ => 0%nat) (lift o).
Proof. intros b a b'. unfold lift. destruct o; [|done]. intros [= <- <-]. apply opened_refl. Qed.
Lemma opens_modify f : (forall b, Client.log (f b) = Client.log b) -> opens (fun _ => 0%nat) (modify f).
Proof. intros Hf b a b' [= <- <-]. rewrite Hf. apply opened_refl. Qed.
Lemma opens_call c : silent_io c -> is_connect c = false -> opens (fun _ => 0%nat) (Client.call c).
Proof. intros ?? b a b' [= <- <-]. by apply opened_io. Qed.
Lemma opens_call_void c : silent_io c -> is_connect c = false -> opens (fun _ => 0%nat) (Client.call_void c).
Proof. intros ?? b a b' [= <- <-]. by apply opened_io. Qed.
Lemma opens_if {A} g (c : bool) (m1 m2 : M Client.client A) :
  opens g m1 -> opens g m2 -> opens g (if c then m1 else m2).
Proof. by destruct c. Qed.
End client.

(** Follow the structure of a program that starts no session before its end. *)
Ltac opening :=
  repeat first
    [ apply opens_ret; reflexivity
    | apply opens_gets | apply opens_lift
    | apply opens_call; [exact I|reflexivity]
    | apply opens_call_void; [exact I|reflexivity]
    | apply opens_modify; reflexivity
    | apply opens_bind_0; [solve [opening]|intros ?]
    | apply opens_if ].

Section connecting.
Context `{Client.Os}.

Lemma opens_connect_loop fuel :
  opens (fun r => if r is Some _ then 1%nat else 0%nat) (Client.connect_loop fuel).
Proof.
  induction fuel as [|fuel IH]; cbn [Client.connect_loop]; [opening|].
  apply opens_bind_0; [apply opens_gets|intros fd]. intros b r b'. unfold Client.call. run_effects.
  pose proof (opened_connect fd (Client.log b)) as Hc. destruct (_ <? 0).
  - unfold Client.call_void. run_effects. intros E%IH.
    eapply (opened_trans 0); [exact Hc|]. eapply (opened_trans 0); [|exact E]. by apply opened_io.
  - by intros [= <- <-].
Qed.

Lemma opens_connect_tcp fuel :
  opens (fun r => if r is Some r then (if r <? 0 then 0%nat else 1%nat) else 0%nat) (Client.connect_tcp fuel).
Proof.
  unfold Client.connect_tcp. opening. eapply opens_bind; [apply opens_connect_loop|].
  intros [u|]; (eexists (fun _ => 0%nat); split; [opening|]).
  - by intros c b b' [= <- <-].
  - by intros c b b' [= <- <-].
Qed.

Lemma opens_reconnect fuel :
  opens (fun r => if r is Some _ then 1%nat else 0%nat) (Client.reconnect fuel).
Proof.
  unfold Client.reconnect, Client.ssystem.
  assert (forall tries, opens (fun r => if r is Some _ then 1%nat else 0%nat)
    (Client.reconnect_loop tries fuel)) as Hloop.
  { induction tries as [|tries IH]; cbn [Client.reconnect_loop]; [opening|].
    eapply opens_bind; [apply opens_connect_tcp|]. intros [r|].
    - destruct (r <? 0).
      + eexists. split; [opening; exact IH|done].
      + eexists (fun _ => 0%nat). split; [opening|]. by intros c b b' [= <- <-].
    - eexists (fun _ => 0%nat). split; [opening|]. by intros c b b' [= <- <-]. }
  eapply opens_bind; [apply Hloop|]. intros [u|]; (eexists (fun _ => 0%nat); split; [opening|]).
  - intros c b b'. run_effects. unfold Client.call. by intros [= <- <-].
  - by intros c b b' [= <- <-].
Qed.

Lemma opens_main_setup fuel :
  opens (fun st => if st is Client.Continue then 1%nat else 0%nat) (Client.main_setup fuel).
Proof.
  unfold Client.main_setup, Client.make_nonblocking, Client.lladdr_command, Client.ssystem. opening.
  eapply opens_bind; [apply opens_reconnect|]. intros [u|]; (eexists (fun _ => 0%nat); split; [opening|]).
  - by intros c b b' [= <- <-].
  - by intros c b b' [= <- <-].
Qed.

Lemma reconnect_not_killed fuel b r b' :
  Client.reconnect fuel b = Done (Some r) b' -> Client.killed b' = false.
Proof.
  unfold Client.reconnect, Client.ssystem. intros ([u|] & b1 & _ & E)%bind_Done_inv; [|done].
  revert E. run_effects. unfold Client.call. by intros [= _ <-].
Qed.

(** The client's reconnect, if it can be reached at the latest after [n] pauses. *)
Lemma wp_reopened n fuel b :
  Client.reachable n -> (n < fuel)%nat -> Client.equipped b -> 0 <= Client.tun_file b < 1024 ->
  wp (x ← Client.reconnect fuel; mret (Client.reconnected x)) b
    (fun st b' => st = Client.Continue /\ Client.running b' /\
      Client.killed b' = false /\ opened 1 (Client.log b) (Client.log b'))
    (fun _ => False).
Proof.
  intros Hn Hfuel He Ht.
  pose proof (Client.wp_reconnected n fuel b [] [] b Hn Hfuel He Ht
    (Client.flowed_nil _ _ (Client.same_tun_refl _ _ eq_refl eq_refl) eq_refl)) as Hwp.
  pose proof (opens_reconnect fuel b) as Ho. pose proof (reconnect_not_killed fuel b) as Hk.
  unfold wp in *. cbv [mbind M_bind mret M_ret] in *. destruct (Client.reconnect fuel b) as [[[]|] b'| |]; [|by destruct Hwp..].
  destruct Hwp as (_ & Hb' & _). split; [done|]. split; [done|]. split; [by eapply Hk|]. by apply (Ho (Some tt)).
Qed.
End connecting.

Section round.
Context `{Client.Os}.
Implicit Types b : Client.client.

(** What a round does: it shows the bytes it found, reconnects [m1] times, sends
    its packet, and reconnects [m2] times. *)
Record passed (chunk : list Z) (over : option bool) (p : option (list Z)) (l l' : list Client.io) : Prop := Passed {
  ps_shown : exists m, shown_in l' = add_last (piece chunk) (shown_in l) ++ replicate m [] /\
    length (sent_in l') = (length (sent_in l) + m)%nat;
  ps_sent : exists m1 x m2, sent_in l' = add_last x (sent_in l ++ replicate m1 []) ++ replicate m2 [] /\
    m1 = (if decide (chunk = [] /\ is_Some over) then 1 else 0)%nat /\
    (p = None -> x = [] /\ m2 = 0%nat);
}.

(** Data for the TUN device, or the end of the connection. *)
Lemma wp_tcp_passed n fuel chunk over b :
  Client.reachable n -> (n < fuel)%nat -> Client.running b -> Client.killed b = false ->
  (length chunk <= 4096)%nat ->
  wp (if Client.tcp_ready (round_of chunk over None)
      then Client.handle_tcp fuel (Client.from_tcp (round_of chunk over None)) else mret Client.Continue) b
    (fun st b' => st = Client.Continue /\ Client.running b' /\ Client.killed b' = false /\ exists m,
      shown_in (Client.log b') = add_last (piece chunk) (shown_in (Client.log b)) ++ replicate m [] /\
      sent_in (Client.log b') = sent_in (Client.log b) ++ replicate m [] /\
      m = (if decide (chunk = [] /\ is_Some over) then 1 else 0)%nat)
    (fun _ => False).
Proof.
  intros Hn Hfuel Hb Hk Hlen. cbn [round_of Client.tcp_ready Client.from_tcp].
  pose proof Hb as (He & Ht & _). destruct chunk as [|x chunk].
  - cbn [piece]. rewrite add_last_nil. destruct over as [fin|].
    2:{ apply wp_ret. split_and!; [done..|]. exists 0%nat. rewrite !app_nil_r, decide_False by (by intros [_ []]). done. }
    rewrite (bool_decide_true (is_Some _)) by by eexists. rewrite orb_true_r.
    unfold Client.handle_tcp. apply wp_bind, wp_gets, wp_bind, Client.wp_client_io_void.
    set (b1 := Client.add_io _ b). assert (Client.equipped b1) as He1 by by destruct fin.
    destruct fin; (eapply wp_mono; [by apply (wp_reopened n fuel b1 Hn Hfuel He1)| |done]);
      intros st b' (-> & Hb' & Hk' & [E1 E2]); (split; [done|split; [done|split; [done|]]]); exists 1%nat;
      rewrite decide_True by (split; [done|by eexists]); rewrite E1, E2; cbn [b1 Client.log Client.add_io];
      unfold sent_in, shown_in; cbn [by_session]; by rewrite !add_last_nil.
  - rewrite bool_decide_true by done. cbn [orb].
    eapply wp_mono; [by apply (TunnelLink.wp_handle_tcp_got fuel (x :: chunk) b)| |done].
    intros st b' (-> & Hb' & Elog & _). split; [done|split; [done|]].
    split; [unfold Client.killed; by rewrite Elog|]. exists 0%nat. rewrite Elog, !app_nil_r.
    unfold sent_in, shown_in. cbn [app by_session Client.tun_device].
    rewrite (Client.on_fd_eq _ (Client.tun_device _)) by apply He.
    rewrite !add_last_nil, decide_False by by intros []. done.
Qed.

(** A packet from the TUN device; [send] may fail, or raise SIGPIPE. *)
Lemma wp_tun_passed n fuel p b :
  Client.reachable n -> (n < fuel)%nat -> Client.running b -> Client.killed b = false ->
  (length (default [] p) <= 4096)%nat ->
  let added b' x m :=
    shown_in (Client.log b') = shown_in (Client.log b) ++ replicate m [] /\
    sent_in (Client.log b') = add_last x (sent_in (Client.log b)) ++ replicate m [] in
  wp (if bool_decide (is_Some p)
      then Client.handle_tun fuel (match p with Some d => Client.Got d | None => Client.Again end)
      else mret Client.Continue) b
    (fun st b' => st = Client.Continue /\ Client.running b' /\ Client.killed b' = false /\ exists x m,
      added b' x m /\ (p = None -> x = [] /\ m = 0%nat))
    (fun b' => Client.killed b' = true /\ p <> None /\ exists x, added b' x 0%nat).
Proof.
  intros Hn Hfuel Hb Hk Hlen added. destruct p as [d|].
  2:{ rewrite bool_decide_false by by intros []. apply wp_ret. split_and!; [done..|]. exists [], 0%nat.
      unfold added. by rewrite add_last_nil, !app_nil_r. }
  rewrite bool_decide_true by done. simpl in Hlen. unfold Client.handle_tun.
  apply wp_bind, wp_gets, wp_bind, Client.wp_client_io_void. set (b1 := Client.add_io _ b).
  assert (Client.running b1) as Hb1 by done. apply wp_bind, wp_gets, wp_bind.
  destruct (memcpy_at (Client.buf b1) 0 d (length d)) as [buf|] eqn:E.
  2:{ apply memcpy_at_None in E. rewrite (proj1 (proj1 Hb1)) in E. lia. }
  apply wp_lift. exists buf. split; [done|]. apply wp_bind, wp_modify, wp_bind, wp_gets, wp_bind.
  apply Client.wp_send_packet. set (sent := Client.send _ _). set (b3 := Client.add_io sent _).
  pose proof (TunnelLink.running_received d b1 buf Hb1 E) as (He & Ht & Hfd & Hc).
  assert (Client.equipped b3) as He3 by exact He.
  match type of Hc with Client.connection ?l = _ => set (l3 := l) in * end.
  set (x := concat (Client.on_fd (Client.tcp_socket (Client.set_buf buf b1)) (Client.connection l3) (take (Z.to_nat (Client.ret l3 sent)) (take (length d) buf)))).
  assert (shown_in (Client.log b3) = shown_in (Client.log b) /\
    sent_in (Client.log b3) = add_last x (sent_in (Client.log b))) as [Es Et].
  { unfold sent_in, shown_in. cbn [Client.log Client.add_io Client.set_buf b3 b1 by_session sent].
    rewrite !add_last_nil. done. }
  change (Client.log (Client.set_buf buf b1)) with l3. unfold added.
  destruct (Client.sigpipe l3 _ _) eqn:Ep.
  { split_and!; [done..|]. exists x. by rewrite Es, Et, !app_nil_r. }
  destruct (Client.ret l3 sent <? 0) eqn:Er.
  - eapply wp_mono; [by apply (wp_reopened n fuel b3 Hn Hfuel He3)| |done].
    intros st b' (-> & Hb' & Hk' & [E1 E2]). split_and!; [done..|]. exists x, 1%nat.
    by rewrite E1, E2, Es, Et.
  - apply wp_ret. split; [done|]. split.
    { split; [exact He3|]. split; [exact Ht|]. split; [exact Hfd|]. unfold b3.
      cbn [Client.log Client.add_io Client.connection sent]. fold l3 sent. by rewrite Er. }
    split; [done|]. exists x, 0%nat. by rewrite Es, Et, !app_nil_r.
Qed.

(** The round gives what it reads to the right descriptors. *)
Definition paired b : Prop :=
  Client.to_tcp (Client.log b) = Client.tun_reads (Client.log b) /\
  Client.to_tun (Client.log b) = Client.tcp_reads (Client.log b).

Lemma flowed_paired c d b b' : Client.flowed c d b b' -> paired b -> paired b'.
Proof. intros [_ E]. unfold paired, Client.flows in *. injection E as -> -> -> ->. by intros [-> ->]. Qed.

Lemma wp_round_passed n fuel chunk over p b :
  Client.reachable n -> (n < fuel)%nat -> Client.running b -> Client.reported b (round_of chunk over p) ->
  (length chunk <= 4096)%nat -> (length (default [] p) <= 4096)%nat ->
  wp (Client.main_round fuel (round_of chunk over p)) b
    (fun st b' => st = Client.Continue /\ Client.killed b' = false /\
      passed chunk over p (Client.log b) (Client.log b'))
    (fun b' => Client.killed b' = true /\ p <> None /\
      passed chunk over p (Client.log b) (Client.log b')).
Proof.
  intros Hn Hfuel Hb [Hrep1 Hrep2] Hchunk Hp. pose proof Hb as (_ & Htun & Htcp & _).
  unfold Client.main_round, Client.FD_SET.
  apply wp_bind, wp_gets, wp_bind, wp_gets, wp_bind. rewrite decide_True by done.
  apply wp_ret, wp_bind. rewrite decide_True by done. apply wp_ret. cbv zeta. apply wp_bind, Client.wp_client_io_void.
  rewrite !Client.isset_reported by done.
  set (b1 := Client.add_io _ b). assert (Client.running b1) as Hb1 by done.
  assert (opened 0 (Client.log b) (Client.log b1)) as [Es Et] by by apply opened_io.
  rewrite app_nil_r in Es, Et.
  destruct (Z.leb_spec (Client.select_ret (round_of chunk over p)) 0) as [Hle|_].
  { apply wp_ret. split_and!; [done..|]. cbn [round_of Client.select_ret] in Hle.
    assert (chunk = [] /\ over = None) as [-> ->].
    { destruct chunk, over, p; try done. }
    split.
    - exists 0%nat. cbn [piece]. by rewrite Es, Et, add_last_nil, app_nil_r, Nat.add_0_r.
    - exists 0%nat, [], 0%nat. rewrite Es, add_last_nil, !app_nil_r, decide_False by by intros [_ []]. done. }
  apply wp_bind. eapply wp_mono; [exact (wp_tcp_passed n fuel chunk over b1 Hn Hfuel Hb1 eq_refl Hchunk)| |by intros ?].
  intros st b2 (-> & Hb2 & Hk2 & m1 & Eshown & Esent & Hover). cbn [round_of Client.tun_ready Client.from_tun].
  assert (forall b3 x m2, shown_in (Client.log b3) = shown_in (Client.log b2) ++ replicate m2 [] ->
    sent_in (Client.log b3) = add_last x (sent_in (Client.log b2)) ++ replicate m2 [] ->
    (p = None -> x = [] /\ m2 = 0%nat) -> passed chunk over p (Client.log b) (Client.log b3)) as Hpassed.
  { intros b3 x m2 Eshown2 Esent2 Hidle. split.
    - exists (m1 + m2)%nat. rewrite Eshown2, Eshown, Et, Esent2, Esent, Es, replicate_add, app_assoc.
      split; [done|]. rewrite !length_app, length_add_last, length_app, !length_replicate. lia.
    - exists m1, x, m2. by rewrite Esent2, Esent, Es. }
  eapply wp_mono; [exact (wp_tun_passed n fuel p b2 Hn Hfuel Hb2 Hk2 Hp)|..].
  - intros st b3 (-> & Hb3 & Hk3 & x & m2 & [Eshown2 Esent2] & Hidle). split_and!; [done..|]. by eapply Hpassed.
  - intros b3 (Hk3 & Hne & x & [Eshown2 Esent2]). split_and!; [done..|].
    eapply (Hpassed _ x 0%nat); [done..|]. by intros ->.
Qed.

(** What else it keeps. *)
Definition stable b b' : Prop :=
  (Client.killed b' = false -> Client.running b') /\ (paired b -> paired b') /\ Client.same_tun b b'.

Lemma wp_round_stable n fuel chunk over p b :
  Client.reachable n -> (n < fuel)%nat -> Client.running b -> Client.reported b (round_of chunk over p) ->
  (length chunk <= 4096)%nat -> (length (default [] p) <= 4096)%nat ->
  wp (Client.main_round fuel (round_of chunk over p)) b (fun _ b' => stable b b') (fun b' => stable b b').
Proof.
  intros Hn Hfuel Hb Hrep Hchunk Hp. eapply wp_mono; [apply (Client.wp_main_round n); try done|..].
  - intros d [E|E]; cbn in E.
    + destruct chunk as [|x chunk]; [by destruct over as [[]|]; simplify_eq/=; lia|]. by injection E as <-.
    + destruct p; [|done]. by injection E as <-.
  - intros st b' (_ & Hb' & Hf). split; [by intros _|]. split; [by eapply flowed_paired|apply Hf].
  - intros b' (Hk & _ & Hf). split; [by rewrite Hk|]. split; [by eapply flowed_paired|apply Hf].
Qed.

(** Of what is not watched a round reports nothing. *)
Lemma watched_reported b n d over p :
  let heeds_tcp := TunnelLink.told (Client.tcp_socket b) b in
  Client.reported b (round_of (take (if heeds_tcp then n else O) d) (if heeds_tcp then over else None)
    (if TunnelLink.told (Client.tun_file b) b then p else None)).
Proof.
  cbv zeta. unfold TunnelLink.told. split; cbn [round_of Client.tcp_ready Client.tun_ready].
  - destruct (Z.ltb_spec (Client.tcp_socket b) (Client.nfds (Client.tcp_socket b) (Client.tun_file b))); [done|].
    cbn [take]. by rewrite !bool_decide_false by (by intros Hx; destruct Hx || done).
  - destruct (Z.ltb_spec (Client.tun_file b) (Client.nfds (Client.tcp_socket b) (Client.tun_file b))); [done|].
    by rewrite bool_decide_false by by intros [].
Qed.

(** The same, session by session. *)
Lemma passed_sent chunk over p l l' k y :
  passed chunk over p l l' -> sent_in l !! k = Some y -> exists z, sent_in l' !! k = Some (y ++ z).
Proof.
  intros [_ (m1 & x & m2 & -> & _ & _)] Hk. pose proof (lookup_lt_Some _ _ _ Hk) as Hlt.
  rewrite lookup_app_l by (rewrite length_add_last, length_app; lia).
  rewrite lookup_add_last, lookup_app_l, Hk by done. simpl.
  case_match; [by exists x|exists []; by rewrite app_nil_r].
Qed.

Lemma passed_shown chunk over p l l' k :
  passed chunk over p l l' -> (k < length (shown_in l'))%nat ->
  default [] (shown_in l' !! k) = default [] (shown_in l !! k) ++
    (if (S k =? length (shown_in l))%nat then piece chunk else []).
Proof.
  intros [(m & -> & _) _] Hk. rewrite length_app, length_add_last, length_replicate in Hk.
  destruct (decide (k < length (shown_in l))%nat) as [Hlt|Hge].
  - rewrite lookup_app_l by by rewrite length_add_last. rewrite lookup_add_last.
    destruct (lookup_lt_is_Some_2 (shown_in l) k Hlt) as [y ->]. simpl.
    case_match; [done|by rewrite app_nil_r].
  - rewrite lookup_app_r, length_add_last, lookup_replicate_2 by (rewrite ?length_add_last; lia).
    rewrite (lookup_ge_None_2 (shown_in l)) by lia.
    by rewrite (proj2 (Nat.eqb_neq (S k) _)) by lia.
Qed.

Lemma passed_length chunk over p l l' :
  passed chunk over p l l' -> length (sent_in l) = length (shown_in l) ->
  length (sent_in l') = length (shown_in l') /\ (length (sent_in l) <= length (sent_in l'))%nat.
Proof.
  intros [(m & -> & ->) _] E. rewrite length_app, length_add_last, length_replicate. lia.
Qed.
End round.

(** *** The sessions make up the whole trace *)

Lemma concat_add_last {A} (x : list A) ls : ls <> [] -> concat (add_last x ls) = concat ls ++ x.
Proof.
  intros Hne. destruct ls as [|l ls _] using rev_ind; [done|]. rewrite add_last_snoc, !concat_app.
  cbn [concat]. by rewrite !app_nil_r, app_assoc.
Qed.

Lemma add_last_ne {A} (x : list A) ls : ls <> [] -> add_last x ls <> [].
Proof. destruct ls as [|l [|l' ls]]; done. Qed.

Section whole.
Context `{Client.Os}.

Record whole (l : list Client.io) : Prop := Whole {
  wh_sent_ne : sent_in l <> [];
  wh_shown_ne : shown_in l <> [];
  wh_sent : concat (sent_in l) = TunnelLink.uploaded l;
  wh_shown : concat (shown_in l) = Client.to_tun l;
}.

Lemma whole_cons c l : whole l -> whole (c :: l).
Proof.
  intros [H1 H2 H3 H4]. destruct (is_connect c) eqn:Ec.
  - destruct c; try done.
    pose proof (opened_connect fd l) as [E1 E2].
    destruct (_ <? 0); cbn [replicate] in *; rewrite ?app_nil_r in *;
      split; rewrite ?E1, ?E2; cbn [TunnelLink.uploaded Client.to_tun]; rewrite ?concat_app;
      cbn [concat]; rewrite ?app_nil_r; try done; by intros [_ [=]]%app_eq_nil.
  - destruct c; try done;
      (split; unfold sent_in, shown_in in *; cbn [by_session TunnelLink.uploaded Client.to_tun];
        [by apply add_last_ne|by apply add_last_ne|
         rewrite concat_add_last by done; congruence|
         rewrite concat_add_last, ?app_nil_r by done; congruence]).
Qed.

(** Programs that only add to the trace. *)
Definition adds {A} (m : M Client.client A) : Prop :=
  forall b, whole (Client.log b) ->
    match m b with Done _ b' | Halt b' => whole (Client.log b') | Undef => True end.

Lemma adds_bind {A B} (m : M Client.client A) (f : A -> M Client.client B) :
  adds m -> (forall a, adds (f a)) -> adds (m ≫= f).
Proof.
  intros Hm Hf b Hb. specialize (Hm b Hb). cbv [mbind M_bind]. destruct (m b) as [a b1| |]; [|done..].
  by apply Hf.
Qed.
Lemma adds_ret {A} (a : A) : adds (mret a).
Proof. by intros b Hb. Qed.
Lemma adds_halt {A} : adds (halt (A:=A)).
Proof. by intros b Hb. Qed.
Lemma adds_gets {A} (f : Client.client -> A) : adds (gets f).
Proof. by intros b Hb. Qed.
Lemma adds_lift {A} (o : option A) : adds (lift o).
Proof. intros b Hb. unfold lift. by destruct o. Qed.
Lemma adds_modify f : (forall b, Client.log (f b) = Client.log b) -> adds (modify f).
Proof. intros Hf b Hb. cbn. by rewrite Hf. Qed.
Lemma adds_call c : adds (Client.call c).
Proof. intros b Hb. by apply whole_cons. Qed.
Lemma adds_call_void c : adds (Client.call_void c).
Proof. intros b Hb. by apply whole_cons. Qed.
Lemma adds_if {A} (c : bool) (m1 m2 : M Client.client A) : adds m1 -> adds m2 -> adds (if c then m1 else m2).
Proof. by destruct c. Qed.
End whole.

#[export] Hint Resolve adds_ret adds_halt adds_gets adds_lift adds_call adds_call_void : gap.

(** Follow the structure of a program. *)
Ltac adding :=
  repeat first
    [ solve [eauto with gap nocore]
    | apply adds_modify; reflexivity
    | apply adds_bind; [|intros ?]
    | apply adds_if
    | case_match ].

Section rounds.
Context `{Client.Os}.

Lemma adds_connect_loop fuel : adds (Client.connect_loop fuel).
Proof. induction fuel; cbn [Client.connect_loop]; adding. Qed.

Lemma adds_connect_tcp fuel : adds (Client.connect_tcp fuel).
Proof. unfold Client.connect_tcp. pose proof (adds_connect_loop fuel). adding. Qed.

Lemma adds_reconnect fuel : adds (Client.reconnect fuel).
Proof.
  unfold Client.reconnect, Client.ssystem. apply adds_bind; [|intros []; adding].
  generalize fuel at 1. intros tries. pose proof (adds_connect_tcp fuel).
  induction tries; cbn [Client.reconnect_loop]; adding.
Qed.

Lemma adds_main_round fuel r : adds (Client.main_round fuel r).
Proof.
  unfold Client.main_round, Client.FD_SET, Client.handle_tcp, Client.handle_tun, Client.send_packet.
  pose proof (adds_reconnect fuel). adding.
Qed.
End rounds.

(** ** The server's half *)

Section server.
Context `{Os}.
Implicit Types s : server.

Lemma wp_close_logged fd s :
  inv s -> 0 <= fd < 512 ->
  wp (close_client fd) s (fun _ s' => inv s' /\ same_fds s s' /\ log s' = close fd :: log s)
    (fun _ => False).
Proof.
  intros Hs Hfd. eapply wp_mono; [apply (wp_and _ _ _ (fun _ s' => log s' = close fd :: log s) _
    (fun _ => False) (wp_close_client fd s Hs Hfd))| |by intros ? [_ ?]].
  - unfold close_client. apply wp_bind, wp_io_void, wp_bind, wp_gets, wp_bind, wp_lift.
    destruct (lookup_lt_is_Some_2 (prefixes s) (Z.to_nat fd)) as [p Hp].
    { rewrite (proj1 (inv_table s Hs)). lia. }
    exists p. split; [done|]. apply wp_bind, wp_lift. eexists.
    split; [apply store_at_ok; by eapply lookup_lt_Some|]. by apply wp_modify.
  - by intros _ s' [(? & ? & _) ?].
Qed.

(** Reading a connection, up to its end perhaps. *)
Lemma wp_read_session efd fd chunks last s :
  assignments_readable -> inv s -> Forall (fun c => length c <= 4096)%nat chunks ->
  fd <> tun_file s -> fd <> sfd s -> 0 <= fd < 512 -> connected (log s) fd = true ->
  wp (handle_event efd (EpollEvent false false true fd [] chunks last)) s
    (fun _ s' => inv s' /\ same_fds s s' /\
      (forall g, heard (tun_file s) g (log s') =
         heard (tun_file s) g (log s) ++ (if fd =? g then chunks else [])) /\
      (forall g, g <> tun_file s -> downloaded g (log s') = downloaded g (log s)) /\
      (forall g, connected (log s') g =
         match last with Drained => true | _ => negb (fd =? g) end && connected (log s) g))
    (fun _ => False).
Proof.
  intros Hfile Hs Hc Hft Hfs Hfd Hconn. unfold handle_event. apply wp_bind, wp_gets.
  cbn [epollerr epollhup epollin data_fd reads reads_end orb negb].
  rewrite (proj2 (Z.eqb_neq _ _)) by done. apply wp_bind.
  eapply wp_mono; [exact (wp_and _ _ _ _ _ _
    (wp_read_loop fd chunks last s Hfile Hs Hc ltac:(intros _; split; [lia|done]))
    (TunnelLink.wp_read_client fd chunks last s Hs Hc Hft ltac:(lia) Hconn))| |by intros ? [_ ?]].
  intros r s1 [[(Hs1 & Hsame & Hc1) ->] Elog].
  assert (forall g, heard (tun_file s) g (log s1) =
    heard (tun_file s) g (log s) ++ (if fd =? g then chunks else [])) as Hh.
  { intros g. rewrite Elog. apply TunnelLink.heard_relayed. }
  assert (forall g, g <> tun_file s -> downloaded g (log s1) = downloaded g (log s)) as Hdl.
  { intros g Hg. rewrite Elog. by apply TunnelLink.downloaded_relayed. }
  destruct last.
  1,2: eapply wp_mono; [by apply wp_close_logged| |done]; intros _ s2 (Hs2 & Hsame2 & Elog2);
    split_and!; [done| |intros g; by rewrite Elog2; cbn [heard]|
      intros g Hg; rewrite Elog2; cbn [downloaded]; rewrite app_nil_r; by apply Hdl|
      intros g; rewrite Elog2; cbn [connected]; rewrite Hc1; by destruct (fd =? g)];
    unfold same_fds in *; destruct Hsame as (<- & <- & <- & <-); exact Hsame2.
  apply wp_ret. split_and!; [done..|]. intros g. by rewrite Hc1.
Qed.

(** An error event is dropped. *)
Lemma error_event_dropped efd e s :
  epollerr e || epollhup e = true -> handle_event efd e s = Done tt s.
Proof. intros He. unfold handle_event. run_effects. by rewrite He. Qed.
End server.

(** ** The invariant *)

(** What travelled in one session: all of it while the connection is alive, and
    the beginning of it if it has broken. *)
Record streams_ok (sent : list Z) (shown : list (list Z)) (s : session) : Prop := StreamsOk {
  so_up : concat (got s) ++ up s `prefix_of` sent;
  so_up_alive : alive s = true -> concat (got s) ++ up s = sent;
  so_down : concat shown ++ down s `prefix_of` replied s;
  so_down_alive : alive s = true -> concat shown ++ down s = replied s;
}.

(** The descriptor of a session at the server. *)
Definition serves (s : server) (fd : Z) : Prop :=
  0 <= fd < 512 /\ fd <> tun_file s /\ fd <> sfd s /\ connected (log s) fd = true.

Section net.
Context (cos : nat -> Client.Os) `{Os} (efd : Z) (fuel : nat).

Abbreviation sent_at i g := (sent_in (H:=cos i) (Client.log (box g))).
Abbreviation shown_at i g := (shown_in (H:=cos i) (Client.log (box g))).

Record gateway_ok (i : nat) (g : gateway) (s : server) : Prop := GatewayOk {
  go_running : Client.killed (H:=cos i) (box g) = false -> Client.running (H:=cos i) (box g);
  go_sent : length (sent_at i g) = length (sessions g);
  go_shown : length (shown_at i g) = length (sessions g);
  go_some : sessions g <> [];
  go_older k x : sessions g !! k = Some x -> (S k < length (sessions g))%nat -> alive x = false;
  go_streams k x : sessions g !! k = Some x ->
    streams_ok (default [] (sent_at i g !! k)) (default [] (shown_at i g !! k)) x;
  go_serves k x fd : sessions g !! k = Some x -> peer x = Served fd -> serves s fd;
  go_whole : whole (H:=cos i) (Client.log (box g));
  go_paired : paired (H:=cos i) (box g);
}.

Definition distinct (n : net) : Prop :=
  forall i j k l x y fd, session_of n i k = Some x -> session_of n j l = Some y ->
    peer x = Served fd -> peer y = Served fd -> i = j /\ k = l.

Record net_ok (n : net) : Prop := NetOk {
  ok_inv : inv (srv n);
  ok_listener : tun_file (srv n) <> sfd (srv n);
  ok_tun : connected (log (srv n)) (tun_file (srv n)) = false;
  ok_gateways i g : gateways n !! i = Some g -> gateway_ok i g (srv n);
  ok_distinct : distinct n;
}.

(** *** Updates of the sessions *)

(** Every session [l] of gateway [j] is updated by [h j l]; the clients rest. *)
Definition updates (h : nat -> nat -> session -> session) (n n' : net) : Prop :=
  length (gateways n') = length (gateways n) /\
  forall j g, gateways n !! j = Some g -> exists g', gateways n' !! j = Some g' /\
    box g' = box g /\ length (sessions g') = length (sessions g) /\
    forall l, sessions g' !! l = h j l <$> sessions g !! l.

Lemma updates_trans h h' n1 n2 n3 :
  updates h n1 n2 -> updates h' n2 n3 -> updates (fun j l s => h' j l (h j l s)) n1 n3.
Proof.
  intros [E1 H1] [E2 H2]. split; [congruence|]. intros j g Hj.
  destruct (H1 j g Hj) as (g1 & Hg1 & Eb1 & El1 & Hs1).
  destruct (H2 j g1 Hg1) as (g2 & Hg2 & Eb2 & El2 & Hs2).
  exists g2. split_and!; [done|congruence..|]. intros l. rewrite Hs2, Hs1. by destruct (sessions g !! l).
Qed.

Definition at_session (i k : nat) (f : session -> session) (j l : nat) : session -> session :=
  if decide (j = i /\ l = k) then f else id.

Lemma updates_alter i k f n : updates (at_session i k f) n (alter_session i k f n).
Proof.
  split; [apply length_alter|]. intros j g Hj. cbn [gateways alter_session].
  destruct (decide (j = i)) as [->|Hne].
  - rewrite list_lookup_alter_eq, Hj. eexists. split; [done|]. cbn [box sessions].
    split; [done|]. split; [apply length_alter|]. intros l. unfold at_session.
    destruct (decide (l = k)) as [->|].
    + rewrite list_lookup_alter_eq. by rewrite decide_True.
    + rewrite list_lookup_alter_ne, decide_False by (done || by intros []).
      by destruct (sessions g !! l).
  - rewrite list_lookup_alter_ne, Hj by done. exists g. split_and!; [done..|]. intros l.
    unfold at_session. rewrite decide_False by (by intros []). by destruct (sessions g !! l).
Qed.

Lemma updates_carry tun l' s' n :
  updates (fun _ _ => carry_session tun (log (srv n)) l') n
    (Net s' (carry tun (log (srv n)) l' <$> gateways n)).
Proof.
  split; [apply length_fmap|]. intros j g Hj. cbn [gateways]. rewrite list_lookup_fmap, Hj.
  eexists. split; [done|]. cbn [carry box sessions]. split; [done|]. split; [apply length_fmap|].
  intros l. apply list_lookup_fmap.
Qed.

Lemma updates_session h n n' j l :
  updates h n n' -> session_of n' j l = h j l <$> session_of n j l.
Proof.
  intros [E Hu]. unfold session_of. destruct (gateways n !! j) as [g|] eqn:Hj.
  - destruct (Hu j g Hj) as (g' & -> & _ & _ & Hs). apply Hs.
  - apply lookup_ge_None in Hj. rewrite <-E in Hj. by rewrite (lookup_ge_None_2 _ _ Hj).
Qed.

Lemma net_ok_updates h n n' :
  net_ok n -> updates h n n' -> inv (srv n') -> same_fds (srv n) (srv n') ->
  connected (log (srv n')) (tun_file (srv n')) = false ->
  (forall j l x, session_of n j l = Some x ->
    (alive (h j l x) = true -> alive x = true) /\
    (forall sent shown, streams_ok sent shown x -> streams_ok sent shown (h j l x)) /\
    (forall fd, peer (h j l x) = Served fd -> serves (srv n') fd)) ->
  distinct n' -> net_ok n'.
Proof.
  intros Hn Hu Hinv (Esfd & Etun & _) Htun Hh Hd. split; [done| |done| |done].
  { rewrite Esfd, Etun. apply Hn. }
  intros j g' Hj'. pose proof (lookup_lt_Some _ _ _ Hj') as Hlt. rewrite (proj1 Hu) in Hlt.
  apply lookup_lt_is_Some_2 in Hlt as [g Hj]. destruct (proj2 Hu j g Hj) as (g2 & Hj2 & Eb & El & Hs).
  rewrite Hj' in Hj2. injection Hj2 as <-. destruct (ok_gateways n Hn j g Hj) as [Hrun Hsent Hshown Hne Hold Hst Hsv Hwhole Hpaired].
  assert (forall l x', sessions g' !! l = Some x' -> exists x, x' = h j l x /\ sessions g !! l = Some x /\
    session_of n j l = Some x) as Hback.
  { intros l x'. rewrite Hs, fmap_Some. intros (x & Hx & ->). exists x. split_and!; [done..|].
    unfold session_of. by rewrite Hj. }
  split; rewrite ?Eb, ?El; try done.
  - intros E. rewrite E in El. by destruct (sessions g).
  - intros l x' (x & -> & Hx & Hxs)%Hback Hl. apply not_true_iff_false. intros Ha.
    apply (proj1 (Hh j l x Hxs)) in Ha. by rewrite (Hold l x Hx Hl) in Ha.
  - intros l x' (x & -> & Hx & Hxs)%Hback. by apply (Hh j l x Hxs), Hst.
  - intros l x' fd (x & -> & Hx & Hxs)%Hback. apply (Hh j l x Hxs).
Qed.

Lemma distinct_updates h n n' :
  distinct n -> updates h n n' ->
  (forall j l x fd, session_of n j l = Some x -> peer (h j l x) = Served fd -> peer x = Served fd) ->
  distinct n'.
Proof.
  intros Hd Hu Hh i j k l x' y' fd. rewrite !(updates_session _ _ _ _ _ Hu), !fmap_Some.
  intros (x & Hx & ->) (y & Hy & ->) Ex Ey. eapply Hd; eauto.
Qed.

(** What the server did with a session is carried over. *)
Lemma peer_carry tun l l' x : peer (carry_session tun l l' x) = peer x.
Proof. unfold carry_session. by destruct (peer x) eqn:E. Qed.
Lemma alive_carry tun l l' x : alive (carry_session tun l l' x) = alive x.
Proof. unfold carry_session. by destruct (peer x) eqn:E. Qed.

Lemma streams_carry_quiet sent shown tun l l' x :
  streams_ok sent shown x ->
  (forall fd, peer x = Served fd -> heard tun fd l' = heard tun fd l) ->
  streams_ok sent shown (carry_session tun l l' x).
Proof.
  intros [Hup Hupa Hdown Hdowna] Hh. unfold carry_session.
  destruct (peer x) as [|fd|] eqn:Ep; [by split| |by split].
  rewrite (Hh fd eq_refl), drop_all, app_nil_r.
  split; cbn [got up alive down replied]; try done.
  - destruct (alive x); [by rewrite app_assoc, Hdowna|by apply prefix_app_r].
  - intros Ha. rewrite Ha, app_assoc. by rewrite Hdowna.
Qed.

Lemma carry_session_same tun l l' x :
  (forall fd, peer x = Served fd -> heard tun fd l' = heard tun fd l /\ downloaded fd l' = downloaded fd l) ->
  carry_session tun l l' x = x.
Proof.
  intros Hx. unfold carry_session. destruct (peer x) as [|fd|] eqn:Ep; [done| |done].
  destruct (Hx fd eq_refl) as [-> ->]. rewrite !drop_all, !app_nil_r.
  destruct x; simpl in *; subst. by case_match.
Qed.

Lemma updates_ext h h' n n' :
  (forall j l x, session_of n j l = Some x -> h j l x = h' j l x) -> updates h n n' -> updates h' n n'.
Proof.
  intros Hh [E Hu]. split; [done|]. intros j g Hj. destruct (Hu j g Hj) as (g' & Hj' & Eb & El & Hs).
  exists g'. split_and!; [done..|]. intros l. rewrite Hs. destruct (sessions g !! l) as [x|] eqn:Hx; [|done].
  simpl. f_equal. apply Hh. unfold session_of. by rewrite Hj.
Qed.

(** *** The steps *)

Lemma wp_with_session i k (m : session -> M net Client.status) n Q R :
  match session_of n i k with Some x => wp (m x) n Q R | None => Q Client.Continue n end ->
  wp (with_session i k m) n Q R.
Proof. intros HQ. apply wp_bind, wp_gets. by destruct (session_of n i k). Qed.

Lemma wp_at_server {A} (m : M server A) n (Q : A -> net -> Prop) R :
  wp m (srv n) (fun a s' => Q a (Net s' (carry (tun_file s') (log (srv n)) (log s') <$> gateways n)))
    (fun s' => R (Net s' (gateways n))) ->
  wp (on_server m) n Q R.
Proof. unfold wp, on_server. by destruct (m (srv n)). Qed.

Lemma session_gateway n i k x :
  session_of n i k = Some x -> exists g, gateways n !! i = Some g /\ sessions g !! k = Some x.
Proof. unfold session_of. destruct (gateways n !! i) as [g|]; [|done]. by exists g. Qed.

Lemma session_serves n i k x fd :
  net_ok n -> session_of n i k = Some x -> peer x = Served fd -> serves (srv n) fd.
Proof.
  intros Hn (g & Hi & Hx)%session_gateway Hp. by eapply (go_serves _ _ _ (ok_gateways n Hn i g Hi)).
Qed.

(** The client of gateway [i] was killed. *)
Definition dead (i : nat) (n : net) : Prop :=
  exists g, gateways n !! i = Some g /\ Client.killed (H:=cos i) (box g) = true.

(** The answer to a step: only a killed client stops. *)
Definition answer (o : op) (st : Client.status) (n' : net) : Prop :=
  st = Client.Continue \/ match o with Shuttle i _ _ _ => st = Client.Stop /\ dead i n' | _ => False end.

(** What every step keeps. *)
Definition kept (o : op) (n : net) (st : Client.status) (n' : net) : Prop :=
  answer o st n' /\ net_ok n' /\ length (gateways n') = length (gateways n) /\ forall j, dead j n -> dead j n'.

Lemma kept_same o n : net_ok n -> kept o n Client.Continue n.
Proof. intros Hn. split; [by left|done]. Qed.

Lemma kept_updates o h n n' : net_ok n' -> updates h n n' -> kept o n Client.Continue n'.
Proof.
  intros Hn' [El Hu]. split; [by left|]. split_and!; [done..|]. intros j (g & Hg & Hk).
  destruct (Hu j g Hg) as (g' & Hg' & Eb & _). exists g'. by rewrite Eb.
Qed.

#[local] Hint Resolve kept_same : core.

Lemma step_break i k m1 m2 n :
  net_ok n -> wp (net_step cos efd fuel (Break i k m1 m2)) n (kept (Break i k m1 m2) n) (fun _ => False).
Proof.
  intros Hn. cbn [net_step]. apply wp_bind, wp_modify, wp_ret.
  set (f := fun x => Session _ _ _ _ _ _). pose proof (updates_alter i k f n) as Hu.
  eapply kept_updates; [|exact Hu]. eapply net_ok_updates; [done|exact Hu|apply Hn|done|apply Hn| |].
  - intros j l x Hx. unfold at_session. case_decide; [|].
    2:{ split_and!; [done..|]. intros fd. exact (session_serves n j l x fd Hn Hx). }
    split_and!; [done| |].
    + intros sent shown [Hup _ Hdown _]. split; try done; cbn [f got up down replied].
      * etrans; [|exact Hup]. apply prefix_app, prefix_take.
      * etrans; [|exact Hdown]. apply prefix_app, prefix_take.
    + intros fd. exact (session_serves n j l x fd Hn Hx).
  - eapply distinct_updates; [apply Hn|exact Hu|]. intros j l x fd _. unfold at_session.
    by case_decide.
Qed.

(** A server step that concerns no session in particular. *)
Lemma carry_ok s' n :
  net_ok n -> inv s' -> same_fds (srv n) s' ->
  (forall fd, fd <> tun_file s' -> heard (tun_file s') fd (log s') = heard (tun_file s') fd (log (srv n))) ->
  (forall fd, connected (log (srv n)) fd = true -> connected (log s') fd = true) ->
  connected (log s') (tun_file s') = false ->
  net_ok (Net s' (carry (tun_file s') (log (srv n)) (log s') <$> gateways n)).
Proof.
  intros Hn Hinv Hsame Hh Hc Htun. pose proof (updates_carry (tun_file s') (log s') s' n) as Hu.
  pose proof Hsame as (Esfd & Etun & _).
  eapply net_ok_updates; [done|exact Hu|done..| |].
  - intros j l x Hx. cbv beta. rewrite alive_carry. split_and!; [done| |].
    + intros sent shown Hs. apply streams_carry_quiet; [done|]. intros fd Hfd. apply Hh.
      rewrite Etun. by apply (session_serves n j l x fd Hn Hx Hfd).
    + intros fd. rewrite peer_carry. intros Hfd.
      destruct (session_serves n j l x fd Hn Hx Hfd) as (? & ? & ? & ?).
      unfold serves. cbn [srv]. rewrite Etun, Esfd. auto.
  - eapply distinct_updates; [apply Hn|exact Hu|]. intros j l x fd _. cbv beta. by rewrite peer_carry.
Qed.

Lemma step_internet packets n :
  assignments_readable -> net_ok n -> Forall (fun p => length p <= 4096)%nat packets ->
  wp (net_step cos efd fuel (FromInternet packets)) n (kept (FromInternet packets) n)
    (fun n' => exited (srv n')).
Proof.
  intros Hfile Hn Hp. pose proof Hn as [Hinv Hl Htun _ _]. cbn [net_step].
  apply wp_bind, wp_gets, wp_bind, wp_at_server.
  apply (TunnelLink.wp_readable _ _ _ _ _ _ ltac:(done)). eapply wp_mono; [exact (wp_and _ _ _ _ _ _
    (wp_read_loop (tun_file (srv n)) packets Drained _ Hfile Hinv Hp ltac:(done))
    (TunnelLink.wp_read_tun packets _ Hfile Hinv Hp Htun))| |by intros ? [? _]].
  intros r s' [[(Hinv' & Hsame & Hconn) ->] Hext]. split; [done|]. apply wp_ret.
  pose proof Hsame as (_ & Etun & _). eapply kept_updates; [|apply updates_carry].
  apply carry_ok; try done.
  - intros fd _. rewrite Etun. by apply TunnelLink.heard_extends.
  - intros fd. by rewrite Hconn.
  - by rewrite Etun, Hconn.
Qed.

Lemma step_error i k err hup n :
  net_ok n ->
  wp (net_step cos efd fuel (ErrorEvent i k err hup)) n
    (fun st n' => kept (ErrorEvent i k err hup) n st n' /\ srv n' = srv n /\
       forall j l, session_of n' j l = session_of n j l)
    (fun _ => False).
Proof.
  intros Hn. cbn [net_step]. apply wp_with_session. destruct (session_of n i k) as [x|]; [|by auto].
  destruct (peer x) as [|fd|]; try by apply wp_ret; auto. destruct (err || hup) eqn:Ee; [|by apply wp_ret; auto].
  apply wp_bind, wp_at_server. unfold wp. rewrite error_event_dropped by done. apply wp_ret.
  pose proof (updates_carry (tun_file (srv n)) (log (srv n)) (srv n) n) as Hu. split_and!; try done.
  - eapply kept_updates; [|exact Hu]. apply carry_ok; try done; apply Hn.
  - intros j l. rewrite (updates_session _ _ _ _ _ Hu). destruct (session_of n j l); [|done]. simpl.
    by rewrite carry_session_same.
Qed.

Lemma at_session_eq i k f : at_session i k f i k = f.
Proof. unfold at_session. by rewrite decide_True. Qed.

(** The server accepts a session. *)
Lemma step_accept i k fd n :
  net_ok n ->
  wp (net_step cos efd fuel (Accept i k fd)) n
    (fun st n' => kept (Accept i k fd) n st n' /\ forall x, session_of n i k = Some x -> peer x = Pending ->
       unused fd (srv n) = true -> updates (at_session i k (set_peer (Served fd))) n n')
    (fun n' => exited (srv n')).
Proof.
  intros Hn. pose proof Hn as [Hinv Hl Htun _ _]. cbn [net_step]. apply wp_with_session.
  destruct (session_of n i k) as [x|] eqn:Hx; [|by split; [auto|]]. apply wp_bind, wp_gets.
  destruct (peer x) as [|?|] eqn:Ep; [|apply wp_ret; split; [by auto|]; intros y [= <-]; congruence..].
  destruct (unused fd (srv n)) eqn:Eu; [|by apply wp_ret; split; [auto|intros; congruence]]. unfold unused in Eu.
  apply andb_true_iff in Eu as [(Hfd & Hft & Hfs)%bool_decide_eq_true Hfc%negb_true_iff].
  apply wp_bind, wp_at_server.
  assert (wp (handle_event efd (EpollEvent false false true (sfd (srv n)) [fd] [] Drained)) (srv n)
    (fun _ s' => inv s' /\ same_fds (srv n) s') exited) as Hkeep.
  { unfold handle_event. apply wp_bind, wp_gets. cbn [epollerr epollhup epollin data_fd orb negb].
    rewrite Z.eqb_refl. by apply wp_accept_loop. }
  eapply wp_mono; [exact (wp_and _ _ _ _ _ _ Hkeep (TunnelLink.wp_accept efd fd (srv n)))| |by intros ? [? _]].
  intros _ s' [[Hinv' Hsame] Hneutral]. pose proof Hsame as (Esfd & Etun & _).
  pose proof (TunnelLink.extends_impl _ (quiet (tun_file (srv n))) _ _ (TunnelLink.neutral_quiet _) Hneutral) as Hext.
  assert (forall f, connected (log s') f = if fd =? f then true else connected (log (srv n)) f) as Hconn.
  { intros f. by rewrite (TunnelLink.connected_extends _ _ _ _ Hext). }
  assert (forall f, heard (tun_file s') f (log s') = heard (tun_file s') f (log (srv n))) as Hh.
  { intros f. by rewrite Etun, (TunnelLink.heard_extends _ _ _ _ Hext). }
  assert (forall f, downloaded f (log s') = downloaded f (log (srv n))) as Hdl.
  { intros f. rewrite (TunnelLink.downloaded_neutral _ _ _ Hneutral). cbn [downloaded]. by rewrite app_nil_r. }
  pose proof (updates_trans _ _ _ _ _ (updates_carry (tun_file s') (log s') s' n)
    (updates_alter i k (set_peer (Served fd)) _)) as Hu.
  apply (updates_ext _ (at_session i k (set_peer (Served fd)))) in Hu.
  2:{ intros j l y _. rewrite carry_session_same; [done|]. intros f _. by rewrite Hh, Hdl. }
  apply wp_bind, wp_modify, wp_ret. set (n' := alter_session _ _ _ _) in *.
  split; [|by intros]. eapply kept_updates; [|exact Hu]. eapply net_ok_updates; [done|exact Hu|done..| | |].
  - cbn [srv n' alter_session]. rewrite Etun, Hconn. by rewrite (proj2 (Z.eqb_neq _ _)).
  - assert (forall j l y f, session_of n j l = Some y -> peer y = Served f -> serves s' f) as Hsv.
    { intros j l y f Hy Hp. destruct (session_serves n j l y f Hn Hy Hp) as (? & ? & ? & Hc).
      unfold serves. rewrite Etun, Esfd, Hconn, Hc. by destruct (fd =? f). }
    intros j l y Hy. unfold at_session. case_decide; [|by split_and!; eauto].
    split_and!; [done|by intros sent shown []|]. intros f [= <-].
    unfold serves. cbn [srv n' alter_session]. by rewrite Etun, Esfd, Hconn, Z.eqb_refl.
  - intros j1 j2 l1 l2 y1 y2 f. rewrite !(updates_session _ _ _ _ _ Hu), !fmap_Some.
    intros (z1 & Hz1 & ->) (z2 & Hz2 & ->). unfold at_session.
    assert (forall j l y, session_of n j l = Some y -> peer y <> Served fd) as Hno.
    { intros j l y Hy Hp. destruct (session_serves n j l y fd Hn Hy Hp) as (_ & _ & _ & Hc). congruence. }
    case_decide as E1; case_decide as E2; cbn [peer set_peer id].
    + destruct E1, E2. by subst.
    + intros [= <-] Hp. by destruct (Hno _ _ _ Hz2).
    + intros Hp [= <-]. by destruct (Hno _ _ _ Hz1).
    + by apply (ok_distinct n Hn j1 j2 l1 l2 z1 z2).
Qed.

(** The server reads a session, up to its end perhaps. *)
Definition read_up (chunks : list (list Z)) (rest : list Z) (last : read_end) (x : session) : session :=
  Session (match last with Drained => peer x | _ => Closed end) (alive x) rest (down x)
    (got x ++ chunks) (replied x).

(** The end is reported once the connection has broken and nothing is left to read. *)
Definition reported (x : session) (rest : list Z) (last : read_end) : read_end :=
  if alive x || bool_decide (rest <> []) then Drained else last.

Lemma streams_read_up sent shown chunks rest last x :
  streams_ok sent shown x -> concat chunks ++ rest = up x ->
  streams_ok sent shown (read_up chunks rest last x).
Proof.
  intros [Hup Hupa Hdown Hdowna] Hrest.
  split; cbn [read_up got up alive down replied]; rewrite ?concat_app, <-?app_assoc, ?Hrest; done.
Qed.

(** The steps of [ToServer], seen from the sessions. *)
Lemma read_up_updates i k x fd chunks rest last s' n n' :
  session_of n i k = Some x -> peer x = Served fd -> net_ok n -> same_fds (srv n) s' ->
  (forall g, heard (tun_file (srv n)) g (log s') =
     heard (tun_file (srv n)) g (log (srv n)) ++ (if fd =? g then chunks else [])) ->
  (forall g, g <> tun_file (srv n) -> downloaded g (log s') = downloaded g (log (srv n))) ->
  updates (fun j l y => match last with Drained => y | _ => at_session i k (set_peer Closed) j l y end)
    (Net s' (carry (tun_file s') (log (srv n)) (log s') <$> gateways (alter_session i k (set_up rest) n))) n' ->
  updates (at_session i k (read_up chunks rest last)) n n'.
Proof.
  intros Hx Hp Hn (_ & Etun & _) Hh Hd Hu3.
  pose proof (updates_trans _ _ _ _ _ (updates_trans _ _ _ _ _ (updates_alter i k (set_up rest) n)
    (updates_carry (tun_file s') (log s') s' (alter_session i k (set_up rest) n))) Hu3) as Hu.
  eapply updates_ext; [|exact Hu]. intros j l y Hy. cbv beta. cbn [srv alter_session].
  unfold at_session. destruct (decide (j = i /\ l = k)) as [[-> ->]|Hne].
  - rewrite Hx in Hy. injection Hy as <-. unfold carry_session, read_up. cbn [peer set_up].
    rewrite Hp, Etun, Hh, Hd, Z.eqb_refl, drop_app_length, drop_all, !app_nil_r
      by by apply (session_serves n i k x fd).
    cbn [alive up down got replied set_up]. destruct last; cbn [set_peer alive up down got replied peer];
      by case_match.
  - cbn [id]. rewrite carry_session_same; [by destruct last|]. intros g Hg.
    rewrite Etun, Hh, Hd by by apply (session_serves n j l y g). split; [|done].
    rewrite (proj2 (Z.eqb_neq _ _)), app_nil_r; [done|]. intros ->. apply Hne.
    destruct (ok_distinct n Hn j i l k y x g) as [-> ->]; done.
Qed.

Lemma step_to_server i k sizes last n :
  assignments_readable -> net_ok n ->
  wp (net_step cos efd fuel (ToServer i k sizes last)) n
    (fun st n' => kept (ToServer i k sizes last) n st n' /\ forall x fd, session_of n i k = Some x -> peer x = Served fd ->
       updates (at_session i k (read_up (cut sizes (up x)).1 (cut sizes (up x)).2
         (reported x (cut sizes (up x)).2 last))) n n' /\
       same_fds (srv n) (srv n') /\
       forall g, connected (log (srv n)) g = false -> connected (log (srv n')) g = false)
    (fun _ => False).
Proof.
  intros Hfile Hn. pose proof Hn as [Hinv Hl Htun _ _]. cbn [net_step]. apply wp_with_session.
  destruct (session_of n i k) as [x|] eqn:Hx; [|by split; [auto|]].
  destruct (peer x) as [|fd|] eqn:Ep; [apply wp_ret; split; [by auto|]; intros y f [= <-]; congruence| |
    apply wp_ret; split; [by auto|]; intros y f [= <-]; congruence].
  pose proof (TunnelLink.cut_spec sizes (up x)) as [Ecut Hcut].
  destruct (cut sizes (up x)) as [chunks rest] eqn:Ec. cbn [fst snd] in *. fold (reported x rest last).
  set (e := reported x rest last).
  destruct (session_serves n i k x fd Hn Hx Ep) as (Hfd & Hft & Hfs & Hfc).
  apply wp_bind, wp_modify, wp_bind, wp_at_server. cbn [srv alter_session].
  eapply wp_mono; [apply (wp_read_session efd fd chunks e (srv n)); try done| |done].
  { eapply Forall_impl; [exact Hcut|]. by intros c [? ?]. }
  intros _ s' (Hinv' & Hsame & Hh & Hdl & Hconn). pose proof Hsame as (Esfd & Etun & _).
  set (n2 := Net s' _). set (n' := match e with Drained => n2 | _ => alter_session i k (set_peer Closed) n2 end).
  assert (updates (at_session i k (read_up chunks rest e)) n n') as Hu.
  { apply (read_up_updates i k x fd _ _ _ s'); try done. fold n2.
    destruct e; [apply (updates_alter i k)..|]. split; [done|]. intros j g Hj. exists g. split_and!; [done..|].
    intros l. by destruct (sessions g !! l). }
  assert (srv n' = s') as Esrv by by unfold n'; destruct e.
  apply wp_bind. assert (wp (match e with Drained => mret () | _ => modify (alter_session i k (set_peer Closed)) end)
    n2 (fun _ n3 => n3 = n') (fun _ => False)) as Hlast by by unfold n'; destruct e.
  eapply wp_mono; [exact Hlast| |done]. intros _ n3 ->. apply wp_ret.
  split; [eapply kept_updates; [|exact Hu]|].
  2:{ intros y f [= <-] Hf. rewrite Ep in Hf. split; [by rewrite Ec|].
      split; [by rewrite Esrv|]. intros g Hg. rewrite Esrv, Hconn, Hg. by destruct e; cbn [andb]; rewrite ?andb_false_r. }
  eapply net_ok_updates; [done|exact Hu|by rewrite Esrv|by rewrite Esrv| | |].
  - rewrite Esrv, Etun, Hconn, Htun. by destruct e; cbn [andb]; rewrite ?andb_false_r.
  - intros j l y Hy. unfold at_session. destruct (decide (j = i /\ l = k)) as [[-> ->]|Hne].
    + rewrite Hx in Hy. injection Hy as <-. split_and!; [done| |].
      * intros sent shown Hs. by apply streams_read_up.
      * intros f. cbn [read_up peer]. unfold serves. rewrite Esrv, Etun, Esfd, Hconn, Ep.
        destruct e; [done..|]. intros [= <-]. by rewrite Hfc.
    + split_and!; [done..|]. cbn [id]. intros f Hf.
      destruct (session_serves n j l y f Hn Hy Hf) as (? & ? & ? & Hc).
      unfold serves. rewrite Esrv, Etun, Esfd, Hconn, Hc. split_and!; try done; try lia.
      rewrite (proj2 (Z.eqb_neq fd f)); [by destruct e|]. intros ->. apply Hne.
      by apply (ok_distinct n Hn j i l k y x f).
  - eapply distinct_updates; [apply Hn|exact Hu|]. intros j l y f Hy. unfold at_session.
    case_decide; [|done]. cbn [read_up peer]. by destruct e.
Qed.

(** A round of a client's loop. *)
Definition extended (before after : list (list Z)) (k : nat) (x : session) : session :=
  set_alive (alive x && (S k =? length after)%nat)
    (if alive x then set_up (up x ++ drop (length (default [] (before !! k))) (default [] (after !! k))) x else x).

Lemma lookup_extend before after ss k :
  (length ss <= length after)%nat ->
  extend before after ss !! k =
    match ss !! k with
    | Some x => Some (extended before after k x)
    | None => fresh (S k =? length after)%nat <$> after !! k
    end.
Proof.
  intros Hlen. unfold extend. rewrite list_lookup_imap. destruct (ss !! k) as [x|] eqn:Hk.
  - apply lookup_lt_Some in Hk. destruct (lookup_lt_is_Some_2 after k) as [y Hy]; [lia|].
    unfold extended. by rewrite Hy.
  - by destruct (after !! k).
Qed.

Lemma streams_extended before after k x y z shown :
  before !! k = Some y -> after !! k = Some (y ++ z) ->
  streams_ok y shown x -> streams_ok (y ++ z) shown (extended before after k x).
Proof.
  intros Hy Hz [Hup Hupa Hdown Hdowna]. unfold extended. rewrite Hy, Hz. cbn [default from_option id].
  rewrite drop_app_length. destruct (alive x) eqn:Ea.
  - split; cbn [set_alive set_up got up alive down replied]; try done.
    + rewrite app_assoc, Hupa by done. done.
    + intros _. by rewrite app_assoc, Hupa.
    + intros _. by apply Hdowna.
  - split; cbn [set_alive got up alive down replied]; try done. by apply prefix_app_r.
Qed.

(** The client takes [chunk] from its current session. *)
Lemma streams_chunk sent shown chunk rest x :
  streams_ok sent shown x -> chunk ++ rest = down x ->
  streams_ok sent (shown ++ piece chunk) (set_down rest x).
Proof.
  intros [Hup Hupa Hdown Hdowna] Hrest.
  split; cbn [set_down got up alive down replied]; try done;
    rewrite concat_app, TunnelLink.concat_piece, <-app_assoc, Hrest; done.
Qed.

Lemma gateway_ok_round i g b chunk rest over p s x :
  gateway_ok i g s -> sessions g !! pred (length (sessions g)) = Some x -> chunk ++ rest = down x ->
  stable (H:=cos i) (box g) b -> whole (H:=cos i) (Client.log b) ->
  passed (H:=cos i) chunk over p (Client.log (box g)) (Client.log b) ->
  gateway_ok i (Gateway b (extend (sent_at i g) (sent_in (H:=cos i) (Client.log b))
    (alter (set_down rest) (pred (length (sessions g))) (sessions g)))) s.
Proof.
  intros [Hrun Hsent Hshown Hne Hold Hst Hsv Hwhole Hpaired] Hx Hrest (Hb & Hpair & _) Hwhole' Hpass.
  set (k := pred (length (sessions g))) in *. set (ss := alter (set_down rest) k (sessions g)).
  destruct (passed_length (H:=cos i) _ _ _ _ _ Hpass ltac:(congruence)) as [Elen Hle].
  assert (length ss = length (sessions g)) as Ess by apply length_alter.
  pose proof (fun l => lookup_extend (sent_at i g) (sent_in (H:=cos i) (Client.log b)) ss l ltac:(lia)) as Hext.
  assert (forall l y, ss !! l = Some y -> exists y0, sessions g !! l = Some y0 /\ peer y = peer y0 /\
    streams_ok (default [] (sent_at i g !! l)) (default [] (shown_in (H:=cos i) (Client.log b) !! l)) y) as Hss.
  { intros l y Hy. pose proof (lookup_lt_Some _ _ _ Hy) as Hlt. rewrite Ess in Hlt.
    rewrite (passed_shown (H:=cos i) _ _ _ _ _ l Hpass) by lia. rewrite Hshown. unfold ss in Hy.
    destruct (decide (l = k)) as [->|Hlk].
    - rewrite list_lookup_alter_eq, Hx in Hy. injection Hy as <-. exists x. split_and!; [done..|].
      rewrite (proj2 (Nat.eqb_eq _ _)) by (unfold k in *; lia). by apply streams_chunk; [apply Hst|].
    - rewrite list_lookup_alter_ne in Hy by done. exists y. split_and!; [done..|].
      rewrite (proj2 (Nat.eqb_neq _ _)) by (unfold k in *; lia). rewrite app_nil_r. by apply Hst. }
  split; cbn [box sessions].
  - done.
  - unfold extend. by rewrite length_imap.
  - unfold extend. rewrite length_imap. congruence.
  - unfold extend. intros E%(f_equal length). rewrite length_imap in E. simpl in E.
    destruct (sessions g); [done|simpl in *; lia].
  - intros l y. rewrite Hext. unfold extend. rewrite length_imap. intros Hy Hl.
    rewrite (proj2 (Nat.eqb_neq _ _)) in Hy by lia. destruct (ss !! l) as [z|].
    + injection Hy as <-. cbn [extended set_alive alive]. rewrite (proj2 (Nat.eqb_neq _ _)) by lia. apply andb_false_r.
    + apply fmap_Some in Hy as (bytes & _ & ->). done.
  - intros l y. rewrite Hext. destruct (ss !! l) as [z|] eqn:Hz.
    + intros [= <-]. destruct (Hss l z Hz) as (_ & _ & _ & Hstr). apply lookup_lt_Some in Hz.
      destruct (lookup_lt_is_Some_2 (sent_at i g) l) as [u Hu]; [lia|].
      destruct (passed_sent (H:=cos i) _ _ _ _ _ l u Hpass Hu) as [v Hv]. rewrite Hv. rewrite Hu in Hstr.
      by apply (streams_extended _ _ _ _ u).
    + intros (bytes & Hbytes & ->)%fmap_Some. rewrite Hbytes. apply lookup_ge_None in Hz.
      rewrite (passed_shown (H:=cos i) _ _ _ _ _ l Hpass) by (rewrite <-Elen; by eapply lookup_lt_Some).
      rewrite (lookup_ge_None_2 (shown_at i g)), (proj2 (Nat.eqb_neq _ _)) by lia. by split.
  - intros l y fd. rewrite Hext. destruct (ss !! l) as [z|] eqn:Hz.
    + intros [= <-] Hp. destruct (Hss l z Hz) as (z0 & Hz0 & Ep & _). apply (Hsv l z0); [done|].
      rewrite <-Ep. revert Hp. unfold extended. by destruct (alive z).
    + by intros (bytes & Hbytes & ->)%fmap_Some.
  - done.
  - by apply Hpair.
Qed.

(** A client whose connection has broken, and that has nothing to send, reads
    what is left of it and then reconnects. *)
Definition refreshed (chunk : list Z) (over : option bool) (rest : list Z) (ss : list session) : list session :=
  alter (set_down rest) (pred (length ss)) ss ++
  (if decide (chunk = [] /\ is_Some over) then [fresh true []] else []).

Lemma extend_broken i g b chunk rest over s x :
  gateway_ok i g s -> sessions g !! pred (length (sessions g)) = Some x -> alive x = false ->
  passed (H:=cos i) chunk over None (Client.log (box g)) (Client.log b) ->
  extend (sent_at i g) (sent_in (H:=cos i) (Client.log b))
    (alter (set_down rest) (pred (length (sessions g))) (sessions g)) = refreshed chunk over rest (sessions g).
Proof.
  intros [Hrun Hsent Hshown Hne Hold Hst Hsv Hwhole Hpaired] Hx Ha [_ (m1 & z & m2 & E & Em & Hidle)].
  destruct (Hidle eq_refl) as [-> ->]. rewrite add_last_nil, app_nil_r in E. unfold refreshed.
  set (ss := alter _ _ _). assert (length ss = length (sessions g)) as Ess by apply length_alter.
  assert (forall l y, ss !! l = Some y -> alive y = false) as Hdead.
  { intros l y. unfold ss. destruct (decide (l = pred (length (sessions g)))) as [->|Hl].
    - rewrite list_lookup_alter_eq, Hx. by intros [= <-].
    - rewrite list_lookup_alter_ne by done. intros Hy. pose proof (lookup_lt_Some _ _ _ Hy).
      apply (Hold l y Hy). lia. }
  apply list_eq. intros l. rewrite lookup_extend by (rewrite E, length_app; lia).
  destruct (ss !! l) as [y|] eqn:Hy.
  - rewrite lookup_app_l, Hy by by eapply lookup_lt_Some. f_equal. unfold extended.
    rewrite (Hdead l y Hy). pose proof (Hdead l y Hy) as Hd. destruct y; simpl in *; by subst.
  - apply lookup_ge_None in Hy. rewrite lookup_app_r by done. rewrite E, length_app, length_replicate.
    rewrite lookup_app_r by lia. rewrite Hsent, <-Ess, Em. case_decide; cbn [replicate].
    + destruct (l - length ss)%nat as [|j] eqn:Ej; [|done].
      by rewrite (proj2 (Nat.eqb_eq (S l) _)) by lia.
    + by rewrite !lookup_nil.
Qed.

(** Gateway [i] after a round that left its client in state [b] and [rest] of the
    bytes on their way to it. *)
Definition after_round (i : nat) (g : gateway) (rest : list Z) (b : Client.client) (n : net) : net :=
  Net (srv n) (<[i := Gateway b (extend (sent_at i g) (sent_in (H:=cos i) (Client.log b))
    (alter (set_down rest) (pred (length (sessions g))) (sessions g)))]> (gateways n)).

(** A session that the server serves after the round was served before. *)
Lemma after_round_peer i g chunk rest over p b n j l y fd :
  net_ok n -> gateways n !! i = Some g -> passed (H:=cos i) chunk over p (Client.log (box g)) (Client.log b) ->
  session_of (after_round i g rest b n) j l = Some y -> peer y = Served fd ->
  exists z, session_of n j l = Some z /\ peer z = Served fd.
Proof.
  intros Hn Hi Hpass. pose proof (ok_gateways n Hn i g Hi) as Hg. unfold session_of, after_round. cbn [gateways].
  intros Hy Hfd. destruct (decide (j = i)) as [->|Hj]; [|rewrite list_lookup_insert_ne in Hy by done; by exists y].
  rewrite list_lookup_insert_eq in Hy by by eapply lookup_lt_Some. rewrite Hi.
  cbn [mbind option_bind sessions] in Hy |- *. rewrite lookup_extend in Hy.
  2:{ rewrite length_alter, <-(go_sent _ _ _ Hg). apply (passed_length (H:=cos i) _ _ _ _ _ Hpass).
      by rewrite (go_sent _ _ _ Hg), (go_shown _ _ _ Hg). }
  destruct (alter _ _ (sessions g) !! l) as [z|] eqn:Hz; [|by apply fmap_Some in Hy as (? & _ & ->)].
  injection Hy as <-. assert (peer z = Served fd) as Hpz by (revert Hfd; unfold extended; by destruct (alive z)).
  destruct (decide (l = pred (length (sessions g)))) as [->|Hl]; [|rewrite list_lookup_alter_ne in Hz by done; by exists z].
  rewrite list_lookup_alter_eq in Hz. apply fmap_Some in Hz as (x & Hx & ->). by exists x.
Qed.

Lemma kept_round i g chunk rest over p b n x c v q st :
  net_ok n -> gateways n !! i = Some g -> sessions g !! pred (length (sessions g)) = Some x ->
  Client.killed (H:=cos i) (box g) = false -> chunk ++ rest = down x -> stable (H:=cos i) (box g) b ->
  passed (H:=cos i) chunk over p (Client.log (box g)) (Client.log b) -> whole (H:=cos i) (Client.log b) ->
  st = (if Client.killed (H:=cos i) b then Client.Stop else Client.Continue) ->
  kept (Shuttle i c v q) n st (after_round i g rest b n).
Proof.
  intros Hn Hi Hx Hk Hrest Hb Hpass Hwhole ->. unfold after_round. set (g' := Gateway b _).
  assert (gateways (after_round i g rest b n) !! i = Some g') as Hi'.
  { apply list_lookup_insert_eq. by eapply lookup_lt_Some. }
  split; [|split; [split|split]]; cbn [srv gateways]; try apply Hn.
  - destruct (Client.killed b) eqn:Ek; [right; split; [done|]; by exists g'|by left].
  - intros j h [(<- & <- & _)|(_ & Hj)]%list_lookup_insert_Some; [|by apply Hn].
    by eapply gateway_ok_round; [apply (ok_gateways n Hn)|..].
  - intros j1 j2 l1 l2 y1 y2 fd Hy1 Hy2 Hf1 Hf2.
    destruct (after_round_peer i g chunk rest over p b n _ _ _ _ Hn Hi Hpass Hy1 Hf1) as (z1 & Hz1 & E1).
    destruct (after_round_peer i g chunk rest over p b n _ _ _ _ Hn Hi Hpass Hy2 Hf2) as (z2 & Hz2 & E2).
    by apply (ok_distinct n Hn j1 j2 l1 l2 z1 z2 fd).
  - apply length_insert.
  - intros j (h & Hj & Hd). exists h. cbn [gateways]. rewrite list_lookup_insert_ne; [done|]. congruence.
Qed.

(** What a round of the client's loop does. *)
Definition shuttled (i c : nat) (over : option bool) (p : option (list Z)) n (st : Client.status) n' : Prop :=
  kept (Shuttle i c over p) n st n' /\ srv n' = srv n /\ forall g x,
    gateways n !! i = Some g -> sessions g !! pred (length (sessions g)) = Some x ->
    exists g', gateways n' = <[i := g']> (gateways n) /\
      (p = None -> alive x = false -> Client.killed (H:=cos i) (box g) = false ->
         TunnelLink.told (Client.tcp_socket (box g)) (box g) = true ->
         Client.killed (H:=cos i) (box g') = false /\ Client.same_tun (H:=cos i) (box g) (box g') /\ sessions g' =
         refreshed (take (Nat.min 4096 c) (down x)) (ended x over) (drop (Nat.min 4096 c) (down x)) (sessions g)).

Lemma wp_leave_box i g c over p n x st chunk rest o q b :
  let k := pred (length (sessions g)) in
  net_ok n -> gateways n !! i = Some g -> sessions g !! k = Some x -> Client.killed (H:=cos i) (box g) = false ->
  chunk ++ rest = down x -> (p = None -> q = None) ->
  (TunnelLink.told (Client.tcp_socket (box g)) (box g) = true ->
     chunk = take (Nat.min 4096 c) (down x) /\ rest = drop (Nat.min 4096 c) (down x) /\ o = ended x over) ->
  stable (H:=cos i) (box g) b -> passed (H:=cos i) chunk o q (Client.log (box g)) (Client.log b) ->
  whole (H:=cos i) (Client.log b) ->
  st = (if Client.killed (H:=cos i) b then Client.Stop else Client.Continue) ->
  (q = None -> Client.killed (H:=cos i) b = false) ->
  wp (leave_box cos i (Gateway (box g) (alter (set_down rest) k (sessions g))) b st)
    (alter_session i k (set_down rest) n) (shuttled i c over p n) (fun _ => False).
Proof.
  intros k Hn Hi Hx Hk Hrest Hq Htold Hb Hpass Hwhole Hst Hlive. unfold leave_box. apply wp_bind, wp_modify, wp_ret.
  match goal with |- shuttled _ _ _ _ _ _ ?m => set (n' := m) end. assert (n' = after_round i g rest b n) as ->.
  { unfold n', after_round. cbn [srv gateways alter_session box sessions]. f_equal. apply list_eq. intros j.
    destruct (decide (j = i)) as [->|Hj].
    - rewrite !list_lookup_insert_eq; [done|..]; rewrite ?length_alter; by eapply lookup_lt_Some.
    - by rewrite !list_lookup_insert_ne, list_lookup_alter_ne by done. }
  split; [by eapply kept_round|]. split; [done|].
  intros g0 x0 Hg0 Hx0. assert (g0 = g) as -> by congruence. assert (x0 = x) as -> by (unfold k in Hx; congruence).
  eexists. split; [reflexivity|]. intros Ep Ha _ Ht. specialize (Hq Ep). subst q. destruct (Htold Ht) as (<- & <- & <-).
  split; [by apply Hlive|]. split; [apply Hb|].
  by apply (extend_broken i g b chunk rest o (srv n) x); [apply (ok_gateways n Hn)|..].
Qed.

(** A round of a client that runs, or was killed. *)
Lemma step_shuttle m i c over p n :
  Client.reachable (H:=cos i) m -> (m < fuel)%nat -> net_ok n -> (i < length (gateways n))%nat ->
  (length (default [] p) <= 4096)%nat ->
  wp (net_step cos efd fuel (Shuttle i c over p)) n (shuttled i c over p n) (fun _ => False).
Proof.
  intros Hreach Hfuel Hn [g Hi]%lookup_lt_is_Some Hp. pose proof (ok_gateways n Hn i g Hi) as Hg.
  pose proof Hg as [Hrun _ _ Hne _ _ _ Hwhole _].
  destruct (lookup_lt_is_Some_2 (sessions g) (pred (length (sessions g)))) as [x Hx].
  { destruct (sessions g); [done|simpl; lia]. }
  cbn [net_step]. apply wp_bind. unfold gateway_at at 1. apply wp_bind, wp_gets, wp_lift. exists g. split; [done|].
  destruct (Client.killed (box g)) eqn:Ek.
  { apply wp_ret. split; [split; [right; split; [done|by exists g]|done]|]. split; [done|].
    intros g0 x0 Hg0 _. assert (g0 = g) as -> by congruence. exists g. rewrite list_insert_id by done.
    split; [done|]. congruence. }
  cbv zeta. apply wp_with_session. unfold session_of. rewrite Hi. cbn [mbind option_bind]. rewrite Hx.
  pose proof (watched_reported (box g) (Nat.min 4096 c) (down x) (ended x over) p) as Hrep. cbv zeta in Hrep.
  set (heeds_tcp := TunnelLink.told (Client.tcp_socket (box g)) (box g)) in *.
  set (q := if TunnelLink.told (Client.tun_file (box g)) (box g) then p else None) in *.
  set (l := if heeds_tcp then Nat.min 4096 c else 0%nat) in *. set (o := if heeds_tcp then ended x over else None) in *.
  set (k := pred _) in *. set (chunk := take _ (down x)) in *. set (rest := drop _ (down x)).
  assert (length (default [] q) <= 4096)%nat as Hq by (unfold q; case_match; simpl; lia).
  assert (length chunk <= 4096)%nat as Hchunk by (unfold chunk, l; rewrite length_take; case_match; lia).
  apply wp_bind, wp_modify. set (n1 := alter_session i k _ n).
  assert (gateways n1 !! i = Some (Gateway (box g) (alter (set_down rest) k (sessions g)))) as Hi1.
  { unfold n1. cbn [gateways alter_session]. by rewrite list_lookup_alter_eq, Hi. }
  unfold on_box, gateway_at. apply wp_bind, wp_bind, wp_gets, wp_lift. eexists. split; [exact Hi1|]. cbn [box].
  pose proof (wp_and _ _ _ _ _ _
    (wp_round_passed (H:=cos i) m fuel chunk o q (box g) Hreach Hfuel (Hrun eq_refl) Hrep Hchunk Hq)
    (wp_round_stable (H:=cos i) m fuel chunk o q (box g) Hreach Hfuel (Hrun eq_refl) Hrep Hchunk Hq)) as Hwp.
  pose proof (adds_main_round (H:=cos i) fuel (round_of chunk o q) (box g) Hwhole) as Hadds.
  assert (p = None -> q = None) as Hpq.
  { intros Ep. unfold q. destruct (TunnelLink.told (Client.tun_file (box g)) (box g)); [exact Ep|reflexivity]. }
  assert (heeds_tcp = true -> chunk = take (Nat.min 4096 c) (down x) /\ rest = drop (Nat.min 4096 c) (down x) /\
    o = ended x over) as Htold by (intros E; unfold chunk, rest, l, o; by rewrite E).
  unfold wp in Hwp. destruct (Client.main_round fuel _ (box g)) as [st b|b|]; [|..|done].
  - destruct Hwp as ((-> & Hk & Hpass) & Hb).
    eapply (wp_leave_box i g c over p n x _ chunk rest o q); try done; [apply take_drop|by rewrite Hk].
  - destruct Hwp as ((Hk & Hne' & Hpass) & Hb).
    eapply (wp_leave_box i g c over p n x _ chunk rest o q); try done; [apply take_drop|by rewrite Hk].
Qed.

(** *** Runs *)

Lemma broken_step_ok m o n :
  assignments_readable -> (forall i, Client.reachable (H:=cos i) m) -> (m < fuel)%nat ->
  net_ok n -> valid_op (length (gateways n)) o ->
  wp (net_step cos efd fuel o) n (kept o n) (fun n' => exited (srv n')).
Proof.
  intros Hfile Hreach Hfuel Hn Ho. destruct o as [i k fd|i k sizes last|i k err hup|packets|i c over p|i k m1 m2].
  - eapply wp_mono; [by apply step_accept|by intros st n' [? _]|done].
  - eapply wp_mono; [by apply step_to_server|by intros st n' [? _]|done].
  - eapply wp_mono; [by apply step_error|by intros st n' [? _]|done].
  - by apply step_internet.
  - destruct Ho. eapply wp_mono; [by apply (step_shuttle m)|by intros st n' [? _]|done].
  - eapply wp_mono; [by apply step_break|done..].
Qed.

Lemma broken_run_ok m os n :
  assignments_readable -> (forall i, Client.reachable (H:=cos i) m) -> (m < fuel)%nat ->
  net_ok n -> Forall (valid_op (length (gateways n))) os ->
  wp (net_run cos efd fuel os) n
    (fun sts n' => Forall2 (fun o st => answer o st n') os sts /\ net_ok n' /\
      length (gateways n') = length (gateways n) /\ forall i, dead i n -> dead i n')
    (fun n' => exited (srv n')).
Proof.
  intros Hfile Hreach Hfuel Hn Hos. revert n Hn Hos. induction os as [|o os IH]; intros n Hn Hos; [done|].
  apply Forall_cons in Hos as [Ho Hos]. cbn [net_run]. apply wp_bind.
  eapply wp_mono; [by apply (broken_step_ok m)| |done]. intros st n1 (Hst & Hn1 & Hlen & Hd). apply wp_bind.
  eapply wp_mono; [apply IH; [done|by rewrite Hlen]| |done].
  intros sts n2 (Hsts & Hn2 & Hlen2 & Hd2). apply wp_ret. split_and!; [|done|congruence|by auto].
  constructor; [|done]. destruct Hst as [->|Hst]; [by left|right]. destruct o; try done.
  destruct Hst as [-> Hdead]. auto.
Qed.
End net.

(** ** The start *)

(** Every program has run its setup; see [TunnelLink.booted]. *)
Record booted (cos : nat -> Client.Os) `{Os} (efd : Z) (fuel : nat) (n : net) : Prop := Booted {
  bt_server : exists argv s, length (buf s) = 4096%nat /\ log s = [] /\
    main_setup argv s = Done efd (srv n);
  bt_listener : tun_file (srv n) <> sfd (srv n);
  bt_gateways i g : gateways n !! i = Some g ->
    sessions g = [fresh true []] /\
    0 <= Client.tcp_socket (box g) < 1024 /\ 0 <= Client.tun_file (box g) < 1024 /\
    exists mac stack, length stack = 4096%nat /\
      Client.main_setup (H:=cos i) fuel (Client.start mac stack) = Done Client.Continue (box g);
}.

Lemma net_start_ok cos `{Os} efd fuel n :
  (forall i, Client.apart (H:=cos i)) -> booted cos efd fuel n -> net_ok cos n.
Proof.
  intros Hapart [(argv & s & Hb & Hl & E) Hne Hg].
  assert (starting (srv n)) as Hs.
  { pose proof (setup_main argv s Hb Hl) as Hwp. unfold wp in Hwp. rewrite E in Hwp. apply Hwp. }
  split; [by apply starting_inv|done|by apply starting_connected|..].
  - intros i g Hi. destruct (Hg i g Hi) as (Es & Htcp & Htun & mac & stack & Hstack & Eg).
    assert (TunnelLink.silent (box g)) as [Hsl Hsb].
    { by eapply (TunnelLink.boots_main_setup (H:=cos i) fuel (Client.start mac stack)). }
    destruct (opens_main_setup (H:=cos i) fuel _ _ _ Eg) as [Esent Eshown].
    assert (sent_in (H:=cos i) (Client.log (box g)) = [[]]) as E1 by exact Esent.
    assert (shown_in (H:=cos i) (Client.log (box g)) = [[]]) as E2 by exact Eshown.
    pose proof (TunnelLink.flows_silent (H:=cos i) _ Hsl) as [= F1 F2 F3 F4].
    split; rewrite ?Es, ?E1, ?E2; try done.
    + intros _. exact (Client.main_setup_running (H:=cos i) _ _ _ _ (Hapart i) Hstack Eg Htcp Htun).
    + intros [|k] x; [|done]. simpl. lia.
    + intros [|k] x; [|done]. intros [= <-]. by split.
    + intros [|k] x fd; [|done]. by intros [= <-].
    + split; rewrite ?E1, ?E2; try done.
      by rewrite (TunnelLink.uploaded_silent (H:=cos i)).
    + split; congruence.
  - intros i j k l x y fd (g & Hi & Hx)%session_gateway _ Hp.
    destruct (Hg i g Hi) as (Es & _). rewrite Es in Hx. destruct k; [|done]. by injection Hx as <-.
Qed.

(** ** Theorems *)

Section theorems.
Context (cos : nat -> Client.Os) `{Os} (efd : Z) (fuel m : nat).

(** In every outage the server can be reached after at most [m] pauses, and the
    clients' systems give them usable descriptors ([Client.reachable]). *)
Definition dependable : Prop := (forall i, Client.reachable (H:=cos i) m) /\ (m < fuel)%nat.

(** C5: the tunnel when connections break.  All programs have run their setup, every
    assignments file is one the server's parser can read ([assignments_fit]), a
    client's system never gives it the descriptor of its open TUN device again nor
    one of 1024 or more, and lets it reconnect after at most [m] pauses
    ([dependable]).  Then through any sequence of accepted connections, reads up to
    the end of a connection, error events, packets of at most 4096 bytes, rounds of
    the clients' loops with sends that fail or raise SIGPIPE, and connections that
    break at any byte: nothing is undefined, a client stops only when it is killed
    by SIGPIPE, and the run ends early only with the server, after a call that
    failed or SIGPIPE.  A client has given to the socket that was connected every
    packet it read from its TUN device, once and in order, and has written to its
    TUN device what it received on its connections.  Its sessions make up all that
    its system took over and all it showed, and only the last of them is in use.
    What the server wrote to its TUN device for a session is the beginning of what
    was sent in that session, with the bytes on their way it is all of it while the
    connection is alive; the same in the other direction.  No two sessions have the
    same descriptor. *)
Theorem broken_streams os n :
  assignments_fit -> dependable -> booted cos efd fuel n ->
  Forall (valid_op (length (gateways n))) os ->
  wp (net_run cos efd fuel os) n
    (fun sts n' => Forall2 (fun o st => answer cos o st n') os sts /\ distinct n' /\
      forall i g, gateways n' !! i = Some g ->
        let l := Client.log (box g) in
        let sent := sent_in (H:=cos i) l in
        let shown := shown_in (H:=cos i) l in
        Client.to_tcp (H:=cos i) l = Client.tun_reads (H:=cos i) l /\
        Client.to_tun (H:=cos i) l = Client.tcp_reads (H:=cos i) l /\
        concat sent = TunnelLink.uploaded (H:=cos i) l /\
        concat shown = Client.to_tun (H:=cos i) l /\
        length sent = length (sessions g) /\
        forall k x, sessions g !! k = Some x ->
          streams_ok (default [] (sent !! k)) (default [] (shown !! k)) x /\
          ((S k < length (sessions g))%nat -> alive x = false))
    (fun n' => inv (srv n') /\ gave_up (log (srv n'))).
Proof.
  intros Hfile%fit_readable [Hreach Hfuel] Hn Hos.
  assert (forall i, Client.apart (H:=cos i)) as Hapart by (intros i; apply (Hreach i)).
  eapply wp_mono; [apply (broken_run_ok _ _ _ m); eauto using net_start_ok| |done].
  intros sts n' (Hsts & Hn' & _). split; [done|]. split; [apply Hn'|]. intros i g Hi.
  destruct (ok_gateways _ _ Hn' i g Hi) as [_ Hsent _ _ Hold Hst _ [_ _ Hu Ht] [Hp1 Hp2]].
  split_and!; [done..|]. intros k x Hx. split; [by apply Hst|by apply Hold].
Qed.
End theorems.

(** ** Witnesses *)

Import TunnelLink(gateway_os, server_os, demo_box, demo_srv, hello, welcome).

Definition demo_net : net := Net demo_srv (replicate 2 (Gateway demo_box [fresh true []])).

Abbreviation demo_run := (net_run (fun _ => gateway_os) (H:=server_os) 7 1).

Lemma broken_demo_booted : booted (fun _ => gateway_os) (H:=server_os) 7 1 demo_net.
Proof.
  split.
  - exists demo_argv, unstarted. split_and!; [reflexivity|reflexivity|exact TunnelLink.demo_srv_boots].
  - by vm_compute.
  - intros i g [-> _]%lookup_replicate. cbn [box sessions]. split; [reflexivity|].
    rewrite TunnelLink.demo_tcp, TunnelLink.demo_tun. do 2 (split; [lia|]).
    exists (replicate 18 0), (replicate 4096 0). split; [reflexivity|exact TunnelLink.demo_box_boots].
Qed.

Lemma demo_dependable : dependable (fun _ => gateway_os) 1 0.
Proof. split; [|lia]. split; [split; [exact TunnelLink.gateway_os_apart|done]|done]. Qed.

(** The system of gateway 1 raises SIGPIPE on every [send]. *)
Definition fatal_os : Client.Os := {|
  Client.ret := @Client.ret gateway_os;
  Client.O_NONBLOCK := 2048;
  Client.sigpipe _ _ _ := true;
  Client.mac_contents := @Client.mac_contents gateway_os;
|}.

Definition mixed_os (i : nat) : Client.Os := match i with 1%nat => fatal_os | _ => gateway_os end.

Lemma fatal_box_boots :
  Client.main_setup (H:=fatal_os) 1 (Client.start (replicate 18 0) (replicate 4096 0)) =
    Done Client.Continue demo_box.
Proof. vm_compute. reflexivity. Qed.

Lemma mixed_booted : booted mixed_os (H:=server_os) 7 1 demo_net.
Proof.
  destruct broken_demo_booted as [Hsrv Hl Hg]. split; [exact Hsrv|exact Hl|]. intros i g Hi.
  destruct (Hg i g Hi) as (Es & Ht & Hf & Hboot). do 3 (split; [done|]).
  destruct i as [|[|i]]; [exact Hboot| |exact Hboot]. apply lookup_replicate in Hi as [-> _].
  exists (replicate 18 0), (replicate 4096 0). split; [reflexivity|exact fatal_box_boots].
Qed.

Lemma mixed_dependable : dependable mixed_os 1 0.
Proof.
  split; [|lia]. intros i. pose proof (proj1 demo_dependable i) as Hd. by destruct i as [|[|i]].
Qed.

(** A packet arrives, of a second only ten bytes, and the client reconnects.  It
    sends the second packet again; then the server reads the end of the first
    connection.  The other client is killed. *)
Definition demo_breaks : list op :=
  [Shuttle 0 0 None (Some hello); Accept 0 0 8; ToServer 0 0 [4096%nat] Drained;
   Shuttle 0 0 None (Some hello); Break 0 0 10 0; Shuttle 0 0 (Some true) None;
   Accept 0 1 9; Shuttle 0 0 None (Some hello); ErrorEvent 0 0 false true;
   ToServer 0 0 [4096%nat] Eof; ToServer 0 1 [4096%nat] Drained; Shuttle 1 0 None (Some hello)].

Lemma broken_streams_witness :
  exists sts n' g, net_run mixed_os (H:=server_os) 7 1 demo_breaks demo_net = Done sts n' /\
    Forall2 (fun o st => answer mixed_os o st n') demo_breaks sts /\ last sts = Some Client.Stop /\
    gateways n' !! 0%nat = Some g /\ got <$> sessions g = [[hello; take 10 hello]; [hello]] /\
    concat (sent_in (H:=gateway_os) (Client.log (box g))) = hello ++ hello ++ hello.
Proof.
  destruct (wp_run _ _ _ _ (broken_streams mixed_os (H:=server_os) 7 1 0 demo_breaks demo_net
    TunnelLink.server_os_fit mixed_dependable mixed_booted ltac:(vm_decide)))
    as (sts & n' & E & Hsts & _ & Hn').
  { vm_compute. reflexivity. }
  assert (match net_run mixed_os (H:=server_os) 7 1 demo_breaks demo_net with
    | Done sts n => last sts = Some Client.Stop /\ exists g, gateways n !! 0%nat = Some g /\
        got <$> sessions g = [[hello; take 10 hello]; [hello]] /\
        TunnelLink.uploaded (H:=gateway_os) (Client.log (box g)) = hello ++ hello ++ hello
    | _ => False end) as H by (vm_compute; split; [reflexivity|eexists; split; [reflexivity|split; reflexivity]]).
  rewrite E in H. destruct H as (Hlast & g & Hg & Hgot & Hup). exists sts, n', g. split; [exact E|].
  split; [exact Hsts|]. split; [exact Hlast|]. split; [exact Hg|].
  split; [exact Hgot|]. destruct (Hn' 0%nat g Hg) as (_ & _ & Hs & _). exact (eq_trans Hs Hup).
Defined.
End TunnelBreaks.
