(* ===== verification/TunnelRecovery.v ===== *)
(** * Broken connections: what is lost, and how the tunnel recovers

    On the network of [TunnelBreaks].  Until the server reads the end of a
    connection, its descriptor stays in the table, and if it is the lowest with
    an interface, a packet for that interface is written to it; if the client has
    reset the connection that write can kill the server.  From every state
    in which the connection of a client has broken there is a run after which the
    server has closed it, and client and server have a new one. *)
From S2P Require Import Prelude CLib TunnelRoutes TunnelServer TunnelClient TunnelLink TunnelBreaks.
Import Routes Server TunnelBreaks.
Import TunnelLink(downloaded, heard, cut, unused).

Module TunnelRecovery.

(** ** Routes *)

(** A packet for the interface of a client: not in the /52, but in the /64 or
    link-local. *)
Definition for_interface (q : list Z) (s : server) : Prop :=
  (40 <= length q <= 4096)%nat /\ version q = 6 /\
  in_slash_52 (daddr q) (prefix_slash_52 s) = false /\
  in_slash_64 (daddr q) (prefix_slash_64 s) || link_local (daddr q) = true.

(** The server's route to it is descriptor [fd]. *)
Definition routed (q : list Z) (fd : Z) (s : server) : Prop :=
  (exists e, prefixes s !! Z.to_nat fd = Some e /\ has_interface (daddr q) e) /\
  forall j e, (j < Z.to_nat fd)%nat -> prefixes s !! j = Some e -> ~ has_interface (daddr q) e.

Lemma routed_find q fd s : routed q fd s -> find_ll (daddr q) (prefixes s) = Some (Z.to_nat fd).
Proof.
  intros [(e & He & Hhas) Hmin]. pose proof (find_ll_first (daddr q) (prefixes s)) as Hf.
  unfold first_client in Hf. destruct (find_ll _ _) as [j|].
  - destruct Hf as (p & Hp & Hpd & Hlow). f_equal. destruct (lt_eq_lt_dec j (Z.to_nat fd)) as [[Hlt| ->]|Hgt]; [|done|].
    + by destruct (Hmin j p Hlt Hp).
    + by destruct (Hlow (Z.to_nat fd) e Hgt He).
  - by destruct (Hf (Z.to_nat fd) e He).
Qed.

(** What the server sends to a session. *)
Definition replied_to (bytes : list Z) (x : session) : session :=
  Session (peer x) (alive x) (up x) (if alive x then down x ++ bytes else down x) (got x) (replied x ++ bytes).

Section routes.
Context (cos : nat -> Client.Os) `{Os} (efd : Z) (fuel : nat).

Lemma step_forward i k x fd q n :
  net_ok cos n -> session_of n i k = Some x -> peer x = Served fd ->
  for_interface q (srv n) -> routed q fd (srv n) ->
  let l := read (tun_file (srv n)) :: log (srv n) in
  wp (net_step cos efd fuel (FromInternet [q])) n
    (fun st n' => sigpipe l fd q = false /\ exists bytes, bytes `prefix_of` q /\
       updates (at_session i k (replied_to bytes)) n n')
    (fun n' => sigpipe l fd q = true /\ log (srv n') = write fd q :: l).
Proof.
  intros Hn Hx Hp (Hlen & Hv & H52 & H64) Hr%routed_find lg.
  destruct (session_serves cos n i k x fd Hn Hx Hp) as (Hfd & Hft & Hfs & Hfc).
  cbn [net_step]. apply wp_bind, wp_gets, wp_bind, wp_at_server.
  pose proof (TunnelLink.wp_packet_forwarded fd q (srv n) (ok_inv _ _ Hn) ltac:(lia) Hlen Hv H52 H64 Hr) as Hread.
  pose proof (TunnelLink.wp_readable efd _ _ _ _ _ (ok_listener _ _ Hn) Hread) as Hread'.
  eapply wp_mono; [exact Hread'| |done]. intros _ s' (Etun & Hsig & Elog). apply wp_ret. split; [done|].
  set (bytes := take (Z.to_nat (ret (read (tun_file (srv n)) :: log (srv n)) (write fd q))) q).
  exists bytes. split; [apply prefix_take|].
  pose proof (updates_carry (tun_file s') (log s') s' n) as Hu. eapply updates_ext; [|exact Hu].
  intros j l y Hy. cbv beta. unfold at_session. rewrite Etun.
  assert (forall g, heard (tun_file (srv n)) g (log s') = heard (tun_file (srv n)) g (log (srv n))) as Hh.
  { intros g. rewrite Elog. apply TunnelLink.heard_extends.
    do 3 (apply TunnelLink.extends_cons; [done|]). apply TunnelLink.extends_refl. }
  destruct (decide (j = i /\ l = k)) as [[-> ->]|Hne].
  - rewrite Hx in Hy. injection Hy as <-. unfold carry_session, replied_to. rewrite Hp.
    rewrite Hh, drop_all, app_nil_r, Elog. cbn [downloaded].
    by rewrite Z.eqb_refl, !app_nil_r, drop_app_length.
  - apply carry_session_same. intros g Hg. split; [apply Hh|]. rewrite Elog. cbn [downloaded].
    rewrite (proj2 (Z.eqb_neq fd g)), !app_nil_r; [done|]. intros ->. apply Hne.
    by apply (ok_distinct _ _ Hn j i l k y x g).
Qed.

(** Error events change nothing. *)
Lemma wp_errors i k es n :
  net_ok cos n ->
  wp (net_run cos efd fuel ((fun '(err, hup) => ErrorEvent i k err hup) <$> es)) n
    (fun _ n' => net_ok cos n' /\ srv n' = srv n /\ forall j l, session_of n' j l = session_of n j l)
    (fun _ => False).
Proof.
  revert n. induction es as [|[err hup] es IH]; intros n Hn; [by apply wp_ret|].
  cbn [fmap list_fmap net_run]. apply wp_bind. eapply wp_mono; [by apply step_error| |done].
  intros st n1 ((_ & Hn1 & _) & E1 & Es1). apply wp_bind. eapply wp_mono; [by apply IH| |done].
  intros sts n2 (Hn2 & E2 & Es2). apply wp_ret. split; [done|]. split; [congruence|].
  intros j l. by rewrite Es2.
Qed.

Lemma net_run_app os1 os2 n (Q : net -> Prop) R :
  wp (net_run cos efd fuel os1) n (fun _ n1 => wp (net_run cos efd fuel os2) n1 (fun _ => Q) R) R ->
  wp (net_run cos efd fuel (os1 ++ os2)) n (fun _ => Q) R.
Proof.
  revert n. induction os1 as [|o os1 IH]; intros n Hwp; [exact Hwp|]. cbn [app net_run] in *.
  apply wp_bind. unfold wp in Hwp |- *. cbv [mbind M_bind] in *.
  destruct (net_step cos efd fuel o n) as [st n1|n1|]; [|done|done].
  specialize (IH n1). unfold wp in IH. destruct (net_run cos efd fuel os1 n1) as [sts n2|n2|].
  - specialize (IH Hwp). by destruct (net_run cos efd fuel (os1 ++ os2) n1).
  - specialize (IH Hwp). by destruct (net_run cos efd fuel (os1 ++ os2) n1).
  - done.
Qed.
End routes.

(** ** Runs, one after the other *)

Section reaches.
Context (cos : nat -> Client.Os) `{Os} (efd : Z) (fuel : nat).

(** A state can be followed by another. *)
Definition reaches (n n' : net) : Prop :=
  length (gateways n') = length (gateways n) /\
  exists os sts, Forall (valid_op (length (gateways n))) os /\ net_run cos efd fuel os n = Done sts n'.

#[export] Instance reaches_refl : Reflexive reaches.
Proof. intros n. split; [done|]. by exists [], []. Qed.

#[export] Instance reaches_trans : Transitive reaches.
Proof.
  intros n1 n2 n3 [El1 (os1 & sts1 & Hv1 & E1)] [El2 (os2 & sts2 & Hv2 & E2)]. split; [congruence|].
  exists (os1 ++ os2). rewrite El1 in Hv2.
  pose proof (net_run_app cos efd fuel os1 os2 n1 (fun n => n = n3) (fun _ => False)) as Happ.
  unfold wp in Happ. rewrite E1, E2 in Happ. specialize (Happ eq_refl).
  destruct (net_run cos efd fuel (os1 ++ os2) n1) as [sts n| |]; [|done..]. subst.
  exists sts. split; [by apply Forall_app|done].
Qed.

Lemma reaches_step o n Q :
  valid_op (length (gateways n)) o ->
  wp (net_step cos efd fuel o) n (fun st n' => kept cos o n st n' /\ Q n') (fun _ => False) ->
  exists n', reaches n n' /\ net_ok cos n' /\ Q n'.
Proof.
  intros Ho. unfold wp. destruct (net_step cos efd fuel o n) as [st n'| |] eqn:E; [|done..].
  intros [(_ & Hn' & El & _) HQ]. exists n'. split; [|done]. split; [done|].
  exists [o], [st]. split; [by constructor|]. cbn [net_run]. by rewrite (bind_Done _ _ _ _ _ E).
Qed.
End reaches.

(** ** Recovery *)

(** The server's system lets it take up connections. *)
Definition accepting `{Os} : Prop := forall l c,
  match c with fcntl_getfl _ | fcntl_setfl _ _ | epoll_add _ _ => ret l c <> -1 | _ => True end.

(** What becomes of a broken session: the server does not keep its descriptor and
    has written to its TUN device what had reached it. *)
Record settled (x y : session) : Prop := Settled {
  se_alive : alive y = false;
  se_closed fd : peer y <> Served fd;
  se_read fd : peer x = Served fd -> up y = [];
  se_got : concat (got y) ++ up y = concat (got x) ++ up x;
  se_replied : replied y = replied x;
}.

Section recovery.
Context (cos : nat -> Client.Os) `{Os} (efd : Z) (fuel : nat).

Lemma updates_others i k f n n' j :
  updates (at_session i k f) n n' -> j <> i -> gateways n' !! j = gateways n !! j.
Proof.
  intros [El Hu] Hj. destruct (gateways n !! j) as [g|] eqn:Hg.
  - destruct (Hu j g Hg) as (g' & -> & Eb & _ & Hs). destruct g as [b ss], g' as [b' ss']. cbn [box sessions] in *.
    subst. do 2 f_equal. apply list_eq. intros l. rewrite Hs. unfold at_session.
    rewrite decide_False by (by intros []). by destruct (ss !! l).
  - apply lookup_ge_None in Hg. apply lookup_ge_None_2. congruence.
Qed.

Lemma updates_id i k n : updates (at_session i k id) n n.
Proof.
  split; [done|]. intros j g Hg. exists g. split_and!; [done..|]. intros l. unfold at_session.
  case_decide; by destruct (sessions g !! l).
Qed.

Lemma unused_kept fd s s' :
  same_fds s s' -> (connected (log s) fd = false -> connected (log s') fd = false) ->
  unused fd s = true -> unused fd s' = true.
Proof.
  unfold unused. intros (-> & -> & _) Hc [Hfd Hn%negb_true_iff]%andb_true_iff. by rewrite Hfd, Hc.
Qed.

(** The server reads what is left of a broken session, and its end. *)
Lemma settle i k fd x n :
  assignments_readable -> net_ok cos n -> unused fd (srv n) = true -> session_of n i k = Some x -> alive x = false ->
  exists n', reaches cos efd fuel n n' /\ net_ok cos n' /\ unused fd (srv n') = true /\
    exists h, updates (at_session i k h) n n' /\ settled x (h x) /\ down (h x) = down x.
Proof.
  intros Hfile Hn Hfd Hx Ha.
  assert ((forall f, peer x <> Served f) \/ exists f, peer x = Served f) as [Hp|[f Ep]].
  { destruct (peer x); naive_solver. }
  - exists n. split_and!; [done..|]. exists id. split; [apply updates_id|]. split; [|done].
    split; cbn; try done. intros f Ef. by destruct (Hp f).
  - set (sizes := replicate (length (up x)) 4096%nat).
    assert ((cut sizes (up x)).2 = []) as Erest by by apply TunnelLink.cut_all.
    destruct (reaches_step cos efd fuel (ToServer i k sizes Eof) n _ I
      (step_to_server cos efd fuel i k sizes Eof n Hfile Hn)) as (n' & Hr & Hn' & Hs).
    destruct (Hs x f Hx Ep) as (Hu & Hsame & Hc). exists n'. split_and!; [done..| |].
    { apply (unused_kept _ _ _ Hsame); auto. }
    eexists. split; [exact Hu|]. rewrite Erest. pose proof (TunnelLink.cut_spec sizes (up x)) as [Ecut _].
    destruct (cut sizes (up x)) as [chunks rest]. cbn [fst snd] in *. subst rest. rewrite app_nil_r in Ecut.
    unfold reported. rewrite Ha. cbn. split; [|done]. split; cbn; try done.
    by rewrite concat_app, Ecut, app_nil_r.
Qed.
(** Runs in which only the sessions of gateway [i] change, and after which the
    server's system can still give descriptor [fd]. *)
Record repairs (i : nat) (fd : Z) (n n' : net) : Prop := Repairs {
  rp_reaches : reaches cos efd fuel n n';
  rp_ok : net_ok cos n';
  rp_unused : unused fd (srv n') = true;
  rp_others j : j <> i -> gateways n' !! j = gateways n !! j;
}.

Lemma repairs_trans i fd n1 n2 n3 : repairs i fd n1 n2 -> repairs i fd n2 n3 -> repairs i fd n1 n3.
Proof.
  intros [Hr1 _ _ Ho1] [Hr2 Hn Hu Ho2]. split; [by etrans|done..|].
  intros j Hj. by rewrite Ho2, Ho1.
Qed.

Lemma settle_all m i fd g n :
  assignments_readable -> net_ok cos n -> unused fd (srv n) = true -> gateways n !! i = Some g ->
  Forall (fun x => alive x = false) (sessions g) -> (m <= length (sessions g))%nat ->
  exists n' g', repairs i fd n n' /\ gateways n' !! i = Some g' /\ box g' = box g /\
    length (sessions g') = length (sessions g) /\
    forall l x, sessions g !! l = Some x -> exists y, sessions g' !! l = Some y /\ down y = down x /\
      (if (l <? m)%nat then settled x y else y = x).
Proof.
  intros Hfile Hn Hfd Hi Ha. induction m as [|m IH]; intros Hm.
  { exists n, g. split; [by split|]. split_and!; [done..|]. intros l x Hx. by exists x. }
  destruct IH as (n1 & g1 & Hrp & Hi1 & Eb1 & El1 & Hs1); [lia|]. pose proof Hrp as [_ Hn1 Hu1 _].
  destruct (lookup_lt_is_Some_2 (sessions g) m) as [x Hx]; [lia|].
  destruct (Hs1 m x Hx) as (y & Hy & Ed & E). rewrite Nat.ltb_irrefl in E. subst y.
  destruct (settle i m fd x n1 Hfile Hn1 Hu1) as (n2 & Hr2 & Hn2 & Hu2 & h & Hup & Hset & Ed2).
  { unfold session_of. by rewrite Hi1. }
  { by eapply Forall_lookup_1 in Ha. }
  pose proof (updates_others i m h n1 n2) as Ho2. destruct Hup as [El Hup].
  destruct (Hup i g1 Hi1) as (g2 & Hi2 & Eb2 & El2 & Hs2). exists n2, g2. split_and!.
  - eapply repairs_trans; [exact Hrp|]. split; [done..|]. intros j Hj. by apply Ho2.
  - done.
  - congruence.
  - congruence.
  - intros l z Hz. destruct (Hs1 l z Hz) as (y & Hy1 & Ed1 & Ey). rewrite Hs2, Hy1. eexists. split; [done|].
    unfold at_session. destruct (decide (l = m)) as [->|Hl].
    + rewrite decide_True by done. rewrite Hx in Hz. injection Hz as <-. rewrite Hy in Hy1. injection Hy1 as <-.
      split; [done|]. by rewrite (proj2 (Nat.ltb_lt _ _)) by lia.
    + rewrite decide_False by (by intros []). split; [done|].
      destruct (Nat.ltb_spec l m), (Nat.ltb_spec l (S m)); try lia; done.
Qed.

Lemma alter_same {A} (f : A -> A) k (l : list A) x : l !! k = Some x -> f x = x -> alter f k l = l.
Proof.
  intros Hx Hf. apply list_eq. intros j. destruct (decide (j = k)) as [->|Hj].
  - rewrite list_lookup_alter_eq, Hx. cbn. by rewrite Hf.
  - by rewrite list_lookup_alter_ne.
Qed.

Lemma alter_twice {A} (f h : A -> A) k (l : list A) :
  (forall x, f (h x) = f x) -> alter f k (alter h k l) = alter f k l.
Proof.
  intros Hf. apply list_eq. intros j. destruct (decide (j = k)) as [->|Hj].
  - rewrite !list_lookup_alter_eq. destruct (l !! k); [|done]. cbn. by rewrite Hf.
  - by rewrite !list_lookup_alter_ne.
Qed.

(** The client of gateway [i] passes its descriptors to [select]. *)
Definition watching (i : nat) (g : gateway) : Prop :=
  Client.small (box g) /\ forall l, Client.ret (Os:=cos i) l Client.socket < 255.

Lemma watching_told i g n :
  net_ok cos n -> gateways n !! i = Some g -> Client.killed (H:=cos i) (box g) = false -> watching i g ->
  TunnelLink.told (Client.tcp_socket (box g)) (box g) = true.
Proof.
  intros Hn Hi Hk [Hs _].
  by apply (TunnelLink.told_small cos i (box g) (go_running _ _ _ _ (ok_gateways _ _ Hn i g Hi) Hk) Hs).
Qed.

Lemma watching_same i g g' : Client.same_tun (H:=cos i) (box g) (box g') -> watching i g -> watching i g'.
Proof.
  intros [Et Es] [[Hs1 Hs2] Hl]. split; [|exact Hl]. split; [|by rewrite Et].
  destruct Es as [->|[l ->]]; [exact Hs1|apply Hl].
Qed.

(** The client reads what is left of its broken connection. *)
Lemma drain m p i fd g x n :
  watching i g ->
  Client.reachable (H:=cos i) p -> (p < fuel)%nat -> net_ok cos n -> unused fd (srv n) = true ->
  gateways n !! i = Some g -> Client.killed (H:=cos i) (box g) = false ->
  last (sessions g) = Some x -> alive x = false -> (length (down x) <= 4096 * m)%nat ->
  exists n' g', repairs i fd n n' /\ gateways n' !! i = Some g' /\ Client.killed (H:=cos i) (box g') = false /\
    watching i g' /\ sessions g' = alter (set_down []) (pred (length (sessions g))) (sessions g).
Proof.
  intros Hw Hreach Hfuel. revert g x n Hw. induction m as [|m IH]; intros g x n Hw Hn Hfd Hi Hk Hx Ha Hlen;
    rewrite last_lookup in Hx.
  { exists n, g. split; [by split|]. split; [done|]. split; [done|]. split; [done|]. symmetry. apply (alter_same _ _ _ _ Hx).
    destruct x as [? ? ? [|]]; simpl in *; [done|lia]. }
  assert (i < length (gateways n))%nat as Hlt by by eapply lookup_lt_Some.
  destruct (reaches_step cos efd fuel (Shuttle i 4096 None None) n _ ltac:(split; [exact Hlt|simpl; lia])
    (step_shuttle cos efd fuel p i 4096 None None n Hreach Hfuel Hn Hlt ltac:(simpl; lia)))
    as (n1 & Hr & Hn1 & Es & Hstep).
  destruct (Hstep g x Hi Hx) as (g1 & Eg & Ess). destruct (Ess eq_refl Ha Hk) as (Hk1 & Hsame & Ess'); [exact (watching_told i g n Hn Hi Hk Hw)|].
  clear Ess. rename Ess' into Ess.
  unfold refreshed in Ess. rewrite decide_False, app_nil_r in Ess by (unfold ended; intros [_ [? E]]; by case_match).
  assert (gateways n1 !! i = Some g1) as Hi1 by by rewrite Eg, list_lookup_insert_eq.
  destruct (IH g1 (set_down (drop 4096 (down x)) x) n1) as (n2 & g2 & Hrp & Hi2 & Hk2 & Hw2 & Ess2); try done.
  - by eapply watching_same.
  - by rewrite Es.
  - rewrite last_lookup, Ess, length_alter, list_lookup_alter_eq, Hx. done.
  - cbn [down set_down]. rewrite length_drop. lia.
  - exists n2, g2. split; [|split; [done|split; [done|split; [done|]]]].
    + eapply repairs_trans; [|exact Hrp]. split; [done..|by rewrite Es|].
      intros j Hj. by rewrite Eg, list_lookup_insert_ne.
    + rewrite Ess2, Ess, length_alter. by apply alter_twice.
Qed.

(** The client reconnects. *)
Lemma reopen p i fd g x n :
  watching i g ->
  Client.reachable (H:=cos i) p -> (p < fuel)%nat -> net_ok cos n -> unused fd (srv n) = true ->
  gateways n !! i = Some g -> Client.killed (H:=cos i) (box g) = false ->
  last (sessions g) = Some x -> alive x = false -> down x = [] ->
  exists n' g', repairs i fd n n' /\ gateways n' !! i = Some g' /\ Client.killed (H:=cos i) (box g') = false /\
    sessions g' = sessions g ++ [fresh true []].
Proof.
  intros Hw Hreach Hfuel Hn Hfd Hi Hk Hx Ha Hd. rewrite last_lookup in Hx.
  assert (i < length (gateways n))%nat as Hlt by by eapply lookup_lt_Some.
  destruct (reaches_step cos efd fuel (Shuttle i 0 (Some true) None) n _ ltac:(split; [exact Hlt|simpl; lia])
    (step_shuttle cos efd fuel p i 0 (Some true) None n Hreach Hfuel Hn Hlt ltac:(simpl; lia)))
    as (n1 & Hr & Hn1 & Es & Hstep).
  destruct (Hstep g x Hi Hx) as (g1 & Eg & Ess). destruct (Ess eq_refl Ha Hk) as (Hk1 & _ & Ess'); [exact (watching_told i g n Hn Hi Hk Hw)|].
  exists n1, g1. split; [|split; [|split; [done|]]].
  - split; [done..|by rewrite Es|]. intros j Hj. by rewrite Eg, list_lookup_insert_ne.
  - by rewrite Eg, list_lookup_insert_eq.
  - rewrite Ess'. unfold refreshed, ended. rewrite Ha, Hd. cbn. f_equal. apply (alter_same _ _ _ _ Hx).
    destruct x; simpl in *; by subst.
Qed.

(** The server takes the new connection up. *)
Lemma accept_never_halts i k fd n :
  accepting -> wp (net_step cos efd fuel (Accept i k fd)) n (fun _ _ => True) (fun _ => False).
Proof.
  intros Hacc. cbn [net_step]. apply wp_with_session. destruct (session_of n i k) as [x|]; [|done].
  apply wp_bind, wp_gets. destruct (peer x); try by apply wp_ret. destruct (unused fd _); [|by apply wp_ret].
  apply wp_bind, wp_at_server. unfold handle_event. apply wp_bind, wp_gets.
  cbn [epollerr epollhup epollin data_fd orb negb accepts]. rewrite Z.eqb_refl. cbn [accept_loop].
  apply wp_bind, wp_io_void, wp_bind. unfold make_nonblocking. apply wp_bind, wp_io.
  rewrite (proj2 (Z.eqb_neq _ _)) by apply (Hacc _ (fcntl_getfl fd)). apply wp_bind, wp_io.
  rewrite (proj2 (Z.eqb_neq _ _)) by apply (Hacc _ (fcntl_setfl fd _)). apply wp_ret. cbn [Z.eqb].
  apply wp_bind, wp_io. rewrite (proj2 (Z.eqb_neq _ _)) by apply (Hacc _ (epoll_add efd fd)).
  apply wp_io_void. by apply wp_bind, wp_modify, wp_ret.
Qed.
Lemma settled_down x y : settled x y -> settled x (set_down [] y).
Proof. by intros []; split. Qed.

(** All of it: the server closes, the client reads what is left and reconnects,
    the server accepts. *)
Lemma recovers p i fd g x n :
  assignments_readable -> accepting -> watching i g -> Client.reachable (H:=cos i) p -> (p < fuel)%nat ->
  net_ok cos n -> unused fd (srv n) = true -> gateways n !! i = Some g ->
  Client.killed (H:=cos i) (box g) = false -> last (sessions g) = Some x -> alive x = false ->
  exists n' g' ys, reaches cos efd fuel n n' /\ (forall j, j <> i -> gateways n' !! j = gateways n !! j) /\
    gateways n' !! i = Some g' /\
    Client.connection (H:=cos i) (Client.log (box g')) = Some (Client.tcp_socket (box g')) /\
    sessions g' = ys ++ [set_peer (Served fd) (fresh true [])] /\
    Forall2 settled (sessions g) ys /\ (down <$> last ys) = Some [].
Proof.
  intros Hfile Hacc Hw Hreach Hfuel Hn Hfd Hi Hk Hx Ha. rewrite last_lookup in Hx.
  destruct (settle_all (length (sessions g)) i fd g n) as (n1 & g1 & Hrp1 & Hi1 & Eb1 & El1 & Hs1); try done.
  { apply Forall_lookup. intros l y Hy. destruct (decide (S l < length (sessions g))%nat) as [Hl|Hl].
    - by apply (go_older _ _ _ _ (ok_gateways _ _ Hn i g Hi) l).
    - apply lookup_lt_Some in Hy as Hlt. replace l with (pred (length (sessions g))) in Hy by lia. congruence. }
  assert (Forall2 settled (sessions g) (sessions g1)) as Hset.
  { apply Forall2_same_length_lookup_2; [done|]. intros l y z Hy Hz. destruct (Hs1 l y Hy) as (z' & Hz' & _ & Hyz).
    apply lookup_lt_Some in Hy. rewrite (proj2 (Nat.ltb_lt _ _)) in Hyz by done. congruence. }
  destruct (Hs1 _ x Hx) as (x1 & Hx1 & Ed1 & Hxx). pose proof (lookup_lt_Some _ _ _ Hx) as Hlt.
  rewrite (proj2 (Nat.ltb_lt _ _)) in Hxx by done. set (k := pred (length (sessions g))) in *.
  destruct (drain (length (down x1)) p i fd g1 x1 n1) as (n2 & g2 & Hrp2 & Hi2 & Hk2 & Hw2 & Es2); try done; try apply Hrp1.
  { by unfold watching; rewrite Eb1. }
  { by rewrite Eb1. }
  { by rewrite last_lookup, El1. }
  { apply (se_alive _ _ Hxx). }
  { lia. }
  rewrite El1 in Es2. fold k in Es2.
  destruct (reopen p i fd g2 (set_down [] x1) n2) as (n3 & g3 & Hrp3 & Hi3 & Hk3 & Es3); try done; try apply Hrp2.
  { by rewrite last_lookup, Es2, length_alter, El1, list_lookup_alter_eq, Hx1. }
  { apply (se_alive _ _ Hxx). }
  pose proof (repairs_trans _ _ _ _ _ Hrp1 (repairs_trans _ _ _ _ _ Hrp2 Hrp3)) as [Hr Hn3 Hu3 Ho3].
  set (K := length (sessions g2)).
  destruct (reaches_step cos efd fuel (Accept i K fd) n3 (fun n' => forall y, session_of n3 i K = Some y ->
    peer y = Pending -> unused fd (srv n3) = true -> updates (at_session i K (set_peer (Served fd))) n3 n') I)
    as (n4 & Hr4 & Hn4 & Hup).
  { eapply wp_mono; [exact (wp_and _ _ _ _ _ _ (step_accept cos efd fuel i K fd n3 Hn3)
      (accept_never_halts i K fd n3 Hacc))|by intros ? ? [[? ?] _]|by intros ? [_ ?]]. }
  specialize (Hup (fresh true [])). unfold session_of in Hup. rewrite Hi3 in Hup. cbn in Hup.
  rewrite Es3 in Hup. unfold K in Hup at 1. rewrite list_lookup_middle in Hup by done.
  specialize (Hup eq_refl eq_refl Hu3). destruct (proj2 Hup i g3 Hi3) as (g4 & Hi4 & Eb4 & El4 & Hs4).
  exists n4, g4, (sessions g2). split_and!; [by etrans| |done|..].
  - intros j Hj. by rewrite (updates_others _ _ _ _ _ _ Hup Hj), Ho3.
  - by apply (go_running _ _ _ _ (ok_gateways _ _ Hn4 i g4 Hi4)); rewrite Eb4.
  - apply list_eq. intros l. rewrite Hs4, Es3. unfold at_session.
    destruct (decide (l = K)) as [->|Hl].
    + rewrite decide_True, !list_lookup_middle by done. done.
    + rewrite decide_False by (by intros []). unfold id. rewrite option_fmap_id.
      destruct (decide (l < K)%nat); [by rewrite !lookup_app_l|].
      rewrite !lookup_app_r by (unfold K in *; lia). by destruct (l - length (sessions g2))%nat eqn:E; [unfold K in *; lia|].
  - rewrite Es2. apply Forall2_same_length_lookup_2; [by rewrite length_alter|]. intros l y z Hy.
    destruct (decide (l = k)) as [->|Hl].
    + rewrite list_lookup_alter_eq, Hx1. intros [= <-]. assert (y = x) as -> by congruence. by apply settled_down.
    + rewrite list_lookup_alter_ne by done. intros Hz. by eapply Forall2_lookup_lr.
  - rewrite last_lookup, Es2, length_alter, El1. fold k. rewrite list_lookup_alter_eq, Hx1. done.
Qed.
End recovery.

(** ** Theorems *)

Section theorems.
Context (cos : nat -> Client.Os) `{Os} (efd : Z) (fuel m : nat).

(** C36: a reply can go into a broken connection.  Its descriptor is still open at
    the server and the server's route for a packet: then however often [epoll]
    reports an error or a hang-up for it, the server does nothing about it, and
    writes the packet to it.  If the client has reset the connection and the
    write raises SIGPIPE, the server is killed by it, and with the server every
    tunnel ends.  Otherwise the packet goes to no session, not even to that in
    which the client has reconnected, and every session stays as it was. *)
Theorem dead_connection_shadows os n sts n1 i k x fd q errs :
  assignments_readable -> dependable cos fuel m -> booted cos efd fuel n ->
  Forall (valid_op (length (gateways n))) os -> net_run cos efd fuel os n = Done sts n1 ->
  session_of n1 i k = Some x -> peer x = Served fd -> alive x = false ->
  for_interface q (srv n1) -> routed q fd (srv n1) ->
  let l := read (tun_file (srv n1)) :: log (srv n1) in
  wp (net_run cos efd fuel (((fun '(err, hup) => ErrorEvent i k err hup) <$> errs) ++ [FromInternet [q]])) n1
    (fun _ n2 => sigpipe l fd q = false /\ (exists bytes, bytes `prefix_of` q /\
        session_of n2 i k = Some (Session (Served fd) false (up x) (down x) (got x) (replied x ++ bytes))) /\
      forall j l, ~ (j = i /\ l = k) -> session_of n2 j l = session_of n1 j l)
    (fun n2 => sigpipe l fd q = true /\ log (srv n2) = write fd q :: l).
Proof.
  intros Hfile [Hreach Hfuel] Hb Hos E Hx Hp Ha Hq Hr lg.
  assert (forall i, Client.apart (H:=cos i)) as Hapart by (intros j; apply (Hreach j)).
  destruct (wp_Done _ _ _ _ _ _ (broken_run_ok cos efd fuel m os n Hfile Hreach Hfuel (net_start_ok _ _ _ _ Hapart Hb) Hos) E)
    as (_ & Hn1 & _).
  apply net_run_app. eapply wp_mono; [by apply wp_errors| |done]. intros _ n' (Hn' & Es & Ess).
  cbn [net_run]. apply wp_bind. eapply wp_mono;
    [apply (step_forward cos efd fuel i k x fd q n' Hn'); by rewrite ?Ess, ?Es| |by rewrite Es].
  rewrite Es. intros st n2 (Hsig & bytes & Hbytes & Hu). apply wp_bind, wp_ret, wp_ret. split; [done|]. split.
  - exists bytes. split; [done|]. rewrite (updates_session _ _ _ _ _ Hu), Ess, Hx. unfold at_session.
    rewrite decide_True by done. cbn. unfold replied_to. by rewrite Ha, Hp.
  - intros j l Hne. rewrite (updates_session _ _ _ _ _ Hu), Ess. unfold at_session.
    rewrite decide_False by done. unfold id. apply option_fmap_id.
Qed.

End theorems.

(** ** Witnesses *)

Import TunnelLink(gateway_os, server_os, hello, welcome).

(** The connection breaks after one packet; the client reconnects, the server
    accepts, and the client's next packet arrives. *)
Definition break_ops : list op :=
  [Shuttle 0 0 None (Some hello); Accept 0 0 8; ToServer 0 0 [4096%nat] Drained; Break 0 0 0 0].
Definition shadow_ops : list op :=
  break_ops ++ [Shuttle 0 0 (Some true) None; Accept 0 1 9; Shuttle 0 0 None (Some hello);
    ToServer 0 1 [4096%nat] Drained].

Definition broken_net : net := if demo_run break_ops demo_net is Done _ n then n else demo_net.
Definition shadow_net : net := if demo_run shadow_ops demo_net is Done _ n then n else demo_net.

Lemma broken_run : demo_run break_ops demo_net = Done (replicate 4 Client.Continue) broken_net.
Proof. vm_compute. reflexivity. Qed.

Lemma shadow_run : demo_run shadow_ops demo_net = Done (replicate 8 Client.Continue) shadow_net.
Proof. vm_compute. reflexivity. Qed.

Definition dead_session : session := Session (Served 8) false [] [] [hello] [].
Definition live_session : session := Session (Served 9) true [] [] [hello] [].

Lemma shadow_sessions :
  session_of shadow_net 0 0 = Some dead_session /\ session_of shadow_net 0 1 = Some live_session.
Proof. vm_compute. by split. Qed.

Lemma shadow_routed : routed welcome 8 (srv shadow_net).
Proof.
  assert (exists e, prefixes (srv shadow_net) = replicate 8 zero_prefix ++ e /\
    exists e0, e !! 0%nat = Some e0 /\ has_interface (daddr welcome) e0) as (e & E & e0 & He & Hhas).
  { eexists. split; [vm_compute; reflexivity|]. eexists. split; [reflexivity|]. unfold has_interface. vm_decide. }
  unfold routed. rewrite E. split.
  - exists e0. split; [|done]. by rewrite lookup_app_r.
  - intros j p Hj. rewrite lookup_app_l by done. intros [-> _]%lookup_replicate [Hne _]. by apply Hne.
Qed.

Lemma shadow_valid : Forall (valid_op (length (gateways demo_net))) shadow_ops.
Proof. vm_decide. Qed.
Lemma broken_valid : Forall (valid_op (length (gateways demo_net))) break_ops.
Proof. vm_decide. Qed.

Lemma shadow_interface : for_interface welcome (srv shadow_net).
Proof. unfold for_interface. vm_decide. Qed.

Lemma server_os_accepting : accepting (H:=server_os).
Proof. by intros l []. Qed.

(** A server's system on which writes to descriptor 8 raise SIGPIPE. *)
Definition reset_os : Os := {|
  libc := @libc server_os;
  ret := @ret server_os;
  O_NONBLOCK := 2048;
  sigpipe _ fd _ := fd =? 8;
  addrinfos := @addrinfos server_os;
  client_assignments := @client_assignments server_os;
  stack := @stack server_os;
|}.

Lemma reset_booted : booted (fun _ => gateway_os) (H:=reset_os) 7 1 demo_net.
Proof.
  destruct broken_demo_booted as [_ Hl Hg]. split; [|exact Hl|exact Hg].
  exists demo_argv, unstarted. split_and!; [reflexivity|reflexivity|vm_compute; reflexivity].
Qed.

Lemma reset_run :
  net_run (fun _ => gateway_os) (H:=reset_os) 7 1 shadow_ops demo_net = Done (replicate 8 Client.Continue) shadow_net.
Proof. vm_compute. reflexivity. Qed.

Definition reply_ops : list op := [ErrorEvent 0 0 false true; FromInternet [welcome]].

(** The packet is lost, or the server is killed. *)
Lemma dead_connection_shadows_witness :
  (exists sts n2, demo_run reply_ops shadow_net = Done sts n2 /\ session_of n2 0 1 = Some live_session) /\
  exists n2, net_run (fun _ => gateway_os) (H:=reset_os) 7 1 reply_ops shadow_net = Halt n2 /\
    head (log (srv n2)) = Some (write 8 welcome).
Proof.
  destruct shadow_sessions as [Hdead Hlive]. split.
  - destruct (wp_run _ _ _ _ (dead_connection_shadows (fun _ => gateway_os) (H:=server_os) 7 1 0 shadow_ops demo_net
      _ _ 0 0 dead_session 8 welcome [(false, true)] (fit_readable TunnelLink.server_os_fit) demo_dependable broken_demo_booted
      shadow_valid shadow_run Hdead eq_refl eq_refl shadow_interface shadow_routed) ltac:(vm_compute; reflexivity))
      as (sts & n2 & E & _ & _ & Hothers).
    exists sts, n2. split; [exact E|]. rewrite (Hothers 0%nat 1%nat); [exact Hlive|]. by intros [_ ?].
  - destruct (wp_stop _ _ _ _ (dead_connection_shadows (fun _ => gateway_os) (H:=reset_os) 7 1 0 shadow_ops demo_net
      _ _ 0 0 dead_session 8 welcome [(false, true)] (fit_readable TunnelLink.server_os_fit) demo_dependable reset_booted
      shadow_valid reset_run Hdead eq_refl eq_refl shadow_interface shadow_routed) ltac:(vm_compute; reflexivity))
      as (n2 & E & _ & El).
    exists n2. split; [exact E|]. by rewrite El.
Defined.

End TunnelRecovery.
