(* ===== verification/Eeprom.v ===== *)
(** * The EEPROM image of the cape

    Models [src/software/utility/eepromflasher.c]: the image that identifies the
    cape to the BeagleBone, with the serial number that is typed in, and the
    configuration of the 23 pins the cape uses. *)
From S2P Require Import Prelude CLib.

Module Eeprom.

(** ** Data *)

Definition sizeEEPROM : nat := 244.

(** Where the two bytes of a pin are, for the connectors P8 and P9. *)
Definition eepromIndex : list (list Z) :=
  [[-1; -1; 140; 142; 132; 134; 170; 176; 172; 174; 146; 144; 118; 120;
    150; 148; 122; 168; 116; 166; 164; 138; 136; 130; 128; 162; 202; 206;
    204; 208; 102; 104; 100; 200; 98; 198; 194; 196; 190; 192; 186; 188;
    182; 184; 178; 180];
   [-1; -1; -1; -1; -1; -1; -1; -1; -1; -1; 124; 160; 126; 156; 152; 158;
    94; 92; 106; 108; 90; 88; 154; 112; 220; 110; 216; 214; 210; 212; 218;
    -1; 230; -1; 234; 232; 226; 228; 222; 224; 114; 96; -1; -1; -1; -1]].

Definition numPin : nat := 23.
Definition connector : list Z :=
  [9; 9; 9; 9; 9; 9; 9; 9; 9; 9; 9; 9; 9; 8; 8; 8; 8; 8; 8; 8; 8; 8; 8].
Definition pin : list Z :=
  [14; 23; 27; 12; 15; 11; 16; 24; 26; 17; 18; 21; 22; 15; 13; 16; 26; 14; 11; 12; 19; 17; 18].
Definition upper : list Z :=
  [0xa0; 0xa0; 0xa0; 0xc0; 0xa0; 0xa0; 0xa0; 0xa0; 0xc0; 0xa0; 0xc0; 0xa0; 0xc0; 0xa0; 0xc0;
   0xc0; 0xa0; 0xa0; 0xc0; 0xc0; 0xc0; 0xc0; 0xc0].
(** The initialiser of [lower], and the array of 23 it initialises: C fills the
    elements without an initialiser with zero. *)
Definition lower_initialiser : list Z :=
  [0x2f; 0x2f; 0x2f; 0x17; 0x2f; 0x2f; 0x2f; 0x2f; 0x17; 0x2f; 0x17; 0x2f; 0x20; 0x20; 0x10;
   0x10; 0x30; 0x17; 0x17; 0x17; 0x17; 0x17].
Definition lower : list Z := lower_initialiser ++ replicate (23 - length lower_initialiser) 0.

(** ** Operations *)

(** [eeprom[i] = v], for an [int] index. *)
Definition set_byte (i v : Z) (img : list Z) : option (list Z) :=
  if i <? 0 then None else store_at img (Z.to_nat i) (u8 v).

(** [for (index=0; index<strnum; index++) eeprom[off+index] = buffer[index]] *)
Fixpoint set_bytes (off : Z) (s : list Z) (img : list Z) : option (list Z) :=
  match s with
  | [] => Some img
  | c :: s => img ← set_byte off c img; set_bytes (off + 1) s img
  end.

(** A string cut at [max] characters. *)
Definition set_field (off : Z) (max : nat) (s : list Z) : list Z -> option (list Z) :=
  set_bytes off (take max s).

(** A current, most significant byte first. *)
Definition set_current (off currentnum : Z) (img : list Z) : option (list Z) :=
  img ← set_byte off (Z.shiftr currentnum 8) img;
  set_byte (off + 1) (Z.land currentnum 0xff) img.

(** [eepromIndex[connector[i]-8][pin[i]-1]] *)
Definition pin_index (i : nat) : option Z :=
  c ← connector !! i;
  p ← pin !! i;
  row ← (if c - 8 <? 0 then None else eepromIndex !! Z.to_nat (c - 8));
  if p - 1 <? 0 then None else row !! Z.to_nat (p - 1).

(** The loop over the pins. *)
Fixpoint set_pins (n i : nat) (img : list Z) : option (list Z) :=
  match n with
  | O => Some img
  | S n =>
      off ← pin_index i;
      u ← upper !! i;
      img ← set_byte off u img;
      l ← lower !! i;
      img ← set_byte (off + 1) l img;
      set_pins n (S i) img
  end.

(** [main] up to [gets]. *)
Definition eeprom_head : option (list Z) :=
  let img := replicate (sizeEEPROM + 100) 0 in
  img ← set_bytes 0 [0xaa; 0x55; 0x33; 0xee; 0x41; 0x30] img;
  img ← set_field 6 32 (text "GAP Cape") img;
  img ← set_field 38 4 (text "00A0") img;
  img ← set_field 42 16 (text "Lab11, N.Jackson") img;
  set_field 58 16 (text "BB-GAP") img.

(** [gets(buffer)] and [strlen(buffer)]: a line of 100 characters or more does
    not fit. *)
Definition gets_string (line : list Z) : option (list Z) :=
  if decide (length line < 100)%nat then Some (cstring (line ++ [0])) else None.

(** The rest of [main], up to the file. *)
Definition eeprom_tail (img : list Z) : option (list Z) :=
  img ← set_current 236 250 img;
  img ← set_current 238 0 img;
  img ← set_current 240 0 img;
  img ← set_current 242 0 img;
  img ← set_byte 75 (Z.of_nat numPin) img;
  set_pins numPin 0 img.

(** What [main] writes to the file, for the line that is typed in. *)
Definition eeprom_file (line : list Z) : option (list Z) :=
  img ← eeprom_head;
  serial ← gets_string line;
  img ← set_field 76 12 serial img;
  img ← eeprom_tail img;
  Some (take sizeEEPROM img).

(** ** The string fields *)

(** [pad n s]: the string [s], cut or filled with zeros to [n] bytes. *)
Definition pad (n : nat) (s : list Z) : list Z :=
  map u8 (take n s) ++ replicate (n - length (take n s)) 0.

Lemma pad_length n s : length (pad n s) = n.
Proof.
  unfold pad. rewrite length_app, length_map, length_replicate, length_take. lia.
Qed.

Lemma set_bytes_ok off s pre old post :
  off = Z.of_nat (length pre) -> length old = length s ->
  set_bytes off s (pre ++ old ++ post) = Some (pre ++ map u8 s ++ post).
Proof.
  revert off pre old. induction s as [|c s IH]; intros off pre old Hoff Hlen.
  { by destruct old. }
  destruct old as [|o old]; [done|]. injection Hlen as Hlen. cbn [set_bytes map].
  unfold set_byte. rewrite (proj2 (Z.ltb_ge _ _)) by lia. simpl.
  rewrite store_middle by lia. simpl.
  rewrite (cons_middle _ pre), (cons_middle _ pre (_ ++ _)), !(assoc_L (++) pre).
  apply IH; [rewrite length_app; simpl; lia|done].
Qed.

(** A field of zeros receives the string, cut at the length of the field. *)
Lemma set_field_ok off n s pre post :
  off = Z.of_nat (length pre) ->
  set_field off n s (pre ++ replicate n 0 ++ post) = Some (pre ++ pad n s ++ post).
Proof.
  intros. unfold set_field, pad. set (k := length (take n s)).
  assert (k <= n)%nat by (subst k; rewrite length_take; lia).
  replace (replicate n 0) with (replicate k 0 ++ replicate (n - k) 0)
    by (rewrite <- replicate_add; f_equal; lia).
  rewrite <- !(assoc_L (++)). apply set_bytes_ok; [done|by rewrite length_replicate].
Qed.

(** ** The image *)

(** The image without a serial number, before and after the tail of [main]. *)
Definition head_image : list Z := Eval vm_compute in default [] eeprom_head.
Definition blank_image : list Z := Eval vm_compute in default [] (eeprom_file []).

Lemma eeprom_head_image :
  eeprom_head = Some (take 76 head_image ++ replicate 12 0 ++ drop 88 head_image).
Proof. vm_compute. reflexivity. Qed.

(** [with_serial s]: the image with the twelve bytes [s] in the serial field. *)
Definition with_serial (s : list Z) : list Z :=
  take 76 blank_image ++ s ++ drop 88 blank_image.

Lemma eeprom_tail_image s :
  length s = 12%nat ->
  (img ← eeprom_tail (take 76 head_image ++ s ++ drop 88 head_image);
   Some (take sizeEEPROM img)) = Some (with_serial s).
Proof.
  intros H. do 12 (destruct s as [|? s]; [done|]). destruct s; [|done].
  vm_compute. reflexivity.
Qed.

Lemma eeprom_file_ok line :
  (length line < 100)%nat ->
  eeprom_file line = Some (with_serial (pad 12 (cstring (line ++ [0])))).
Proof.
  intros H. unfold eeprom_file, gets_string. rewrite eeprom_head_image.
  rewrite decide_True by done. cbn [mbind option_bind].
  rewrite set_field_ok by reflexivity. cbn [mbind option_bind].
  apply eeprom_tail_image, pad_length.
Qed.

(** The bytes outside the serial field do not depend on it. *)
Lemma with_serial_lookup s j :
  length s = 12%nat -> (j < 76 \/ 88 <= j)%nat ->
  with_serial s !! j = blank_image !! j.
Proof.
  intros H [Hj|Hj]; unfold with_serial.
  - rewrite lookup_app_l by (rewrite length_take; change (length blank_image) with 244%nat; lia).
    by rewrite lookup_take_lt.
  - rewrite !lookup_app_r by (rewrite length_take; change (length blank_image) with 244%nat; lia).
    rewrite length_take, lookup_drop, H. change (length blank_image) with 244%nat. f_equal. lia.
Qed.

(** [slot i j]: byte [j] of the image configures pin [i]. *)
Definition slot (i j : nat) : bool :=
  match pin_index i with
  | Some off => (Z.of_nat j =? off) || (Z.of_nat j =? off + 1)
  | None => false
  end.
Definition pins : list nat := seq 0 numPin.

(** The configuration bytes of the blank image, pin by pin and byte by byte. *)
Lemma blank_pins :
  forallb (fun i => match pin_index i, upper !! i, lower !! i with
    | Some off, Some u, Some l =>
        (88 <=? off) && (off <? 235) &&
        bool_decide (blank_image !! Z.to_nat off = Some u) &&
        bool_decide (blank_image !! Z.to_nat (off + 1) = Some l)
    | _, _, _ => false end) pins = true.
Proof. vm_compute. reflexivity. Qed.

Lemma blank_rest :
  forallb (fun j => existsb (fun i => slot i j) pins ||
                    bool_decide (blank_image !! j = Some 0)) (seq 88 148) = true.
Proof. vm_compute. reflexivity. Qed.

Lemma pin_configured i :
  (i < numPin)%nat ->
  exists off u l, pin_index i = Some off /\ upper !! i = Some u /\ lower !! i = Some l /\
    88 <= off < 235 /\ blank_image !! Z.to_nat off = Some u /\
    blank_image !! Z.to_nat (off + 1) = Some l.
Proof.
  intros Hi. pose proof (proj1 (forallb_forall _ _) blank_pins i) as H.
  cbv beta in H. ospecialize* H; [apply in_seq; lia|].
  destruct (pin_index i) as [off|], (upper !! i) as [u|], (lower !! i) as [l|]; try done.
  rewrite !andb_true_iff, !bool_decide_eq_true in H.
  destruct H as [[[Hl%Z.leb_le Hu%Z.ltb_lt] H1] H2].
  by exists off, u, l.
Qed.

Lemma unused_byte j :
  (88 <= j < 236)%nat -> (forall i, (i < numPin)%nat -> slot i j = false) ->
  blank_image !! j = Some 0.
Proof.
  intros Hj Hfree. pose proof (proj1 (forallb_forall _ _) blank_rest j) as H.
  cbv beta in H. ospecialize* H; [apply in_seq; lia|].
  apply orb_true_iff in H as [(i&Hin%in_seq&Hs)%existsb_exists|H%bool_decide_eq_true]; [|done].
  rewrite Hfree in Hs; [done|lia].
Qed.

(** C32: The image [main] of [eepromflasher.c] writes. A serial number of 100
    characters or more overruns the buffer of [gets]; any shorter one gives the
    244 bytes of the format: the header and revision, the name, version,
    manufacturer and part number in their fields, the number of pins, the serial
    number cut or filled with zeros to twelve bytes, the four currents, and the
    two configuration bytes of each of the 23 pins at the place of its
    connector and number, where nothing else is written: the bytes of the other
    pins are zero. The initialiser of [lower] is one short, so the last pin,
    P8_18, gets the lower byte 0. *)
Theorem eeprom_file_spec line :
  ((100 <= length line)%nat -> eeprom_file line = None) /\
  ((length line < 100)%nat -> exists img,
    eeprom_file line = Some img /\ length img = 244%nat /\
    take 76 img = [0xaa; 0x55; 0x33; 0xee; 0x41; 0x30] ++ pad 32 (text "GAP Cape") ++
      pad 4 (text "00A0") ++ pad 16 (text "Lab11, N.Jackson") ++
      pad 17 (text "BB-GAP") ++ [Z.of_nat numPin] /\
    take 12 (drop 76 img) = pad 12 (cstring (line ++ [0])) /\
    (forall i, (i < numPin)%nat -> exists off u l,
      pin_index i = Some off /\ upper !! i = Some u /\ lower !! i = Some l /\
      88 <= off < 235 /\ img !! Z.to_nat off = Some u /\
      img !! Z.to_nat (off + 1) = Some l) /\
    (forall j, (88 <= j < 236)%nat ->
      (forall i, (i < numPin)%nat -> slot i j = false) -> img !! j = Some 0) /\
    drop 236 img = [0; 250; 0; 0; 0; 0; 0; 0] /\
    img !! 168%nat = Some 0xc0 /\ img !! 169%nat = Some 0).
Proof.
  split.
  - intros H. unfold eeprom_file, gets_string. rewrite eeprom_head_image.
    cbn [mbind option_bind]. by rewrite decide_False by lia.
  - intros H. exists (with_serial (pad 12 (cstring (line ++ [0])))).
    rewrite eeprom_file_ok by done.
    set (s := pad 12 _). assert (Hs : length s = 12%nat) by apply pad_length.
    assert (Ht : drop 236 (with_serial s) = drop 236 blank_image).
    { apply list_eq. intros k. rewrite !lookup_drop. apply with_serial_lookup; [done|lia]. }
    split_and!; [done| | | | | | | |].
    + unfold with_serial. rewrite !length_app, Hs. reflexivity.
    + unfold with_serial. rewrite take_app_le by (vm_compute; lia). vm_compute. reflexivity.
    + unfold with_serial. rewrite drop_app_length' by reflexivity.
      by rewrite take_app_length' by done.
    + intros i (off&u&l&?&?&?&?&?&?)%pin_configured. exists off, u, l.
      rewrite !with_serial_lookup by (done || lia). done.
    + intros j Hj Hfree. rewrite with_serial_lookup by (done || lia). by apply unused_byte.
    + rewrite Ht. reflexivity.
    + rewrite with_serial_lookup by (done || lia). reflexivity.
    + rewrite with_serial_lookup by (done || lia). reflexivity.
Qed.

Lemma eeprom_file_spec_witness :
  (length (text "0000GAP00001extra") < 100)%nat /\
  exists img, eeprom_file (text "0000GAP00001extra") = Some img /\
    take 12 (drop 76 img) = text "0000GAP00001".
Proof.
  assert (H : (length (text "0000GAP00001extra") < 100)%nat) by (vm_compute; lia).
  split; [exact H|].
  destruct (proj2 (eeprom_file_spec (text "0000GAP00001extra")) H) as (img&E&_&_&Hs&_).
  exists img. split; [exact E|]. rewrite Hs. vm_compute. reflexivity.
Defined.
End Eeprom.
